(* ===== verification/_CoqProject ===== *)
-Q . S2P
Prelude.v
Tools.v
Strings.v
MultiMap.v
Memory.v
Notification.v
NotificationQueue.v
Condition.v
State.v
Association.v
Socket.v
SocketIO.v
SocketOps.v
SocketLife.v
SocketAssoc.v
SocketMaster.v
InternetAddress.v
SocketAddress.v
Descriptors.v
WrapperSockets.v
WrapperIO.v
WrapperOptions.v
WrapperSelect.v
Runs.v
WellFormed.v
Demo.v
CppSocket.v
Timer.v
TimedThread.v
BreakDetector.v
SocketMessage.v
Synchronizable.v
TimerRuns.v
Threads.v
Network.v
Tftp.v
TftpRuns.v
ServerSet.v
Servers.v
ApiDemo.v
MasterLife.v
StreamTimeouts.v
LockDiscipline.v
AutoClose.v
Callbacks.v
Receiving.v
Sending.v
Accepting.v
Construction.v
MemorySafety.v
ApiTable.v
ApiMessages.v
Addresses.v
AddressText.v
Checksum.v
SelectConditions.v
SelectRuns.v
Terminal.v
PortScanner.v
Randomizer.v
Arguments.v
Setup.v
TestPrograms.v
