(* ===== verification/Prelude.v ===== *)
(** * Socket-API: a verification development of the user-space SCTP socket library

    The program offers SCTP sockets on top of sctplib, a
    user-space implementation of the protocol.  sctplib reports events by
    callbacks; the library turns them into notifications, queues them at
    sockets and associations, wakes the threads that wait for them, and
    translates calls of the user into calls of sctplib.  Everything below the
    wrapper of file descriptors runs under one recursive mutex.  The wrapper
    offers these sockets as the calls of the socket API on file descriptors of
    its own, beside the sockets of the system (all in src/socketapi); a C++
    class of sockets and timer threads stand above it (src/cppsocketapi).

    ** Parts of the program and files of the development

    - [Prelude]: fixed-width integers, flags, the result type [Res] of an
      operation (a value and a state, or the fault that stops it), the state
      monad and [wp], its weakest precondition over results and faults.
    - [MultiMap]: [std::multimap]; [Memory]: byte memory.
    - [Notification] (ext_socket.h, sctpnotificationqueue.h): the union
      [sctp_notification] as the bytes of the C structures.
    - [NotificationQueue] (sctpnotificationqueue.cc): the linked list on a
      heap, its specification [Spec] as a list, and the refinement.  The layers
      above use [Spec], as the refinement allows.
    - [Condition] (condition.cc): condition variables with a sticky flag and
      parents.
    - [State]: the members of [SCTPAssociation], [SCTPSocket] and the static
      members of [SCTPSocketMaster], all objects in maps from addresses; the
      interface to sctplib and the operating system, the class [Platform] (its
      operations act on an abstract world [W] and may return callbacks to be
      run); the interface of addresses, [SocketAddressI]; the library mutex
      ([lock], [unlock]: level and cancel state); access to a deleted object is
      the fault [UseAfterFree].
    - [Association] (sctpassociation.cc), [Socket], [SocketIO], [SocketOps],
      [SocketLife], [SocketAssoc] (sctpsocket.cc, sctpsocket.icc), one
      definition per method, under the method's name; a prefix [sock_] or
      [assoc_] tells methods of the same name apart.
    - [SocketMaster] (sctpsocketmaster.cc): the callbacks of sctplib, one
      definition each, [handle] with the table of callbacks, and [dispatch],
      which ties the knot: operations that make sctplib call back take the
      dispatch of the callbacks as the argument [deliver].
    - [Tools] (tools.icc, tools.cc): byte orders, the sorting of arrays and the
      removal of duplicates; [Strings] (tdstrings.cc): the class String on the
      characters of the C string, unset or not.
    - [InternetAddress] (internetaddress.cc, internetflow.cc,
      portableaddress.icc) and [SocketAddress] (unixaddress.cc,
      socketaddress.cc): addresses, their text and their [sockaddr] bytes; the
      resolver and the interfaces of the host are the class [Resolver].
      [SocketAddress.socket_addresses] implements the interface
      [SocketAddressI] of the socket layer.
    - [Descriptors] (extsocketdescriptor.h, the table of
      sctpsocketwrapper.cc): the table of file descriptors, errno, and the
      state [Api] of the wrapper: the state of the library beside that of the
      system.  [WrapperSockets]: creation, closing, binding, listening,
      accepting, connecting, peeling off, addresses, fcntl; [WrapperIO]:
      messages with their control data, reading and writing;
      [WrapperOptions]: socket options; [WrapperSelect]: select and poll.
    - [CppSocket] (tdsocket.cc, tdsocket.icc): the C++ class Socket over the
      wrapper.  [Timer] (multitimerthread.icc), [TimedThread]
      (timedthread.icc), [BreakDetector] (breakdetector.cc).
    - [SocketMessage] (tdmessage.icc): messages with control headers;
      [Synchronizable] (synchronizable.icc): the recursive mutex where the
      system has none, as a step relation, and its specification.
    - [Threads] (thread.cc): the handshake of [start] and [go], concurrent
      calls of [stop], and [delay].  [MasterLife] (sctpsocketmaster.cc): the
      constructor and the destructor of the socket master, its event thread
      [run], the library parameters and the break pipe.
    - [Network]: programs as interaction trees over the calls of their
      sockets, and two of them joined by an association.  [Tftp] (sctptftp.h,
      sctptftp.cc, sctpmultiserver.cc): client and server of the file
      transfer.  [ServerSet] (sctpmultiserver.cc): the threads of the
      multi-server and how its main program deletes their objects.
      [Servers] (sctpmultiserver.cc): the echo and discard server, the
      character generator, and the choice of the server.
    - [Arguments]: the command lines of the four programs that are built
      (sctpmultiserver.cc, sctpterminal.cc, sctpportscanner.cc, sctptftp.cc), an
      option loop as a list of rules tried in their order; limits, checks and
      the settings they print.  [Setup]: what these programs do with their
      sockets before their loops, over [CppSocket]; the daytime server; the own
      address towards a peer (getLocalAddress of socketaddress.cc and
      internetaddress.cc); the end of the table of descriptors.
    - [Terminal] (sctpterminal.cc, sctpinfoprinter.cc), [PortScanner]
      (sctpportscanner.cc): the loops of these programs as functions of what
      the calls of their sockets, the console and the clock return.
      [TestPrograms] (sctptest.cc, sctpsockettest.cc): command lines, echo
      servers with their buffers, clients.
    - [Randomizer] (randomizer.cc, randomizer.icc, tools.cc, tools.icc): random
      numbers, and the functions that calculate with [double].
    - [SelectConditions]: the graph of conditions while a call of select watches
      some of them.  [SelectRuns]: what the call reports.
    - [Demo], [ApiDemo]: a concrete platform for examples and witnesses.

    How they interact: a callback finds the socket through
    [getSocketForAssociationID], builds a notification
    ([initNotification]) and hands it to [addNotification], which appends it to
    the queue of the socket or of the association and fires the update
    condition; a receive call ([internalReceive]) takes it from there.  Ended
    associations are removed by [checkAutoClose], which may make sctplib call
    back again, which may call [checkAutoClose] again.  An association whose
    shutdown has not completed when its object is deleted is kept by number in
    [ClosingAssociations]; instances of sockets that are gone wait in
    [ClosingSockets] for the last of their associations.

    A call of the wrapper looks its descriptor up: an entry of the table is
    free, a socket of the system, or a socket or association of the library.
    Calls on sockets of the system go to the system, the others to the methods
    of the library ([lift]).  [sctp_send] and [sctp_recvmsg] go through
    [ext_sendmsg] and [ext_recvmsg] as in the code, with the parameters of the
    message as control data.  select and poll collect the conditions of the
    descriptors, make a new condition their parent, and wait on it.

    What the code reads before it is set is an argument of the model or a member
    of the class [Platform] with any value ([indeterminate_Fired] and its like):
    the flag of a condition whose constructor links a parent, three members of
    an association, the buffers of the echo servers, the names in addresses.

    ** Threads and waiting

    A thread runs alone between the moment it takes the lock and the moment it
    waits or leaves.  An operation that waits takes a schedule: a list of what
    the other threads do during each of its waits, as programs of the same
    monad.  With no entry left, the wait is for ever ([WouldBlock]).  The flag
    [Fired] and the lock are part of the state, so wake-ups lost or events seen
    twice would show.  Other threads act on the state of the library; they do
    not use the table of descriptors while a call of the wrapper waits.  In
    [Timer] the argument of a round is what other threads do while the thread
    sleeps.

    Where threads meet without the lock, the model is a relation or a list of
    steps, and the theorems are about every interleaving: [Synchronizable],
    [Threads], [ServerSet].  The two programs of [Network] exchange messages
    through queues; the association delivers them reliably and in order, as
    SCTP does on one stream, and its steps commute, so that all runs end in the
    same state if one does.

    ** The theorems

    - Notification queue ([NotificationQueue]): every sequence of operations on
      the linked list gives the results of the list specification, without use
      of freed memory and without leak; getNotification leaves the head in it.
    - Conditions ([Condition]): broadcast fires exactly the ancestors, no event
      is lost when a parent is added, the results of timed waits for every
      behaviour of the kernel, the normalised absolute time-out.
    - The library mutex ([LockDiscipline]): callbacks and operations leave its
      level as it was, on every path; the exceptions are proved to be such.
    - Memory safety: [AutoClose] for iterators, without assumption on sctplib;
      [WellFormed] is the invariant of the pointers between objects, lists and
      conditions; [Construction] establishes it, [MemorySafety] shows that
      every callback, with all that it triggers, keeps it and has no fault.
    - Notifications ([Callbacks]): where a notification goes and whom it wakes.
    - [Receiving], [Sending], [Accepting]: the results of the blocking
      operations on every path, and that they wake up; what the data callback
      reports is what the next receive call returns; messages are reassembled,
      and packets queued before establishment are sent, in order, unless the
      queue of sctplib is full: then the callback waits for a condition that only
      another callback can fire, for ever.
    - [StreamTimeouts]: the array of stream time-outs is a map of streams.
    - The table of descriptors ([ApiTable]): a call on one descriptor leaves
      the others as they are; every entry keeps the members that belong to its
      type; a new descriptor is the first free one; accept with a full table.
    - Messages of the API ([ApiMessages]): packed addresses, the parameters of
      sctp_send and the information of sctp_recvmsg pass the control data
      unchanged; the end of a record is not noticed with several buffers.
    - [Tools]: quickSort terminates and sorts.  [Addresses], [AddressText]:
      addresses survive the way through [sockaddr], but for :: in AF_INET, and
      their text tells them apart.  [Checksum]: the Internet checksum; the order of addresses.
    - [TimerRuns]: rounds of a timer thread, and the call limit.
      [BreakDetector]: when an interrupt kills the process.
    - [Synchronizable]: every interleaving of the threads is a run of the
      recursive mutex of the system.  [SocketMessage]: a message keeps only the
      last control header.
    - [Threads]: starting a thread is safe and ends in every interleaving, if
      no wait ends by itself.  [MasterLife]: the destructor of the socket
      master ends, and which calls of sctplib and of the system it has made.
    - [TftpRuns]: every run of a download or an upload ends, with the file at
      the other side; what the server makes of a notification and of a name
      that is too long.  [ServerSet]: server objects are deleted once and
      after their threads, and a garbage collection ends; shutdown may not.
      [Servers]: the echo server returns the data messages it receives, in
      order, and the text it prints ends inside its buffer.
    - select ([SelectRuns]): for descriptors of SCTP, exactly those are reported
      whose conditions have an event when the wait ends, the count is right, and
      the conditions are left as they were, for every behaviour of the other
      threads.
    - The programs: [Setup]: starting them leaves all other descriptors alone,
      also when a step fails.  [Arguments]: the arrays of addresses are not
      overrun, settings are within their limits, and what is written on a command
      line is read back.  [Terminal]: a line that fits the buffer of fgets, typed
      on one side, is shown on the other; a longer one is split.  [PortScanner]:
      every port of the range is tried once and gets a verdict, and the scan
      ends.  [TestPrograms]: the echo is exact if and only if no message is
      shorter than the one before it and the uninitialised buffer has a zero
      behind each.
      [Randomizer]: random numbers lie in their interval; the low byte repeats
      after 256 calls.

    ** Fuel

    Loops that walk a list an iteration of which may change are bounded by
    fuel computed from the state; running out is the fault [OutOfFuel].
    [send_fuel], [receive_fuel] and [accept_fuel] are twice the length of the
    schedule plus two: every second iteration waits.  [Condition.broadcast]
    needs the height of the parent graph: from the conditions of an
    association to those of its socket and on to the condition of a select
    call ([cond_fuel] is 4; the ranks of the condition kinds are 3 to 0,
    [cond_rank]).  The condition of a deleted object stays in the map of
    conditions, where nothing refers to it.  [unbind] removes one entry per
    iteration, its fuel is the length of the list.  A pass of
    [autoclose_loop] that asks for another one has run a callback; an
    association is shut down at most once and removed at most once, so two
    passes for each association and two more are enough.
    Loops over arrays ([Tools]) have the length of the array as fuel, and
    [quickSort_sorts] shows that it is enough; numbers are printed with at most
    64 digits; the groups of an IPv6 address are eight.  [correction_loop] of
    [Timer] has the number of clock readings to come, of which each iteration
    takes one.
    The loops of [socketGarbageCollection] follow the live iterators of its
    lists; their fuel is the length of the list, which no callback extends while
    they run.
    [abort_associations] of [MasterLife] has the number of closing
    associations; [explore] of [Threads] more rounds than a run has steps, and
    its result is checked to be closed.  Programs of [Network] are interaction
    trees and need no fuel.
    [control_text] of [Terminal] has as many steps as headers fit in the control data
    ([printControl_total]); [copy_lines] one more than the characters of the
    input ([copy_run_ends]); [scan_loop] of [PortScanner] takes one entry of its
    list of rounds per round.
    [dispatch] is bounded by the depth of nested callbacks, an argument of
    every theorem that uses it.

    ** Assumptions on sctplib

    Each theorem names what it assumes.  [sctplib_closes_only]
    ([MemorySafety]): [sctp_abort] and [sctp_shutdown] call back only to report
    the end of associations.  [fresh_announcement]: a new association is
    announced under a number not in use.  [MasterLife]: [sctp_abort] reports
    the lost association before it returns, and the deletion of an association
    or of an instance succeeds.  [Demo]
    satisfies them.  [PortScanner]: the times of a round lie between those of its
    neighbours, a positive result of [ext_select] names an open socket, and any
    other comes after its 250 ms.  [TftpRuns]: there is room on the disk of the receiver,
    which may write the file.

    ** What is not modelled

    - The branches for sctplib versions other than 1.3.0 and the kernel SCTP
      wrapper; logging; what pthreads do inside, beyond the steps of the models.
    - sctp_freepaddrs and sctp_freeladdrs, which release memory;
      socketAPIGetVersion.
    - checkIPv6, which asks the system whether it has IPv6: its result is a
      parameter ([UseIPv6]).
    - The set-up of the sockets of sctptest.cc and sctpsockettest.cc: its calls
      do not fit the headers of this repository, and no build file builds the
      two programs.
    - The C programs in src/socket_programs and src/socketapi (c1.c to c5.c,
      p1.c, t1.c, t2.c): they call the API and print. *)

From stdpp Require Export base gmap list fin_maps strings sorting.
From Stdlib Require Export ZArith Lia.

(** ** Machine integers

    The sources use the fixed-width types of [tdsystem.h]; a value of such a
    type is a [Z] and every operation that can leave the range wraps. *)

Definition wrap (w : Z) (x : Z) : Z := x mod 2 ^ w.
Abbreviation u8 := (wrap 8).
Abbreviation u16 := (wrap 16).
Abbreviation u32 := (wrap 32).
Abbreviation u64 := (wrap 64).

(** Two's complement reading of the low 32 bits, for [integer] and [int]. *)
Definition s32 (x : Z) : Z :=
  let y := u32 x in if decide (y < 2 ^ 31)%Z then y else (y - 2 ^ 32)%Z.

(** Likewise for [short]. *)
Definition s16 (x : Z) : Z :=
  let y := u16 x in if decide (y < 2 ^ 15)%Z then y else (y - 2 ^ 16)%Z.

(** [f & mask] used as a condition, [f |= mask] and [f &= ~mask]. *)
Definition has_flag (f mask : Z) : bool := negb (Z.land f mask =? 0)%Z.
Definition set_flag (f mask : Z) : Z := Z.lor f mask.
Definition clear_flag (f mask : Z) : Z := Z.ldiff f mask.

Section Flags.
Local Open Scope Z_scope.

Lemma has_flag_spec f k : 0 <= k -> has_flag f (2 ^ k) = Z.testbit f k.
Proof.
  intros Hk. unfold has_flag.
  assert (Hland : Z.land f (2 ^ k) = if Z.testbit f k then 2 ^ k else 0).
  { apply Z.bits_inj'. intros n Hn. rewrite Z.land_spec, Z.pow2_bits_eqb by lia.
    destruct (Z.eqb_spec k n) as [->|Hne].
    - destruct (Z.testbit f n) eqn:E; rewrite ?Z.pow2_bits_true, ?Z.bits_0; auto.
    - rewrite andb_false_r. destruct (Z.testbit f k);
        rewrite ?Z.pow2_bits_false, ?Z.bits_0; auto. }
  rewrite Hland. destruct (Z.testbit f k).
  - pose proof (Z.pow_pos_nonneg 2 k ltac:(lia) Hk).
    destruct (Z.eqb_spec (2 ^ k) 0); [lia | reflexivity].
  - reflexivity.
Qed.

Lemma has_set_flag f k : 0 <= k -> has_flag (set_flag f (2 ^ k)) (2 ^ k) = true.
Proof.
  intros Hk. rewrite has_flag_spec by done. unfold set_flag.
  rewrite Z.lor_spec, Z.pow2_bits_true by done. apply orb_true_r.
Qed.

Lemma has_clear_flag f k : 0 <= k -> has_flag (clear_flag f (2 ^ k)) (2 ^ k) = false.
Proof.
  intros Hk. rewrite has_flag_spec by done. unfold clear_flag.
  rewrite Z.ldiff_spec, Z.pow2_bits_true by done. apply andb_false_r.
Qed.

Lemma has_set_flag_ne f k j :
  0 <= k -> 0 <= j -> j <> k ->
  has_flag (set_flag f (2 ^ j)) (2 ^ k) = has_flag f (2 ^ k).
Proof.
  intros. rewrite !has_flag_spec by done. unfold set_flag.
  rewrite Z.lor_spec, Z.pow2_bits_false by done. apply orb_false_r.
Qed.

Lemma has_clear_flag_ne f k j :
  0 <= k -> 0 <= j -> j <> k ->
  has_flag (clear_flag f (2 ^ j)) (2 ^ k) = has_flag f (2 ^ k).
Proof.
  intros. rewrite !has_flag_spec by done. unfold clear_flag.
  rewrite Z.ldiff_spec, Z.pow2_bits_false by done. apply andb_true_r.
Qed.
End Flags.

Section Widths.
Local Open Scope Z_scope.

Lemma wrap_range w x : 0 <= w -> 0 <= wrap w x < 2 ^ w.
Proof. intros. apply Z.mod_pos_bound, Z.pow_pos_nonneg; lia. Qed.

Lemma wrap_small w x : 0 <= x < 2 ^ w -> wrap w x = x.
Proof. apply Z.mod_small. Qed.

Lemma wrap_wrap w x : 0 <= w -> wrap w (wrap w x) = wrap w x.
Proof. intros. apply wrap_small, wrap_range; lia. Qed.

Lemma s32_small x : - 2 ^ 31 <= x < 2 ^ 31 -> s32 x = x.
Proof.
  intros Hx. unfold s32, wrap. change (2 ^ 32) with 4294967296.
  change (2 ^ 31) with 2147483648 in *.
  destruct (decide (0 <= x)).
  - rewrite Z.mod_small by lia. case_decide; lia.
  - replace (x mod 4294967296) with (x + 4294967296).
    + case_decide; lia.
    + apply (Z.mod_unique_pos _ _ (-1)); lia.
Qed.
End Widths.

(** ** Outcomes and the state monad

    A C++ operation either returns with a new state or stops: by the
    program's own [::abort()], by undefined behaviour (a dangling pointer or
    iterator, a read past the end of an array), by waiting for an event that
    never comes, or because the fuel of the definition is used up. *)

Inductive Fault : Set :=
| ProcessAbort        (* ::abort() is called *)
| UseAfterFree        (* a deleted object is used *)
| NullDereference     (* a NULL pointer is dereferenced *)
| OutOfBounds         (* an array is read past its end *)
| DanglingIterator    (* an iterator to an erased element is used *)
| WouldBlock          (* the calling thread waits for ever *)
| OutOfFuel.          (* the recursion bound of the definition is reached *)

#[export] Instance Fault_eq_dec : EqDecision Fault.
Proof. solve_decision. Defined.

Inductive Res (S A : Type) : Type :=
| Ret (a : A) (s : S)
| Stop (f : Fault).
Arguments Ret {S A} a s.
Arguments Stop {S A} f.

Definition M (S A : Type) : Type := S -> Res S A.

Section Monad.
Context {S : Type}.

Definition ret {A} (a : A) : M S A := fun s => Ret a s.
Definition bind {A B} (m : M S A) (k : A -> M S B) : M S B := fun s =>
  match m s with Ret a s' => k a s' | Stop f => Stop f end.
Definition stop {A} (f : Fault) : M S A := fun _ => Stop f.
Definition gets {A} (f : S -> A) : M S A := fun s => Ret (f s) s.
Definition modify (f : S -> S) : M S unit := fun s => Ret tt (f s).
Definition when (b : bool) (m : M S unit) : M S unit := if b then m else ret tt.
Definition of_option {A} (f : Fault) (o : option A) : M S A :=
  match o with Some a => ret a | None => stop f end.

Fixpoint for_each {A} (l : list A) (body : A -> M S unit) : M S unit :=
  match l with
  | [] => ret tt
  | x :: l => bind (body x) (fun _ => for_each l body)
  end.
End Monad.

Declare Scope m_scope.
Delimit Scope m_scope with m.
Notation "'let*' x ':=' m 'in' k" := (bind m (fun x => k))
  (at level 10, x binder, m at level 100, k at level 200) : m_scope.
Notation "m ';;' k" := (bind m (fun _ => k))
  (at level 100, k at level 200, right associativity) : m_scope.
Open Scope m_scope.

(** ** A weakest-precondition calculus

    [wp E m Q s]: run from [s], [m] either returns with [Q], or stops with a
    fault that [E] tolerates. *)

Section Wp.
Context {S : Type}.

Definition wp {A} (E : Fault -> Prop) (m : M S A) (Q : A -> S -> Prop) (s : S) : Prop :=
  match m s with Ret a s' => Q a s' | Stop f => E f end.

Lemma wp_ret {A} E (a : A) (Q : A -> S -> Prop) s : Q a s -> wp E (ret a) Q s.
Proof. done. Qed.

Lemma wp_bind {A B} E (m : M S A) (k : A -> M S B) Q s :
  wp E m (fun a => wp E (k a) Q) s -> wp E (bind m k) Q s.
Proof. unfold wp, bind. destruct (m s); auto. Qed.

Lemma wp_mono {A} (E E' : Fault -> Prop) (m : M S A) (Q Q' : A -> S -> Prop) s :
  (forall f, E f -> E' f) -> (forall a s', Q a s' -> Q' a s') ->
  wp E m Q s -> wp E' m Q' s.
Proof. unfold wp. intros ??. destruct (m s); auto. Qed.

Lemma wp_weaken {A} E (m : M S A) (Q Q' : A -> S -> Prop) s :
  wp E m Q s -> (forall a s', Q a s' -> Q' a s') -> wp E m Q' s.
Proof. unfold wp. intros Hm HQ. destruct (m s); auto. Qed.

(** Running [m] first, with an intermediate assertion. *)
Lemma wp_seq {A B} E (m : M S A) (k : A -> M S B) Q Q' s :
  wp E m Q s -> (forall a s', Q a s' -> wp E (k a) Q' s') -> wp E (bind m k) Q' s.
Proof. intros Hm Hk. apply wp_bind. by eapply wp_weaken. Qed.

Lemma wp_conj {A} E (m : M S A) (Q Q' : A -> S -> Prop) s :
  wp E m Q s -> wp E m Q' s -> wp E m (fun a s' => Q a s' /\ Q' a s') s.
Proof. unfold wp. destruct (m s); auto. Qed.

Lemma wp_for_each {A} E (body : A -> M S unit) (l : list A) (I : list A -> S -> Prop) s :
  I l s ->
  (forall x l s, I (x :: l) s -> wp E (body x) (fun _ => I l) s) ->
  wp E (for_each l body) (fun _ => I []) s.
Proof.
  intros H0 Hstep. revert s H0. induction l as [|x l IH]; intros s H0; simpl.
  - by apply wp_ret.
  - apply wp_bind. eapply (wp_mono E E _ (fun _ => I l)); [done| |by apply Hstep].
    intros ? s' H'. by apply IH.
Qed.
End Wp.

(** ** Relational preservation

    [pres R m]: whenever [m] returns, the states before and after are related
    by the preorder [R].  Most frame and invariant facts of the library are of
    this shape; the lemmas below and the hint database [pres] compose them
    along the structure of an operation. *)

Create HintDb pres discriminated.
Create HintDb sockapi discriminated.

Section Pres.
Context {S : Type} (R : S -> S -> Prop) `{!PreOrder R}.

Definition pres {A} (m : M S A) : Prop :=
  forall s, match m s with Ret _ s' => R s s' | Stop _ => True end.

Lemma pres_ret {A} (a : A) : pres (ret a).
Proof. intros s. simpl. reflexivity. Qed.

Lemma pres_stop {A} f : pres (stop (A := A) f).
Proof. intros s. exact I. Qed.

Lemma pres_gets {A} (f : S -> A) : pres (gets f).
Proof. intros s. simpl. reflexivity. Qed.

Lemma pres_of_option {A} f (o : option A) : pres (of_option f o).
Proof. destruct o; [apply pres_ret | apply pres_stop]. Qed.

Lemma pres_bind {A B} (m : M S A) (k : A -> M S B) :
  pres m -> (forall a, pres (k a)) -> pres (bind m k).
Proof.
  intros Hm Hk s. unfold bind. specialize (Hm s).
  destruct (m s) as [a s'|]; [|done].
  specialize (Hk a s'). destruct (k a s'); [|done]. by transitivity s'.
Qed.

Lemma pres_when (b : bool) (m : M S unit) : pres m -> pres (when b m).
Proof. destruct b; [done | intros; apply pres_ret]. Qed.

Lemma pres_for_each {A} (l : list A) (body : A -> M S unit) :
  (forall x, pres (body x)) -> pres (for_each l body).
Proof.
  intros H. induction l; simpl; [apply pres_ret|]. by apply pres_bind.
Qed.

Lemma pres_run {A} (m : M S A) s a s' : pres m -> m s = Ret a s' -> R s s'.
Proof. intros Hm E. specialize (Hm s). by rewrite E in Hm. Qed.
End Pres.

(** Walk through a definition: split the binds and the case analyses, and
    close the leaves with the database. *)
Ltac pres_step :=
  lazymatch goal with
  | |- pres ?R (bind _ _) => apply (pres_bind R); [| intro]
  | |- pres ?R (ret _) => apply (pres_ret R)
  | |- pres ?R (stop _) => apply (pres_stop R)
  | |- pres ?R (gets _) => apply (pres_gets R)
  | |- pres ?R (of_option _ _) => apply (pres_of_option R)
  | |- pres ?R (when _ _) => apply (pres_when R)
  | |- pres ?R (for_each _ _) => apply (pres_for_each R); intro
  | |- pres _ (match ?x with _ => _ end) => destruct x
  | |- forall _, _ => intro
  | |- _ => solve [eauto with pres typeclass_instances]
  end.
Ltac pres_auto := repeat pres_step.

(** [obeys R G m]: as [pres], and when [m] stops, with a fault that [G] allows
    in the state [m] was started in. *)

Section Obeys.
Context {S : Type} (R : S -> S -> Prop) `{HR : !PreOrder R} (G : S -> Fault -> Prop).
Context (G_mono : forall s s' f, R s s' -> G s' f -> G s f).

Definition obeys {A} (m : M S A) : Prop :=
  forall s, match m s with Ret _ s' => R s s' | Stop f => G s f end.

Lemma obeys_ret {A} (a : A) : obeys (ret a).
Proof using HR. intros s. simpl. reflexivity. Qed.

Lemma obeys_stop {A} f : (forall s, G s f) -> obeys (stop (A := A) f).
Proof using Type. intros Hf s. apply Hf. Qed.

Lemma obeys_gets {A} (f : S -> A) : obeys (gets f).
Proof using HR. intros s. simpl. reflexivity. Qed.

Lemma obeys_bind {A B} (m : M S A) (k : A -> M S B) :
  obeys m -> (forall a, obeys (k a)) -> obeys (bind m k).
Proof using Type*.
  intros Hm Hk s. unfold bind. specialize (Hm s).
  destruct (m s) as [a s'|]; [|done].
  specialize (Hk a s'). destruct (k a s'); [by transitivity s'|]. by eapply G_mono.
Qed.

Lemma obeys_when (b : bool) (m : M S unit) : obeys m -> obeys (when b m).
Proof using HR. destruct b; [done | intros; apply obeys_ret]. Qed.

Lemma obeys_for_each {A} (l : list A) (body : A -> M S unit) :
  (forall x, obeys (body x)) -> obeys (for_each l body).
Proof using Type*.
  intros Hb. induction l; simpl; [apply obeys_ret|]. by apply obeys_bind.
Qed.
End Obeys.

(** Bring a monadic run in a hypothesis to its cases. *)
Ltac run_case H :=
  unfold bind, ret, gets, modify, when, stop, of_option in H; simpl in H;
  repeat case_match; simplify_eq; simpl in *.
