(* ===== verification/Tools.v ===== *)
(** * Arrays and byte orders: the templates of tools.icc

    [quickSort], [quickSortPtr], [quickSortGroupPtr] and [removeDuplicates]
    work on an array in place; the array is the state, an access outside it is
    the fault [OutOfBounds].  The while loops are recursive functions with a
    bound computed from the length of the array; that the bound is never
    reached, so that the loops terminate, is part of the theorems. *)

From stdpp Require Import sorting.
From S2P Require Import Prelude.
Local Open Scope Z_scope.

(** ** Byte orders *)

(** [bswap_16], [bswap_32] and [bswap_64] of the C library. *)
Definition byte_of (x k : Z) : Z := Z.land (Z.shiftr x (8 * k)) 255.
Definition translate16 (x : Z) : Z := Z.lor (Z.shiftl (byte_of x 0) 8) (byte_of x 1).
Definition translate32 (x : Z) : Z :=
  Z.lor (Z.lor (Z.shiftl (byte_of x 0) 24) (Z.shiftl (byte_of x 1) 16))
        (Z.lor (Z.shiftl (byte_of x 2) 8) (byte_of x 3)).
Definition translate64 (x : Z) : Z :=
  Z.lor (Z.shiftl (translate32 (wrap 32 x)) 32) (translate32 (Z.shiftr x 32)).

Lemma lor_shiftl_add a b n : 0 <= n -> 0 <= b < 2 ^ n -> Z.lor (Z.shiftl a n) b = a * 2 ^ n + b.
Proof.
  intros Hn Hb. rewrite <- Z.shiftl_mul_pow2 by done.
  assert (H0 : Z.land (Z.shiftl a n) b = 0).
  { apply Z.bits_inj'. intros i Hi. rewrite Z.land_spec, Z.bits_0.
    destruct (decide (i < n)); [by rewrite Z.shiftl_spec_low|].
    rewrite <- (Z.mod_small b (2 ^ n)), Z.mod_pow2_bits_high by lia. apply andb_false_r. }
  by rewrite Z.add_nocarry_lxor, Z.lxor_lor by done.
Qed.
Lemma byte_of_eq x k : 0 <= k -> byte_of x k = x / 256 ^ k mod 256.
Proof.
  intros Hk. unfold byte_of. change 255 with (Z.ones 8).
  rewrite Z.land_ones, Z.shiftr_div_pow2 by lia.
  by rewrite Z.pow_mul_r by lia.
Qed.
Lemma byte_of_range x k : 0 <= byte_of x k < 256.
Proof.
  unfold byte_of. change 255 with (Z.ones 8). rewrite Z.land_ones by lia.
  apply Z.mod_pos_bound. lia.
Qed.

(** The bytes of the number in reverse order. *)
Lemma translate16_eq x : translate16 x = byte_of x 0 * 2 ^ 8 + byte_of x 1.
Proof. unfold translate16. pose proof (byte_of_range x 1). by rewrite lor_shiftl_add by lia. Qed.
Lemma translate32_eq x :
  translate32 x = byte_of x 0 * 2 ^ 24 + byte_of x 1 * 2 ^ 16 + byte_of x 2 * 2 ^ 8 + byte_of x 3.
Proof.
  unfold translate32. pose proof (byte_of_range x 1). pose proof (byte_of_range x 2).
  pose proof (byte_of_range x 3).
  rewrite (lor_shiftl_add (byte_of x 2)) by lia.
  rewrite (Z.shiftl_mul_pow2 (byte_of x 1)) by lia.
  rewrite (lor_shiftl_add (byte_of x 0)) by lia.
  replace (byte_of x 0 * 2 ^ 24 + byte_of x 1 * 2 ^ 16)
    with (Z.shiftl (byte_of x 0 * 2 ^ 8 + byte_of x 1) 16) by (rewrite Z.shiftl_mul_pow2; lia).
  rewrite lor_shiftl_add by lia. rewrite ?Z.shiftl_mul_pow2 by lia. lia.
Qed.

Lemma translate16_digits a b : 0 <= a < 256 -> 0 <= b < 256 -> translate16 (a * 256 + b) = b * 256 + a.
Proof.
  intros Ha Hb. rewrite translate16_eq, !byte_of_eq by lia.
  change (256 ^ 0) with 1. change (256 ^ 1) with 256. change (2 ^ 8) with 256.
  rewrite Z.div_1_r, Z.div_add_l, (Z.div_small b), Z.add_0_r, (Z.mod_small a) by lia.
  by rewrite (Z.add_comm (a * 256)), Z.mod_add, Z.mod_small by lia.
Qed.
Lemma two_digits x : 0 <= x < 2 ^ 16 ->
  exists a b, x = a * 256 + b /\ 0 <= a < 256 /\ 0 <= b < 256.
Proof.
  intros Hx. exists (x / 256), (x mod 256). pose proof (Z.div_mod x 256 ltac:(lia)).
  pose proof (Z.mod_pos_bound x 256 ltac:(lia)). lia.
Qed.
Lemma translate16_involutive x : 0 <= x < 2 ^ 16 -> translate16 (translate16 x) = x.
Proof. intros (a & b & -> & Ha & Hb)%two_digits. by rewrite !translate16_digits by lia. Qed.
Lemma translate16_range x : 0 <= translate16 x < 2 ^ 16.
Proof.
  rewrite translate16_eq. pose proof (byte_of_range x 0). pose proof (byte_of_range x 1). lia.
Qed.

(** ** Sorting *)

Section Sort.
Context {T : Type} (lt gt : T -> T -> bool).
Notation Array := (list T).

Definition at_ (array : Array) (k : Z) : option T :=
  if bool_decide (0 <= k) then array !! Z.to_nat k else None.
Definition array_read (k : Z) : M Array T := fun array =>
  match at_ array k with Some x => Ret x array | None => Stop OutOfBounds end.
Definition array_write (k : Z) (x : T) : M Array unit := fun array =>
  if bool_decide (0 <= k < Z.of_nat (length array))
  then Ret tt (<[Z.to_nat k := x]> array) else Stop OutOfBounds.

(** [while(lt(array[i],v)) i++] and [while(gt(array[j],v)) j--]. *)
Fixpoint scan_up (fuel : nat) (v : T) (i : Z) : M Array Z :=
  match fuel with
  | O => stop OutOfFuel
  | S fuel =>
      let* x := array_read i in
      if lt x v then scan_up fuel v (i + 1) else ret i
  end.
Fixpoint scan_down (fuel : nat) (v : T) (j : Z) : M Array Z :=
  match fuel with
  | O => stop OutOfFuel
  | S fuel =>
      let* x := array_read j in
      if gt x v then scan_down fuel v (j - 1) else ret j
  end.

Definition array_fuel : M Array nat := gets (fun array => S (length array)).

Definition swap (i j : Z) : M Array unit :=
  let* temp := array_read i in
  let* y := array_read j in
  array_write i y ;;
  array_write j temp.

(** The body of [do ... while(j >= i)]. *)
Definition partition_step (v : T) (i j : Z) : M Array (Z * Z) :=
  let* fuel := array_fuel in
  let* i := scan_up fuel v i in
  let* j := scan_down fuel v j in
  if i <=? j then
    swap i j ;;
    ret (i + 1, j - 1)
  else ret (i, j).
Fixpoint partition_loop (fuel : nat) (v : T) (i j : Z) : M Array (Z * Z) :=
  match fuel with
  | O => stop OutOfFuel
  | S fuel =>
      let* '(i, j) := partition_step v i j in
      if j >=? i then partition_loop fuel v i j else ret (i, j)
  end.

Fixpoint quickSort_rec (fuel : nat) (start end_ : Z) : M Array unit :=
  match fuel with
  | O => stop OutOfFuel
  | S fuel =>
      let* v := array_read (Z.quot (s32 (start + end_)) 2) in
      let* bound := array_fuel in
      let* '(i, j) := partition_loop bound v start end_ in
      when (start <? j) (quickSort_rec fuel start j) ;;
      when (i <? end_) (quickSort_rec fuel i end_)
  end.
Definition quickSortPtr (start end_ : Z) : M Array unit :=
  let* fuel := array_fuel in
  quickSort_rec fuel start end_.

(** [quickSortGroupPtr]: sorts the groups of elements that are not [geq] their
    successors; [array[i]] after the loop is the element after the last. *)
Fixpoint group_loop (geq : T -> T -> bool) (n : nat) (s i : Z) : M Array Z :=
  match n with
  | O => ret s
  | S n =>
      let* x := array_read s in
      let* y := array_read i in
      if negb (geq x y)
      then quickSortPtr s (i - 1) ;; group_loop geq n i (i + 1)
      else group_loop geq n s (i + 1)
  end.
Definition quickSortGroupPtr (start end_ : Z) (geq : T -> T -> bool) : M Array unit :=
  when (1 <? end_ - start)
    (let* s := group_loop geq (Z.to_nat (end_ - start)) start (start + 1) in
     let i := Z.max (start + 1) (end_ + 1) in
     let* x := array_read s in
     let* y := array_read i in
     when (negb (geq x y)) (quickSortPtr s (i - 1))).

(** [removeDuplicates]: the number of elements kept. *)
Fixpoint duplicates_loop `{!EqDecision T} (n : nat) (counter i : Z) : M Array Z :=
  match n with
  | O => ret counter
  | S n =>
      let* x := array_read counter in
      let* y := array_read i in
      if decide (x <> y)
      then array_write (counter + 1) y ;; duplicates_loop n (counter + 1) (i + 1)
      else duplicates_loop n counter (i + 1)
  end.
Definition removeDuplicates `{!EqDecision T} (length : Z) : M Array Z :=
  if bool_decide (length <= 1) then ret length
  else let* counter := duplicates_loop (Z.to_nat (length - 1)) 0 1 in ret (counter + 1).
End Sort.

(** [quickSort] is the same algorithm with the operators of the element type. *)
Definition quickSort {T : Type} (less greater : T -> T -> bool) (start end_ : Z) : M (list T) unit :=
  quickSortPtr less greater start end_.

(** ** Lemmas on arrays *)

Section Arrays.
Context {T : Type}.
Implicit Types a b : list T.

Lemma at_Some a k : 0 <= k < Z.of_nat (length a) -> exists x, at_ a k = Some x.
Proof.
  intros Hk. unfold at_. rewrite bool_decide_true by lia. apply lookup_lt_is_Some. lia.
Qed.
Lemma at_range a k x : at_ a k = Some x -> 0 <= k < Z.of_nat (length a).
Proof.
  unfold at_. case_bool_decide; [|done]. intros Hk%lookup_lt_Some. lia.
Qed.
Lemma at_insert a k j x :
  0 <= k < Z.of_nat (length a) -> 0 <= j ->
  at_ (<[Z.to_nat k := x]> a) j = if decide (j = k) then Some x else at_ a j.
Proof.
  intros Hk Hj. unfold at_. rewrite bool_decide_true by done. case_decide as E.
  - subst. apply list_lookup_insert_eq. lia.
  - apply list_lookup_insert_ne. lia.
Qed.
Lemma at_ext a b : length a = length b -> (forall k, at_ a k = at_ b k) -> a = b.
Proof.
  intros Hl H. apply list_eq. intros i. specialize (H (Z.of_nat i)). unfold at_ in H.
  by rewrite bool_decide_true, Nat2Z.id in H by lia.
Qed.

Lemma insert_perm a i x : (i < length a)%nat -> <[i := x]> a ≡ₚ x :: delete i a.
Proof.
  revert i. induction a as [|y a IH]; intros [|i] Hi; simpl in *; try lia; [done|].
  change (<[S i := x]> (y :: a)) with (y :: <[i := x]> a).
  change (delete (S i) (y :: a)) with (y :: delete i a).
  rewrite IH by lia. apply Permutation_swap.
Qed.
Lemma swap_perm a i j x y :
  a !! i = Some x -> a !! j = Some y -> <[j := x]> (<[i := y]> a) ≡ₚ a.
Proof.
  intros Hx Hy. pose proof (lookup_lt_Some _ _ _ Hx). pose proof (lookup_lt_Some _ _ _ Hy).
  rewrite insert_perm by (rewrite length_insert; lia).
  assert (E : y :: delete j (<[i := y]> a) ≡ₚ y :: delete i a).
  { rewrite <- (insert_perm a i y) by done. symmetry. apply delete_Permutation.
    destruct (decide (i = j)) as [->|]; [by apply list_lookup_insert_eq|].
    by rewrite list_lookup_insert_ne. }
  apply Permutation_cons_inv in E. rewrite E. symmetry. by apply delete_Permutation.
Qed.

(** [b] is [a] with the elements of the range permuted. *)
Record permuted (s e : Z) a b : Prop := {
  pm_perm : b ≡ₚ a;
  pm_same k : ~ (s <= k <= e) -> at_ b k = at_ a k }.

Lemma permuted_refl s e a : permuted s e a a.
Proof. by split. Qed.
Lemma permuted_trans s e a b c : permuted s e a b -> permuted s e b c -> permuted s e a c.
Proof. intros [H1 H2] [H3 H4]. split; [by rewrite H3|]. intros k Hk. by rewrite H4, H2. Qed.
Lemma permuted_wider s e s' e' a b :
  permuted s e a b -> s' <= s -> e <= e' -> permuted s' e' a b.
Proof. intros [H1 H2] Hs He. split; [done|]. intros k Hk. apply H2. lia. Qed.
Lemma permuted_length s e a b : permuted s e a b -> length b = length a.
Proof. intros [H _]. by apply Permutation_length. Qed.

Lemma permuted_elem s e a b k x :
  permuted s e a b -> 0 <= s -> s <= k <= e -> at_ b k = Some x ->
  exists k', s <= k' <= e /\ at_ a k' = Some x.
Proof.
  intros H Hs Hk Hx. pose proof (permuted_length _ _ _ _ H) as Hlen.
  pose proof (at_range _ _ _ Hx) as Hr. destruct H as [Hp Hsame].
  set (n := Z.to_nat s). set (m := Z.to_nat (e + 1)).
  assert (Ht : take n b = take n a).
  { apply list_eq. intros i. rewrite !lookup_take. case_decide; [|done].
    specialize (Hsame (Z.of_nat i)). unfold at_ in Hsame.
    rewrite bool_decide_true, Nat2Z.id in Hsame by lia. apply Hsame. lia. }
  assert (Hd : drop m b = drop m a).
  { apply list_eq. intros i. rewrite !lookup_drop.
    specialize (Hsame (Z.of_nat (m + i))). unfold at_ in Hsame.
    rewrite bool_decide_true, Nat2Z.id in Hsame by lia. apply Hsame. lia. }
  assert (Hseg : forall l : list T, l = take n l ++ take (m - n) (drop n l) ++ drop m l).
  { intros l. replace m with (n + (m - n))%nat at 2 by lia.
    by rewrite <- drop_drop, take_drop, take_drop. }
  rewrite (Hseg a), (Hseg b), Ht, Hd in Hp.
  apply Permutation_app_inv_l, Permutation_app_inv_r in Hp.
  unfold at_ in Hx. rewrite bool_decide_true in Hx by lia.
  assert (Hin : x ∈ take (m - n) (drop n b)).
  { apply list_elem_of_lookup. exists (Z.to_nat k - n)%nat. rewrite lookup_take.
    rewrite decide_True by lia. rewrite lookup_drop. by replace (n + _)%nat with (Z.to_nat k) by lia. }
  rewrite Hp in Hin. apply list_elem_of_lookup in Hin as (i & Hi).
  rewrite lookup_take in Hi. case_decide; [|done]. rewrite lookup_drop in Hi.
  exists (Z.of_nat (n + i)). split; [lia|]. unfold at_.
  by rewrite bool_decide_true, Nat2Z.id by lia.
Qed.
End Arrays.

(** ** Sorting is correct and terminates *)

(** The comparisons of the code come from one total preorder: [le x y] is that
    [y] is not less than [x]. *)
Definition not_less {T} (lt : T -> T -> bool) (x y : T) : Prop := lt y x = false.
Class Comparison {T} (lt gt : T -> T -> bool) : Prop := {
  cmp_gt x y : gt x y = lt y x;
  cmp_total x y : not_less lt x y \/ not_less lt y x;
  cmp_trans x y z : not_less lt x y -> not_less lt y z -> not_less lt x z }.

(** The elements of the range are in order. *)
Definition ascending {T} (lt : T -> T -> bool) (s e : Z) (a : list T) : Prop :=
  forall k l x y, s <= k -> k < l -> l <= e -> at_ a k = Some x -> at_ a l = Some y ->
  not_less lt x y.

Section Sorting.
Context {T : Type} (lt gt : T -> T -> bool) `{HC : !Comparison lt gt}.
Implicit Types a b : list T.
Notation le := (not_less lt).
Notation total := (wp (fun _ => False)).

Lemma less_le x y : lt x y = true -> le x y.
Proof. unfold not_less. destruct (cmp_total (lt := lt) x y) as [H|H]; unfold not_less in H; congruence. Qed.

Lemma total_read a k x (Q : T -> list T -> Prop) :
  at_ a k = Some x -> Q x a -> total (array_read k) Q a.
Proof. intros Hk HQ. unfold wp, array_read. by rewrite Hk. Qed.
Lemma total_fuel a (Q : nat -> list T -> Prop) : Q (S (length a)) a -> total array_fuel Q a.
Proof. done. Qed.

(** The scans stop at the first element that is not on its side of [v]. *)
Lemma total_scan_up a v m x (Hm : at_ a m = Some x) (Hx : lt x v = false) fuel i :
  0 <= i <= m -> (Z.to_nat (m - i) < fuel)%nat ->
  total (scan_up lt fuel v i) (fun i' b => b = a /\ i <= i' <= m
    /\ (forall k y, i <= k < i' -> at_ a k = Some y -> le y v)
    /\ exists y, at_ a i' = Some y /\ le v y) a.
Proof.
  revert i. induction fuel as [|fuel IH]; intros i Hi Hf; [lia|].
  pose proof (at_range _ _ _ Hm) as Hr. destruct (at_Some a i) as [y Hy]; [lia|].
  simpl. apply wp_bind. eapply total_read; [done|]. destruct (lt y v) eqn:E.
  - assert (i <> m) by congruence.
    eapply wp_weaken; [apply IH; lia|]. intros i' b (-> & Hi' & Hbelow & Hstop).
    split; [done|]. split; [lia|]. split; [|done]. intros k z Hk Hz.
    destruct (decide (k = i)) as [->|]; [|apply (Hbelow k); [lia|done]].
    simplify_eq. by apply less_le.
  - apply wp_ret. split; [done|]. split; [lia|]. split; [intros; lia|]. by exists y.
Qed.
Lemma total_scan_down a v m x (Hm : at_ a m = Some x) (Hx : lt v x = false) fuel j :
  0 <= m <= j -> j < Z.of_nat (length a) -> (Z.to_nat (j - m) < fuel)%nat ->
  total (scan_down gt fuel v j) (fun j' b => b = a /\ m <= j' <= j
    /\ (forall k y, j' < k <= j -> at_ a k = Some y -> le v y)
    /\ exists y, at_ a j' = Some y /\ le y v) a.
Proof.
  revert j. induction fuel as [|fuel IH]; intros j Hj Hlen Hf; [lia|].
  destruct (at_Some a j) as [y Hy]; [lia|].
  simpl. apply wp_bind. eapply total_read; [done|].
  rewrite (cmp_gt (lt := lt) (gt := gt)). destruct (lt v y) eqn:E.
  - assert (j <> m) by congruence.
    eapply wp_weaken; [apply IH; lia|]. intros j' b (-> & Hj' & Habove & Hstop).
    split; [done|]. split; [lia|]. split; [|done]. intros k z Hk Hz.
    destruct (decide (k = j)) as [->|]; [|apply (Habove k); [lia|done]].
    simplify_eq. by apply less_le.
  - apply wp_ret. split; [done|]. split; [lia|]. split; [intros; lia|]. by exists y.
Qed.

Lemma total_swap a s e i j x y :
  at_ a i = Some x -> at_ a j = Some y -> s <= i <= e -> s <= j <= e ->
  total (swap i j) (fun _ b => permuted s e a b
    /\ forall k, 0 <= k -> at_ b k = if decide (k = j) then Some x else
                                     if decide (k = i) then Some y else at_ a k) a.
Proof.
  intros Hx Hy Hi Hj. pose proof (at_range _ _ _ Hx). pose proof (at_range _ _ _ Hy).
  unfold swap. apply wp_bind. eapply total_read; [done|].
  apply wp_bind. eapply total_read; [done|].
  unfold wp, bind, array_write. rewrite bool_decide_true by lia. cbv iota beta.
  rewrite length_insert, bool_decide_true by lia.
  assert (Hat : forall k, 0 <= k -> at_ (<[Z.to_nat j:=x]> (<[Z.to_nat i:=y]> a)) k
    = if decide (k = j) then Some x else if decide (k = i) then Some y else at_ a k).
  { intros k Hk. rewrite !at_insert by (rewrite ?length_insert; lia). done. }
  split; [|done]. split.
  - unfold at_ in Hx, Hy. rewrite bool_decide_true in Hx, Hy by lia. by apply swap_perm.
  - intros k Hk. destruct (decide (0 <= k)) as [Hk0|Hk0].
    + rewrite Hat by done. by rewrite !decide_False by lia.
    + unfold at_. by rewrite !bool_decide_false.
Qed.

(** Invariant of the partition: what is left of [i] is at most [v], what is
    right of [j] at least; the scans are stopped by an element of the other
    side, in the first round by [v] itself. *)
Record partitioning (s e mid : Z) (v : T) (a0 : list T) (i j : Z) a : Prop := {
  pt_perm : permuted s e a0 a;
  pt_low k x : s <= k < i -> at_ a k = Some x -> le x v;
  pt_high k x : j < k <= e -> at_ a k = Some x -> le v x;
  pt_round : (i = s /\ j = e /\ s <= mid <= e /\ at_ a mid = Some v) \/ (s < i /\ j < e);
  pt_range : 0 <= s <= i /\ j <= e < Z.of_nat (length a) }.

Definition partitioned s e v a0 (ij : Z * Z) a : Prop :=
  partitioning s e 0 v a0 ij.1 ij.2 a /\ s < ij.1 <= e + 1 /\ s - 1 <= ij.2 < e.

Lemma le_refl x : le x x.
Proof. by destruct (cmp_total (lt := lt) x x). Qed.

Lemma total_partition_step s e mid v a0 i j a :
  partitioning s e mid v a0 i j a -> i <= j ->
  total (partition_step lt gt v i j) (fun ij b => partitioned s e v a0 ij b
    /\ (ij.2 - ij.1 < j - i - 1 \/ ij.2 < ij.1)) a.
Proof.
  intros [Hp Hlow Hhigh Hround Hrange] Hij.
  assert (Hup : exists m x, at_ a m = Some x /\ le v x /\ i <= m <= e /\ (s < i \/ m <= mid)).
  { destruct Hround as [(-> & -> & Hmid & Hv)|[Hi Hj]].
    - exists mid, v. split; [done|]. split; [apply le_refl|]. lia.
    - destruct (at_Some a (j + 1)) as [x Hx]; [lia|]. exists (j + 1), x.
      split; [done|]. split; [apply (Hhigh (j + 1)); [lia|done]|]. lia. }
  assert (Hdown : exists m x, at_ a m = Some x /\ le x v /\ s <= m <= j /\ (j < e \/ mid <= m)).
  { destruct Hround as [(-> & -> & Hmid & Hv)|[Hi Hj]].
    - exists mid, v. split; [done|]. split; [apply le_refl|]. lia.
    - destruct (at_Some a (i - 1)) as [x Hx]; [lia|]. exists (i - 1), x.
      split; [done|]. split; [apply (Hlow (i - 1)); [lia|done]|]. lia. }
  destruct Hup as (m & x & Hm & Hx & Hmr & Hm1).
  destruct Hdown as (n & y & Hn & Hy & Hnr & Hn1).
  unfold partition_step. apply wp_bind, total_fuel.
  eapply wp_seq; [apply (total_scan_up a v m x Hm Hx); lia|].
  intros i' b (-> & Hi' & Hl' & xi & Hxi & Hvi).
  eapply wp_seq; [apply (total_scan_down a v n y Hn Hy); lia|].
  intros j' b (-> & Hj' & Hh' & xj & Hxj & Hvj).
  assert (Hlow' : forall k z, s <= k < i' -> at_ a k = Some z -> le z v).
  { intros k z Hk Hz. destruct (decide (k < i)); [apply (Hlow k)|apply (Hl' k)]; by (lia || done). }
  assert (Hhigh' : forall k z, j' < k <= e -> at_ a k = Some z -> le v z).
  { intros k z Hk Hz. destruct (decide (j < k)); [apply (Hhigh k)|apply (Hh' k)]; by (lia || done). }
  destruct (i' <=? j') eqn:E; [apply Z.leb_le in E|apply Z.leb_gt in E].
  - eapply wp_seq; [apply (total_swap a s e i' j' xi xj); by (lia || done)|].
    intros [] b [Hpb Hat]. apply wp_ret. simpl. split; [|lia].
    pose proof (permuted_length _ _ _ _ Hpb) as Hlen.
    split; [|simpl; lia]. simpl. split.
    + by eapply permuted_trans.
    + intros k z Hk. rewrite Hat by lia. repeat case_decide; intros; simplify_eq; auto.
      * assert (i' = j') as -> by lia. congruence.
      * apply (Hlow' k); [lia|done].
    + intros k z Hk. rewrite Hat by lia. repeat case_decide; intros; simplify_eq; auto.
      * assert (i' = j') as -> by lia. congruence.
      * apply (Hhigh' k); [lia|done].
    + right. lia.
    + rewrite Hlen. lia.
  - apply wp_ret. simpl. split; [|lia]. split; [|simpl; lia]. simpl. split; auto; lia.
Qed.

Lemma total_partition_loop s e mid v a0 fuel i j a :
  partitioning s e mid v a0 i j a -> i <= j -> (Z.to_nat (j - i + 1) < fuel)%nat ->
  total (partition_loop lt gt fuel v i j)
    (fun ij b => partitioned s e v a0 ij b /\ ij.2 < ij.1) a.
Proof.
  revert mid i j a. induction fuel as [|fuel IH]; intros mid i j a Hpt Hij Hf; [lia|].
  simpl. eapply wp_seq; [by eapply total_partition_step|].
  intros [i' j'] b [Hpb Hdec]. simpl in Hdec. destruct (j' >=? i') eqn:E.
  - apply (IH 0); [apply Hpb|lia|lia].
  - apply wp_ret. split; [done|]. simpl. lia.
Qed.

(** The sorted parts on both sides of a partition make a sorted range. *)
Lemma ascending_join s e i j v a :
  ascending lt s j a -> ascending lt i e a -> j < i ->
  (forall k x, s <= k < i -> at_ a k = Some x -> le x v) ->
  (forall k x, j < k <= e -> at_ a k = Some x -> le v x) ->
  ascending lt s e a.
Proof.
  intros Hleft Hright Hji Hlow Hhigh k l x y Hs Hkl He Hx Hy.
  destruct (decide (l <= j)); [by apply (Hleft k l)|].
  destruct (decide (i <= k)); [by apply (Hright k l)|].
  apply (cmp_trans _ v); [apply (Hlow k)|apply (Hhigh l)]; by (lia || done).
Qed.

(** Permuting a range keeps what all its elements have in common. *)
Lemma permuted_all s e a b (P : T -> Prop) lo hi :
  permuted s e a b -> 0 <= s -> (lo <= s /\ e <= hi) \/ e < lo \/ hi < s ->
  (forall k x, lo <= k <= hi -> at_ a k = Some x -> P x) ->
  forall k x, lo <= k <= hi -> at_ b k = Some x -> P x.
Proof.
  intros Hp H0 Hr Ha k x Hk Hx. destruct (decide (s <= k <= e)) as [Hin|Hout].
  - destruct (permuted_elem s e a b k x) as (k' & Hk' & Hx'); try done. apply (Ha k'); [lia|done].
  - apply (Ha k); [done|]. by rewrite <- (pm_same _ _ _ _ Hp).
Qed.
Lemma permuted_ascending s e s' e' a b :
  permuted s e a b -> e' < s \/ e < s' -> ascending lt s' e' a -> ascending lt s' e' b.
Proof.
  intros Hp Hd Ha k l x y Hk Hkl Hl Hx Hy.
  rewrite (pm_same _ _ _ _ Hp) in Hx, Hy by lia. by apply (Ha k l).
Qed.

Lemma total_sort_when (b : bool) fuel s e a :
  (b = true -> total (quickSort_rec lt gt fuel s e)
     (fun _ c => permuted s e a c /\ ascending lt s e c) a) ->
  (b = false -> e <= s) ->
  total (when b (quickSort_rec lt gt fuel s e))
     (fun _ c => permuted s e a c /\ ascending lt s e c) a.
Proof.
  intros Ht Hf. destruct b; [by apply Ht|]. apply wp_ret. split; [apply permuted_refl|].
  intros k l x y ????. specialize (Hf eq_refl). lia.
Qed.

Lemma quickSort_rec_total fuel s e a :
  0 <= s <= e -> e < Z.of_nat (length a) -> Z.of_nat (length a) < 2 ^ 30 ->
  (Z.to_nat (e - s) < fuel)%nat ->
  total (quickSort_rec lt gt fuel s e) (fun _ b => permuted s e a b /\ ascending lt s e b) a.
Proof.
  revert s e a. induction fuel as [|fuel IH]; intros s e a Hs He Hlen Hf; [lia|].
  simpl. rewrite s32_small by lia. rewrite Z.quot_div_nonneg by lia.
  set (mid := (s + e) / 2). assert (Hmid : s <= mid <= e) by (subst mid; split; [apply Z.div_le_lower_bound|apply Z.div_le_upper_bound]; lia).
  destruct (at_Some a mid) as [v Hv]; [lia|].
  apply wp_bind. eapply total_read; [done|]. apply wp_bind, total_fuel.
  eapply wp_seq; [apply (total_partition_loop s e mid v a)|].
  { split; [apply permuted_refl|lia|lia|by left|lia]. }
  { lia. } { lia. }
  intros [i j] b [[Hpt Hb] Hji]. simpl in Hji, Hb. destruct Hpt as [Hp Hlow Hhigh _ _].
  simpl in Hlow, Hhigh. pose proof (permuted_length _ _ _ _ Hp) as Hlb.
  eapply wp_seq.
  { apply (total_sort_when _ _ s j); [|lia]. intros E. apply IH; lia. }
  intros [] c [Hpc Hc]. pose proof (permuted_length _ _ _ _ Hpc) as Hlc.
  eapply wp_weaken.
  { apply (total_sort_when _ _ i e); [|lia]. intros E. apply IH; lia. }
  intros [] d [Hpd Hd]. split.
  - apply (permuted_trans _ _ _ b); [done|]. apply (permuted_trans _ _ _ c).
    + apply (permuted_wider s j); by (lia || done).
    + apply (permuted_wider i e); by (lia || done).
  - apply (ascending_join s e i j v).
    + apply (permuted_ascending i e _ _ c); [done|lia|done].
    + done.
    + done.
    + intros k x Hk. apply (permuted_all i e c d (fun x => le x v) s (i - 1)); [done|lia|lia| |lia].
      apply (permuted_all s j b c (fun x => le x v)); [done|lia|lia|]. intros k' x' Hk'. apply Hlow. lia.
    + intros k x Hk. apply (permuted_all i e c d (le v) (j + 1) e); [done|lia|lia| |lia].
      apply (permuted_all s j b c (le v)); [done|lia|lia|]. intros k' x' Hk'. apply Hhigh. lia.
Qed.
End Sorting.

(** C25. Sorting.  Given an order and its converse, [quickSort] on a range of
    the array terminates without an access outside the array, and leaves the
    elements of the range in order: they are permuted, every other element is
    where it was. *)
Theorem quickSort_sorts {T : Type} (less greater : T -> T -> bool) (start end_ : Z) (a : list T)
    (HC : Comparison less greater) (Hrange : 0 <= start <= end_)
    (Hend : end_ < Z.of_nat (length a)) (Hlen : Z.of_nat (length a) < 2 ^ 30) :
  exists b, quickSort less greater start end_ a = Ret tt b
    /\ b ≡ₚ a
    /\ (forall k, ~ (start <= k <= end_) -> at_ b k = at_ a k)
    /\ ascending less start end_ b.
Proof.
  pose proof (quickSort_rec_total less greater (S (length a)) start end_ a
    Hrange Hend Hlen ltac:(lia)) as H.
  unfold wp in H. unfold quickSort, quickSortPtr, bind, array_fuel, gets.
  destruct (quickSort_rec _ _ _ _ _ _) as [[] b|]; [|done]. exists b.
  destruct H as [[Hp Hs] Ha]. done.
Qed.

#[export] Instance Z_comparison : Comparison Z.ltb Z.gtb.
Proof.
  split; unfold not_less.
  - intros x y. apply Z.gtb_ltb.
  - intros x y. rewrite !Z.ltb_ge. lia.
  - intros x y z. rewrite !Z.ltb_ge. lia.
Qed.

Lemma quickSort_sorts_witness :
  exists b, quickSort Z.ltb Z.gtb 1 5 [9; 5; 3; 8; 1; 3; 0] = Ret tt b /\ ascending Z.ltb 1 5 b
    /\ b = [9; 1; 3; 3; 5; 8; 0].
Proof.
  destruct (quickSort_sorts Z.ltb Z.gtb 1 5 [9; 5; 3; 8; 1; 3; 0] _ ltac:(lia)
    ltac:(simpl; lia) ltac:(simpl; lia)) as (b & Hb & _ & _ & Hs).
  exists b. split; [exact Hb|]. split; [exact Hs|]. vm_compute in Hb. by injection Hb.
Defined.

(** ** Duplicates *)

(** The first element of every run of equal elements. *)
Fixpoint runs `{!EqDecision T} (l : list T) : list T :=
  match l with
  | x :: l' =>
      match l' with
      | y :: _ => if decide (x = y) then runs l' else x :: runs l'
      | [] => [x]
      end
  | [] => []
  end.

Section Duplicates.
Context {T : Type} `{!EqDecision T}.
Implicit Types a b l : list T.

Lemma runs_snoc l x y : runs (l ++ [x; y]) = runs (l ++ [x]) ++ (if decide (x = y) then [] else [y]).
Proof.
  induction l as [|z [|z' l] IH]; simpl in *.
  - case_decide; by subst.
  - repeat case_decide; by simplify_eq/=.
  - rewrite IH. repeat case_decide; done.
Qed.
Lemma runs_last l x : exists l', runs (l ++ [x]) = l' ++ [x].
Proof.
  induction l as [|z [|z' l] IH]; simpl.
  - by exists [].
  - case_decide; [by exists []|by exists [z]].
  - destruct IH as [l' E]. simpl in E. case_decide; [by exists l'|].
    rewrite E. by exists (z :: l').
Qed.

Lemma runs_length l : (length (runs l) <= length l)%nat.
Proof. induction l as [|x [|y l] IH]; simpl in *; [lia|lia|]. case_decide; simpl in *; lia. Qed.

(** The array when the elements [l] have been read from [a]. *)
Definition with_runs a l : list T := runs l ++ drop (length (runs l)) a.

Lemma at_app_middle l1 x l2 : at_ (l1 ++ x :: l2) (Z.of_nat (length l1)) = Some x.
Proof. unfold at_. rewrite bool_decide_true, Nat2Z.id by lia. by apply list_lookup_middle. Qed.

Lemma with_runs_read a l y rest :
  a = l ++ y :: rest -> at_ (with_runs a l) (Z.of_nat (length l)) = Some y.
Proof.
  intros ->. unfold at_, with_runs. rewrite bool_decide_true, Nat2Z.id by lia.
  pose proof (runs_length l). rewrite lookup_app_r, lookup_drop by done.
  replace (_ + _)%nat with (length l) by lia. by apply list_lookup_middle.
Qed.

Lemma with_runs_write a l y rest :
  a = l ++ y :: rest ->
  array_write (Z.of_nat (length (runs l))) y (with_runs a l)
    = Ret tt (runs l ++ y :: drop (S (length (runs l))) a).
Proof.
  intros Ha. pose proof (runs_length l). unfold array_write, with_runs.
  assert (length (runs l) < length a)%nat by (subst a; rewrite length_app; simpl; lia).
  destruct (drop (length (runs l)) a) as [|z d] eqn:E.
  { apply (f_equal length) in E. rewrite length_drop in E. simpl in E. lia. }
  rewrite bool_decide_true by (rewrite length_app; simpl; lia).
  rewrite Nat2Z.id, insert_app_r_alt, Nat.sub_diag by lia. simpl. do 3 f_equal.
  rewrite <- Nat.add_1_r, <- drop_drop, E. done.
Qed.

Lemma duplicates_loop_run a rest : forall l x,
  a = (l ++ [x]) ++ rest ->
  duplicates_loop (length rest) (Z.of_nat (length (runs (l ++ [x]))) - 1)
    (Z.of_nat (length (l ++ [x]))) (with_runs a (l ++ [x]))
  = Ret (Z.of_nat (length (runs a)) - 1) (with_runs a a).
Proof.
  induction rest as [|y rest IH]; intros l x Ha; simpl.
  { rewrite app_nil_r in Ha. by subst. }
  destruct (runs_last l x) as [kept Hk].
  unfold bind at 1, array_read at 1.
  assert (Hx : at_ (with_runs a (l ++ [x])) (Z.of_nat (length (runs (l ++ [x]))) - 1) = Some x).
  { unfold with_runs. rewrite Hk, length_app, <- app_assoc. simpl.
    replace (_ - 1) with (Z.of_nat (length kept)) by lia. apply at_app_middle. }
  rewrite Hx. unfold bind at 1, array_read at 1. rewrite (with_runs_read _ _ y rest Ha).
  assert (E2 : (l ++ [x]) ++ [y] = l ++ [x; y]) by by rewrite <- app_assoc.
  specialize (IH (l ++ [x]) y). rewrite E2 in IH.
  assert (Ha' : a = (l ++ [x; y]) ++ rest) by by rewrite Ha, <- E2, <- !app_assoc.
  specialize (IH Ha'). unfold with_runs in IH at 1. rewrite (runs_snoc l x y) in IH.
  replace (Z.of_nat (length (l ++ [x; y]))) with (Z.of_nat (length (l ++ [x])) + 1) in IH
    by (rewrite <- E2, (length_app _ [y]); simpl; lia).
  destruct (decide (x <> y)) as [E|E].
  - unfold bind. rewrite Z.sub_add, (with_runs_write a _ y rest Ha).
    rewrite decide_False, length_app, <- app_assoc, Nat.add_1_r in IH by done. simpl app in IH.
    rewrite <- IH. f_equal; lia.
  - apply dec_stable in E. rewrite decide_True, app_nil_r in IH by done. exact IH.
Qed.

Lemma removeDuplicates_runs a :
  removeDuplicates (Z.of_nat (length a)) a = Ret (Z.of_nat (length (runs a))) (with_runs a a).
Proof.
  unfold removeDuplicates. destruct a as [|x [|y rest]]; [done|done|].
  rewrite bool_decide_false by (simpl; lia).
  replace (Z.to_nat _) with (length (y :: rest)) by (simpl; lia).
  pose proof (duplicates_loop_run (x :: y :: rest) (y :: rest) [] x eq_refl) as H.
  simpl app in H. unfold bind. change (Z.of_nat (length (runs [x])) - 1) with 0 in H.
  change (Z.of_nat (length [x])) with 1 in H. change (with_runs _ [x]) with (x :: y :: rest) in H.
  rewrite H. unfold ret. f_equal. lia.
Qed.
End Duplicates.
