(* ===== verification/Strings.v ===== *)
(** * Strings: tdstrings.cc and tdstrings.icc

    A [String] object holds a C string or NULL: [TdString] is an option of the
    characters before the terminating zero.  Positions are Z, a position the
    code reads is checked: [char_at] gives the terminating zero at the end. *)

From Stdlib Require Import String Ascii.
From stdpp Require Import strings.
From S2P Require Import Prelude.
Local Open Scope Z_scope.

Definition TdString : Type := option string.

Definition strlen (s : string) : Z := Z.of_nat (String.length s).
Definition code (c : ascii) : Z := Z.of_N (N_of_ascii c).
Definition NUL : ascii := "000"%char.
Definition char_at (s : string) (k : Z) : ascii := default NUL (String.get (Z.to_nat k) s).
(** The characters from [start] on, [len] of them. *)
Definition copy (s : string) (start len : Z) : string :=
  String.substring (Z.to_nat start) (Z.to_nat len) s.

(** ** Static functions *)

Definition stringLength (s : TdString) : Z :=
  match s with None => 0 | Some s => wrap 32 (strlen s) end.

(** [strcmp]: the characters are compared as unsigned. *)
Fixpoint strcmp (s t : string) : Z :=
  match s, t with
  | EmptyString, EmptyString => 0
  | EmptyString, String _ _ => -1
  | String _ _, EmptyString => 1
  | String c s, String d t =>
      if code c <? code d then -1 else if code d <? code c then 1 else strcmp s t
  end.
Definition stringCompare (s t : TdString) : Z :=
  match s, t with
  | None, None => 0
  | None, Some _ => -1
  | Some _, None => 1
  | Some s, Some t => strcmp s t
  end.
Definition stringDuplicate (s : TdString) : TdString := s.

(** ** Constructors *)

(** Printing an unsigned number in a base, the digits from the right. *)
Definition digit (d : Z) : ascii :=
  ascii_of_N (Z.to_N (if d <? 10 then 48 + d else 87 + d)).
Fixpoint print_digits (fuel : nat) (base n : Z) (rest : string) : string :=
  match fuel with
  | O => rest
  | S fuel =>
      let rest := String (digit (n mod base)) rest in
      if n / base =? 0 then rest else print_digits fuel base (n / base) rest
  end.
Definition print_unsigned (base n : Z) : string := print_digits 64 base n EmptyString.
(** [%d] *)
Definition print_int (n : Z) : string :=
  if n <? 0 then String "-" (print_unsigned 10 (- n)) else print_unsigned 10 n.

(** [String(const char*, cardinal)] *)
Definition String_length (s : option string) (length : Z) : TdString :=
  match s with Some s => Some (copy s 0 length) | None => None end.
(** [String(const cardinal)]: [%llu]. *)
Definition String_cardinal (value : Z) : TdString := Some (print_unsigned 10 value).
(** [operator=(const cardinal)]: [%d]. *)
Definition assign_cardinal (value : Z) : TdString := Some (print_int (s32 value)).

(** ** Search *)

Definition isNull (s : TdString) : bool := match s with None => true | Some _ => false end.

Fixpoint index_from (data : string) (c : ascii) (position : Z) : Z :=
  match data with
  | EmptyString => if Ascii.eqb NUL c then position else -1
  | String d data => if Ascii.eqb d c then position else index_from data c (position + 1)
  end.
Definition index (s : TdString) (c : ascii) : Z :=
  match s with Some data => index_from data c 0 | None => -1 end.

(** [position] goes down from the terminating zero. *)
Fixpoint rindex_from (data : string) (c : ascii) (position : nat) : Z :=
  if Ascii.eqb (char_at data (Z.of_nat position)) c then Z.of_nat position
  else match position with O => -1 | S position => rindex_from data c position end.
Definition rindex (s : TdString) (c : ascii) : Z :=
  match s with Some data => rindex_from data c (String.length data) | None => -1 end.

(** [strstr] *)
Fixpoint find_from (data str : string) (position : Z) : Z :=
  if String.prefix str data then position
  else match data with
       | EmptyString => -1
       | String _ data => find_from data str (position + 1)
       end.
Definition find (s str : TdString) : Z :=
  match s, str with Some data, Some str => find_from data str 0 | _, _ => -1 end.

(** ** Parts and conversions *)

Fixpoint map_chars (f : ascii -> ascii) (s : string) : string :=
  match s with EmptyString => EmptyString | String c s => String (f c) (map_chars f s) end.
Definition in_range (c lo hi : ascii) : bool := (code lo <=? code c) && (code c <=? code hi).
(** [tolower] and [toupper] of the C locale. *)
Definition tolower (c : ascii) : ascii :=
  if in_range c "A" "Z" then ascii_of_N (Z.to_N (code c + 32)) else c.
Definition toupper (c : ascii) : ascii :=
  if in_range c "a" "z" then ascii_of_N (Z.to_N (code c - 32)) else c.

Definition data_of (s : TdString) : string := default EmptyString s.
Definition toLower (s : TdString) : TdString := Some (map_chars tolower (data_of s)).
Definition toUpper (s : TdString) : TdString := Some (map_chars toupper (data_of s)).
Definition left (s : TdString) (maxChars : Z) : TdString :=
  Some (copy (data_of s) 0 (Z.min (stringLength s) maxChars)).
Definition mid (s : TdString) (start maxChars : Z) : TdString :=
  let strlen := stringLength s in
  if strlen <=? start then Some EmptyString
  else Some (copy (data_of s) start (Z.min (strlen - start) maxChars)).
Definition mid_rest (s : TdString) (start : Z) : TdString := mid s start (2 ^ 32 - 1).
Definition right (s : TdString) (maxChars : Z) : TdString :=
  let strlen := stringLength s in
  let len := Z.min strlen maxChars in
  Some (copy (data_of s) (strlen - len) len).

Definition is_blank (c : ascii) : bool := Ascii.eqb c " ".
Fixpoint blanks_up (n : nat) (data : string) (strlen i : Z) : Z :=
  match n with
  | O => i
  | S n =>
      if is_blank (char_at data i) && (i <? strlen) then blanks_up n data strlen (i + 1) else i
  end.
Fixpoint blanks_down (n : nat) (data : string) (i j : Z) : Z :=
  match n with
  | O => j
  | S n => if (i <=? j) && is_blank (char_at data j) then blanks_down n data i (j - 1) else j
  end.
(** [None]: the data pointer NULL is dereferenced. *)
Definition stripWhiteSpace (s : TdString) : option TdString :=
  match s with
  | None => None
  | Some data =>
      let strlen := stringLength s in
      let i := blanks_up (S (String.length data)) data strlen 0 in
      let j := blanks_down (S (String.length data)) data i (strlen - 1) in
      Some (mid s i (wrap 32 (j - i + 1)))
  end.

Definition quote : ascii := "034"%char.
(** The result, and the strings [s1] and [s2] afterwards. *)
Definition scanSetting (s s1 s2 : TdString) : option (bool * TdString * TdString) :=
  let found := index s "=" in
  if found >=? 1 then
    match stripWhiteSpace (left s found),
          stripWhiteSpace (right s (wrap 32 (stringLength s - found - 1))) with
    | Some s1, Some s2 =>
        let s1 := toUpper s1 in
        if (0 <? stringLength s1) && (0 <? stringLength s2) then
          let data := data_of s2 in
          let length := stringLength s2 in
          let s2 := if Ascii.eqb (char_at data 0) quote && Ascii.eqb (char_at data (length - 1)) quote
                    then mid s2 1 (wrap 32 (length - 2)) else s2 in
          Some (true, s1, s2)
        else Some (false, s1, s2)
    | _, _ => None
    end
  else Some (false, s1, s2).

(** ** Operators *)

Definition string_eq (s t : TdString) : bool := stringCompare s t =? 0.
Definition string_ne (s t : TdString) : bool := negb (stringCompare s t =? 0).
Definition string_lt (s t : TdString) : bool := stringCompare s t <? 0.
Definition string_le (s t : TdString) : bool := stringCompare s t <=? 0.
Definition string_gt (s t : TdString) : bool := stringCompare s t >? 0.
Definition string_ge (s t : TdString) : bool := stringCompare s t >=? 0.
Definition string_get (s : TdString) (k : Z) : option ascii :=
  match s with Some data => Some (char_at data k) | None => None end.
Definition string_add (s t : TdString) : TdString := Some (data_of s +:+ data_of t).

(** ** [scanURL] (tools.cc) *)

(** The result, and [protocol], [host] and [path] afterwards. *)
Definition scanURL (location protocol host path : TdString)
    : bool * TdString * TdString * TdString :=
  let url := location in
  let p1 := find url (Some "://"%string) in
  if (p1 <? 0) && isNull protocol then (false, protocol, host, path)
  else
    let protocol := if p1 <? 0 then protocol else left url p1 in
    let p1 := if p1 <? 0 then 0 else p1 + 3 in
    let url := mid_rest url p1 in
    let p2 := index url "/" in
    if p2 <? 0 then (false, protocol, host, path)
    else (true, toLower protocol, toLower (left url p2), mid_rest url (p2 + 1)).

Example scanURL_ex : scanURL (Some "HTTP://Www.Sctp.De/a/B"%string) None None None
  = (true, Some "http"%string, Some "www.sctp.de"%string, Some "a/B"%string).
Proof. reflexivity. Qed.
Example scanSetting_ex : scanSetting (Some (" Name = " +:+ String quote ("a b" +:+ String quote " ")))%string None None
  = Some (true, Some "NAME"%string, Some "a b"%string).
Proof. reflexivity. Qed.
