(* ===== verification/MultiMap.v ===== *)
(** * [std::multimap<integer, T>]

    The library keeps its associations, sockets and closing associations in
    [std::multimap]s.  A multimap is the list of its entries in iteration
    order: sorted by key, entries with equal keys in insertion order ([insert]
    puts a new entry at the upper bound of its key).  An iterator is the entry
    it points to; the values stored by the library are addresses of objects
    that occur once in a map, so an entry identifies its position. *)

From S2P Require Import Prelude.
Local Open Scope Z_scope.

Section MultiMap.
Context {V : Type} `{!EqDecision V}.

(** The iterator type; [None] is [end()]. *)
Definition entry : Type := Z * V.

Fixpoint mm_insert (k : Z) (v : V) (m : list entry) : list entry :=
  match m with
  | [] => [(k, v)]
  | e :: m' => if decide (e.1 <= k) then e :: mm_insert k v m' else (k, v) :: m
  end.

(** [find(k)]: the first entry with the key. *)
Fixpoint mm_find (k : Z) (m : list entry) : option entry :=
  match m with
  | [] => None
  | e :: m' => if decide (e.1 = k) then Some e else mm_find k m'
  end.

(** [erase(iterator)] *)
Fixpoint mm_erase (e : entry) (m : list entry) : list entry :=
  match m with
  | [] => []
  | e' :: m' => if decide (e' = e) then m' else e' :: mm_erase e m'
  end.

(** The same, with [None] for an iterator that dangles. *)
Definition mm_erase_at (e : entry) (m : list entry) : option (list entry) :=
  if decide (e ∈ m) then Some (mm_erase e m) else None.

(** [iterator++]: [None] when the entry has been erased, so that the
    iterator dangles; otherwise the iterator to the following entry. *)
Fixpoint mm_next (e : entry) (m : list entry) : option (option entry) :=
  match m with
  | [] => None
  | e' :: m' => if decide (e' = e) then Some (head m') else mm_next e m'
  end.

Definition key_le (e1 e2 : entry) : Prop := e1.1 <= e2.1.
Definition mm_wf (m : list entry) : Prop := StronglySorted key_le m.

Lemma mm_insert_perm k v m : mm_insert k v m ≡ₚ (k, v) :: m.
Proof.
  induction m as [|e m IH]; simpl; [done|].
  case_decide; [|done]. rewrite IH. apply Permutation_swap.
Qed.

Lemma elem_of_mm_insert k v m e : e ∈ mm_insert k v m <-> e = (k, v) \/ e ∈ m.
Proof. by rewrite mm_insert_perm, elem_of_cons. Qed.

Lemma mm_insert_wf k v m : mm_wf m -> mm_wf (mm_insert k v m).
Proof.
  unfold mm_wf. induction m as [|e m IH]; intros Hwf; simpl.
  - repeat constructor.
  - apply StronglySorted_inv in Hwf as [Hm He]. case_decide as Hk.
    + constructor; [by apply IH|]. rewrite mm_insert_perm.
      constructor; [done|]. done.
    + constructor; [by constructor|]. unfold key_le in *. simpl.
      constructor; [simpl; lia|].
      eapply Forall_impl; [exact He|]. simpl. lia.
Qed.

Lemma mm_erase_incl e m : mm_erase e m ⊆ m.
Proof.
  induction m as [|e' m IH]; simpl; [done|].
  case_decide; [by apply list_subseteq_cons|]. by apply list_subseteq_skip.
Qed.

Lemma mm_erase_wf e m : mm_wf m -> mm_wf (mm_erase e m).
Proof.
  unfold mm_wf. induction m as [|e' m IH]; intros Hwf; simpl; [done|].
  apply StronglySorted_inv in Hwf as [Hm He]. case_decide; [done|].
  constructor; [by apply IH|]. rewrite Forall_forall in *. intros x Hx.
  apply He. by apply (mm_erase_incl e).
Qed.

Lemma mm_erase_perm e m : e ∈ m -> m ≡ₚ e :: mm_erase e m.
Proof.
  induction m as [|e' m IH]; simpl; intros He; [by apply not_elem_of_nil in He|].
  case_decide as Hd; [by subst|].
  apply elem_of_cons in He as [->|He]; [done|].
  rewrite (IH He) at 1. apply Permutation_swap.
Qed.

Lemma mm_erase_notin e m : e ∉ m -> mm_erase e m = m.
Proof.
  induction m as [|e' m IH]; simpl; intros He; [done|].
  rewrite not_elem_of_cons in He. destruct He as [Hne He].
  rewrite decide_False by congruence. by rewrite IH.
Qed.

Lemma mm_erase_not_elem e m : NoDup m -> e ∉ mm_erase e m.
Proof.
  induction 1 as [|e' m He Hm IH]; simpl; [by apply not_elem_of_nil|].
  case_decide; [by subst|]. rewrite not_elem_of_cons. split; [congruence|done].
Qed.

Lemma mm_erase_NoDup e m : NoDup m -> NoDup (mm_erase e m).
Proof.
  induction 1 as [|e' m He Hm IH]; simpl; [constructor|].
  case_decide; [done|]. constructor; [|done].
  intros Hin. apply He. by apply (mm_erase_incl e).
Qed.

Lemma mm_find_elem k m e : mm_find k m = Some e -> e ∈ m /\ e.1 = k.
Proof.
  induction m as [|e' m IH]; simpl; [done|]. case_decide; intros Heq.
  - simplify_eq. split; [left|done].
  - destruct (IH Heq). split; [by right|done].
Qed.

Lemma mm_find_None k m : mm_find k m = None <-> Forall (fun e => e.1 <> k) m.
Proof.
  induction m as [|e m IH]; simpl.
  - split; [constructor|done].
  - rewrite Forall_cons, <- IH. case_decide; split; [done| by intros [] | done | by intros []].
Qed.

Lemma mm_find_insert_ne k k' v m :
  k <> k' -> mm_find k' (mm_insert k v m) = mm_find k' m.
Proof.
  intros Hk. induction m as [|e m IH]; simpl; [by rewrite decide_False|].
  case_decide; simpl.
  - rewrite IH. done.
  - by rewrite decide_False.
Qed.

(** A key that is not in the map is found after its insertion. *)
Lemma mm_find_insert_new k v m :
  mm_find k m = None -> mm_find k (mm_insert k v m) = Some (k, v).
Proof.
  induction m as [|e m IH]; simpl; intros Hf; [by rewrite decide_True|].
  case_decide; [done|]. case_decide; simpl.
  - rewrite decide_False by done. auto.
  - by rewrite decide_True.
Qed.

Lemma mm_next_elem e m : e ∈ m <-> is_Some (mm_next e m).
Proof.
  induction m as [|e' m IH]; simpl.
  - split; [by intros ?%not_elem_of_nil | by intros []].
  - rewrite elem_of_cons. case_decide; subst.
    + split; [by eexists | by left].
    + rewrite IH. split; [intros [->|?]; done | by right].
Qed.

(** The next iterator of a duplicate-free map survives the erasure of this one. *)
Lemma mm_next_incl e m n : mm_next e m = Some (Some n) -> n ∈ m.
Proof.
  induction m as [|e' m IH]; simpl; [done|]. case_decide.
  - intros [= Hh]. apply head_Some in Hh as [l ->]. right. left.
  - intros Hn. right. auto.
Qed.

Lemma mm_next_survives e m n :
  NoDup m -> mm_next e m = Some (Some n) -> n ∈ mm_erase e m.
Proof.
  induction 1 as [|e' m He Hm IH]; simpl; [done|]. case_decide; subst.
  - intros [= Hn]. apply head_Some in Hn as [l ->]. by left.
  - intros Hn. right. auto.
Qed.

(** The suffix of the map that starts at an iterator. *)
Fixpoint mm_from (e : entry) (m : list entry) : list entry :=
  match m with
  | [] => []
  | e' :: m' => if decide (e' = e) then m else mm_from e m'
  end.

Lemma mm_next_from e m n :
  mm_next e m = Some n -> exists l, mm_from e m = e :: l /\ head l = n.
Proof.
  induction m as [|e' m IH]; simpl; [done|]. case_decide; subst.
  - intros [= <-]. eauto.
  - apply IH.
Qed.
End MultiMap.
