(* ===== verification/Memory.v ===== *)
(** * Byte memory

    Structures that the sources overlay (the union [sctp_notification]) or copy
    as raw bytes are modelled by their bytes: a list of [Z] in [0, 256), read
    and written at the offsets of the C layout, little endian. *)

From S2P Require Import Prelude.
Local Open Scope Z_scope.

Definition is_byte (b : Z) : Prop := 0 <= b < 256.
Definition bytes_ok (b : list Z) : Prop := Forall is_byte b.

Fixpoint le_split (n : nat) (v : Z) : list Z :=
  match n with
  | O => []
  | S n => v mod 256 :: le_split n (v / 256)
  end.

Fixpoint le_combine (bs : list Z) : Z :=
  match bs with
  | [] => 0
  | b :: bs => b + 256 * le_combine bs
  end.

(** Read, write an [n]-byte unsigned field at an offset. *)
Definition get (off n : nat) (b : list Z) : Z := le_combine (take n (drop off b)).
Definition put_bytes (off : nat) (bs b : list Z) : list Z :=
  take off b ++ bs ++ drop (off + length bs) b.
Definition put (off n : nat) (v : Z) (b : list Z) : list Z := put_bytes off (le_split n v) b.

Lemma length_le_split n v : length (le_split n v) = n.
Proof. revert v. induction n; simpl; auto. Qed.

Lemma le_combine_split n v : le_combine (le_split n v) = v mod 2 ^ (8 * Z.of_nat n).
Proof.
  revert v. induction n as [|n IH]; intros v; cbn [le_split le_combine].
  - by rewrite Z.mod_1_r.
  - rewrite IH. replace (8 * Z.of_nat (S n)) with (8 * Z.of_nat n + 8) by lia.
    rewrite Z.pow_add_r by lia. change (2 ^ 8) with 256.
    rewrite (Z.mul_comm (2 ^ _)), Z.rem_mul_r by lia. lia.
Qed.

Lemma le_split_ok n v : bytes_ok (le_split n v).
Proof.
  unfold bytes_ok. revert v. induction n as [|n IH]; intros v; simpl; [constructor|]. constructor; [|apply IH].
  apply Z.mod_pos_bound. lia.
Qed.

Lemma le_combine_range bs :
  bytes_ok bs -> 0 <= le_combine bs < 2 ^ (8 * Z.of_nat (length bs)).
Proof.
  induction 1 as [|b bs Hb _ IH]; simpl le_combine; simpl length; [done|].
  replace (8 * Z.of_nat (S (length bs))) with (8 * Z.of_nat (length bs) + 8) by lia.
  rewrite Z.pow_add_r by lia. change (2 ^ 8) with 256. unfold is_byte in Hb. lia.
Qed.

Lemma length_put_bytes off bs b :
  (off + length bs <= length b)%nat -> length (put_bytes off bs b) = length b.
Proof.
  intros. unfold put_bytes. rewrite !length_app, length_take, length_drop. lia.
Qed.

Lemma length_put off n v b : (off + n <= length b)%nat -> length (put off n v b) = length b.
Proof. intros. apply length_put_bytes. by rewrite length_le_split. Qed.

Lemma get_take off n k b : (off + n <= k)%nat -> get off n (take k b) = get off n b.
Proof. intros H. unfold get. rewrite skipn_firstn_comm, take_take. do 2 f_equal. lia. Qed.

Lemma put_bytes_ok off bs b : bytes_ok bs -> bytes_ok b -> bytes_ok (put_bytes off bs b).
Proof.
  intros. unfold bytes_ok, put_bytes.
  rewrite !Forall_app. repeat split; [by apply Forall_take | done | by apply Forall_drop].
Qed.

Lemma put_ok off n v b : bytes_ok b -> bytes_ok (put off n v b).
Proof. intros. apply put_bytes_ok; [apply le_split_ok | done]. Qed.

Lemma get_range off n b :
  (off + n <= length b)%nat -> bytes_ok b -> 0 <= get off n b < 2 ^ (8 * Z.of_nat n).
Proof.
  intros Hl Hb. unfold get.
  assert (Hlen : length (take n (drop off b)) = n).
  { rewrite length_take, length_drop. lia. }
  pose proof (le_combine_range (take n (drop off b))) as H. rewrite Hlen in H.
  apply H. by apply Forall_take, Forall_drop.
Qed.

Lemma take_drop_put_same off bs b :
  (off <= length b)%nat -> take (length bs) (drop off (put_bytes off bs b)) = bs.
Proof.
  intros. unfold put_bytes.
  assert (Ht : length (take off b) = off) by (rewrite length_take; lia).
  rewrite drop_app_ge by lia. rewrite Ht, Nat.sub_diag, drop_0.
  by rewrite take_app_length.
Qed.

Lemma get_put_same off n v b :
  (off + n <= length b)%nat -> get off n (put off n v b) = v mod 2 ^ (8 * Z.of_nat n).
Proof.
  intros. unfold get, put. rewrite <- le_combine_split. f_equal.
  rewrite <- (length_le_split n v) at 1. apply take_drop_put_same. lia.
Qed.

Lemma lookup_put_bytes off bs b i :
  (off + length bs <= length b)%nat ->
  put_bytes off bs b !! i =
    if decide (off <= i < off + length bs)%nat then bs !! (i - off)%nat else b !! i.
Proof.
  intros Hl. unfold put_bytes.
  assert (Ht : length (take off b) = off) by (rewrite length_take; lia).
  destruct (decide (i < off)%nat).
  - rewrite lookup_app_l by lia. rewrite lookup_take_lt by lia.
    by rewrite decide_False by lia.
  - rewrite lookup_app_r by lia. rewrite Ht.
    destruct (decide (i < off + length bs)%nat).
    + rewrite lookup_app_l by lia. by rewrite decide_True by lia.
    + rewrite lookup_app_r by lia. rewrite lookup_drop.
      rewrite decide_False by lia. f_equal. lia.
Qed.

Lemma get_put_bytes_ne off bs off' n' b :
  (off + length bs <= length b)%nat ->
  (off' + n' <= off \/ off + length bs <= off')%nat ->
  get off' n' (put_bytes off bs b) = get off' n' b.
Proof.
  intros Hl Hd. unfold get. f_equal. apply list_eq. intros i.
  destruct (decide (i < n')%nat).
  - rewrite !lookup_take_lt, !lookup_drop by lia.
    rewrite lookup_put_bytes by done. by rewrite decide_False by lia.
  - by rewrite !lookup_take_ge by lia.
Qed.

Lemma get_put_ne off n v off' n' b :
  (off + n <= length b)%nat -> (off' + n' <= off \/ off + n <= off')%nat ->
  get off' n' (put off n v b) = get off' n' b.
Proof. intros. unfold put. apply get_put_bytes_ne; rewrite ?length_le_split; lia. Qed.

(** A wide member is read byte group by byte group. *)
Lemma le_combine_app b1 b2 :
  le_combine (b1 ++ b2) = le_combine b1 + 2 ^ (8 * Z.of_nat (length b1)) * le_combine b2.
Proof.
  induction b1 as [|x b1 IH]; cbn [le_combine app length]; [rewrite Z.mul_0_r; lia|].
  rewrite IH. replace (8 * Z.of_nat (S (length b1))) with (8 + 8 * Z.of_nat (length b1)) by lia.
  rewrite Z.pow_add_r by lia. change (2 ^ 8) with 256. lia.
Qed.

Lemma get_split off n m b :
  (off + n <= length b)%nat ->
  get off (n + m) b = get off n b + 2 ^ (8 * Z.of_nat n) * get (off + n) m b.
Proof.
  intros Hl. unfold get. rewrite <- take_take_drop, le_combine_app, length_take, length_drop.
  rewrite drop_drop. repeat f_equal; lia.
Qed.

(** Decide a read over a chain of writes at literal offsets. *)
Ltac mem_len := rewrite ?length_put, ?length_put_bytes; simpl; lia.
Ltac mem_get :=
  repeat first
    [ rewrite get_put_same by (repeat (rewrite length_put by mem_len); simpl in *; lia)
    | rewrite get_put_ne by (repeat (rewrite length_put by mem_len); simpl in *; lia) ].
