(* ===== verification/Notification.v ===== *)
(** * Notifications

    The union [sctp_notification] of [ext_socket.h] as the bytes the C structs
    occupy (LP64 Linux, little endian), and the record [SCTPNotification] of
    [sctpnotificationqueue.h] that the queues hold. *)

From S2P Require Import Prelude Memory.
Local Open Scope Z_scope.

(** ** Notification types and event flags *)

Definition SCTP_UNDEFINED : Z := 0.
Definition SCTP_ASSOC_CHANGE : Z := 1.
Definition SCTP_PEER_ADDR_CHANGE : Z := 2.
Definition SCTP_REMOTE_ERROR : Z := 3.
Definition SCTP_SEND_FAILED : Z := 4.
Definition SCTP_SHUTDOWN_EVENT : Z := 5.
Definition SCTP_DATA_ARRIVE : Z := 8.
Definition SCTP_ARRIVE_UNORDERED : Z := 1.

Definition SCTP_COMM_UP : Z := 11.
Definition SCTP_COMM_LOST : Z := 12.
Definition SCTP_RESTART : Z := 13.
Definition SCTP_SHUTDOWN_COMP : Z := 14.

Definition SCTP_ADDR_REACHABLE : Z := 21.
Definition SCTP_ADDR_UNREACHABLE : Z := 22.
Definition SCTP_ADDR_REMOVED : Z := 23.
Definition SCTP_ADDR_ADDED : Z := 24.
Definition SCTP_ADDR_CONFIRMED : Z := 26.

Definition SCTP_RECVDATAIOEVNT : Z := 2 ^ 0.
Definition SCTP_RECVASSOCEVNT : Z := 2 ^ 1.
Definition SCTP_RECVPADDREVNT : Z := 2 ^ 2.
Definition SCTP_RECVPEERERR : Z := 2 ^ 3.
Definition SCTP_RECVSENDFAILEVNT : Z := 2 ^ 4.
Definition SCTP_RECVSHUTDOWNEVNT : Z := 2 ^ 5.
Definition SCTP_RECVADAPTATIONINDICATION : Z := 2 ^ 6.
Definition SCTP_RECVPDEVNT : Z := 2 ^ 7.

(** ** Struct layouts: a field is an offset and a width in bytes *)

Record field : Type := Fld { f_off : nat; f_len : nat }.

Definition rd (f : field) (c : list Z) : Z := get (f_off f) (f_len f) c.
Definition wr (f : field) (v : Z) (c : list Z) : list Z := put (f_off f) (f_len f) v c.

(** The members of [sn_header], shared by every struct of the union. *)
Definition sn_type : field := Fld 0 2.
Definition sn_flags : field := Fld 2 2.
Definition sn_length : field := Fld 4 4.

(** [struct sctp_assoc_change] *)
Definition sac_state : field := Fld 8 2.
Definition sac_error : field := Fld 10 2.
Definition sac_outbound_streams : field := Fld 12 2.
Definition sac_inbound_streams : field := Fld 14 2.
Definition sac_assoc_id : field := Fld 16 4.
Definition sizeof_sctp_assoc_change : Z := 20.

(** [struct sctp_paddr_change] *)
Definition spc_aaddr : field := Fld 8 128.
Definition spc_state : field := Fld 136 4.
Definition spc_error : field := Fld 140 4.
Definition spc_assoc_id : field := Fld 144 4.
Definition sizeof_sctp_paddr_change : Z := 152.

(** [struct sctp_remote_error] *)
Definition sre_error : field := Fld 8 2.
Definition sre_assoc_id : field := Fld 12 4.
Definition sizeof_sctp_remote_error : Z := 16.

(** [struct sctp_send_failed] with its [struct sctp_sndrcvinfo] *)
Definition ssf_error : field := Fld 8 4.
Definition ssf_info_sinfo_stream : field := Fld 12 2.
Definition ssf_info_sinfo_ssn : field := Fld 14 2.
Definition ssf_info_sinfo_flags : field := Fld 16 4.
Definition ssf_info_sinfo_ppid : field := Fld 20 4.
Definition ssf_info_sinfo_context : field := Fld 24 4.
Definition ssf_info_sinfo_timetolive : field := Fld 28 4.
Definition ssf_info_sinfo_assoc_id : field := Fld 40 4.
Definition ssf_assoc_id : field := Fld 44 4.
Definition sizeof_sctp_send_failed : Z := 48.

(** [struct sctp_shutdown_event] *)
Definition sse_assoc_id : field := Fld 8 4.
Definition sizeof_sctp_shutdown_event : Z := 12.

(** [struct sctp_data_arrive] *)
Definition sda_assoc_id : field := Fld 8 4.
Definition sda_stream : field := Fld 12 2.
Definition sda_ppid : field := Fld 16 4.
Definition sda_bytes_arrived : field := Fld 20 4.
Definition sizeof_sctp_data_arrive : Z := 24.

(** [sizeof(sctp_notification)] *)
Definition sizeof_sctp_notification : nat := 152.

(** ** Laws of the accessors *)

Definition f_end (f : field) : nat := (f_off f + f_len f)%nat.
Definition f_disjoint (f g : field) : bool :=
  bool_decide (f_end f <= f_off g \/ f_end g <= f_off f)%nat.
Definition f_fits (f : field) : bool := bool_decide (f_end f <= sizeof_sctp_notification)%nat.

(** A well-formed union value. *)
Definition content_ok (c : list Z) : Prop :=
  length c = sizeof_sctp_notification /\ bytes_ok c.

Lemma length_wr f v c : f_fits f = true -> length c = sizeof_sctp_notification ->
  length (wr f v c) = sizeof_sctp_notification.
Proof.
  intros Hf%bool_decide_eq_true_1 Hl. unfold wr, f_end in *. rewrite length_put; lia.
Qed.

Lemma wr_ok f v c : f_fits f = true -> content_ok c -> content_ok (wr f v c).
Proof.
  intros Hf [Hl Hb]. split; [by apply length_wr|]. by apply put_ok.
Qed.

Lemma rd_wr_same f v c :
  f_fits f = true -> length c = sizeof_sctp_notification ->
  rd f (wr f v c) = v mod 2 ^ (8 * Z.of_nat (f_len f)).
Proof.
  intros Hf%bool_decide_eq_true_1 Hl. unfold rd, wr, f_end in *.
  apply get_put_same. lia.
Qed.

Lemma rd_wr_ne f g v c :
  f_fits g = true -> f_disjoint f g = true -> length c = sizeof_sctp_notification ->
  rd f (wr g v c) = rd f c.
Proof.
  intros Hg%bool_decide_eq_true_1 Hd%bool_decide_eq_true_1 Hl.
  unfold rd, wr, f_end in *. apply get_put_ne; lia.
Qed.

Lemma rd_range f c :
  f_fits f = true -> content_ok c -> 0 <= rd f c < 2 ^ (8 * Z.of_nat (f_len f)).
Proof.
  intros Hf%bool_decide_eq_true_1 [Hl Hb]. unfold rd, f_end in *. apply get_range; [lia|done].
Qed.

#[export] Hint Resolve wr_ok length_wr : sockapi.
#[export] Hint Extern 1 (f_fits _ = true) => reflexivity : sockapi.
#[export] Hint Extern 1 (f_disjoint _ _ = true) => reflexivity : sockapi.

(** Evaluate reads over chains of writes. *)
Ltac rd_wr :=
  repeat first
    [ rewrite rd_wr_same by eauto 20 with sockapi
    | rewrite rd_wr_ne by eauto 20 with sockapi ].

(** ** The condition on the event flags

    The same disjunction stands in [SCTPNotificationQueue::hasData], in
    [SCTPSocketMaster::addNotification] and, without its first case, in
    [SCTPSocket::internalReceive]. *)

Definition event_wanted (flags : Z) (ty : Z) : bool :=
  ((ty =? SCTP_ASSOC_CHANGE) && has_flag flags SCTP_RECVASSOCEVNT) ||
  ((ty =? SCTP_PEER_ADDR_CHANGE) && has_flag flags SCTP_RECVPADDREVNT) ||
  ((ty =? SCTP_REMOTE_ERROR) && has_flag flags SCTP_RECVPEERERR) ||
  ((ty =? SCTP_SEND_FAILED) && has_flag flags SCTP_RECVSENDFAILEVNT) ||
  ((ty =? SCTP_SHUTDOWN_EVENT) && has_flag flags SCTP_RECVSHUTDOWNEVNT).

Definition readable (flags : Z) (ty : Z) : bool :=
  (ty =? SCTP_DATA_ARRIVE) || event_wanted flags ty.

(** ** [SCTPNotification] *)

Record SCTPNotification : Type := {
  RemotePort : Z;
  RemoteAddresses : Z;
  RemoteAddress : list string;
  Content : list Z;
  ContentPosition : Z }.

Definition with_Content (n : SCTPNotification) (c : list Z) : SCTPNotification :=
  {| RemotePort := RemotePort n; RemoteAddresses := RemoteAddresses n;
     RemoteAddress := RemoteAddress n; Content := c;
     ContentPosition := ContentPosition n |}.
Definition with_ContentPosition (n : SCTPNotification) (p : Z) : SCTPNotification :=
  {| RemotePort := RemotePort n; RemoteAddresses := RemoteAddresses n;
     RemoteAddress := RemoteAddress n; Content := Content n;
     ContentPosition := p |}.

Definition n_type (n : SCTPNotification) : Z := rd sn_type (Content n).

Lemma event_wanted_none ty : event_wanted 0 ty = false.
Proof. unfold event_wanted. by rewrite !andb_false_r. Qed.

Lemma readable_spec flags ty :
  readable flags ty = true <->
  ty = SCTP_DATA_ARRIVE
  \/ ty = SCTP_ASSOC_CHANGE /\ Z.testbit flags 1 = true
  \/ ty = SCTP_PEER_ADDR_CHANGE /\ Z.testbit flags 2 = true
  \/ ty = SCTP_REMOTE_ERROR /\ Z.testbit flags 3 = true
  \/ ty = SCTP_SEND_FAILED /\ Z.testbit flags 4 = true
  \/ ty = SCTP_SHUTDOWN_EVENT /\ Z.testbit flags 5 = true.
Proof.
  unfold readable, event_wanted.
  rewrite !orb_true_iff, !andb_true_iff, !Z.eqb_eq.
  unfold SCTP_RECVASSOCEVNT, SCTP_RECVPADDREVNT, SCTP_RECVPEERERR,
    SCTP_RECVSENDFAILEVNT, SCTP_RECVSHUTDOWNEVNT.
  rewrite !has_flag_spec by lia. tauto.
Qed.
