(* ===== verification/NotificationQueue.v ===== *)
(** * [SCTPNotificationQueue] (sctpnotificationqueue.cc)

    The queue is a singly linked list of heap nodes with a [First] and a
    [Last] pointer.  [Spec] is the queue as a list of notifications; the
    definitions below it are the pointer operations of the code; [queue_rep]
    relates the two, and every operation refines its specification, with no
    use of freed memory and no leak.  The socket layer is modelled over
    [Spec]. *)

From S2P Require Import Prelude Memory Notification.

(** ** Specification *)

Module Spec.
Definition queue : Type := list SCTPNotification.

Definition empty : queue := [].
Definition addNotification (n : SCTPNotification) (q : queue) : queue := q ++ [n].
Definition getNotification (q : queue) : option SCTPNotification := head q.
Definition updateNotification (n : SCTPNotification) (q : queue) : queue :=
  match q with [] => [] | _ :: q => n :: q end.
Definition dropNotification (q : queue) : queue := tail q.
Definition hasData (flags : Z) (q : queue) : bool :=
  existsb (fun n => readable flags (n_type n)) q.

Lemma hasData_spec flags q :
  hasData flags q = true <-> exists n, n ∈ q /\ readable flags (n_type n) = true.
Proof.
  unfold hasData. rewrite existsb_exists.
  split; intros (n & Hin & Hr); exists n; split; auto; by apply list_elem_of_In.
Qed.

Lemma hasData_app flags q1 q2 :
  hasData flags (q1 ++ q2) = hasData flags q1 || hasData flags q2.
Proof. apply existsb_app. Qed.
End Spec.

(** ** The linked list *)

Record Node : Type := {
  node_notification : SCTPNotification;
  NextNotification : option nat }.

Record QState : Type := {
  q_heap : gmap nat Node;       (* the allocated nodes *)
  q_fresh : nat;                (* the next address [new] returns *)
  First : option nat;
  Last : option nat;
  Count : Z;
  UpdateCondition_Fired : bool }.

Definition set_heap h st :=
  {| q_heap := h; q_fresh := q_fresh st; First := First st; Last := Last st;
     Count := Count st; UpdateCondition_Fired := UpdateCondition_Fired st |}.
Definition set_First p st :=
  {| q_heap := q_heap st; q_fresh := q_fresh st; First := p; Last := Last st;
     Count := Count st; UpdateCondition_Fired := UpdateCondition_Fired st |}.
Definition set_Last p st :=
  {| q_heap := q_heap st; q_fresh := q_fresh st; First := First st; Last := p;
     Count := Count st; UpdateCondition_Fired := UpdateCondition_Fired st |}.
Definition set_Count c st :=
  {| q_heap := q_heap st; q_fresh := q_fresh st; First := First st; Last := Last st;
     Count := c; UpdateCondition_Fired := UpdateCondition_Fired st |}.

Definition Q (A : Type) : Type := M QState A.

Definition new_node (n : Node) : Q nat := fun st =>
  Ret (q_fresh st)
    {| q_heap := <[q_fresh st := n]> (q_heap st); q_fresh := S (q_fresh st);
       First := First st; Last := Last st; Count := Count st;
       UpdateCondition_Fired := UpdateCondition_Fired st |}.
Definition load (a : nat) : Q Node := fun st =>
  match q_heap st !! a with Some n => Ret n st | None => Stop UseAfterFree end.
Definition store (a : nat) (n : Node) : Q unit :=
  load a ;; modify (fun st => set_heap (<[a := n]> (q_heap st)) st).
Definition delete_node (a : nat) : Q unit :=
  load a ;; modify (fun st => set_heap (delete a (q_heap st)) st).
Definition signal : Q unit := modify (fun st =>
  {| q_heap := q_heap st; q_fresh := q_fresh st; First := First st; Last := Last st;
     Count := Count st; UpdateCondition_Fired := true |}).

Definition with_next (n : Node) (p : option nat) : Node :=
  {| node_notification := node_notification n; NextNotification := p |}.

(** [SCTPNotificationQueue::SCTPNotificationQueue] *)
Definition empty_queue : QState :=
  {| q_heap := ∅; q_fresh := 0; First := None; Last := None; Count := 0;
     UpdateCondition_Fired := false |}.

Definition addNotification (notification : SCTPNotification) : Q bool :=
  let* newNotification := new_node {| node_notification := notification;
                                      NextNotification := None |} in
  let* last := gets Last in
  match last with
  | Some l => let* n := load l in store l (with_next n (Some newNotification))
  | None => ret tt
  end ;;
  modify (set_Last (Some newNotification)) ;;
  let* first := gets First in
  when (bool_decide (first = None)) (modify (set_First (Some newNotification))) ;;
  modify (fun st => set_Count (u32 (Count st + 1)) st) ;;
  signal ;;
  ret true.

Definition getNotification : Q (option SCTPNotification) :=
  let* first := gets First in
  match first with
  | Some f => let* n := load f in ret (Some (node_notification n))
  | None => ret None
  end.

Definition updateNotification (notification : SCTPNotification) : Q unit :=
  let* first := gets First in
  match first with
  | Some f =>
      let* n := load f in
      let next := NextNotification n in
      store f {| node_notification := notification; NextNotification := next |}
  | None => ret tt
  end.

Definition dropNotification : Q unit :=
  let* first := gets First in
  match first with
  | Some f =>
      let* n := load f in
      let next := NextNotification n in
      let* last := gets Last in
      when (bool_decide (last = Some f)) (modify (set_Last next)) ;;
      delete_node f ;;
      modify (set_First next) ;;
      modify (fun st => set_Count (u32 (Count st - 1)) st)
  | None => ret tt
  end.

(** The deletion loop of [flush]; one unit of fuel per node. *)
Fixpoint flush_from (fuel : nat) (notification : option nat) : Q unit :=
  match notification, fuel with
  | None, _ => ret tt
  | Some _, O => stop OutOfFuel
  | Some a, S fuel =>
      let* n := load a in
      delete_node a ;;
      flush_from fuel (NextNotification n)
  end.

Definition flush : Q unit :=
  let* fuel := gets (fun st => size (q_heap st)) in
  let* first := gets First in
  flush_from fuel first ;;
  modify (set_First None) ;;
  modify (set_Last None) ;;
  modify (set_Count 0).

Fixpoint hasData_from (fuel : nat) (flags : Z) (notification : option nat) : Q bool :=
  match notification, fuel with
  | None, _ => ret false
  | Some _, O => stop OutOfFuel
  | Some a, S fuel =>
      let* n := load a in
      if readable flags (n_type (node_notification n)) then ret true
      else hasData_from fuel flags (NextNotification n)
  end.

Definition hasData (flags : Z) : Q bool :=
  let* fuel := gets (fun st => size (q_heap st)) in
  let* first := gets First in
  hasData_from fuel flags first.

(** ** The representation relation *)

Fixpoint chain (h : gmap nat Node) (p : option nat) (l : list (nat * SCTPNotification)) : Prop :=
  match l with
  | [] => p = None
  | (a, n) :: l =>
      p = Some a /\ exists nx, h !! a = Some {| node_notification := n; NextNotification := nx |}
                               /\ chain h nx l
  end.

Definition rep_with (st : QState) (l : list (nat * SCTPNotification)) : Prop :=
  chain (q_heap st) (First st) l
  /\ Last st = last l.*1
  /\ NoDup l.*1
  /\ dom (q_heap st) = list_to_set l.*1
  /\ (forall a, a ∈ l.*1 -> (a < q_fresh st)%nat)
  /\ Count st = u32 (Z.of_nat (length l)).

Definition queue_rep (st : QState) (ns : Spec.queue) : Prop :=
  exists l, rep_with st l /\ ns = l.*2.

Lemma chain_frame h a n p l : a ∉ l.*1 -> chain h p l -> chain (<[a := n]> h) p l.
Proof.
  revert p. induction l as [|[b m] l IH]; intros p Ha; simpl; [done|].
  rewrite fmap_cons, not_elem_of_cons in Ha. destruct Ha as [Hne Ha].
  intros (-> & nx & Hb & Hl). split; [done|]. exists nx.
  rewrite lookup_insert_ne by done. eauto.
Qed.

Lemma chain_delete h a p l : a ∉ l.*1 -> chain h p l -> chain (delete a h) p l.
Proof.
  revert p. induction l as [|[b m] l IH]; intros p Ha; simpl; [done|].
  rewrite fmap_cons, not_elem_of_cons in Ha. destruct Ha as [Hne Ha].
  intros (-> & nx & Hb & Hl). split; [done|]. exists nx.
  rewrite lookup_delete_ne by done. eauto.
Qed.

(** Linking a new node behind the last one. *)
Lemma chain_snoc h p l b nb a n :
  chain h p (l ++ [(b, nb)]) -> NoDup (l ++ [(b, nb)]).*1 -> a ∉ (l ++ [(b, nb)]).*1 ->
  chain (<[b := {| node_notification := nb; NextNotification := Some a |}]>
          (<[a := {| node_notification := n; NextNotification := None |}]> h))
        p (l ++ [(b, nb); (a, n)]).
Proof.
  revert p. induction l as [|[c m] l IH]; intros p; simpl.
  - intros (-> & nx & Hb & ->) _ Ha. rewrite list_elem_of_singleton in Ha.
    split; [done|]. exists (Some a). rewrite lookup_insert_eq. split; [done|].
    split; [done|]. exists None. by rewrite lookup_insert_ne, lookup_insert_eq.
  - intros (-> & nx & Hc & Hl) Hnd Ha. apply NoDup_cons in Hnd as [Hc' Hnd].
    rewrite not_elem_of_cons in Ha. destruct Ha as [Hne Ha].
    rewrite fmap_app, elem_of_app in Hc'. simpl in Hc'. rewrite list_elem_of_singleton in Hc'.
    split; [done|]. exists nx.
    rewrite !lookup_insert_ne by naive_solver. eauto.
Qed.

Lemma chain_head_load h p a n l : chain h p ((a, n) :: l) ->
  exists nx, h !! a = Some {| node_notification := n; NextNotification := nx |} /\ chain h nx l.
Proof. simpl. naive_solver. Qed.

Lemma chain_last_load h p l a n : chain h p (l ++ [(a, n)]) ->
  h !! a = Some {| node_notification := n; NextNotification := None |}.
Proof. revert p. induction l as [|[b m] l IH]; simpl; naive_solver. Qed.

Lemma queue_rep_empty : queue_rep empty_queue Spec.empty.
Proof. exists []. repeat split; simpl; try set_solver. constructor. Qed.

(** ** Refinement, one lemma per operation *)

Ltac run := unfold store, delete_node, new_node, signal, load, when, of_option,
  bind, ret, gets, modify, stop; simpl.

Lemma rep_fresh_notin st l : rep_with st l -> q_fresh st ∉ l.*1.
Proof. intros (_ & _ & _ & _ & Hfr & _) Hin. apply Hfr in Hin. lia. Qed.

Lemma addNotification_refines st ns n :
  queue_rep st ns ->
  exists st', addNotification n st = Ret true st'
    /\ queue_rep st' (Spec.addNotification n ns) /\ UpdateCondition_Fired st' = true.
Proof.
  intros (l & Hrep & ->). pose proof (rep_fresh_notin _ _ Hrep) as Hnew.
  destruct Hrep as (Hch & Hlast & Hnd & Hdom & Hfr & Hcnt).
  unfold Spec.addNotification.
  assert (Hrep' : forall st', First st' = First st \/ l = [] /\ First st' = Some (q_fresh st) ->
    chain (q_heap st') (First st') (l ++ [(q_fresh st, n)]) ->
    Last st' = Some (q_fresh st) -> dom (q_heap st') = {[q_fresh st]} ∪ dom (q_heap st) ->
    q_fresh st' = S (q_fresh st) -> Count st' = u32 (Count st + 1) ->
    queue_rep st' (l.*2 ++ [n])).
  { intros st' _ Hch' Hl' Hd' Hf' Hc'. exists (l ++ [(q_fresh st, n)]).
    split; [|by rewrite fmap_app]. unfold rep_with. rewrite !fmap_app. simpl.
    repeat split; [done | by rewrite last_snoc | | | | ].
    - apply NoDup_app. repeat split; [done | | apply NoDup_singleton].
      intros a Ha. rewrite list_elem_of_singleton. intros ->. done.
    - rewrite Hd', Hdom, list_to_set_app_L. simpl. set_solver.
    - intros a. rewrite elem_of_app, list_elem_of_singleton, Hf'.
      intros [Ha| ->]; [apply Hfr in Ha|]; lia.
    - rewrite Hc', Hcnt, length_app. simpl. unfold wrap.
      rewrite Zplus_mod_idemp_l. f_equal. lia. }
  unfold addNotification. run. rewrite Hlast.
  destruct l as [|[b nb] l0 _] using rev_ind.
  - simpl in Hch. rewrite Hch. simpl. eexists. split; [reflexivity|]. split; [|done].
    apply Hrep'; simpl; auto.
    + split; [done|]. exists None. by rewrite lookup_insert_eq.
    + apply dom_insert_L.
  - rewrite fmap_app. simpl. rewrite last_snoc. simpl.
    pose proof (chain_last_load _ _ _ _ _ Hch) as Hb.
    assert (Hne : q_fresh st <> b).
    { intros <-. apply Hnew. rewrite fmap_app, elem_of_app. right. by left. }
    rewrite !lookup_insert_ne by done. rewrite Hb. simpl. run.
    rewrite lookup_insert_ne by done. rewrite Hb.
    assert (Hf : First st <> None) by (destruct l0 as [|[] ?]; simpl in Hch; naive_solver).
    rewrite bool_decide_false by done. simpl.
    eexists. split; [reflexivity|]. split; [|done].
    apply Hrep'; simpl; auto.
    + rewrite <- app_assoc. simpl. by apply chain_snoc.
    + rewrite !dom_insert_L. apply elem_of_dom_2 in Hb. set_solver.
Qed.

Lemma getNotification_refines st ns :
  queue_rep st ns -> getNotification st = Ret (Spec.getNotification ns) st.
Proof.
  intros (l & (Hch & _) & ->). unfold getNotification. run.
  destruct l as [|[a n] l]; simpl in *; [by rewrite Hch|].
  destruct Hch as (-> & nx & Ha & _). run. by rewrite Ha.
Qed.

Lemma updateNotification_refines st ns n :
  queue_rep st ns ->
  exists st', updateNotification n st = Ret tt st'
              /\ queue_rep st' (Spec.updateNotification n ns).
Proof.
  intros (l & (Hch & Hlast & Hnd & Hdom & Hfr & Hcnt) & ->).
  unfold updateNotification. run. destruct l as [|[a m] l]; simpl in *.
  - rewrite Hch. eexists. split; [reflexivity|]. exists []. repeat split; done.
  - destruct Hch as (Hf & nx & Ha & Hl). rewrite Hf. run. rewrite Ha. rewrite Ha. simpl.
    eexists. split; [reflexivity|]. exists ((a, n) :: l).
    apply NoDup_cons in Hnd as [Hnin Hnd].
    repeat split; simpl; auto; [ | by constructor | ].
    + exists nx. rewrite lookup_insert_eq. split; [done|]. by apply chain_frame.
    + rewrite dom_insert_L. apply elem_of_dom_2 in Ha. set_solver.
Qed.

Lemma dropNotification_refines st ns :
  queue_rep st ns ->
  exists st', dropNotification st = Ret tt st' /\ queue_rep st' (Spec.dropNotification ns).
Proof.
  intros (l & (Hch & Hlast & Hnd & Hdom & Hfr & Hcnt) & ->).
  unfold dropNotification. run. destruct l as [|[a m] l]; simpl in *.
  - rewrite Hch. eexists. split; [reflexivity|]. exists []. repeat split; done.
  - destruct Hch as (Hf & nx & Ha & Hl). rewrite Hf. run. rewrite Ha.
    apply NoDup_cons in Hnd as [Hnin Hnd].
    assert (Hlast' : (if bool_decide (Last st = Some a) then nx else Last st) = last l.*1).
    { rewrite Hlast. destruct l as [|[b k] l].
      - simpl in *. by rewrite bool_decide_true.
      - rewrite bool_decide_false; [done|]. intros Heq.
        apply Hnin, list_elem_of_lookup. change (last (b :: l.*1) = Some a) in Heq.
        rewrite last_lookup in Heq. eauto. }
    case_bool_decide; simpl; rewrite Ha; simpl; (eexists; split; [reflexivity|]);
      exists l; (split; [|done]); repeat split; simpl; auto using chain_delete;
      try (rewrite dom_delete_L, Hdom; set_solver);
      try (intros b Hb; apply Hfr; by right);
      rewrite Hcnt; unfold wrap; rewrite Zminus_mod_idemp_l; f_equal; lia.
Qed.

Lemma flush_from_refines l : forall fuel p st,
  chain (q_heap st) p l -> NoDup l.*1 -> dom (q_heap st) = list_to_set l.*1 ->
  (length l <= fuel)%nat ->
  flush_from fuel p st = Ret tt (set_heap ∅ st).
Proof.
  induction l as [|[a n] l IH]; intros fuel p st Hch Hnd Hdom Hfuel.
  - simpl in *. subst p. apply dom_empty_inv_L in Hdom.
    destruct fuel; unfold ret; simpl; f_equal; destruct st; simpl in *; by subst.
  - destruct Hch as (-> & nx & Ha & Hl). destruct fuel as [|fuel]; simpl in *; [lia|].
    run. rewrite Ha. simpl. rewrite Ha. simpl.
    apply NoDup_cons in Hnd as [Hnin Hnd].
    rewrite (IH fuel nx); [done|..]; simpl; auto using chain_delete; [|lia].
    rewrite dom_delete_L, Hdom. set_solver.
Qed.

Lemma rep_size st l : rep_with st l -> size (q_heap st) = length l.
Proof.
  intros (_ & _ & Hnd & Hdom & _). rewrite <- size_dom, Hdom.
  rewrite size_list_to_set by done. by rewrite length_fmap.
Qed.

Lemma flush_refines st ns :
  queue_rep st ns ->
  exists st', flush st = Ret tt st' /\ queue_rep st' Spec.empty /\ q_heap st' = ∅.
Proof.
  intros (l & Hrep & ->). pose proof (rep_size _ _ Hrep) as Hsz.
  destruct Hrep as (Hch & Hlast & Hnd & Hdom & Hfr & Hcnt).
  unfold flush. run. rewrite (flush_from_refines l) by (done || lia).
  eexists. split; [reflexivity|]. split; [|done].
  exists []. repeat split; simpl; try set_solver. constructor.
Qed.

Lemma hasData_from_refines flags l : forall fuel p st,
  chain (q_heap st) p l -> (length l <= fuel)%nat ->
  hasData_from fuel flags p st = Ret (Spec.hasData flags l.*2) st.
Proof.
  induction l as [|[a n] l IH]; intros fuel p st Hch Hfuel.
  - simpl in *. subst p. by destruct fuel.
  - destruct Hch as (-> & nx & Ha & Hl). destruct fuel as [|fuel]; simpl in *; [lia|].
    run. rewrite Ha. simpl. destruct (readable flags (n_type n)); simpl; [done|].
    rewrite IH by (done || lia). done.
Qed.

Lemma hasData_refines st ns flags :
  queue_rep st ns -> hasData flags st = Ret (Spec.hasData flags ns) st.
Proof.
  intros (l & Hrep & ->). pose proof (rep_size _ _ Hrep) as Hsz.
  destruct Hrep as (Hch & _). unfold hasData. run.
  rewrite (hasData_from_refines flags l) by (done || lia). done.
Qed.

Lemma count_refines st ns : queue_rep st ns -> Count st = u32 (Z.of_nat (length ns)).
Proof. intros (l & (_ & _ & _ & _ & _ & ->) & ->). by rewrite length_fmap. Qed.

(** ** The whole component: sequences of operations *)

Inductive qop : Type :=
| OpAdd (n : SCTPNotification)
| OpGet
| OpUpdate (n : SCTPNotification)
| OpDrop
| OpHasData (flags : Z)
| OpFlush.

(** The results of the operations, in one type. *)
Inductive qres : Type :=
| RBool (b : bool)
| RNotification (o : option SCTPNotification)
| RVoid.

Definition run_op (op : qop) : Q qres :=
  match op with
  | OpAdd n => let* b := addNotification n in ret (RBool b)
  | OpGet => let* o := getNotification in ret (RNotification o)
  | OpUpdate n => updateNotification n ;; ret RVoid
  | OpDrop => dropNotification ;; ret RVoid
  | OpHasData flags => let* b := hasData flags in ret (RBool b)
  | OpFlush => flush ;; ret RVoid
  end.

Definition spec_op (op : qop) (q : Spec.queue) : qres * Spec.queue :=
  match op with
  | OpAdd n => (RBool true, Spec.addNotification n q)
  | OpGet => (RNotification (Spec.getNotification q), q)
  | OpUpdate n => (RVoid, Spec.updateNotification n q)
  | OpDrop => (RVoid, Spec.dropNotification q)
  | OpHasData flags => (RBool (Spec.hasData flags q), q)
  | OpFlush => (RVoid, Spec.empty)
  end.

Fixpoint run_ops (ops : list qop) : Q (list qres) :=
  match ops with
  | [] => ret []
  | op :: ops => let* r := run_op op in let* rs := run_ops ops in ret (r :: rs)
  end.

Fixpoint spec_ops (ops : list qop) (q : Spec.queue) : list qres * Spec.queue :=
  match ops with
  | [] => ([], q)
  | op :: ops =>
      let '(r, q) := spec_op op q in
      let '(rs, q) := spec_ops ops q in (r :: rs, q)
  end.

Lemma run_op_refines op st q :
  queue_rep st q ->
  exists st', run_op op st = Ret (spec_op op q).1 st' /\ queue_rep st' (spec_op op q).2.
Proof.
  intros Hrep. destruct op; simpl; unfold bind.
  - destruct (addNotification_refines st q n Hrep) as (st' & -> & H & _). simpl. eauto.
  - rewrite (getNotification_refines st q Hrep). simpl. eauto.
  - destruct (updateNotification_refines st q n Hrep) as (st' & -> & H). simpl. eauto.
  - destruct (dropNotification_refines st q Hrep) as (st' & -> & H). simpl. eauto.
  - rewrite (hasData_refines st q flags Hrep). simpl. eauto.
  - destruct (flush_refines st q Hrep) as (st' & -> & H & _). simpl. eauto.
Qed.

(** C1. Refinement of the notification queue: any sequence of queue operations
    started on a freshly constructed queue runs without touching freed memory
    and without exhausting a loop bound, returns exactly what the list
    specification returns, and leaves a linked list that represents the
    specification's queue (no leaked node, [Last] at the end, [Count] right).
    As in the code, and against its comments ("Get and remove notification from
    top of queue"), [getNotification] of the specification returns the head and
    leaves it where it is; [internalReceive], which reads a notification in
    several pieces, removes it with [dropNotification] when all is read. *)
Theorem run_ops_refines (ops : list qop) :
  exists st', run_ops ops empty_queue = Ret (spec_ops ops Spec.empty).1 st'
              /\ queue_rep st' (spec_ops ops Spec.empty).2
              /\ Count st' = u32 (Z.of_nat (length (spec_ops ops Spec.empty).2)).
Proof.
  enough (H : forall st q, queue_rep st q ->
    exists st', run_ops ops st = Ret (spec_ops ops q).1 st'
                /\ queue_rep st' (spec_ops ops q).2).
  { destruct (H _ _ queue_rep_empty) as (st' & Hrun & Hrep).
    exists st'. eauto using count_refines. }
  induction ops as [|op ops IH]; intros st q Hrep; simpl; [eauto|].
  unfold bind. destruct (run_op_refines op st q Hrep) as (st1 & -> & Hrep1).
  destruct (spec_op op q) as [r q1]. simpl in *.
  destruct (IH st1 q1 Hrep1) as (st2 & -> & Hrep2).
  destruct (spec_ops ops q1) as [rs q2]. simpl in *. eauto.
Qed.
