(* ===== verification/Condition.v ===== *)
(** * [Condition] (condition.cc, condition.icc)

    A condition variable with a sticky [Fired] flag and a set of parent
    conditions that are fired with it.  The conditions of the process are a
    finite map from identities (object addresses) to their members; the calls
    of [pthread_cond_signal] and [pthread_cond_broadcast] are logged.  The
    recursion over the parents is bounded by fuel; any fuel above the height
    of the (acyclic) parent graph is enough. *)

From S2P Require Import Prelude.
Local Open Scope Z_scope.

Section Condition.
Context {K : Type} `{Countable K}.

Record Cond : Type := { Fired : bool; ParentSet : gset K }.

Inductive Wakeup : Type := PthreadSignal (k : K) | PthreadBroadcast (k : K).

Record CState : Type := { conds : gmap K Cond; wakeups : list Wakeup }.

Definition set_cond (k : K) (c : Cond) (s : CState) : CState :=
  {| conds := <[k := c]> (conds s); wakeups := wakeups s |}.
Definition log_wakeup (w : Wakeup) (s : CState) : CState :=
  {| conds := conds s; wakeups := wakeups s ++ [w] |}.

Definition C (A : Type) : Type := M CState A.

Definition load_cond (k : K) : C Cond := fun s =>
  match conds s !! k with Some c => Ret c s | None => Stop UseAfterFree end.
Definition set_Fired (b : bool) (k : K) : C unit :=
  let* c := load_cond k in
  modify (set_cond k {| Fired := b; ParentSet := ParentSet c |}).
Definition set_ParentSet (p : gset K) (k : K) : C unit :=
  let* c := load_cond k in
  modify (set_cond k {| Fired := Fired c; ParentSet := p |}).

(** [Condition::signal] *)
Fixpoint signal (fuel : nat) (k : K) : C unit :=
  match fuel with
  | O => stop OutOfFuel
  | S fuel =>
      set_Fired true k ;;
      modify (log_wakeup (PthreadSignal k)) ;;
      let* c := load_cond k in
      for_each (elements (ParentSet c)) (signal fuel)
  end.

(** [Condition::broadcast] *)
Fixpoint broadcast (fuel : nat) (k : K) : C unit :=
  match fuel with
  | O => stop OutOfFuel
  | S fuel =>
      set_Fired true k ;;
      modify (log_wakeup (PthreadBroadcast k)) ;;
      let* c := load_cond k in
      for_each (elements (ParentSet c)) (broadcast fuel)
  end.

(** [Condition::addParent], [Condition::removeParent] *)
Definition addParent (fuel : nat) (k : K) (parentCondition : option K) : C unit :=
  match parentCondition with
  | Some p =>
      let* c := load_cond k in
      set_ParentSet ({[p]} ∪ ParentSet c) k ;;
      let* c := load_cond k in
      when (Fired c) (broadcast fuel p)
  | None => ret tt
  end.

Definition removeParent (k : K) (parentCondition : option K) : C unit :=
  match parentCondition with
  | Some p =>
      let* c := load_cond k in
      set_ParentSet (ParentSet c ∖ {[p]}) k
  | None => ret tt
  end.

(** [Condition::Condition]; [Fired] is assigned after [addParent] has looked at
    it: [memory] is what the flag is before. *)
Definition new_Condition (memory : bool) (fuel : nat) (k : K) (parentCondition : option K) : C unit :=
  modify (set_cond k {| Fired := memory; ParentSet := ∅ |}) ;;
  addParent fuel k parentCondition ;;
  set_Fired false k.

(** [Condition::fired], [Condition::peekFired] *)
Definition fired (k : K) : C bool :=
  let* c := load_cond k in
  let f := Fired c in
  set_Fired false k ;;
  ret f.

Definition peekFired (k : K) : C bool :=
  let* c := load_cond k in
  ret (Fired c).

(** One call of [pthread_cond_timedwait]: its result, after the state has
    been changed by whatever the other threads did meanwhile. *)
Inductive WaitResult : Type := WaitOk | WaitEINTR | WaitTimeout.
Definition wait_step : Type := CState -> WaitResult * CState.

Definition clear_if_woken (k : K) (result : WaitResult) : C bool :=
  match result with
  | WaitOk => set_Fired false k ;; ret true
  | _ => ret false
  end.

(** The body of [Condition::timedWait] after the time-out computation, over
    the results the kernel gives to the successive waits. *)
Fixpoint wait_loop (k : K) (waits : list wait_step) : C bool :=
  let* c := load_cond k in
  if Fired c then clear_if_woken k WaitOk
  else match waits with
       | [] => stop WouldBlock
       | w :: waits => fun s =>
           match w s with
           | (WaitEINTR, s') => wait_loop k waits s'
           | (r, s') => clear_if_woken k r s'
           end
       end.

Definition timedWait (k : K) (waits : list wait_step) : C bool := wait_loop k waits.

(** ** The parent graph *)

Definition parent (h : gmap K Cond) (k p : K) : Prop :=
  exists c, h !! k = Some c /\ p ∈ ParentSet c.

(** Every parent is a live condition, and [rank] decreases along the edges. *)
Record graph_ok (rank : K -> nat) (h : gmap K Cond) : Prop := {
  graph_closed k p : parent h k p -> is_Some (h !! p);
  graph_rank k p : parent h k p -> (rank p < rank k)%nat }.

Definition same_parents (h h' : gmap K Cond) : Prop :=
  forall k, ParentSet <$> h !! k = ParentSet <$> h' !! k.

Lemma same_parents_parent h h' k p : same_parents h h' -> parent h k p -> parent h' k p.
Proof.
  intros Hs (c & Hc & Hp). specialize (Hs k). rewrite Hc in Hs. simpl in Hs.
  destruct (h' !! k) as [c'|] eqn:E; simplify_eq/=. exists c'. split; congruence.
Qed.

#[export] Instance same_parents_equiv : Equivalence same_parents.
Proof.
  split.
  - by intros h k.
  - by intros h h' Hs k.
  - intros h1 h2 h3 H12 H23 k. by rewrite H12.
Qed.

#[export] Instance parent_proper :
  Proper (same_parents ==> eq ==> eq ==> iff) parent.
Proof.
  intros h h' Hs k ? <- p ? <-. split; apply same_parents_parent; [done|]. by symmetry.
Qed.

Lemma same_parents_dom h h' k : same_parents h h' -> is_Some (h !! k) <-> is_Some (h' !! k).
Proof.
  intros Hs. specialize (Hs k).
  destruct (h !! k), (h' !! k); simplify_eq/=; split; eauto; intros [? [=]].
Qed.

#[export] Instance graph_ok_proper rank : Proper (same_parents ==> iff) (graph_ok rank).
Proof.
  assert (Hone : forall h h', same_parents h h' -> graph_ok rank h -> graph_ok rank h').
  { intros h h' Hs [Hcl Hrk]. split; intros k p Hp; rewrite <- Hs in Hp.
    - apply (same_parents_dom _ _ _ Hs). eauto.
    - eauto. }
  intros h h' Hs. split; apply Hone; [done|]. by symmetry.
Qed.

(** What firing [k] does: the flags of [k] and of its ancestors are set, all
    else is unchanged. *)
Definition fires (k : K) (h h' : gmap K Cond) : Prop :=
  same_parents h h' /\
  forall k' c c', h !! k' = Some c -> h' !! k' = Some c' ->
    (Fired c' = true <-> Fired c = true \/ rtc (parent h) k k').

Definition fires_any (ks : list K) (h h' : gmap K Cond) : Prop :=
  same_parents h h' /\
  forall k' c c', h !! k' = Some c -> h' !! k' = Some c' ->
    (Fired c' = true <-> Fired c = true \/ exists k, k ∈ ks /\ rtc (parent h) k k').

Lemma rtc_parent_proper h h' k k' :
  same_parents h h' -> rtc (parent h) k k' -> rtc (parent h') k k'.
Proof.
  intros Hs. induction 1 as [|x y z Hxy _ IH]; [reflexivity|].
  eapply rtc_l; [|exact IH]. by rewrite <- Hs.
Qed.

Lemma fires_any_nil h : fires_any [] h h.
Proof.
  split; [reflexivity|]. intros k' c c' Hc Hc'. simplify_eq. split; [by left|].
  intros [?|(k & Hk & _)]; [done|]. by apply not_elem_of_nil in Hk.
Qed.

Lemma fires_any_cons k ks h h1 h2 :
  fires k h h1 -> fires_any ks h1 h2 -> fires_any (k :: ks) h h2.
Proof.
  intros [Hs1 Hf1] [Hs2 Hf2]. split; [by transitivity h1|]. intros k' c c2 Hc Hc2.
  destruct (h1 !! k') as [c1|] eqn:Hc1.
  2: { apply eq_None_not_Some in Hc1. destruct Hc1.
       apply (same_parents_dom _ _ k' Hs1). eauto. }
  rewrite (Hf2 k' c1 c2 Hc1 Hc2), (Hf1 k' c c1 Hc Hc1). split.
  - intros [[?|Hr]|(j & Hj & Hr)]; [by left|right; exists k; split; [left|done]|].
    right. exists j. split; [by right|]. eapply rtc_parent_proper; [symmetry; exact Hs1|done].
  - intros [?|(j & Hj & Hr)]; [by left; left|]. apply elem_of_cons in Hj as [->|Hj].
    + left. by right.
    + right. exists j. split; [done|]. by eapply rtc_parent_proper.
Qed.

Lemma set_Fired_run b k s c :
  conds s !! k = Some c ->
  set_Fired b k s = Ret tt (set_cond k {| Fired := b; ParentSet := ParentSet c |} s).
Proof. intros Hc. unfold set_Fired, bind, load_cond. by rewrite Hc. Qed.

Lemma fires_step k c h h' :
  h !! k = Some c ->
  fires_any (elements (ParentSet c)) (<[k := {| Fired := true; ParentSet := ParentSet c |}]> h) h' ->
  fires k h h'.
Proof.
  intros Hk [Hs Hf].
  set (h1 := <[k := {| Fired := true; ParentSet := ParentSet c |}]> h) in *.
  assert (Hs1 : same_parents h h1).
  { intros j. unfold h1. destruct (decide (k = j)) as [<-|Hne].
    - by rewrite lookup_insert_eq, Hk.
    - by rewrite lookup_insert_ne. }
  split; [by transitivity h1|]. intros k' c0 c' Hc0 Hc'.
  destruct (decide (k = k')) as [<-|Hne].
  - assert (Hk1 : h1 !! k = Some {| Fired := true; ParentSet := ParentSet c |})
      by (unfold h1; by rewrite lookup_insert_eq).
    rewrite (Hf _ _ _ Hk1 Hc'). simpl. split; [intros _; right; reflexivity|by left].
  - assert (Hk1 : h1 !! k' = Some c0) by (unfold h1; by rewrite lookup_insert_ne).
    rewrite (Hf _ _ _ Hk1 Hc'). split; (intros [?|Hr]; [by left|right]).
    + destruct Hr as (j & Hj & Hr). apply elem_of_elements in Hj.
      eapply rtc_l; [exists c; eauto|]. eapply rtc_parent_proper; [symmetry; exact Hs1|done].
    + inversion Hr as [|? j ? (c1 & Hc1 & Hj) Hr']; [done|]. simplify_eq.
      exists j. split; [by apply elem_of_elements|]. by eapply rtc_parent_proper.
Qed.

(** A recursive traversal of the parents fires exactly the ancestors. *)
Section Traversal.
Variable visit : nat -> K -> C unit.
Variable log : K -> Wakeup.
Hypothesis visit_S : forall fuel k,
  visit (S fuel) k =
    (set_Fired true k ;;
     modify (log_wakeup (log k)) ;;
     let* c := load_cond k in
     for_each (elements (ParentSet c)) (visit fuel)).
Variable rank : K -> nat.

Lemma visit_fires fuel : forall k s,
  graph_ok rank (conds s) -> is_Some (conds s !! k) -> (rank k < fuel)%nat ->
  exists s', visit fuel k s = Ret tt s' /\ fires k (conds s) (conds s').
Proof.
  induction fuel as [|fuel IH]; intros k s Hok [c Hc] Hfuel; [lia|].
  rewrite visit_S. unfold bind at 1. rewrite (set_Fired_run _ _ _ _ Hc).
  unfold bind, modify, load_cond; simpl. rewrite lookup_insert_eq. simpl.
  set (s1 := log_wakeup _ _).
  assert (Hlist : forall ks s, graph_ok rank (conds s) ->
    (forall p, p ∈ ks -> is_Some (conds s !! p) /\ (rank p < fuel)%nat) ->
    exists s', for_each ks (visit fuel) s = Ret tt s'
               /\ fires_any ks (conds s) (conds s')).
  { clear -IH. induction ks as [|p ks IHks]; intros s Hok Hks; simpl.
    - eexists. split; [reflexivity|]. apply fires_any_nil.
    - destruct (Hks p) as [Hp Hrk]; [by left|].
      destruct (IH p s Hok Hp Hrk) as (s1 & Hrun & Hf). unfold bind. rewrite Hrun.
      destruct (IHks s1) as (s2 & Hrun2 & Hf2).
      + destruct Hf as [Hs _]. by rewrite <- Hs.
      + intros q Hq. destruct (Hks q) as [Hqs Hqr]; [by right|]. split; [|done].
        destruct Hf as [Hs _]. by apply (same_parents_dom _ _ q Hs).
      + rewrite Hrun2. eexists. split; [reflexivity|]. by eapply fires_any_cons. }
  destruct (Hlist (elements (ParentSet c)) s1) as (s' & Hrun & Hf).
  - assert (Hs : same_parents (conds s) (conds s1)).
    { intros j. simpl. destruct (decide (k = j)) as [<-|Hne].
      - by rewrite lookup_insert_eq, Hc.
      - by rewrite lookup_insert_ne. }
    by rewrite <- Hs.
  - intros p Hp. apply elem_of_elements in Hp.
    assert (Hedge : parent (conds s) k p) by (exists c; eauto). split.
    + simpl. destruct (decide (k = p)) as [<-|Hne].
      * rewrite lookup_insert_eq. eauto.
      * rewrite lookup_insert_ne by done. by apply (graph_closed _ _ Hok k).
    + apply (graph_rank _ _ Hok) in Hedge. lia.
  - rewrite Hrun. eexists. split; [reflexivity|]. by eapply fires_step.
Qed.
End Traversal.
End Condition.
Arguments Cond K {_ _}.
Arguments CState K {_ _}.

(** ** The time-out of [timedWait] *)

Record timespec : Type := { tv_sec : Z; tv_nsec : Z }.

(** [now.tv_sec], [now.tv_usec] from [gettimeofday]. *)
Definition wait_timeout (now_sec now_usec microseconds : Z) : timespec :=
  let sec := now_sec + microseconds / 1000000 in
  let nsec := (now_usec + microseconds mod 1000000) * 1000 in
  if bool_decide (1000000000 <= nsec)
  then {| tv_sec := sec + 1; tv_nsec := nsec - 1000000000 |}
  else {| tv_sec := sec; tv_nsec := nsec |}.

(** The absolute time-out [Condition::timedWait] hands to
    [pthread_cond_timedwait] is the current time plus the requested
    microseconds, and its nanosecond part is normalised to [0, 10^9), which
    the system call requires. *)
Theorem wait_timeout_correct (now_sec now_usec microseconds : Z)
    (Hnow : 0 <= now_usec < 1000000) (Hus : 0 <= microseconds) :
  let t := wait_timeout now_sec now_usec microseconds in
  0 <= tv_nsec t < 1000000000
  /\ tv_sec t * 1000000000 + tv_nsec t
     = (now_sec * 1000000 + now_usec + microseconds) * 1000.
Proof.
  unfold wait_timeout. pose proof (Z.mod_pos_bound microseconds 1000000).
  pose proof (Z.div_mod microseconds 1000000).
  case_bool_decide; simpl; lia.
Qed.

Lemma wait_timeout_correct_witness :
  0 <= 999999 < 1000000
  /\ tv_nsec (wait_timeout 10 999999 2000001) = 0 /\ tv_sec (wait_timeout 10 999999 2000001) = 13.
Proof.
  split; [lia|].
  destruct (wait_timeout_correct 10 999999 2000001 ltac:(lia) ltac:(lia)) as [H1 H2].
  vm_compute in H1, H2. split; reflexivity.
Defined.

Section Theorems.
Context {K : Type} `{Countable K}.
Implicit Types (k p : K) (s : CState K).

(** C2. [Condition::broadcast] on an acyclic graph of live conditions
    terminates without touching a destroyed condition, and sets the [Fired]
    flag of exactly the condition itself and of all its direct and indirect
    parents; the parent sets are unchanged. *)
Theorem broadcast_fires (rank : K -> nat) (fuel : nat) k s
    (Hok : graph_ok rank (conds s)) (Hk : is_Some (conds s !! k))
    (Hfuel : (rank k < fuel)%nat) :
  exists s', broadcast fuel k s = Ret tt s' /\ fires k (conds s) (conds s').
Proof. by apply (visit_fires broadcast PthreadBroadcast (fun _ _ => eq_refl) rank). Qed.

Lemma signal_fires (rank : K -> nat) (fuel : nat) k s :
  graph_ok rank (conds s) -> is_Some (conds s !! k) -> (rank k < fuel)%nat ->
  exists s', signal fuel k s = Ret tt s' /\ fires k (conds s) (conds s').
Proof. apply (visit_fires signal PthreadSignal (fun _ _ => eq_refl) rank). Qed.

Lemma fires_self k (h h' : gmap K (Cond K)) c' :
  fires k h h' -> is_Some (h !! k) -> h' !! k = Some c' -> Fired c' = true.
Proof.
  intros [_ Hf] [c Hc] Hc'. apply (Hf _ _ _ Hc Hc'). right. reflexivity.
Qed.

(** A child that is already fired fires a parent added later: after
    [addParent], the parent is one of the child's parents and, if the child
    was fired, the parent's flag is set, so no event is lost between the
    event and the registration. *)
Theorem addParent_no_lost_event (rank : K -> nat) (fuel : nat) k p s c
    (Hok : graph_ok rank (conds s)) (Hk : conds s !! k = Some c)
    (Hp : is_Some (conds s !! p)) (Hkp : k <> p) (Hrank : (rank p < rank k)%nat)
    (Hfuel : (rank p < fuel)%nat) (Hfired : Fired c = true) :
  exists s' cp, addParent fuel k (Some p) s = Ret tt s' /\ parent (conds s') k p
                /\ conds s' !! p = Some cp /\ Fired cp = true.
Proof.
  unfold addParent, bind, load_cond, set_ParentSet, bind, load_cond, modify.
  rewrite Hk. simpl. rewrite Hk. simpl. rewrite lookup_insert_eq. simpl. rewrite Hfired. simpl.
  set (c1 := {| Fired := true; ParentSet := {[p]} ∪ ParentSet c |} : Cond K).
  set (s1 := set_cond k c1 s).
  assert (Hedge : forall j q, parent (conds s1) j q ->
            parent (conds s) j q \/ (j = k /\ q = p)).
  { intros j q (c0 & Hc0 & Hq). simpl in Hc0.
    destruct (decide (k = j)) as [<-|Hne].
    - rewrite lookup_insert_eq in Hc0. simplify_eq. simpl in Hq.
      apply elem_of_union in Hq as [Hq|Hq]; [right; set_solver|]. left. exists c. eauto.
    - rewrite lookup_insert_ne in Hc0 by done. left. exists c0. eauto. }
  assert (Hlive : forall j, is_Some (conds s !! j) -> is_Some (conds s1 !! j)).
  { intros j Hj. simpl. destruct (decide (k = j)) as [<-|Hne];
      [rewrite lookup_insert_eq; eauto | by rewrite lookup_insert_ne]. }
  assert (Hok1 : graph_ok rank (conds s1)).
  { split; intros j q [Hjq|[-> ->]]%Hedge; auto.
    - apply Hlive. by apply (graph_closed _ _ Hok j).
    - by apply (graph_rank _ _ Hok). }
  destruct (broadcast_fires rank fuel p s1 Hok1 (Hlive p Hp) Hfuel) as (s' & -> & Hf).
  pose proof (proj1 Hf) as Hs.
  destruct (proj1 (same_parents_dom _ _ p Hs) (Hlive p Hp)) as [cp Hcp].
  exists s', cp. repeat split; [| done |].
  - rewrite <- Hs. exists c1. simpl. rewrite lookup_insert_eq. set_solver.
  - by apply (fires_self p _ _ _ Hf (Hlive p Hp)).
Qed.

(** [waits] are waits for the condition [k] that a signal interrupts, the flag
    unset before each of them; they lead from [s] to [s']. *)
Inductive interrupted k : list (wait_step (K := K)) -> CState K -> CState K -> Prop :=
| interrupted_nil s : interrupted k [] s s
| interrupted_cons w waits s s1 s2 c :
    conds s !! k = Some c -> Fired c = false -> w s = (WaitEINTR, s1) ->
    interrupted k waits s1 s2 -> interrupted k (w :: waits) s s2.

Lemma wait_loop_interrupted k pre waits s s1 :
  interrupted k pre s s1 -> wait_loop k (pre ++ waits) s = wait_loop k waits s1.
Proof.
  induction 1 as [|w ws s s2 s3 c Hc Hf Hw _ IH]; [done|]. cbn [app wait_loop].
  unfold bind at 1, load_cond. by rewrite Hc, Hf, Hw.
Qed.
Lemma wait_loop_now k waits s c :
  conds s !! k = Some c ->
  wait_loop k waits s =
    if Fired c then Ret true (set_cond k {| Fired := false; ParentSet := ParentSet c |} s)
    else match waits with
         | [] => Stop WouldBlock
         | w :: waits =>
             match w s with
             | (WaitEINTR, s') => wait_loop k waits s'
             | (r, s') => clear_if_woken k r s'
             end
         end.
Proof.
  intros Hc. destruct waits as [|w waits]; cbn [wait_loop]; unfold bind at 1, load_cond; rewrite Hc;
    destruct (Fired c); try done; unfold clear_if_woken, bind; by rewrite (set_Fired_run _ _ _ _ Hc).
Qed.

(** C3. The result of [Condition::timedWait], for every behaviour of the
    kernel.  After any number of interrupted waits, which leave the state as
    the other threads have made it: if the flag is set, it is consumed, and the
    result is true without another wait.  Otherwise the thread waits again; a
    time-out gives false and leaves the flag as it is, so that an event that
    arrives with the time-out is seen by the next wait; waking up gives true
    and consumes the flag. *)
Theorem timedWait_result k (pre waits : list wait_step) s s1 c
    (Hpre : interrupted k pre s s1) (Hc : conds s1 !! k = Some c) :
  (Fired c = true ->
     timedWait k (pre ++ waits) s =
       Ret true (set_cond k {| Fired := false; ParentSet := ParentSet c |} s1))
  /\ (Fired c = false -> timedWait k pre s = Stop WouldBlock)
  /\ (Fired c = false -> forall w s2, w s1 = (WaitTimeout, s2) ->
       timedWait k (pre ++ w :: waits) s = Ret false s2)
  /\ (Fired c = false -> forall w s2 c2, w s1 = (WaitOk, s2) -> conds s2 !! k = Some c2 ->
       timedWait k (pre ++ w :: waits) s =
         Ret true (set_cond k {| Fired := false; ParentSet := ParentSet c2 |} s2)).
Proof.
  pose proof (wait_loop_interrupted k pre [] s s1 Hpre) as Hend. rewrite app_nil_r in Hend.
  unfold timedWait. rewrite Hend, !(wait_loop_now k _ s1 c Hc).
  split_and!; intros Hf; rewrite ?(wait_loop_interrupted k pre _ s s1 Hpre), ?(wait_loop_now k _ s1 c Hc), ?Hf; try done.
  - intros w s2 Hw. rewrite (wait_loop_interrupted k pre _ s s1 Hpre), (wait_loop_now k _ s1 c Hc).
    by rewrite Hf, Hw.
  - intros w s2 c2 Hw Hc2. rewrite (wait_loop_interrupted k pre _ s s1 Hpre), (wait_loop_now k _ s1 c Hc).
    rewrite Hf, Hw. unfold clear_if_woken, bind. by rewrite (set_Fired_run _ _ _ _ Hc2).
Qed.

(** Without a parent it does not matter what the flag of a new condition is
    before its assignment. *)
Lemma new_Condition_memory memory fuel k s :
  new_Condition memory fuel k None s
  = Ret tt (set_cond k {| Fired := false; ParentSet := ∅ |}
             (set_cond k {| Fired := memory; ParentSet := ∅ |} s)).
Proof.
  unfold new_Condition, addParent, bind, modify, ret. by rewrite (set_Fired_run _ _ _ {| Fired := memory; ParentSet := ∅ |}) by apply lookup_insert_eq.
Qed.
End Theorems.

(** A child with a parent and a grandparent. *)
Definition demo_conds : gmap nat (Cond nat) :=
  <[0%nat := {| Fired := true; ParentSet := {[1%nat]} |}]>
    (<[1%nat := {| Fired := false; ParentSet := ∅ |}]>
      (<[2%nat := {| Fired := false; ParentSet := ∅ |}]> ∅)).
Definition demo_rank (k : nat) : nat := (2 - k)%nat.

Lemma demo_parent k p : parent demo_conds k p -> k = 0%nat /\ p = 1%nat.
Proof.
  intros (c & Hc & Hp). unfold demo_conds in Hc.
  rewrite !lookup_insert, lookup_empty in Hc.
  repeat case_decide; simplify_eq/=; set_solver.
Qed.

Lemma demo_graph_ok : graph_ok demo_rank demo_conds.
Proof.
  split; intros k p [-> ->]%demo_parent; [by eexists | unfold demo_rank; lia].
Qed.

Lemma broadcast_fires_witness :
  exists s', broadcast 3 0%nat {| conds := demo_conds; wakeups := [] |} = Ret tt s'
             /\ fires 0%nat demo_conds (conds s').
Proof.
  apply (broadcast_fires demo_rank 3 0%nat {| conds := demo_conds; wakeups := [] |});
    [exact demo_graph_ok | by eexists | unfold demo_rank; lia].
Defined.

Lemma addParent_no_lost_event_witness :
  exists s' cp, addParent 2 0%nat (Some 2%nat) {| conds := demo_conds; wakeups := [] |} = Ret tt s'
    /\ parent (conds s') 0%nat 2%nat /\ conds s' !! 2%nat = Some cp /\ Fired cp = true.
Proof.
  apply (addParent_no_lost_event demo_rank 2 0%nat 2%nat
           {| conds := demo_conds; wakeups := [] |} {| Fired := true; ParentSet := {[1%nat]} |});
    [exact demo_graph_ok | reflexivity | by eexists | done | | | reflexivity];
    unfold demo_rank; lia.
Defined.

(** A wait is interrupted, and the next one times out while a thread fires the
    condition. *)
Definition demo_quiet : CState nat :=
  {| conds := {[ 0%nat := {| Fired := false; ParentSet := {[1%nat]} |} ]}; wakeups := [] |}.
Definition demo_fired : CState nat :=
  {| conds := {[ 0%nat := {| Fired := true; ParentSet := {[1%nat]} |} ]}; wakeups := [] |}.
Definition demo_interruption : wait_step (K := nat) := fun s => (WaitEINTR, s).
Definition demo_timeout : wait_step (K := nat) := fun s => (WaitTimeout, demo_fired).

Lemma timedWait_result_witness :
  interrupted 0%nat [demo_interruption] demo_quiet demo_quiet
  /\ timedWait 0%nat [demo_interruption; demo_timeout] demo_quiet = Ret false demo_fired.
Proof.
  assert (Hi : interrupted 0%nat [demo_interruption] demo_quiet demo_quiet).
  { eapply interrupted_cons; [reflexivity..|]. constructor. }
  split; [exact Hi|].
  destruct (timedWait_result 0%nat [demo_interruption] [] demo_quiet demo_quiet
    {| Fired := false; ParentSet := {[1%nat]} |} Hi eq_refl) as (_ & _ & Hout & _).
  exact (Hout eq_refl demo_timeout demo_fired eq_refl).
Defined.
(** With a parent, a set flag in the memory of a new condition fires it. *)
Example new_condition_fires_parent :
  match new_Condition true 2 0%nat (Some 1%nat)
          {| conds := {[ 1%nat := {| Fired := false; ParentSet := ∅ |} ]}; wakeups := [] |} with
  | Ret _ s => Fired <$> conds s !! 1%nat = Some true
  | Stop _ => False
  end.
Proof. reflexivity. Qed.
