(* ===== verification/State.v ===== *)
(** * The state of the socket layer

    Objects and static data of [SCTPSocketMaster], [SCTPSocket] and
    [SCTPAssociation], the interface to sctplib and the operating system, and
    the monad the operations run in.

    The sources support several sctplib versions; the model follows the
    branches of [SCTPLIB_VERSION == SCTPLIB_1_3_0] on Linux, with the default
    build options ([DISABLE_WARNINGS] is not defined, so the internal checks
    that end in [abort()] are active). *)

From S2P Require Import Prelude MultiMap Memory Notification NotificationQueue.
From S2P Require Condition.
Local Open Scope Z_scope.

(** ** Constants *)

(** Message flags: [ext_socket.h] maps the SCTP flags to the values of the
    Linux socket interface. *)
Definition MSG_PEEK : Z := 2 ^ 1.
Definition MSG_UNORDERED : Z := 2 ^ 2.
Definition MSG_UNBUNDLED : Z := 2 ^ 3.
Definition MSG_NOTIFICATION : Z := 2 ^ 0.
Definition MSG_SEND_TO_ALL : Z := 2 ^ 4.
Definition MSG_DONTWAIT : Z := 2 ^ 6.
Definition MSG_EOR : Z := 2 ^ 7.
Definition MSG_EOF : Z := 2 ^ 9.
Definition MSG_ABORT : Z := 2 ^ 12.
Definition MSG_ADDR_OVER : Z := 2 ^ 15.

(** [SCTPSocket::SCTPSocketFlags] *)
Definition SSF_GlobalQueue : Z := 2 ^ 0.
Definition SSF_AutoConnect : Z := 2 ^ 1.
Definition SSF_Listening : Z := 2 ^ 31.

(** Error numbers of Linux. *)
Definition EIO : Z := 5.
Definition EBADF : Z := 9.
Definition EAGAIN : Z := 11.
Definition EINVAL : Z := 22.
Definition EPROTONOSUPPORT : Z := 93.
Definition EADDRINUSE : Z := 98.
Definition ECONNABORTED : Z := 103.
Definition ECONNRESET : Z := 104.
Definition ENOBUFS : Z := 105.
Definition EISCONN : Z := 106.

(** ** The interfaces below the socket layer *)

(** Members of sctplib's structures that the sources read or write. *)
Record SCTP_Association_Status : Type := {
  numberOfDestinationPaths : Z;
  destinationPathIDs : list Z;
  destPort : Z;
  rtoMax : Z;
  maxSendQueue : Z;
  maxRecvQueue : Z;
  ipTos : Z;
  outStreams : Z;
  inStreams : Z;
  primaryDestinationAddress : string;
  st_state : Z;
  currentReceiverWindowSize : Z;
  noOfChunksInRetransmissionQueue : Z;
  noOfChunksInReceptionQueue : Z;
  rtoInitial : Z;
  rtoMin : Z;
  delay : Z;
  assocMaxRetransmits : Z;
  validCookieLife : Z }.

Record SCTP_Path_Status : Type := {
  destinationAddress : string;
  heartbeatIntervall : Z;
  ps_state : Z;
  cwnd : Z;
  srtt : Z;
  rto : Z;
  mtu : Z }.

Record SCTP_Instance_Parameters : Type := {
  maxInitRetransmits : Z;
  ip_rtoMax : Z;
  noOfLocalAddresses : Z;
  localAddressList : list string;
  ip_outStreams : Z;
  ip_inStreams : Z;
  ip_delay : Z }.

(** The callbacks of [SCTP_ulpCallbacks]. *)
Inductive Callback : Type :=
| DataArrive (assocID streamID length ssn tsn protoID unordered : Z)
| SendFailure (assocID : Z)
| NetworkStatusChange (assocID affectedPathID newState : Z)
| CommunicationUp (assocID noOfInStreams noOfOutStreams : Z)
| CommunicationLost (assocID : Z)
| CommunicationError (assocID : Z)
| Restart (assocID : Z)
| ShutdownReceived (assocID : Z)
| ShutdownComplete (assocID : Z)
| QueueStatusChange (assocID : Z).

(** What [sctp_receive] delivers. *)
Record Received : Type := { r_data : list Z; r_ssn : Z; r_tsn : Z }.

(** The virtual functions of [SocketAddress] the socket layer calls. *)
Class SocketAddressI (Addr : Type) : Type := {
  getAddressString : Addr -> Z -> string;
  getPort : Addr -> Z;
  getFamily : Addr -> Z;
  isIPv6 : Addr -> bool;                 (* of a [dynamic_cast] to InternetAddress *)
  getSystemAddress : Addr -> Z -> list Z; (* the bytes of the sockaddr; [] on failure *)
  getSystemAddress_ok addr family :       (* it fits into a sockaddr_storage *)
    (length (getSystemAddress addr family) <= 128)%nat
    /\ bytes_ok (getSystemAddress addr family);
  createSocketAddress : Z -> string -> Z -> option Addr;
  createSocketAddress_name : Z -> string -> option Addr;
  createSocketAddress_sockaddr : list Z -> option Addr; (* from the bytes of a sockaddr *)
  any_address : Z -> Addr;                (* INADDR_ANY with a port, an InternetAddress *)
  any_address_port port : 0 <= port < 2 ^ 16 -> getPort (any_address port) = port }.

(** sctplib 1.3.0 and the clock, as functions on their joint state [W].
    [sctp_abort] and [sctp_shutdown] may call back into the library
    synchronously ("sctp_abort() directly calls
    communicationLostNotification()", sctpsocketmaster.cc): they return the
    callbacks they make, in order. *)
Class Platform : Type := {
  W : Type;
  Addr : Type;
  Addr_ops :: SocketAddressI Addr;
  getMicroTime_ : W -> Z * W;
  start_thread : W -> bool * W;
  sctp_getInstanceID : Z -> W -> option Z;
  sctp_getAssocStatus : Z -> W -> option SCTP_Association_Status;
  sctp_setAssocStatus : Z -> SCTP_Association_Status -> W -> Z * W;
  sctp_getPathStatus : Z -> Z -> W -> option SCTP_Path_Status;
  sctp_getPrimary : Z -> W -> Z;
  sctp_setPrimary : Z -> Z -> W -> Z * W;
  sctp_setRemotePrimary : Z -> string -> W -> Z * W;
  sctp_requestHeartbeat : Z -> Z -> W -> Z * W;
  sctp_changeHeartBeat : Z -> Z -> bool -> Z -> W -> Z * W;
  sctp_getAssocDefaults : Z -> W -> option SCTP_Instance_Parameters;
  sctp_setAssocDefaults : Z -> SCTP_Instance_Parameters -> W -> Z * W;
  sctp_registerInstance : Z -> Z -> Z -> Z -> list string -> W -> Z * W;
  sctp_unregisterInstance : Z -> W -> Z * W;
  sctp_associatex : Z -> Z -> list string -> Z -> W -> Z * W;
  sctp_deleteAssociation : Z -> W -> Z * W;
  sctp_receive : Z -> Z -> Z -> bool -> W -> option Received * W;
  sctp_send_private : Z -> Z -> list Z -> Z -> Z -> Z -> bool -> bool -> W -> Z * W;
  sctp_shutdown : Z -> W -> W * list Callback;
  sctp_abort : Z -> W -> W * list Callback;
  sctp_registerUserCallback : Z -> nat -> Z -> W -> Z * W;
  sctp_unregisterUserCallback : Z -> W -> Z * W;
  SCTP_QUEUE_EXCEEDED : Z;
  SCTP_PARAMETER_PROBLEM : Z;
  SCTP_INFINITE_LIFETIME : Z;
  SCTP_MAX_NUM_ADDRESSES : Z;
  SCTP_MAX_IP_LEN : nat;
  SCTP_PATH_OK : Z;
  SCTP_PATH_UNREACHABLE : Z;
  SCTP_PATH_ADDED : Z;
  SCTP_PATH_REMOVED : Z;
  SCTP_ASCONF_SUCCEEDED : Z;
  SCTP_ASCONF_FAILED : Z;
  (* members of an [SCTPAssociation] and of a [Condition] before their first
     assignment *)
  indeterminate_Context : Z;
  indeterminate_InitTimeout : Z;
  indeterminate_RTOMax : Z;
  indeterminate_Fired : bool;
  (* an [SCTP_Instance_Parameters] local variable that is not initialised *)
  indeterminate_parameters : SCTP_Instance_Parameters;
  (* a notification that is a local variable, before it is initialised *)
  indeterminate_notification : SCTPNotification;
  indeterminate_ok : content_ok (Content indeterminate_notification) }.

(** ** Identities of the conditions *)

Inductive CondKind : Set :=
| InQueueUpdate | Establish | ShutdownCompleteC | ReadyForTransmit
| ReadUpdate | WriteUpdate | ExceptUpdate
| UserUpdate                                                 (* of a UserSocketNotification *)
| SelectRead | SelectWrite | SelectExcept | SelectGlobal.    (* of a SelectData *)

#[export] Instance CondKind_eq_dec : EqDecision CondKind.
Proof. solve_decision. Defined.

Definition CondKind_code (k : CondKind) : nat :=
  match k with
  | InQueueUpdate => 0 | Establish => 1 | ShutdownCompleteC => 2 | ReadyForTransmit => 3
  | ReadUpdate => 4 | WriteUpdate => 5 | ExceptUpdate => 6 | UserUpdate => 7
  | SelectRead => 8 | SelectWrite => 9 | SelectExcept => 10 | SelectGlobal => 11
  end.
Definition CondKind_decode (n : nat) : option CondKind :=
  [InQueueUpdate; Establish; ShutdownCompleteC; ReadyForTransmit;
   ReadUpdate; WriteUpdate; ExceptUpdate; UserUpdate; SelectRead; SelectWrite; SelectExcept;
   SelectGlobal] !! n.

#[export] Instance CondKind_countable : Countable CondKind.
Proof. apply (inj_countable CondKind_code CondKind_decode). by intros []. Defined.

(** The address of the owning object and the member. *)
Abbreviation cid := (nat * CondKind)%type.

(** Members only fire members of a smaller rank. *)
Definition cond_rank (c : cid) : nat :=
  match c.2 with
  | InQueueUpdate | Establish | ShutdownCompleteC | ReadyForTransmit => 3
  | ReadUpdate | WriteUpdate | ExceptUpdate | UserUpdate => 2
  | SelectRead | SelectWrite | SelectExcept => 1
  | SelectGlobal => 0
  end.
Definition cond_fuel : nat := 4.

(** ** Objects *)

Record AssocIODefaults : Type := {
  d_StreamID : Z; d_ProtoID : Z; d_TimeToLive : Z; d_Context : Z }.

Record StreamDefaultTimeout : Type := { sdt_Valid : bool; sdt_Timeout : Z }.

Record PreEstablishmentPacket : Type := {
  p_Flags : Z; p_ProtoID : Z; p_StreamID : Z; p_TimeToLive : Z; p_Data : list Z }.

Section Objects.
Context `{!Platform}.

(** [SCTPAssociation].  [InQueue] is the specification queue of
    [NotificationQueue], the chain [FirstPreEstablishmentPacket] ..
    [LastPreEstablishmentPacket] is the list of its packets. *)
Record SCTPAssociation : Type := {
  a_Socket : nat;
  a_InQueue : Spec.queue;
  a_LastUsage : Z;
  a_UseCount : Z;
  a_AssociationID : Z;
  a_NotificationFlags : Z;
  a_Defaults : AssocIODefaults;
  a_StreamDefaultTimeoutArray : option (list StreamDefaultTimeout);
  a_StreamDefaultTimeoutCount : Z;
  a_CommunicationUpNotification : bool;
  a_CommunicationLostNotification : bool;
  a_ShutdownCompleteNotification : bool;
  a_IsShuttingDown : bool;
  a_ReadReady : bool;
  a_WriteReady : bool;
  a_HasException : bool;
  a_RTOMaxIsInitTimeout : bool;
  a_InitTimeout : Z;
  a_RTOMax : Z;
  a_PreEstablishment : list PreEstablishmentPacket;
  a_PreEstablishmentAddressList : option (list Addr);
  a_PeeledOff : bool }.

(** [SCTPSocket::IncomingConnection] *)
Record IncomingConnection : Type := {
  ic_Association : nat;
  ic_Notification : SCTPNotification }.

(** [SCTPSocket]; the chain of [ConnectionRequests] is a list. *)
Record SCTPSocket : Type := {
  s_GlobalQueue : Spec.queue;
  s_ConnectionRequests : list IncomingConnection;
  s_AssociationList : list (@entry nat);
  s_ConnectionlessAssociationList : list (@entry nat);
  s_InstanceName : Z;
  s_LocalPort : Z;
  s_NoOfInStreams : Z;
  s_NoOfOutStreams : Z;
  s_Flags : Z;
  s_NotificationFlags : Z;
  s_CorrelationID : Z;
  s_AutoCloseTimeout : Z;
  s_DefaultTrafficClass : Z;
  s_Family : Z;
  s_ReadReady : bool;
  s_WriteReady : bool;
  s_HasException : bool;
  s_AutoCloseRecursion : bool;
  s_AutoCloseNewCheckRequired : bool }.

(** [SCTPSocketMaster::UserSocketNotification]; its condition is the member
    [UserUpdate]. *)
Record UserSocketNotification : Set := {
  un_FileDescriptor : Z;
  un_EventMask : Z;
  un_Events : Z }.

(** The process: the heap objects by address, the conditions, the static
    members of [SCTPSocketMaster] and the cancel state of the thread. *)
Record Sys : Type := {
  world : W;
  assocs : gmap nat SCTPAssociation;
  sockets : gmap nat SCTPSocket;
  conditions : Condition.CState cid;
  next_address : nat;
  InitializationResult : Z;
  ThreadRunning : bool;
  RandomValue : Z;
  LockLevel : Z;
  CancelEnabled : bool;
  OldCancelState : bool;
  LastGarbageCollection : Z;
  SocketList : list (@entry nat);
  ClosingSockets : list Z;
  ClosingAssociations : list (@entry Z);
  UserNotifications : gmap nat UserSocketNotification;
  BreakPipe : Z * Z;
  GarbageCollectionTimerID : Z }.

(** Member assignment.  [eta_*] spell an object out member by member, and an
    assignment replaces one member. *)
Definition eta_SCTPAssociation (a : SCTPAssociation) : SCTPAssociation :=
  {|
     a_Socket := a_Socket a;
     a_InQueue := a_InQueue a;
     a_LastUsage := a_LastUsage a;
     a_UseCount := a_UseCount a;
     a_AssociationID := a_AssociationID a;
     a_NotificationFlags := a_NotificationFlags a;
     a_Defaults := a_Defaults a;
     a_StreamDefaultTimeoutArray := a_StreamDefaultTimeoutArray a;
     a_StreamDefaultTimeoutCount := a_StreamDefaultTimeoutCount a;
     a_CommunicationUpNotification := a_CommunicationUpNotification a;
     a_CommunicationLostNotification := a_CommunicationLostNotification a;
     a_ShutdownCompleteNotification := a_ShutdownCompleteNotification a;
     a_IsShuttingDown := a_IsShuttingDown a;
     a_ReadReady := a_ReadReady a;
     a_WriteReady := a_WriteReady a;
     a_HasException := a_HasException a;
     a_RTOMaxIsInitTimeout := a_RTOMaxIsInitTimeout a;
     a_InitTimeout := a_InitTimeout a;
     a_RTOMax := a_RTOMax a;
     a_PreEstablishment := a_PreEstablishment a;
     a_PreEstablishmentAddressList := a_PreEstablishmentAddressList a;
     a_PeeledOff := a_PeeledOff a |}.

Definition eta_SCTPSocket (s : SCTPSocket) : SCTPSocket :=
  {|
     s_GlobalQueue := s_GlobalQueue s;
     s_ConnectionRequests := s_ConnectionRequests s;
     s_AssociationList := s_AssociationList s;
     s_ConnectionlessAssociationList := s_ConnectionlessAssociationList s;
     s_InstanceName := s_InstanceName s;
     s_LocalPort := s_LocalPort s;
     s_NoOfInStreams := s_NoOfInStreams s;
     s_NoOfOutStreams := s_NoOfOutStreams s;
     s_Flags := s_Flags s;
     s_NotificationFlags := s_NotificationFlags s;
     s_CorrelationID := s_CorrelationID s;
     s_AutoCloseTimeout := s_AutoCloseTimeout s;
     s_DefaultTrafficClass := s_DefaultTrafficClass s;
     s_Family := s_Family s;
     s_ReadReady := s_ReadReady s;
     s_WriteReady := s_WriteReady s;
     s_HasException := s_HasException s;
     s_AutoCloseRecursion := s_AutoCloseRecursion s;
     s_AutoCloseNewCheckRequired := s_AutoCloseNewCheckRequired s |}.

Definition eta_Sys (y : Sys) : Sys :=
  {|
     world := world y;
     assocs := assocs y;
     sockets := sockets y;
     conditions := conditions y;
     next_address := next_address y;
     InitializationResult := InitializationResult y;
     ThreadRunning := ThreadRunning y;
     RandomValue := RandomValue y;
     LockLevel := LockLevel y;
     CancelEnabled := CancelEnabled y;
     OldCancelState := OldCancelState y;
     LastGarbageCollection := LastGarbageCollection y;
     SocketList := SocketList y;
     ClosingSockets := ClosingSockets y;
     ClosingAssociations := ClosingAssociations y;
     UserNotifications := UserNotifications y;
     BreakPipe := BreakPipe y;
     GarbageCollectionTimerID := GarbageCollectionTimerID y |}.

End Objects.

(** sctplib's structures, member by member. *)
Definition eta_Association_Status (st : SCTP_Association_Status) : SCTP_Association_Status :=
  {| numberOfDestinationPaths := numberOfDestinationPaths st;
     destinationPathIDs := destinationPathIDs st; destPort := destPort st;
     rtoMax := rtoMax st; maxSendQueue := maxSendQueue st; maxRecvQueue := maxRecvQueue st;
     ipTos := ipTos st; outStreams := outStreams st; inStreams := inStreams st;
     primaryDestinationAddress := primaryDestinationAddress st; st_state := st_state st;
     currentReceiverWindowSize := currentReceiverWindowSize st;
     noOfChunksInRetransmissionQueue := noOfChunksInRetransmissionQueue st;
     noOfChunksInReceptionQueue := noOfChunksInReceptionQueue st;
     rtoInitial := rtoInitial st; rtoMin := rtoMin st; delay := delay st;
     assocMaxRetransmits := assocMaxRetransmits st; validCookieLife := validCookieLife st |}.
Definition eta_Path_Status (p : SCTP_Path_Status) : SCTP_Path_Status :=
  {| destinationAddress := destinationAddress p; heartbeatIntervall := heartbeatIntervall p;
     ps_state := ps_state p; cwnd := cwnd p; srtt := srtt p; rto := rto p; mtu := mtu p |}.
Definition eta_Instance_Parameters (p : SCTP_Instance_Parameters) : SCTP_Instance_Parameters :=
  {| maxInitRetransmits := maxInitRetransmits p; ip_rtoMax := ip_rtoMax p;
     noOfLocalAddresses := noOfLocalAddresses p; localAddressList := localAddressList p;
     ip_outStreams := ip_outStreams p; ip_inStreams := ip_inStreams p; ip_delay := ip_delay p |}.

Ltac set_member eta proj v x :=
  let t := eval hnf in (eta x) in
  let t := eval pattern (proj x) in t in
  match t with
  | ?f _ => let t := eval cbv beta in (f v) in exact t
  end.

Section Assignments.
Context `{!Platform}.

Definition set_a_Socket (v : nat) (a : SCTPAssociation) : SCTPAssociation :=
  ltac:(set_member eta_SCTPAssociation a_Socket v a).
Definition set_a_InQueue (v : Spec.queue) (a : SCTPAssociation) : SCTPAssociation :=
  ltac:(set_member eta_SCTPAssociation a_InQueue v a).
Definition set_a_LastUsage (v : Z) (a : SCTPAssociation) : SCTPAssociation :=
  ltac:(set_member eta_SCTPAssociation a_LastUsage v a).
Definition set_a_UseCount (v : Z) (a : SCTPAssociation) : SCTPAssociation :=
  ltac:(set_member eta_SCTPAssociation a_UseCount v a).
Definition set_a_AssociationID (v : Z) (a : SCTPAssociation) : SCTPAssociation :=
  ltac:(set_member eta_SCTPAssociation a_AssociationID v a).
Definition set_a_NotificationFlags (v : Z) (a : SCTPAssociation) : SCTPAssociation :=
  ltac:(set_member eta_SCTPAssociation a_NotificationFlags v a).
Definition set_a_Defaults (v : AssocIODefaults) (a : SCTPAssociation) : SCTPAssociation :=
  ltac:(set_member eta_SCTPAssociation a_Defaults v a).
Definition set_a_StreamDefaultTimeoutArray (v : option (list StreamDefaultTimeout)) (a : SCTPAssociation) : SCTPAssociation :=
  ltac:(set_member eta_SCTPAssociation a_StreamDefaultTimeoutArray v a).
Definition set_a_StreamDefaultTimeoutCount (v : Z) (a : SCTPAssociation) : SCTPAssociation :=
  ltac:(set_member eta_SCTPAssociation a_StreamDefaultTimeoutCount v a).
Definition set_a_CommunicationUpNotification (v : bool) (a : SCTPAssociation) : SCTPAssociation :=
  ltac:(set_member eta_SCTPAssociation a_CommunicationUpNotification v a).
Definition set_a_CommunicationLostNotification (v : bool) (a : SCTPAssociation) : SCTPAssociation :=
  ltac:(set_member eta_SCTPAssociation a_CommunicationLostNotification v a).
Definition set_a_ShutdownCompleteNotification (v : bool) (a : SCTPAssociation) : SCTPAssociation :=
  ltac:(set_member eta_SCTPAssociation a_ShutdownCompleteNotification v a).
Definition set_a_IsShuttingDown (v : bool) (a : SCTPAssociation) : SCTPAssociation :=
  ltac:(set_member eta_SCTPAssociation a_IsShuttingDown v a).
Definition set_a_ReadReady (v : bool) (a : SCTPAssociation) : SCTPAssociation :=
  ltac:(set_member eta_SCTPAssociation a_ReadReady v a).
Definition set_a_WriteReady (v : bool) (a : SCTPAssociation) : SCTPAssociation :=
  ltac:(set_member eta_SCTPAssociation a_WriteReady v a).
Definition set_a_HasException (v : bool) (a : SCTPAssociation) : SCTPAssociation :=
  ltac:(set_member eta_SCTPAssociation a_HasException v a).
Definition set_a_RTOMaxIsInitTimeout (v : bool) (a : SCTPAssociation) : SCTPAssociation :=
  ltac:(set_member eta_SCTPAssociation a_RTOMaxIsInitTimeout v a).
Definition set_a_InitTimeout (v : Z) (a : SCTPAssociation) : SCTPAssociation :=
  ltac:(set_member eta_SCTPAssociation a_InitTimeout v a).
Definition set_a_RTOMax (v : Z) (a : SCTPAssociation) : SCTPAssociation :=
  ltac:(set_member eta_SCTPAssociation a_RTOMax v a).
Definition set_a_PreEstablishment (v : list PreEstablishmentPacket) (a : SCTPAssociation) : SCTPAssociation :=
  ltac:(set_member eta_SCTPAssociation a_PreEstablishment v a).
Definition set_a_PreEstablishmentAddressList (v : option (list Addr)) (a : SCTPAssociation) : SCTPAssociation :=
  ltac:(set_member eta_SCTPAssociation a_PreEstablishmentAddressList v a).
Definition set_a_PeeledOff (v : bool) (a : SCTPAssociation) : SCTPAssociation :=
  ltac:(set_member eta_SCTPAssociation a_PeeledOff v a).
Definition set_s_GlobalQueue (v : Spec.queue) (s : SCTPSocket) : SCTPSocket :=
  ltac:(set_member eta_SCTPSocket s_GlobalQueue v s).
Definition set_s_ConnectionRequests (v : list IncomingConnection) (s : SCTPSocket) : SCTPSocket :=
  ltac:(set_member eta_SCTPSocket s_ConnectionRequests v s).
Definition set_s_AssociationList (v : list (@entry nat)) (s : SCTPSocket) : SCTPSocket :=
  ltac:(set_member eta_SCTPSocket s_AssociationList v s).
Definition set_s_ConnectionlessAssociationList (v : list (@entry nat)) (s : SCTPSocket) : SCTPSocket :=
  ltac:(set_member eta_SCTPSocket s_ConnectionlessAssociationList v s).
Definition set_s_InstanceName (v : Z) (s : SCTPSocket) : SCTPSocket :=
  ltac:(set_member eta_SCTPSocket s_InstanceName v s).
Definition set_s_LocalPort (v : Z) (s : SCTPSocket) : SCTPSocket :=
  ltac:(set_member eta_SCTPSocket s_LocalPort v s).
Definition set_s_NoOfInStreams (v : Z) (s : SCTPSocket) : SCTPSocket :=
  ltac:(set_member eta_SCTPSocket s_NoOfInStreams v s).
Definition set_s_NoOfOutStreams (v : Z) (s : SCTPSocket) : SCTPSocket :=
  ltac:(set_member eta_SCTPSocket s_NoOfOutStreams v s).
Definition set_s_Flags (v : Z) (s : SCTPSocket) : SCTPSocket :=
  ltac:(set_member eta_SCTPSocket s_Flags v s).
Definition set_s_NotificationFlags (v : Z) (s : SCTPSocket) : SCTPSocket :=
  ltac:(set_member eta_SCTPSocket s_NotificationFlags v s).
Definition set_s_CorrelationID (v : Z) (s : SCTPSocket) : SCTPSocket :=
  ltac:(set_member eta_SCTPSocket s_CorrelationID v s).
Definition set_s_AutoCloseTimeout (v : Z) (s : SCTPSocket) : SCTPSocket :=
  ltac:(set_member eta_SCTPSocket s_AutoCloseTimeout v s).
Definition set_s_DefaultTrafficClass (v : Z) (s : SCTPSocket) : SCTPSocket :=
  ltac:(set_member eta_SCTPSocket s_DefaultTrafficClass v s).
Definition set_s_Family (v : Z) (s : SCTPSocket) : SCTPSocket :=
  ltac:(set_member eta_SCTPSocket s_Family v s).
Definition set_s_ReadReady (v : bool) (s : SCTPSocket) : SCTPSocket :=
  ltac:(set_member eta_SCTPSocket s_ReadReady v s).
Definition set_s_WriteReady (v : bool) (s : SCTPSocket) : SCTPSocket :=
  ltac:(set_member eta_SCTPSocket s_WriteReady v s).
Definition set_s_HasException (v : bool) (s : SCTPSocket) : SCTPSocket :=
  ltac:(set_member eta_SCTPSocket s_HasException v s).
Definition set_s_AutoCloseRecursion (v : bool) (s : SCTPSocket) : SCTPSocket :=
  ltac:(set_member eta_SCTPSocket s_AutoCloseRecursion v s).
Definition set_s_AutoCloseNewCheckRequired (v : bool) (s : SCTPSocket) : SCTPSocket :=
  ltac:(set_member eta_SCTPSocket s_AutoCloseNewCheckRequired v s).
Definition set_world (v : W) (y : Sys) : Sys :=
  ltac:(set_member eta_Sys world v y).
Definition set_assocs (v : gmap nat SCTPAssociation) (y : Sys) : Sys :=
  ltac:(set_member eta_Sys assocs v y).
Definition set_sockets (v : gmap nat SCTPSocket) (y : Sys) : Sys :=
  ltac:(set_member eta_Sys sockets v y).
Definition set_conditions (v : Condition.CState cid) (y : Sys) : Sys :=
  ltac:(set_member eta_Sys conditions v y).
Definition set_next_address (v : nat) (y : Sys) : Sys :=
  ltac:(set_member eta_Sys next_address v y).
Definition set_InitializationResult (v : Z) (y : Sys) : Sys :=
  ltac:(set_member eta_Sys InitializationResult v y).
Definition set_ThreadRunning (v : bool) (y : Sys) : Sys :=
  ltac:(set_member eta_Sys ThreadRunning v y).
Definition set_RandomValue (v : Z) (y : Sys) : Sys :=
  ltac:(set_member eta_Sys RandomValue v y).
Definition set_LockLevel (v : Z) (y : Sys) : Sys :=
  ltac:(set_member eta_Sys LockLevel v y).
Definition set_CancelEnabled (v : bool) (y : Sys) : Sys :=
  ltac:(set_member eta_Sys CancelEnabled v y).
Definition set_OldCancelState (v : bool) (y : Sys) : Sys :=
  ltac:(set_member eta_Sys OldCancelState v y).
Definition set_LastGarbageCollection (v : Z) (y : Sys) : Sys :=
  ltac:(set_member eta_Sys LastGarbageCollection v y).
Definition set_SocketList (v : list (@entry nat)) (y : Sys) : Sys :=
  ltac:(set_member eta_Sys SocketList v y).
Definition set_ClosingSockets (v : list Z) (y : Sys) : Sys :=
  ltac:(set_member eta_Sys ClosingSockets v y).
Definition set_ClosingAssociations (v : list (@entry Z)) (y : Sys) : Sys :=
  ltac:(set_member eta_Sys ClosingAssociations v y).
Definition set_UserNotifications (v : gmap nat UserSocketNotification) (y : Sys) : Sys :=
  ltac:(set_member eta_Sys UserNotifications v y).
Definition set_BreakPipe (v : Z * Z) (y : Sys) : Sys :=
  ltac:(set_member eta_Sys BreakPipe v y).
Definition set_GarbageCollectionTimerID (v : Z) (y : Sys) : Sys :=
  ltac:(set_member eta_Sys GarbageCollectionTimerID v y).
End Assignments.

(** ** The monad of the socket layer *)

Section Primitives.
Context `{!Platform}.

Definition P (A : Type) : Type := M Sys A.

(** Calls of sctplib and the operating system. *)
Definition ask {A} (f : W -> A) : P A := gets (fun y => f (world y)).
Definition call {A} (f : W -> A * W) : P A := fun y =>
  let '(a, w) := f (world y) in Ret a (set_world w y).

(** Access to the objects through their addresses. *)
Definition assoc (a : nat) : P SCTPAssociation := fun y =>
  match assocs y !! a with Some o => Ret o y | None => Stop UseAfterFree end.
Definition upd_assoc (a : nat) (f : SCTPAssociation -> SCTPAssociation) : P unit :=
  let* o := assoc a in modify (fun y => set_assocs (<[a := f o]> (assocs y)) y).
Definition sock (p : nat) : P SCTPSocket := fun y =>
  match sockets y !! p with Some o => Ret o y | None => Stop UseAfterFree end.
Definition upd_sock (p : nat) (f : SCTPSocket -> SCTPSocket) : P unit :=
  let* o := sock p in modify (fun y => set_sockets (<[p := f o]> (sockets y)) y).

(** Operations of the conditions. *)
Definition on_conditions {A} (m : Condition.C (K := cid) A) : P A := fun y =>
  match m (conditions y) with
  | Ret x c => Ret x (set_conditions c y)
  | Stop f => Stop f
  end.
Definition broadcast (c : cid) : P unit := on_conditions (Condition.broadcast cond_fuel c).
(** All conditions of the library are constructed without a parent, so that
    what their flag is before does not matter ([Condition.new_Condition_memory]). *)
Definition new_Condition (c : cid) : P unit :=
  on_conditions (Condition.new_Condition indeterminate_Fired cond_fuel c None).
Definition addParent (c p : cid) : P unit :=
  on_conditions (Condition.addParent cond_fuel c (Some p)).
Definition fired (c : cid) : P bool := on_conditions (Condition.fired c).

(** [SCTPSocketMaster::lock], [SCTPSocketMaster::unlock]: the recursive mutex
    of the library, by its level.  The thread's cancel state is saved by the
    outermost lock and restored by the outermost unlock. *)
Definition lock : P unit := fun y =>
  let oldstate := CancelEnabled y in
  let y := set_CancelEnabled false y in
  let y := set_LockLevel (u32 (LockLevel y + 1)) y in
  Ret tt (if bool_decide (LockLevel y = 1) then set_OldCancelState oldstate y else y).

Definition unlock : P unit := fun y =>
  if bool_decide (LockLevel y = 0) then Stop ProcessAbort
  else
    let y := set_LockLevel (LockLevel y - 1) y in
    Ret tt (if bool_decide (LockLevel y = 0) then set_CancelEnabled (OldCancelState y) y else y).

(** What the other threads do while the calling thread waits: one element
    per wait. *)
Definition schedule : Type := list (P unit).
End Primitives.
