(* ===== verification/Association.v ===== *)
(** * [SCTPAssociation]: life cycle, default stream time-outs, parameters
    (sctpassociation.cc, sctpassociation.icc)

    The operations that go through the socket (sending, receiving, addresses)
    are in [Socket].  Operations that make sctplib call back take the dispatch
    of the callbacks, [deliver], as an argument; [SocketMaster] ties the knot. *)

From S2P Require Import Prelude MultiMap Memory Notification NotificationQueue State.
Local Open Scope Z_scope.

Inductive UpdateConditionType : Set := UCT_Read | UCT_Write | UCT_Except.

(** ** Default stream time-outs as operations on the array *)

Section StreamTimeouts.
(** [past_end] is the value the copying loop reads one element past the end
    of the old array; [fill] is the content of the array [new] returns. *)
Variables past_end fill : StreamDefaultTimeout.

Definition for_range (lo hi : nat) (f : nat -> list StreamDefaultTimeout -> list StreamDefaultTimeout)
    (arr : list StreamDefaultTimeout) : list StreamDefaultTimeout :=
  foldl (fun arr i => f i arr) arr (seq lo (hi - lo)).

Definition set_timeout (timeout : Z) (i : nat) (arr : list StreamDefaultTimeout) :=
  <[i := {| sdt_Valid := true; sdt_Timeout := timeout |}]> arr.
Definition set_invalid (i : nat) (arr : list StreamDefaultTimeout) :=
  alter (fun t => {| sdt_Valid := false; sdt_Timeout := sdt_Timeout t |}) i arr.
Definition copy_timeout (old : list StreamDefaultTimeout) (i : nat)
    (arr : list StreamDefaultTimeout) :=
  <[i := default past_end (old !! i)]> arr.

(** [start] and [end] are [unsigned short]s; [count] is the member
    [StreamDefaultTimeoutCount].  [None]: [start > end]. *)
Definition set_stream_timeouts (timeout start end_ : Z)
    (array : option (list StreamDefaultTimeout)) (count : Z)
  : option (option (list StreamDefaultTimeout) * Z) :=
  if bool_decide (end_ < start) then None
  else if bool_decide (end_ + 1 <= count) then
    Some (for_range (Z.to_nat start) (Z.to_nat (end_ + 1)) (set_timeout timeout) <$> array, count)
  else
    let newArray := replicate (Z.to_nat (end_ + 1)) fill in
    let newArray :=
      match array with
      | Some old => for_range 0 (Z.to_nat (count + 1)) (copy_timeout old) newArray
      | None => newArray
      end in
    let newArray := for_range (Z.to_nat count) (Z.to_nat start) set_invalid newArray in
    let newArray :=
      for_range (Z.to_nat start) (Z.to_nat (end_ + 1)) (set_timeout timeout) newArray in
    Some (Some newArray, end_ + 1).

Definition get_stream_timeout (streamID : Z)
    (array : option (list StreamDefaultTimeout)) (count : Z) : Res unit (option Z) :=
  if bool_decide (streamID < count) then
    match array with
    | Some arr =>
        match arr !! Z.to_nat streamID with
        | Some t => Ret (if sdt_Valid t then Some (sdt_Timeout t) else None) tt
        | None => Stop UseAfterFree
        end
    | None => Stop NullDereference
    end
  else Ret None tt.
End StreamTimeouts.

Section Association.
Context `{!Platform}.
Variable deliver : list Callback -> P unit.

(** [SCTPSocketMaster::delayedDeleteAssociation]: the instance ID is passed
    as an [unsigned short]. *)
Definition delayedDeleteAssociation (instanceID assocID : Z) : P unit :=
  modify (fun y =>
    set_ClosingAssociations (mm_insert assocID (u16 instanceID) (ClosingAssociations y)) y).

(** [SCTPAssociation::SCTPAssociation]; the result is the address.  The
    constructor does not assign the default context, [InitTimeout] and
    [RTOMax]. *)
Definition new_SCTPAssociation (socket : nat) (associationID notificationFlags : Z)
    (udpLike : bool) : P nat :=
  let* this := gets next_address in
  modify (set_next_address (S this)) ;;
  let* now := call getMicroTime_ in
  modify (fun y => set_assocs (<[this := {|
    a_Socket := socket;
    a_InQueue := Spec.empty;
    a_LastUsage := now;
    a_UseCount := 0;
    a_AssociationID := associationID;
    a_NotificationFlags := notificationFlags;
    a_Defaults := {| d_StreamID := 0; d_ProtoID := 0;
                     d_TimeToLive := SCTP_INFINITE_LIFETIME; d_Context := indeterminate_Context |};
    a_StreamDefaultTimeoutArray := None;
    a_StreamDefaultTimeoutCount := 0;
    a_CommunicationUpNotification := false;
    a_CommunicationLostNotification := false;
    a_ShutdownCompleteNotification := false;
    a_IsShuttingDown := false;
    a_ReadReady := false;
    a_WriteReady := false;
    a_HasException := false;
    a_RTOMaxIsInitTimeout := false;
    a_InitTimeout := indeterminate_InitTimeout;
    a_RTOMax := indeterminate_RTOMax;
    a_PreEstablishment := [];
    a_PreEstablishmentAddressList := None;
    a_PeeledOff := false |}]> (assocs y)) y) ;;
  for_each [InQueueUpdate; Establish; ShutdownCompleteC; ReadyForTransmit;
            ReadUpdate; WriteUpdate; ExceptUpdate] (fun k => new_Condition (this, k)) ;;
  addParent (this, InQueueUpdate) (this, ReadUpdate) ;;
  when (negb udpLike) (
    addParent (this, ShutdownCompleteC) (this, ExceptUpdate) ;;
    addParent (this, Establish) (this, WriteUpdate) ;;
    addParent (this, ReadyForTransmit) (this, WriteUpdate)) ;;
  lock ;;
  upd_sock socket (fun s =>
    set_s_AssociationList (mm_insert associationID this (s_AssociationList s)) s) ;;
  unlock ;;
  ret this.

(** [SCTPAssociation::shutdown] *)
Definition assoc_shutdown (this : nat) : P unit :=
  lock ;;
  let* o := assoc this in
  when (negb (a_IsShuttingDown o)) (
    upd_assoc this (set_a_IsShuttingDown true) ;;
    let* callbacks := (fun y =>
      let '(w, cbs) := sctp_shutdown (a_AssociationID o) (world y) in
      Ret cbs (set_world w y)) in
    deliver callbacks) ;;
  unlock.

(** [SCTPAssociation::abort] *)
Definition assoc_abort (this : nat) : P unit :=
  lock ;;
  upd_assoc this (set_a_IsShuttingDown true) ;;
  let* o := assoc this in
  let* callbacks := (fun y =>
    let '(w, cbs) := sctp_abort (a_AssociationID o) (world y) in
    Ret cbs (set_world w y)) in
  deliver callbacks ;;
  unlock.

(** [SCTPAssociation::~SCTPAssociation], i.e. [delete association] *)
Definition delete_SCTPAssociation (this : nat) : P unit :=
  lock ;;
  let* o := assoc this in
  if bool_decide (a_AssociationID o = 0) then stop ProcessAbort
  else
    (if negb (a_ShutdownCompleteNotification o) then
       let* s := sock (a_Socket o) in
       delayedDeleteAssociation (s_InstanceName s) (a_AssociationID o) ;;
       assoc_shutdown this
     else
       let* r := call (sctp_deleteAssociation (a_AssociationID o)) in
       when (bool_decide (r <> 0)) (stop ProcessAbort)) ;;
    let* s := sock (a_Socket o) in
    match mm_find (a_AssociationID o) (s_AssociationList s) with
    | Some iterator =>
        upd_sock (a_Socket o) (fun s =>
          set_s_AssociationList (mm_erase iterator (s_AssociationList s)) s)
    | None => stop ProcessAbort
    end ;;
    upd_assoc this (set_a_AssociationID 0) ;;
    unlock ;;
    modify (fun y => set_assocs (delete this (assocs y)) y).

(** [SCTPAssociation::hasData] *)
Definition assoc_hasData (this : nat) : P bool :=
  lock ;;
  let* o := assoc this in
  let result := Spec.hasData (a_NotificationFlags o) (a_InQueue o) in
  unlock ;;
  ret result.

(** [SCTPAssociation::getNotificationFlags], [setNotificationFlags], [getID] *)
Definition assoc_getID (this : nat) : P Z := let* o := assoc this in ret (a_AssociationID o).
Definition assoc_getNotificationFlags (this : nat) : P Z :=
  let* o := assoc this in ret (a_NotificationFlags o).
Definition assoc_setNotificationFlags (this : nat) (flags : Z) : P unit :=
  upd_assoc this (set_a_NotificationFlags flags).

(** [SCTPAssociation::getUpdateCondition] *)
Definition assoc_getUpdateCondition (this : nat) (type : UpdateConditionType) : P cid :=
  let* o := assoc this in
  let '(ready, c) :=
    match type with
    | UCT_Read => (a_ReadReady o, (this, ReadUpdate))
    | UCT_Write => (a_WriteReady o, (this, WriteUpdate))
    | UCT_Except => (a_HasException o, (this, ExceptUpdate))
    end in
  (if ready then broadcast c else (fired c ;; ret tt)) ;;
  ret c.

(** [SCTPAssociation::setDefaultStreamTimeouts] *)
Definition setDefaultStreamTimeouts (past_end fill : StreamDefaultTimeout)
    (this : nat) (timeout start end_ : Z) : P bool :=
  if bool_decide (end_ < start) then ret false
  else
    lock ;;
    let* o := assoc this in
    match set_stream_timeouts past_end fill timeout start end_
            (a_StreamDefaultTimeoutArray o) (a_StreamDefaultTimeoutCount o) with
    | Some (array, count) =>
        upd_assoc this (set_a_StreamDefaultTimeoutArray array) ;;
        upd_assoc this (set_a_StreamDefaultTimeoutCount count)
    | None => ret tt
    end ;;
    unlock ;;
    ret true.

(** [SCTPAssociation::getDefaultStreamTimeout]: [Some timeout] is the result
    [true] with the reference parameter set. *)
Definition getDefaultStreamTimeout (this : nat) (streamID : Z) : P (option Z) :=
  lock ;;
  let* o := assoc this in
  match get_stream_timeout streamID (a_StreamDefaultTimeoutArray o)
          (a_StreamDefaultTimeoutCount o) with
  | Ret r _ => unlock ;; ret r
  | Stop f => stop f
  end.

(** [SCTPAssociation::getAssocIODefaults], [setAssocIODefaults] *)
Definition assoc_getAssocIODefaults (this : nat) : P AssocIODefaults :=
  lock ;;
  let* o := assoc this in
  unlock ;;
  ret (a_Defaults o).
Definition assoc_setAssocIODefaults (this : nat) (defaults : AssocIODefaults) : P unit :=
  lock ;;
  upd_assoc this (set_a_Defaults defaults) ;;
  unlock.

(** A member of the association status, -1 when sctplib has none. *)
Definition status_member (this : nat) (f : SCTP_Association_Status -> Z) : P Z :=
  lock ;;
  let* o := assoc this in
  let* status := ask (sctp_getAssocStatus (a_AssociationID o)) in
  unlock ;;
  ret (match status with Some st => f st | None => -1 end).

(** Read the association status, change it, write it back. *)
Definition set_status_member (this : nat)
    (f : SCTP_Association_Status -> SCTP_Association_Status) : P bool :=
  lock ;;
  let* o := assoc this in
  let* status := ask (sctp_getAssocStatus (a_AssociationID o)) in
  let* result :=
    match status with
    | Some st => let* r := call (sctp_setAssocStatus (a_AssociationID o) (f st)) in
                 ret (bool_decide (r = 0))
    | None => ret false
    end in
  unlock ;;
  ret result.

Definition with_maxSendQueue (v : Z) (st : SCTP_Association_Status) : SCTP_Association_Status :=
  ltac:(set_member eta_Association_Status maxSendQueue v st).
Definition with_maxRecvQueue (v : Z) (st : SCTP_Association_Status) : SCTP_Association_Status :=
  ltac:(set_member eta_Association_Status maxRecvQueue v st).
Definition with_rtoMax (v : Z) (st : SCTP_Association_Status) : SCTP_Association_Status :=
  ltac:(set_member eta_Association_Status rtoMax v st).

Definition getSendBuffer (this : nat) : P Z := status_member this maxSendQueue.
Definition assoc_setSendBuffer (this : nat) (size : Z) : P bool :=
  set_status_member this (with_maxSendQueue size).
Definition getReceiveBuffer (this : nat) : P Z := status_member this maxRecvQueue.
Definition assoc_setReceiveBuffer (this : nat) (size : Z) : P bool :=
  set_status_member this (with_maxRecvQueue size).
Definition getTrafficClass (this : nat) (streamID : Z) : P Z := status_member this ipTos.

(** [SCTPAssociation::setTrafficClass] does nothing. *)
Definition assoc_setTrafficClass (this : nat) (trafficClass streamID : Z) : P bool := ret true.
End Association.
