(* ===== verification/Socket.v ===== *)
(** * [SCTPSocket]: lookup, parameters, accepting, receiving and sending
    (sctpsocket.cc), and the sending operations of [SCTPAssociation]
    (sctpassociation.cc)

    None of these operations makes sctplib call back.  Operations that wait
    take a schedule: what the other threads do during each wait. *)

From S2P Require Import Prelude MultiMap Memory Notification NotificationQueue State Association.
Local Open Scope Z_scope.

(** [SocketAddress::PF_*] *)
Definition PF_Address : Z := 2 ^ 0.
Definition PF_HidePort : Z := 2 ^ 15.
Definition PF_Legacy : Z := 2 ^ 16.

Section Socket.
Context `{!Platform}.

(** ** Looking up associations *)

(** [SCTPSocket::getAssociationForAssociationID] *)
Definition getAssociationForAssociationID (this : nat) (assocID : Z) (activeOnly : bool)
  : P (option nat) :=
  lock ;;
  let* s := sock this in
  let* association :=
    match mm_find assocID (s_AssociationList s) with
    | Some (_, a) =>
        let* o := assoc a in
        ret (if negb (a_IsShuttingDown o && activeOnly) then Some a else None)
    | None => ret None
    end in
  unlock ;;
  ret association.

(** [SCTPSocket::getErrorCode] *)
Definition getErrorCode (this : nat) (assocID : Z) : P Z :=
  let* association := getAssociationForAssociationID this assocID false in
  match association with
  | Some a =>
      let* o := assoc a in
      if a_ShutdownCompleteNotification o then
        upd_assoc a (set_a_HasException true) ;; ret (- ECONNRESET)
      else if a_CommunicationLostNotification o then
        upd_assoc a (set_a_HasException true) ;; ret (- ECONNABORTED)
      else ret 0
  | None => ret 0
  end.

(** ** Instance, association and path parameters *)

Definition sock_getAssocDefaults (this : nat) : P (option SCTP_Instance_Parameters) :=
  lock ;;
  let* s := sock this in
  let* r := ask (sctp_getAssocDefaults (s_InstanceName s)) in
  unlock ;;
  ret r.

Definition sock_setAssocDefaults (this : nat) (p : SCTP_Instance_Parameters) : P bool :=
  lock ;;
  let* s := sock this in
  let* ok := call (sctp_setAssocDefaults (s_InstanceName s) p) in
  unlock ;;
  ret (bool_decide (ok = 0)).

Definition sock_getAssocStatus (assocID : Z) : P (option SCTP_Association_Status) :=
  lock ;;
  let* r := ask (sctp_getAssocStatus assocID) in
  unlock ;;
  ret r.

Definition sock_setAssocStatus (assocID : Z) (st : SCTP_Association_Status) : P bool :=
  lock ;;
  let* ok := call (sctp_setAssocStatus assocID st) in
  unlock ;;
  ret (bool_decide (ok = 0)).

(** [SCTPAssociation::getAssocStatus], [setAssocStatus]: while the
    association is being established, the instance's [rtoMax] holds the
    initial time-out and the user's value is kept in [RTOMax]. *)
Definition assoc_getAssocStatus (this : nat) : P (option SCTP_Association_Status) :=
  let* o := assoc this in
  let* r := sock_getAssocStatus (a_AssociationID o) in
  match r with
  | Some st => ret (Some (if a_RTOMaxIsInitTimeout o then with_rtoMax (a_RTOMax o) st else st))
  | None => ret None
  end.

Definition assoc_setAssocStatus (this : nat) (assocStatus : SCTP_Association_Status) : P bool :=
  let* o := assoc this in
  if a_RTOMaxIsInitTimeout o then
    let newStatus := with_rtoMax (a_InitTimeout o) assocStatus in
    upd_assoc this (set_a_RTOMax (rtoMax assocStatus)) ;;
    sock_setAssocStatus (a_AssociationID o) newStatus
  else sock_setAssocStatus (a_AssociationID o) assocStatus.

(** The search loop of [getPathIndexForAddress] over the path IDs; also
    returns the path status it read last. *)
Fixpoint find_path (assocID : Z) (addressString : string) (ids : list Z) (w : W)
    (last : option SCTP_Path_Status) : Res unit (Z * option SCTP_Path_Status) :=
  match ids with
  | [] => Stop OutOfBounds
  | index :: ids =>
      match sctp_getPathStatus assocID index w with
      | None => Ret (-1, last) tt
      | Some p =>
          if bool_decide (addressString = destinationAddress p) then Ret (index, Some p) tt
          else find_path assocID addressString ids w (Some p)
      end
  end.

(** [SCTPSocket::getPathIndexForAddress] *)
Definition getPathIndexForAddress (assocID : Z) (address : option Addr)
  : P (Z * option SCTP_Path_Status) := fun y =>
  match address with
  | None => Ret (sctp_getPrimary assocID (world y), None) y
  | Some addr =>
      match sctp_getAssocStatus assocID (world y) with
      | None => Ret (-1, None) y
      | Some status =>
          let addressString :=
            getAddressString addr (Z.lor (Z.lor PF_Address PF_HidePort) PF_Legacy) in
          match find_path assocID addressString (destinationPathIDs status) (world y) None with
          | Ret r _ => Ret r y
          | Stop f => Stop f
          end
      end
  end.

(** [SCTPSocket::getPathParameters] *)
Definition getPathParameters (assocID : Z) (address : option Addr)
  : P (bool * option SCTP_Path_Status) :=
  lock ;;
  let* '(pathIndex, p) := getPathIndexForAddress assocID address in
  let* p :=
    if bool_decide (0 <= pathIndex) then
      let* q := ask (sctp_getPathStatus assocID pathIndex) in
      ret (match q with Some q => Some q | None => p end)
    else ret p in
  unlock ;;
  ret (bool_decide (0 <= pathIndex), p).

(** [SCTPSocket::setPathParameters] *)
Definition setPathParameters (assocID : Z) (address : option Addr)
    (pathParameters : SCTP_Path_Status) : P bool :=
  lock ;;
  let* '(pathIndex, _) := getPathIndexForAddress assocID address in
  let* pathIndex :=
    if bool_decide (0 <= pathIndex) then
      let hb := heartbeatIntervall pathParameters in
      if bool_decide (hb = 2 ^ 32 - 1) then
        let* r := call (sctp_requestHeartbeat assocID pathIndex) in
        ret (if bool_decide (r <> 0) then -1 else pathIndex)
      else
        let* r := call (sctp_changeHeartBeat assocID pathIndex (bool_decide (0 < hb)) hb) in
        ret (if bool_decide (r <> 0) then -1 else pathIndex)
    else ret pathIndex in
  unlock ;;
  ret (bool_decide (0 <= pathIndex)).

(** [SCTPSocket::getPrimaryAddress], [setPrimary], [setPeerPrimary] *)
Definition getPrimaryAddress (assocID : Z) : P (option Addr) :=
  lock ;;
  let* index := ask (sctp_getPrimary assocID) in
  let* address :=
    if bool_decide (0 <= index) then
      let* p := ask (sctp_getPathStatus assocID index) in
      ret (match p with
           | Some p => createSocketAddress_name 0 (destinationAddress p)
           | None => None
           end)
    else ret None in
  unlock ;;
  ret address.

Definition setPrimary (assocID : Z) (primary : Addr) : P bool :=
  lock ;;
  let* '(index, _) := getPathIndexForAddress assocID (Some primary) in
  let* result :=
    if bool_decide (0 <= index) then call (sctp_setPrimary assocID index) else ret (-1) in
  unlock ;;
  ret (bool_decide (result = 0)).

(** [snprintf(buffer, size, "%s", s)] into a buffer of [size] bytes. *)
Definition snprintf_s (size : nat) (s : string) : string := String.substring 0 (size - 1) s.

Definition setPeerPrimary (assocID : Z) (primary : Addr) : P bool :=
  lock ;;
  let address := snprintf_s SCTP_MAX_IP_LEN
                   (getAddressString primary (Z.lor PF_Address PF_Legacy)) in
  let* result := call (sctp_setRemotePrimary assocID address) in
  unlock ;;
  ret (bool_decide (result = 0)).

(** [SCTPSocket::hasData] *)
Definition sock_hasData (this : nat) : P bool :=
  lock ;;
  let* s := sock this in
  let result := has_flag (s_Flags s) SSF_GlobalQueue
                && Spec.hasData (s_NotificationFlags s) (s_GlobalQueue s) in
  unlock ;;
  ret result.

(** [ReadReady = hasData() || (ConnectionRequests != NULL)] *)
Definition update_ReadReady (this : nat) : P unit :=
  let* d := sock_hasData this in
  let* s := sock this in
  upd_sock this (set_s_ReadReady (d || bool_decide (s_ConnectionRequests s <> []))).

(** ** Accepting *)

(** [SCTPSocket::listen] *)
Definition listen (this : nat) (backlog : Z) : P unit :=
  lock ;;
  (if bool_decide (0 < backlog)
   then upd_sock this (fun s => set_s_Flags (set_flag (s_Flags s) SSF_Listening) s)
   else upd_sock this (fun s => set_s_Flags (clear_flag (s_Flags s) SSF_Listening) s)) ;;
  unlock.

(** The address array [accept] fills; [deleteAddressList] resets the array
    pointer to NULL, and the loop goes on. *)
Fixpoint accept_addresses (n : SCTPNotification) (todo : list string)
    (acc : option (list Addr)) : Res unit (option (list Addr)) :=
  match todo with
  | [] => Ret acc tt
  | str :: todo =>
      match acc with
      | None => Stop NullDereference
      | Some l =>
          match createSocketAddress 0 str (RemotePort n) with
          | Some addr => accept_addresses n todo (Some (l ++ [addr]))
          | None => accept_addresses n todo None
          end
      end
  end.

(** [while(condition.timedWait(100000) == false) checkAutoConnect();]: a poll
    either finds the condition fired or takes an element of the schedule. *)
Fixpoint poll_condition (checkAutoConnect : P unit) (c : cid) (fuel : nat)
    (sched : schedule) : P schedule :=
  match fuel with
  | O => stop OutOfFuel
  | S fuel =>
      let* f := fired c in
      if f then ret sched
      else match sched with
           | [] => stop WouldBlock
           | others :: sched =>
               others ;;
               let* f := fired c in
               if f then ret sched
               else checkAutoConnect ;; poll_condition checkAutoConnect c fuel sched
           end
  end.
Definition wait_condition (checkAutoConnect : P unit) (c : cid) (sched : schedule)
  : P schedule := poll_condition checkAutoConnect c (S (length sched)) sched.

(** The loop [while(ConnectionRequests == NULL)]: [false] when the call
    returns NULL without waiting. *)
Fixpoint accept_loop (checkAutoConnect : P unit) (this : nat) (wait : bool) (fuel : nat)
    (sched : schedule) : P bool :=
  let* s := sock this in
  match s_ConnectionRequests s, fuel with
  | _ :: _, _ => ret true
  | [], O => stop OutOfFuel
  | [], S fuel =>
      unlock ;;
      if negb wait then ret false
      else
        let* sched := wait_condition checkAutoConnect (this, Establish) sched in
        lock ;;
        accept_loop checkAutoConnect this wait fuel sched
  end.

Definition accept_fuel (sched : schedule) : nat := 2 * length sched + 2.

(** Taking the first request: the second half of [accept]. *)
Definition accept_request (this : nat) (addresses : bool)
  : P (option nat * option (list Addr)) :=
  let* s := sock this in
  match s_ConnectionRequests s with
  | [] => unlock ;; ret (None, None)
  | request :: rest =>
      let n := ic_Notification request in
      let* addressArray :=
        if addresses then
          match accept_addresses n
                  (take (Z.to_nat (RemoteAddresses n)) (RemoteAddress n)) (Some []) with
          | Ret l _ => ret l
          | Stop f => stop f
          end
        else ret None in
      upd_sock this (set_s_ConnectionRequests rest) ;;
      update_ReadReady this ;;
      unlock ;;
      ret (Some (ic_Association request), addressArray)
  end.

(** [SCTPSocket::accept], for a given [checkAutoConnect]; the return for a
    socket that is not listening does not release the lock. *)
Definition accept_with (checkAutoConnect : P unit) (this : nat) (addresses wait : bool)
    (sched : schedule) : P (option nat * option (list Addr)) :=
  lock ;;
  let* s := sock this in
  if negb (has_flag (s_Flags s) SSF_Listening) then ret (None, None)
  else
    let* got := accept_loop checkAutoConnect this wait (accept_fuel sched) sched in
    if negb got then ret (None, None) else accept_request this addresses.

(** [accept(NULL, false)] never reaches the wait. *)
Definition accept_nowait (this : nat) : P (option nat) :=
  let* '(a, _) := accept_with (stop WouldBlock) this false false [] in ret a.

(** The loop of [checkAutoConnect]; each pass removes one request. *)
Fixpoint autoconnect_loop (this : nat) (fuel : nat) : P unit :=
  let* association := accept_nowait this in
  match association, fuel with
  | None, _ => ret tt
  | Some _, O => stop OutOfFuel
  | Some a, S fuel =>
      let* o := assoc a in
      upd_sock this (fun s =>
        set_s_ConnectionlessAssociationList
          (mm_insert (a_AssociationID o) a (s_ConnectionlessAssociationList s)) s) ;;
      autoconnect_loop this fuel
  end.

(** [SCTPSocket::checkAutoConnect] *)
Definition checkAutoConnect (this : nat) : P unit :=
  let* s := sock this in
  when (has_flag (s_Flags s) SSF_AutoConnect) (
    lock ;;
    let* s := sock this in
    let oldFlags := s_Flags s in
    upd_sock this (set_s_Flags (set_flag oldFlags SSF_Listening)) ;;
    autoconnect_loop this (length (s_ConnectionRequests s)) ;;
    upd_sock this (set_s_Flags oldFlags) ;;
    unlock).

Definition accept (this : nat) (addresses wait : bool) (sched : schedule)
  : P (option nat * option (list Addr)) :=
  accept_with (checkAutoConnect this) this addresses wait sched.

End Socket.
