(* ===== verification/SocketIO.v ===== *)
(** * Receiving and sending: [SCTPSocket::internalReceive], [internalSend] and
    their callers (sctpsocket.cc, sctpassociation.cc)

    The reference parameters of the receive functions are the members of
    [RecvArgs]; the bytes written to the caller's buffer are [ra_buffer]. *)

From S2P Require Import Prelude MultiMap Memory Notification NotificationQueue State.
From S2P Require Import Association Socket.
Local Open Scope Z_scope.

(** The queue a receive call reads from. *)
Inductive QueueRef : Set :=
| GlobalQueueOf (socket : nat)
| InQueueOf (association : nat).

Section SocketIO.
Context `{!Platform}.

Record RecvArgs : Type := {
  ra_buffer : list Z;
  ra_bufferSize : Z;
  ra_flags : Z;
  ra_assocID : Z;
  ra_streamID : Z;
  ra_protoID : Z;
  ra_ssn : Z;
  ra_tsn : Z;
  ra_address : option Addr }.

Definition set_ra_flags (f : Z) (r : RecvArgs) : RecvArgs :=
  {| ra_buffer := ra_buffer r; ra_bufferSize := ra_bufferSize r; ra_flags := f;
     ra_assocID := ra_assocID r; ra_streamID := ra_streamID r; ra_protoID := ra_protoID r;
     ra_ssn := ra_ssn r; ra_tsn := ra_tsn r; ra_address := ra_address r |}.
Definition set_ra_buffer (b : list Z) (size : Z) (r : RecvArgs) : RecvArgs :=
  {| ra_buffer := b; ra_bufferSize := size; ra_flags := ra_flags r;
     ra_assocID := ra_assocID r; ra_streamID := ra_streamID r; ra_protoID := ra_protoID r;
     ra_ssn := ra_ssn r; ra_tsn := ra_tsn r; ra_address := ra_address r |}.
Definition set_ra_assocID (a : Z) (r : RecvArgs) : RecvArgs :=
  {| ra_buffer := ra_buffer r; ra_bufferSize := ra_bufferSize r; ra_flags := ra_flags r;
     ra_assocID := a; ra_streamID := ra_streamID r; ra_protoID := ra_protoID r;
     ra_ssn := ra_ssn r; ra_tsn := ra_tsn r; ra_address := ra_address r |}.

(** ** Queue access *)

Definition get_queue (q : QueueRef) : P Spec.queue :=
  match q with
  | GlobalQueueOf p => let* s := sock p in ret (s_GlobalQueue s)
  | InQueueOf a => let* o := assoc a in ret (a_InQueue o)
  end.
Definition set_queue (q : QueueRef) (l : Spec.queue) : P unit :=
  match q with
  | GlobalQueueOf p => upd_sock p (set_s_GlobalQueue l)
  | InQueueOf a => upd_assoc a (set_a_InQueue l)
  end.
Definition queue_condition (q : QueueRef) : cid :=
  match q with
  | GlobalQueueOf p => (p, InQueueUpdate)
  | InQueueOf a => (a, InQueueUpdate)
  end.
Definition queue_getNotification (q : QueueRef) : P (option SCTPNotification) :=
  let* l := get_queue q in ret (Spec.getNotification l).
Definition queue_updateNotification (q : QueueRef) (n : SCTPNotification) : P unit :=
  let* l := get_queue q in set_queue q (Spec.updateNotification n l).
Definition queue_dropNotification (q : QueueRef) : P unit :=
  let* l := get_queue q in set_queue q (Spec.dropNotification l).
Definition queue_hasData (q : QueueRef) (flags : Z) : P bool :=
  let* l := get_queue q in ret (Spec.hasData flags l).

(** ** Waiting for a notification *)

(** The loop of [internalReceive]: a notification, with the lock held, or
    the result of an early return, with the lock released. *)
Fixpoint receive_loop (this : nat) (q : QueueRef) (notificationFlags : Z) (r : RecvArgs)
    (fuel : nat) (sched : schedule) : P (SCTPNotification + (Z * RecvArgs)) :=
  let* received := queue_getNotification q in
  match received, fuel with
  | Some n, _ => ret (inl n)
  | None, O => stop OutOfFuel
  | None, S fuel =>
      let* errorCode := getErrorCode this (ra_assocID r) in
      unlock ;;
      if bool_decide (errorCode <> 0) then
        let r := set_ra_buffer (ra_buffer r) 0 r in
        let* d := queue_hasData q notificationFlags in
        if bool_decide (errorCode = - ECONNRESET) && negb d then
          ret (inr (0, set_ra_flags (clear_flag (ra_flags r) MSG_NOTIFICATION) r))
        else ret (inr (errorCode, r))
      else if has_flag (ra_flags r) MSG_DONTWAIT then ret (inr (- EAGAIN, r))
      else
        let* sched := wait_condition (checkAutoConnect this) (queue_condition q) sched in
        lock ;;
        receive_loop this q notificationFlags r fuel sched
  end.

Definition receive_fuel (sched : schedule) : nat := 2 * length sched + 2.

(** ** Reading user data *)

(** The address of the sender, when the caller asked for it. *)
Definition sender_address (assocID : Z) (want : bool) (r : RecvArgs) : P RecvArgs :=
  if negb want then ret r
  else
    let* pathIndex := ask (sctp_getPrimary assocID) in
    let* p := ask (sctp_getPathStatus assocID pathIndex) in
    match p with
    | None => ret r
    | Some p =>
        let* st := ask (sctp_getAssocStatus assocID) in
        match st with
        | None => ret r
        | Some st =>
            ret {| ra_buffer := ra_buffer r; ra_bufferSize := ra_bufferSize r;
                   ra_flags := ra_flags r; ra_assocID := ra_assocID r;
                   ra_streamID := ra_streamID r; ra_protoID := ra_protoID r;
                   ra_ssn := ra_ssn r; ra_tsn := ra_tsn r;
                   ra_address := createSocketAddress 0 (destinationAddress p) (destPort st) |}
        end
    end.

(** The branch [sn_type == SCTP_DATA_ARRIVE]: result, [updatedNotification]
    and the reference parameters. *)
Definition receive_data (q : QueueRef) (n : SCTPNotification) (want_address : bool)
    (r : RecvArgs) : P (Z * bool * RecvArgs) :=
  let r := set_ra_flags (clear_flag (ra_flags r) MSG_NOTIFICATION) r in
  let c := Content n in
  let arrived := rd sda_bytes_arrived c in
  if bool_decide (0 < arrived) then
    let assocID := rd sda_assoc_id c in
    let streamID := rd sda_stream c in
    let flags := if has_flag (rd sn_flags c) SCTP_ARRIVE_UNORDERED
                 then set_flag (ra_flags r) MSG_UNORDERED else ra_flags r in
    let r := {| ra_buffer := ra_buffer r; ra_bufferSize := ra_bufferSize r;
                ra_flags := flags; ra_assocID := assocID; ra_streamID := streamID;
                ra_protoID := rd sda_ppid c; ra_ssn := ra_ssn r; ra_tsn := ra_tsn r;
                ra_address := ra_address r |} in
    let receivedBytes := u32 (Z.min arrived (ra_bufferSize r)) in
    let* ok := call (sctp_receive assocID streamID receivedBytes (has_flag flags MSG_PEEK)) in
    match ok with
    | Some d =>
        let receivedBytes := Z.of_nat (length (r_data d)) in
        let r := {| ra_buffer := r_data d; ra_bufferSize := receivedBytes;
                    ra_flags := flags; ra_assocID := assocID; ra_streamID := streamID;
                    ra_protoID := ra_protoID r; ra_ssn := r_ssn d; ra_tsn := r_tsn d;
                    ra_address := ra_address r |} in
        let result := s32 receivedBytes in
        let* r := sender_address assocID want_address r in
        if has_flag flags MSG_PEEK then
          queue_updateNotification q n ;; ret (result, true, r)
        else
          let left := u32 (arrived - receivedBytes) in
          let n := with_Content n (wr sda_bytes_arrived left c) in
          if bool_decide (0 < left) then
            queue_updateNotification q n ;; ret (result, true, r)
          else ret (result, false, set_ra_flags (set_flag flags MSG_EOR) r)
    | None => ret (- ECONNABORTED, false, r)
    end
  else ret (0, false, set_ra_buffer (ra_buffer r) 0 r).

(** ** Reading a notification *)

(** [notification.Content.sn_*.*_assoc_id]; [None]: the unexpected type. *)
Definition notification_assoc_id (c : list Z) : option Z :=
  let ty := rd sn_type c in
  if bool_decide (ty = SCTP_ASSOC_CHANGE) then Some (rd sac_assoc_id c)
  else if bool_decide (ty = SCTP_REMOTE_ERROR) then Some (rd sre_assoc_id c)
  else if bool_decide (ty = SCTP_SEND_FAILED) then Some (rd ssf_assoc_id c)
  else if bool_decide (ty = SCTP_SHUTDOWN_EVENT) then Some (rd sse_assoc_id c)
  else if bool_decide (ty = SCTP_PEER_ADDR_CHANGE) then Some (rd spc_assoc_id c)
  else None.

Definition receive_notification (this : nat) (q : QueueRef) (n : SCTPNotification)
    (notificationFlags : Z) (receiveNotifications : bool) (r : RecvArgs)
  : P (Z * bool * RecvArgs) :=
  let c := Content n in
  match notification_assoc_id c with
  | None => stop ProcessAbort
  | Some assocID =>
      let r := set_ra_assocID assocID r in
      if receiveNotifications && event_wanted notificationFlags (rd sn_type c) then
        let len := rd sn_length c in
        let toCopy := Z.min (u32 (len - ContentPosition n)) (u32 (ra_bufferSize r)) in
        let bytes := take (Z.to_nat toCopy) (drop (Z.to_nat (ContentPosition n)) c) in
        let r := set_ra_buffer bytes toCopy r in
        let pos := u32 (ContentPosition n + toCopy) in
        let peek := has_flag (ra_flags r) MSG_PEEK in
        let* '(updated, flags) :=
          if bool_decide (pos < len) then
            queue_updateNotification q (with_ContentPosition n (if peek then 0 else pos)) ;;
            ret (true, set_flag (ra_flags r) MSG_NOTIFICATION)
          else
            (if peek then queue_updateNotification q (with_ContentPosition n 0) else ret tt) ;;
            ret (peek, set_flag (set_flag (ra_flags r) MSG_EOR) MSG_NOTIFICATION) in
        ret (s32 toCopy, updated, set_ra_flags flags r)
      else
        let* result := getErrorCode this assocID in
        if bool_decide (result = 0) then
          ret (- EAGAIN, false, set_ra_flags (clear_flag (ra_flags r) MSG_NOTIFICATION) r)
        else ret (result, false, r)
  end.

(** ** Dropping a notification that has been read completely *)

Definition finish_receive (this : nat) (q : QueueRef) (assocID : Z) : P unit :=
  queue_dropNotification q ;;
  let* association := getAssociationForAssociationID this assocID false in
  match association with
  | Some a =>
      let* now := call getMicroTime_ in
      upd_assoc a (set_a_LastUsage now) ;;
      let* o := assoc a in
      (if bool_decide (0 < a_UseCount o)
       then upd_assoc a (set_a_UseCount (a_UseCount o - 1))
       else stop ProcessAbort) ;;
      let* d := assoc_hasData a in
      let* ready :=
        if d then ret true
        else let* e := getErrorCode this (a_AssociationID o) in ret (bool_decide (e < 0)) in
      upd_assoc a (set_a_ReadReady ready)
  | None => ret tt
  end ;;
  update_ReadReady this.

(** [SCTPSocket::internalReceive] *)
Definition internalReceive (this : nat) (q : QueueRef) (notificationFlags : Z)
    (want_address : bool) (r : RecvArgs) (sched : schedule) : P (Z * RecvArgs) :=
  if bool_decide (ra_bufferSize r = 0) then ret (- EINVAL, r)
  else
    lock ;;
    let* got := receive_loop this q notificationFlags r (receive_fuel sched) sched in
    match got with
    | inr early => ret early
    | inl n =>
        let receiveNotifications := has_flag (ra_flags r) MSG_NOTIFICATION in
        let* '(result, updatedNotification, r) :=
          if bool_decide (n_type n = SCTP_DATA_ARRIVE)
          then receive_data q n want_address r
          else receive_notification this q n notificationFlags receiveNotifications r in
        when (negb updatedNotification) (finish_receive this q (ra_assocID r)) ;;
        unlock ;;
        ret (result, r)
    end.

(** [SCTPSocket::receiveFrom]; [receive] is the case without address. *)
Definition receiveFrom (this : nat) (want_address : bool) (r : RecvArgs) (sched : schedule)
  : P (Z * RecvArgs) :=
  let* s := sock this in
  if negb (has_flag (s_Flags s) SSF_GlobalQueue) then ret (- EBADF, r)
  else
    let* result := internalReceive this (GlobalQueueOf this) (s_NotificationFlags s)
                     want_address (set_ra_assocID 0 r) sched in
    checkAutoConnect this ;;
    ret result.

(** [SCTPAssociation::receiveFrom]; [receive] is the case without address. *)
Definition assoc_receiveFrom (this : nat) (want_address : bool) (r : RecvArgs)
    (sched : schedule) : P (Z * RecvArgs) :=
  let* o := assoc this in
  let r := {| ra_buffer := ra_buffer r; ra_bufferSize := ra_bufferSize r;
              ra_flags := ra_flags r; ra_assocID := a_AssociationID o;
              ra_streamID := 65535; ra_protoID := ra_protoID r; ra_ssn := ra_ssn r;
              ra_tsn := ra_tsn r; ra_address := ra_address r |} in
  let* '(result, r') := internalReceive (a_Socket o) (InQueueOf this) (a_NotificationFlags o)
                          want_address r sched in
  (* [assocID] is a local variable here *)
  ret (result, r').

(** ** Sending *)

Record SendArgs : Type := {
  sa_buffer : list Z;
  sa_flags : Z;
  sa_streamID : Z;
  sa_protoID : Z;
  sa_timeToLive : Z }.

(** The do-while loop of [internalSend]; a wait either finds the condition
    fired or takes an element of the schedule. *)
Fixpoint send_loop (a : SendArgs) (assocID : Z) (waitCondition : cid)
    (pathDestinationAddress : option Addr) (fuel : nat) (sched : schedule) : P Z :=
  match fuel with
  | O => stop OutOfFuel
  | S fuel =>
      lock ;;
      let* pathIndex := ask (sctp_getPrimary assocID) in
      let* pathIndex :=
        match pathDestinationAddress with
        | Some addr =>
            if has_flag (sa_flags a) MSG_ADDR_OVER then
              let* '(i, _) := getPathIndexForAddress assocID (Some addr) in ret i
            else ret pathIndex
        | None => ret pathIndex
        end in
      let* result := call (sctp_send_private assocID (sa_streamID a) (sa_buffer a)
                             (sa_protoID a) pathIndex (sa_timeToLive a)
                             (has_flag (sa_flags a) MSG_UNORDERED)
                             (has_flag (sa_flags a) MSG_UNBUNDLED)) in
      if bool_decide (result = SCTP_QUEUE_EXCEEDED)
         && negb (has_flag (sa_flags a) MSG_DONTWAIT) then
        unlock ;;
        let* f := fired waitCondition in
        let* sched :=
          if f then ret sched
          else match sched with
               | [] => stop WouldBlock
               | others :: sched => others ;; fired waitCondition ;; ret sched
               end in
        lock ;;
        unlock ;;
        send_loop a assocID waitCondition pathDestinationAddress fuel sched
      else unlock ;; ret result
  end.

Definition send_fuel (sched : schedule) : nat := 2 * length sched + 2.

(** [SCTPSocket::internalSend] *)
Definition internalSend (this : nat) (a : SendArgs) (assocID : Z) (waitCondition : cid)
    (pathDestinationAddress : option Addr) (sched : schedule) : P Z :=
  let* errorCode := getErrorCode this assocID in
  if bool_decide (errorCode <> 0) then ret errorCode
  else
    let* result := send_loop a assocID waitCondition pathDestinationAddress
                     (send_fuel sched) sched in
    upd_sock this (set_s_WriteReady (bool_decide (result <> SCTP_QUEUE_EXCEEDED))) ;;
    ret (if bool_decide (result = 0) then s32 (Z.of_nat (length (sa_buffer a)))
         else if bool_decide (result = SCTP_PARAMETER_PROBLEM) then - EINVAL
         else if bool_decide (result = SCTP_QUEUE_EXCEEDED) then - ENOBUFS
         else - EIO).

(** [SCTPAssociation::sendTo]; [send] is the case without path address.
    [buffer = None] is the NULL pointer. *)
Definition assoc_sendTo (this : nat) (buffer : option (list Z))
    (flags streamID protoID timeToLive : Z) (useDefaults : bool)
    (pathDestinationAddress : option Addr) (sched : schedule) : P Z :=
  let* o := assoc this in
  let data := default [] buffer in
  if negb (a_CommunicationUpNotification o) then
    upd_assoc this (set_a_PreEstablishment (a_PreEstablishment o ++
      [{| p_Flags := flags; p_ProtoID := protoID; p_StreamID := streamID;
          p_TimeToLive := timeToLive; p_Data := data |}])) ;;
    ret (s32 (Z.of_nat (length data)))
  else if negb useDefaults then
    internalSend (a_Socket o)
      {| sa_buffer := data; sa_flags := flags; sa_streamID := streamID;
         sa_protoID := protoID; sa_timeToLive := timeToLive |}
      (a_AssociationID o) (this, ReadyForTransmit) pathDestinationAddress sched
  else if bool_decide (buffer <> None) && bool_decide (data <> []) then
    (* the time-out found here is not passed on *)
    let* _ := getDefaultStreamTimeout this (d_StreamID (a_Defaults o)) in
    internalSend (a_Socket o)
      {| sa_buffer := data; sa_flags := flags; sa_streamID := d_StreamID (a_Defaults o);
         sa_protoID := d_ProtoID (a_Defaults o); sa_timeToLive := d_TimeToLive (a_Defaults o) |}
      (a_AssociationID o) (this, ReadyForTransmit) pathDestinationAddress sched
  else ret 0.

(** [SCTPAssociation::sendPreEstablishmentPackets]: called from callbacks,
    so that the waits of its sends, if any, see no other thread. *)
Fixpoint send_packets (this : nat) (fuel : nat) : P bool :=
  let* o := assoc this in
  match a_PreEstablishment o, fuel with
  | [], _ => ret true
  | _ :: _, O => stop OutOfFuel
  | packet :: _, S fuel =>
      let* result := assoc_sendTo this (Some (p_Data packet)) (p_Flags packet)
                       (p_StreamID packet) (p_ProtoID packet) (p_TimeToLive packet)
                       false None [] in
      if bool_decide (result = Z.of_nat (length (p_Data packet))) then
        upd_assoc this (fun o => set_a_PreEstablishment (tail (a_PreEstablishment o)) o) ;;
        send_packets this fuel
      else ret false
  end.

Definition sendPreEstablishmentPackets (this : nat) : P bool :=
  let* o := assoc this in
  send_packets this (length (a_PreEstablishment o)).
End SocketIO.
