(* ===== verification/SocketOps.v ===== *)
(** * [SCTPSocket]: binding, associating, sending, peeling off, auto-close
    (sctpsocket.cc), and the garbage collection of sockets
    (sctpsocketmaster.cc)

    These operations shut associations down, so they take the dispatch of the
    callbacks, [deliver]. *)

From S2P Require Import Prelude MultiMap Memory Notification NotificationQueue State.
From S2P Require Import Association Socket SocketIO.
Local Open Scope Z_scope.

Definition AF_INET6 : Z := 10.

(** [Randomizer::random32] *)
Definition random32_step (value : Z) : Z := u32 (value * 31415821 + 1).

Section SocketOps.
Context `{!Platform}.
Variable deliver : list Callback -> P unit.

(** ** Auto-close *)

(** One pass over the connectionless associations from an iterator on. *)
Fixpoint autoclose_pass (this : nat) (now : Z) (fuel : nat) (iterator : option (@entry nat))
  : P unit :=
  match iterator, fuel with
  | None, _ => ret tt
  | Some _, O => stop OutOfFuel
  | Some it, S fuel =>
      let* s := sock this in
      let* next := of_option DanglingIterator (mm_next it (s_ConnectionlessAssociationList s)) in
      let a := it.2 in
      let* o := assoc a in
      let idle := u64 (now - a_LastUsage o) in
      (if bool_decide (a_UseCount o = 0) then
         if a_ShutdownCompleteNotification o || a_CommunicationLostNotification o then
           upd_sock this (fun s =>
             set_s_ConnectionlessAssociationList
               (mm_erase it (s_ConnectionlessAssociationList s)) s) ;;
           delete_SCTPAssociation deliver a
         else if bool_decide (0 < s_AutoCloseTimeout s)
                 && bool_decide (u64 (4 * s_AutoCloseTimeout s) < idle) then
           assoc_abort deliver a
         else if bool_decide (0 < s_AutoCloseTimeout s)
                 && bool_decide (s_AutoCloseTimeout s < idle)
                 && negb (a_IsShuttingDown o) then
           assoc_shutdown deliver a
         else ret tt
       else ret tt) ;;
      autoclose_pass this now fuel next
  end.

(** The do-while loop; [passes] bounds the number of passes. *)
Fixpoint autoclose_loop (this : nat) (passes : nat) : P unit :=
  match passes with
  | O => stop OutOfFuel
  | S passes =>
      upd_sock this (set_s_AutoCloseNewCheckRequired false) ;;
      let* now := call getMicroTime_ in
      let* s := sock this in
      let l := s_ConnectionlessAssociationList s in
      autoclose_pass this now (length l) (head l) ;;
      let* s := sock this in
      if s_AutoCloseNewCheckRequired s then autoclose_loop this passes else ret tt
  end.

(** [SCTPSocket::checkAutoClose].  An association is removed at the latest
    two passes after it made sctplib call back, see the header of [Prelude]. *)
Definition checkAutoClose (this : nat) : P unit :=
  let* s := sock this in
  if s_AutoCloseRecursion s then upd_sock this (set_s_AutoCloseNewCheckRequired true)
  else
    upd_sock this (set_s_AutoCloseRecursion true) ;;
    autoclose_loop this (2 * length (s_ConnectionlessAssociationList s) + 2) ;;
    upd_sock this (set_s_AutoCloseRecursion false).

(** ** Garbage collection of sockets *)

(** [std::set<int>::insert], [erase] on the ascending list of the elements. *)
Fixpoint set_insert (k : Z) (l : list Z) : list Z :=
  match l with
  | [] => [k]
  | x :: l' => if decide (k < x) then k :: l
               else if decide (k = x) then l else x :: set_insert k l'
  end.
Definition set_erase (k : Z) (l : list Z) : list Z := filter (fun x => x <> k) l.
(** [iterator++] of a set, as [mm_next]. *)
Fixpoint set_next (k : Z) (l : list Z) : option (option Z) :=
  match l with
  | [] => None
  | x :: l => if decide (x = k) then Some (head l) else set_next k l
  end.

(** [SCTPSocketMaster::delayedDeleteSocket] *)
Definition delayedDeleteSocket (instanceID : Z) : P unit :=
  modify (fun y => set_ClosingSockets (set_insert (u16 instanceID) (ClosingSockets y)) y).

(** Is an association of the instance still closing? *)
Definition instance_used (instanceID : Z) (closing : list (@entry Z)) : bool :=
  existsb (fun e => bool_decide (instanceID = e.2)) closing.

Definition collect_instance (instanceID : Z) : P unit :=
  let* y := gets (fun y => y) in
  when (negb (instance_used instanceID (ClosingAssociations y))) (
    modify (fun y => set_ClosingSockets (set_erase instanceID (ClosingSockets y)) y) ;;
    let* r := call (sctp_unregisterInstance instanceID) in
    when (bool_decide (r <> 0)) (stop ProcessAbort)).

(** The loop over [SocketList]: the iterator is advanced in the list as
    [checkAutoClose] leaves it. *)
Fixpoint autoclose_sockets (fuel : nat) (iterator : option (@entry nat)) : P unit :=
  match iterator, fuel with
  | None, _ => ret tt
  | Some _, O => stop OutOfFuel
  | Some it, S fuel =>
      checkAutoClose it.2 ;;
      let* l := gets SocketList in
      let* next := of_option DanglingIterator (mm_next it l) in
      autoclose_sockets fuel next
  end.

(** The loop over [ClosingSockets]: the iterator is advanced before the
    instance is erased, by its number as an [unsigned short]. *)
Fixpoint collect_instances (fuel : nat) (iterator : option Z) : P unit :=
  match iterator, fuel with
  | None, _ => ret tt
  | Some _, O => stop OutOfFuel
  | Some k, S fuel =>
      let instanceID := u16 k in
      let* l := gets ClosingSockets in
      let* next := of_option DanglingIterator (set_next k l) in
      collect_instance instanceID ;;
      collect_instances fuel next
  end.

(** [SCTPSocketMaster::socketGarbageCollection] *)
Definition socketGarbageCollection : P unit :=
  lock ;;
  let* now := call getMicroTime_ in
  modify (set_LastGarbageCollection now) ;;
  let* l := gets SocketList in
  autoclose_sockets (length l) (head l) ;;
  let* l := gets ClosingSockets in
  collect_instances (length l) (head l) ;;
  unlock.

(** ** Binding *)

Fixpoint unbind_associations (this : nat) (connectionless sendAbort : bool) (fuel : nat)
  : P unit :=
  let* s := sock this in
  let l := if connectionless then s_ConnectionlessAssociationList s
           else s_AssociationList s in
  match l, fuel with
  | [], _ => ret tt
  | _ :: _, O => stop OutOfFuel
  | it :: _, S fuel =>
      upd_sock this (fun s =>
        if connectionless
        then set_s_ConnectionlessAssociationList
               (mm_erase it (s_ConnectionlessAssociationList s)) s
        else set_s_AssociationList (mm_erase it (s_AssociationList s)) s) ;;
      when sendAbort (assoc_abort deliver it.2) ;;
      delete_SCTPAssociation deliver it.2 ;;
      unbind_associations this connectionless sendAbort fuel
  end.

Fixpoint unbind_requests (this : nat) (fuel : nat) : P unit :=
  let* s := sock this in
  match s_ConnectionRequests s, fuel with
  | [], _ => ret tt
  | _ :: _, O => stop OutOfFuel
  | request :: rest, S fuel =>
      upd_sock this (set_s_ConnectionRequests rest) ;;
      delete_SCTPAssociation deliver (ic_Association request) ;;
      unbind_requests this fuel
  end.

(** [SCTPSocket::unbind] *)
Definition unbind (this : nat) (sendAbort : bool) : P unit :=
  let* s := sock this in
  when (bool_decide (0 < s_InstanceName s)) (
    lock ;;
    unbind_associations this true sendAbort (length (s_ConnectionlessAssociationList s)) ;;
    let* s := sock this in
    unbind_associations this false sendAbort (length (s_AssociationList s)) ;;
    let* s := sock this in
    unbind_requests this (length (s_ConnectionRequests s)) ;;
    let* s := sock this in
    let* y := gets (fun y => y) in
    match mm_find (s_InstanceName s) (SocketList y) with
    | Some it => modify (set_SocketList (mm_erase it (SocketList y)))
    | None => stop ProcessAbort
    end ;;
    delayedDeleteSocket (s_InstanceName s) ;;
    unlock ;;
    upd_sock this (set_s_GlobalQueue Spec.empty) ;;
    upd_sock this (set_s_InstanceName 0) ;;
    upd_sock this (set_s_CorrelationID 0) ;;
    upd_sock this (fun s => set_s_Flags (clear_flag (s_Flags s) SSF_Listening) s)).

(** The numeric address [bind] and [associate] hand to sctplib. *)
Definition address_argument (family : Z) (addr : Addr) : string :=
  let format := Z.lor PF_HidePort PF_Address in
  snprintf_s SCTP_MAX_IP_LEN
    (getAddressString addr
       (if isIPv6 addr && bool_decide (family = AF_INET6) then format
        else Z.lor format PF_Legacy)).

Definition random32 : P Z :=
  modify (fun y => set_RandomValue (random32_step (RandomValue y)) y) ;;
  gets RandomValue.

Definition random_port (r : Z) : Z := u16 (16384 + r mod (61000 - 16384)).

(** The search for a free port: the instance ID and the port. *)
Fixpoint bind_any (tries : nat) (ins outs count : Z) (addresses : list string)
    (instance : Z) : P (Z * option Z) :=
  match tries with
  | O => ret (instance, None)
  | S tries =>
      let* r := random32 in
      let port := random_port r in
      let* i := call (sctp_registerInstance port ins outs count addresses) in
      if bool_decide (0 < i) then ret (i, Some port)
      else bind_any tries ins outs count addresses i
  end.

Definition bind_tries : Z := 50000.

Definition bind_specific (port ins outs count : Z) (addresses : list string) : P Z :=
  let* i := call (sctp_registerInstance port ins outs count addresses) in
  if bool_decide (i <= 0) then
    socketGarbageCollection ;;
    call (sctp_registerInstance port ins outs count addresses)
  else ret i.

(** [SCTPSocket::bind] *)
Definition sock_bind (this : nat) (localPort noOfInStreams noOfOutStreams : Z)
    (localAddressList : list Addr) : P Z :=
  let* init := gets InitializationResult in
  if bool_decide (init <> 0) then ret (- EPROTONOSUPPORT)
  else
    lock ;;
    let* running := gets ThreadRunning in
    let* started :=
      if running then ret true
      else let* ok := call start_thread in
           when ok (modify (set_ThreadRunning true)) ;; ret ok in
    unlock ;;
    if negb started then ret (- EPROTONOSUPPORT)
    else
      lock ;;
      unbind this false ;;
      upd_sock this (set_s_LocalPort localPort) ;;
      upd_sock this (set_s_NoOfInStreams noOfInStreams) ;;
      upd_sock this (set_s_NoOfOutStreams noOfOutStreams) ;;
      upd_sock this (set_s_CorrelationID 0) ;;
      let* s := sock this in
      let count := Z.of_nat (length localAddressList) in
      let addresses := map (address_argument (s_Family s))
                         (take (Z.to_nat SCTP_MAX_NUM_ADDRESSES) localAddressList) in
      if bool_decide (count < 1) then unlock ;; ret (- EINVAL)
      else
        (if bool_decide (localPort = 0) then
           let* '(i, port) := bind_any (Z.to_nat bind_tries) noOfInStreams noOfOutStreams
                                count addresses (s_InstanceName s) in
           upd_sock this (set_s_InstanceName i) ;;
           match port with Some p => upd_sock this (set_s_LocalPort p) | None => ret tt end
         else
           let* i := bind_specific localPort noOfInStreams noOfOutStreams count addresses in
           upd_sock this (set_s_InstanceName i)) ;;
        let* s := sock this in
        if bool_decide (s_InstanceName s <= 0) then unlock ;; ret (- EADDRINUSE)
        else
          modify (fun y => set_SocketList
            (mm_insert (u16 (s_InstanceName s)) this (SocketList y)) y) ;;
          unlock ;;
          ret 0.
End SocketOps.

(** ** Sets of instances *)

(** The elements are ascending, and are instance IDs. *)
Definition closing_ok (l : list Z) : Prop :=
  StronglySorted Z.lt l /\ Forall (fun k => 0 <= k < 2 ^ 16) l.

Lemma set_next_elem k l : k ∈ l <-> is_Some (set_next k l).
Proof.
  induction l as [|x l IH]; simpl.
  - split; [by intros ?%not_elem_of_nil|by intros [? [=]]].
  - rewrite elem_of_cons. case_decide as Hx; [naive_solver|]. rewrite <- IH. naive_solver.
Qed.
Lemma set_next_later k l k' : closing_ok l -> set_next k l = Some (Some k') -> k < k' /\ k' ∈ l.
Proof.
  intros [Hs _]. induction Hs as [|x l Hs IH Hx]; simpl; [done|]. case_decide as Ek.
  - subst. intros [= Hh]. destruct l as [|z l]; [done|]. injection Hh as ->.
    apply Forall_cons in Hx as [Hx _]. split; [done|by right; left].
  - intros Hn. destruct (IH Hn). split; [done|by right].
Qed.
Lemma elem_of_set_erase k k' l : k' ∈ set_erase k l <-> k' ∈ l /\ k' <> k.
Proof. unfold set_erase. rewrite list_elem_of_filter. tauto. Qed.
Lemma set_erase_ok k l : closing_ok l -> closing_ok (set_erase k l).
Proof.
  assert (Hf : forall Q : Z -> Prop, Forall Q l -> Forall Q (set_erase k l)).
  { intros Q Hl. apply Forall_forall. intros x [Hx _]%elem_of_set_erase.
    by apply (proj1 (Forall_forall _ _) Hl). }
  intros [Hs Hr]. split; [|by apply Hf]. clear Hr Hf. induction Hs as [|x l Hs IH Hx]; [constructor|].
  unfold set_erase in *. rewrite filter_cons. case_decide; [|exact IH]. constructor; [exact IH|].
  apply Forall_forall. intros z [_ Hz]%list_elem_of_filter. by apply (proj1 (Forall_forall _ _) Hx).
Qed.
Lemma closing_u16 k l : closing_ok l -> k ∈ l -> u16 k = k.
Proof. intros [_ Hr] Hk. apply wrap_small. by apply (proj1 (Forall_forall _ _) Hr k). Qed.
Lemma elem_of_set_insert k l x : x ∈ set_insert k l -> x = k \/ x ∈ l.
Proof.
  induction l as [|z l IH]; simpl; [set_solver|]. repeat case_decide; [set_solver..|].
  intros [->|Hx]%elem_of_cons; [set_solver|]. destruct (IH Hx); set_solver.
Qed.
Lemma set_insert_ok k l : 0 <= k < 2 ^ 16 -> closing_ok l -> closing_ok (set_insert k l).
Proof.
  intros Hk [Hs Hr]. split.
  - clear Hr. induction Hs as [|x l Hs IH Hx]; simpl; [repeat constructor|].
    case_decide as H1; [|case_decide as H2].
    + constructor; [by constructor|]. constructor; [done|]. eapply Forall_impl; [exact Hx|]. simpl. lia.
    + by constructor.
    + constructor; [done|]. apply Forall_forall. intros z [->|Hz]%elem_of_set_insert; [lia|].
      by apply (proj1 (Forall_forall _ _) Hx).
  - apply Forall_forall. intros z [->|Hz]%elem_of_set_insert; [done|].
    by apply (proj1 (Forall_forall _ _) Hr).
Qed.
