(* ===== verification/SocketLife.v ===== *)
(** * [SCTPSocket]: construction, destruction and the inline accessors
    (sctpsocket.cc, sctpsocket.icc)

    [SCTPSocket::SCTPSocket] does not assign every member: the members it
    leaves alone keep what the allocated memory holds, which is the argument
    [memory] of [new_SCTPSocket]. *)

From S2P Require Import Prelude MultiMap Memory Notification NotificationQueue Condition State.
From S2P Require Import Association Socket SocketIO SocketOps.
Local Open Scope Z_scope.

Section SocketLife.
Context `{!Platform}.
Variable deliver : list Callback -> P unit.

(** [SCTPSocket::SCTPSocket]; the result is the address. *)
Definition new_SCTPSocket (memory : SCTPSocket) (family flags : Z) : P nat :=
  let* this := gets next_address in
  modify (set_next_address (S this)) ;;
  modify (fun y => set_sockets (<[this := {|
    s_GlobalQueue := Spec.empty;
    s_ConnectionRequests := [];
    s_AssociationList := [];
    s_ConnectionlessAssociationList := [];
    s_InstanceName := 0;
    s_LocalPort := s_LocalPort memory;
    s_NoOfInStreams := s_NoOfInStreams memory;
    s_NoOfOutStreams := s_NoOfOutStreams memory;
    s_Flags := flags;
    s_NotificationFlags := 0;
    s_CorrelationID := 0;
    s_AutoCloseTimeout := 30000000;
    s_DefaultTrafficClass := 0;
    s_Family := family;
    s_ReadReady := false;
    s_WriteReady := false;
    s_HasException := false;
    s_AutoCloseRecursion := false;
    s_AutoCloseNewCheckRequired := s_AutoCloseNewCheckRequired memory |}]> (sockets y)) y) ;;
  for_each [InQueueUpdate; Establish; ReadUpdate; WriteUpdate; ExceptUpdate]
    (fun k => new_Condition (this, k)) ;;
  addParent (this, Establish) (this, ReadUpdate) ;;
  addParent (this, InQueueUpdate) (this, ReadUpdate) ;;
  ret this.

(** [SCTPSocket::~SCTPSocket], i.e. [delete socket]; the members'
    destructors have no effect on the rest of the process. *)
Definition delete_SCTPSocket (this : nat) : P unit :=
  unbind deliver this false ;;
  let* _ := sock this in
  modify (fun y => set_sockets (delete this (sockets y)) y).

(** [SCTPSocket::getID], [getNotificationFlags], [setNotificationFlags],
    [getAutoClose], [setAutoClose], [getDefaultTrafficClass] *)
Definition sock_getID (this : nat) : P Z := let* s := sock this in ret (s_InstanceName s).
Definition sock_getNotificationFlags (this : nat) : P Z :=
  let* s := sock this in ret (s_NotificationFlags s).
Definition sock_setNotificationFlags (this : nat) (notificationFlags : Z) : P unit :=
  upd_sock this (set_s_NotificationFlags notificationFlags).
Definition getAutoClose (this : nat) : P Z := let* s := sock this in ret (s_AutoCloseTimeout s).
Definition setAutoClose (this : nat) (timeout : Z) : P unit :=
  upd_sock this (set_s_AutoCloseTimeout timeout).
Definition getDefaultTrafficClass (this : nat) : P Z :=
  let* s := sock this in ret (s_DefaultTrafficClass s).

(** [SCTPSocket::getUpdateCondition] *)
Definition sock_getUpdateCondition (this : nat) (type : UpdateConditionType) : P cid :=
  let* s := sock this in
  let '(ready, c) :=
    match type with
    | UCT_Read => (s_ReadReady s, (this, ReadUpdate))
    | UCT_Write => (s_WriteReady s, (this, WriteUpdate))
    | UCT_Except => (s_HasException s, (this, ExceptUpdate))
    end in
  (if ready then broadcast c else (fired c ;; ret tt)) ;;
  ret c.
End SocketLife.
