(* ===== verification/SocketAssoc.v ===== *)
(** * [SCTPSocket]: establishing, finding, using and peeling off associations
    (sctpsocket.cc) *)

From S2P Require Import Prelude MultiMap Memory Notification NotificationQueue State.
From S2P Require Import Association Socket SocketIO SocketOps.
Local Open Scope Z_scope.

Section SocketAssoc.
Context `{!Platform}.
Variable deliver : list Callback -> P unit.

(** ** Establishing *)

(** The retransmission limit [associate] derives from the user's attempts. *)
Definition init_retransmits (maxAttempts : Z) : Z :=
  let n := if bool_decide (0 < maxAttempts) then maxAttempts - 1 else maxAttempts in
  if bool_decide (n <= 0) then 1 else n.

Definition associate_parameters (maxAttempts maxInitTimeout : Z)
    (p : SCTP_Instance_Parameters) : SCTP_Instance_Parameters :=
  {| maxInitRetransmits := init_retransmits maxAttempts;
     ip_rtoMax := maxInitTimeout;
     noOfLocalAddresses := noOfLocalAddresses p;
     localAddressList := localAddressList p;
     ip_outStreams := ip_outStreams p; ip_inStreams := ip_inStreams p; ip_delay := ip_delay p |}.

(** The part of [associate] under the lock: the new association, if any. *)
Definition associate_start (this : nat) (noOfOutStreams maxAttempts maxInitTimeout : Z)
    (destinationAddressList : list Addr) : P (option nat) :=
  lock ;;
  let* old := sock_getAssocDefaults this in
  match old with
  | Some p => sock_setAssocDefaults this (associate_parameters maxAttempts maxInitTimeout p) ;;
              ret tt
  | None => ret tt
  end ;;
  let oldParameters := default indeterminate_parameters old in
  let* s := sock this in
  let* assocID :=
    match destinationAddressList with
    | [] => ret 0
    | first :: _ =>
        call (sctp_associatex (s_InstanceName s) (Z.max 1 noOfOutStreams)
                (map (address_argument (s_Family s)) destinationAddressList) (getPort first))
    end in
  sock_setAssocDefaults this oldParameters ;;
  let* association :=
    if bool_decide (assocID <> 0) then
      let* a := new_SCTPAssociation this assocID (s_NotificationFlags s)
                  (has_flag (s_Flags s) SSF_GlobalQueue) in
      upd_assoc a (fun o => set_a_UseCount (u32 (a_UseCount o + 1)) o) ;;
      assoc_setTrafficClass a (s_DefaultTrafficClass s) (-1) ;;
      upd_assoc a (set_a_RTOMaxIsInitTimeout true) ;;
      upd_assoc a (set_a_RTOMax (ip_rtoMax oldParameters)) ;;
      upd_assoc a (set_a_InitTimeout maxInitTimeout) ;;
      upd_assoc a (set_a_PreEstablishmentAddressList (Some destinationAddressList)) ;;
      ret (Some a)
    else ret None in
  unlock ;;
  ret association.

(** [SCTPSocket::associate] *)
Definition associate (this : nat) (noOfOutStreams maxAttempts maxInitTimeout : Z)
    (destinationAddressList : list Addr) (blocking : bool) (sched : schedule)
  : P (option nat) :=
  let* association := associate_start this noOfOutStreams maxAttempts maxInitTimeout
                        destinationAddressList in
  let* association :=
    match association with
    | Some a =>
        if blocking then
          wait_condition (checkAutoConnect this) (a, Establish) sched ;;
          let* o := assoc a in
          if negb (a_CommunicationUpNotification o) then
            delete_SCTPAssociation deliver a ;; ret None
          else
            let* s := sock this in
            assoc_setTrafficClass a (s_DefaultTrafficClass s) (-1) ;; ret (Some a)
        else ret (Some a)
    | None => ret None
    end in
  lock ;;
  match association with
  | Some a => upd_assoc a (fun o => set_a_UseCount (u32 (a_UseCount o - 1)) o)
  | None => ret tt
  end ;;
  unlock ;;
  ret association.

(** ** Finding an association by destination *)

Definition PF_Compare : Z := Z.lor PF_Address PF_Legacy.

Definition same_address (d p : Addr) : bool :=
  String.eqb (getAddressString d PF_Compare) (getAddressString p PF_Compare).

(** The nested loops over the destination list (index [i]) and the
    pre-establishment list; [rest] is the part of the latter behind the index
    [j], which is not reset between the destinations. *)
Fixpoint match_preestablishment (destinationAddressList rest : list Addr) : bool :=
  match destinationAddressList with
  | [] => false
  | d :: ds => if existsb (same_address d) rest then true else match_preestablishment ds []
  end.

(** The loop over the destinations for an established association. *)
Fixpoint match_established (o : SCTPAssociation) (status : SCTP_Association_Status)
    (destinationAddressList : list Addr) : P bool :=
  match destinationAddressList with
  | [] => ret false
  | d :: ds =>
      if negb (a_IsShuttingDown o) && bool_decide (getPort d = destPort status) then
        let* '(pathIndex, _) := getPathIndexForAddress (a_AssociationID o) (Some d) in
        if bool_decide (0 <= s16 pathIndex) then ret true
        else match_established o status ds
      else match_established o status ds
  end.

(** [SCTPSocket::findAssociationForDestinationAddress] *)
Fixpoint findAssociationForDestinationAddress (l : list (@entry nat))
    (destinationAddressList : list Addr) : P (option nat) :=
  match l with
  | [] => ret None
  | it :: l =>
      let* o := assoc it.2 in
      let* found :=
        match a_PreEstablishmentAddressList o with
        | None =>
            let* status := ask (sctp_getAssocStatus (a_AssociationID o)) in
            match status with
            | Some st => match_established o st destinationAddressList
            | None => ret false
            end
        | Some pre => ret (match_preestablishment destinationAddressList pre)
        end in
      if found then ret (Some it.2)
      else findAssociationForDestinationAddress l destinationAddressList
  end.

(** ** Sending *)

(** The lookup at the beginning of [sendTo]. *)
Definition sendTo_lookup (this : nat) (assocID : Z) (destinationAddressList : option (list Addr))
  : P (option nat) :=
  let* s := sock this in
  match destinationAddressList with
  | Some ds =>
      let* association :=
        if has_flag (s_Flags s) SSF_AutoConnect
        then findAssociationForDestinationAddress (s_ConnectionlessAssociationList s) ds
        else ret None in
      match association with
      | Some a => ret (Some a)
      | None => findAssociationForDestinationAddress (s_AssociationList s) ds
      end
  | None =>
      match mm_find assocID (s_AssociationList s) with
      | Some it => ret (Some it.2)
      | None => ret None
      end
  end.

Definition wants_shutdown (flags : Z) : bool :=
  has_flag flags MSG_ABORT || has_flag flags MSG_EOF.

(** [sendTo] up to the release of the lock: [inl] is an early return. *)
Definition sendTo_begin (this : nat) (buffer : option (list Z)) (flags assocID : Z)
    (destinationAddressList : option (list Addr)) : P (Z + option nat) :=
  lock ;;
  let* association := sendTo_lookup this assocID destinationAddressList in
  match association with
  | Some a =>
      if bool_decide (default [] buffer = []) && negb (wants_shutdown flags) then
        unlock ;; ret (inl (- EISCONN))
      else
        upd_assoc a (fun o => set_a_UseCount (u32 (a_UseCount o + 1)) o) ;;
        if has_flag flags MSG_ABORT then
          assoc_abort deliver a ;; unlock ;; ret (inl 0)
        else unlock ;; ret (inr (Some a))
  | None => unlock ;; ret (inr None)
  end.

(** The implicit connection setup of an auto-connect socket. *)
Definition sendTo_connect (this : nat) (flags maxAttempts maxInitTimeout : Z)
    (destinationAddressList : option (list Addr)) (noOfOutgoingStreams : Z)
    (sched : schedule) (association : option nat) : P (option nat) :=
  let* s := sock this in
  match association, destinationAddressList with
  | None, Some ds =>
      if has_flag (s_Flags s) SSF_AutoConnect then
        let* association := associate this noOfOutgoingStreams maxAttempts maxInitTimeout ds
                              (negb (has_flag flags MSG_DONTWAIT)) sched in
        match association with
        | Some a =>
            lock ;;
            upd_assoc a (fun o => set_a_UseCount (u32 (a_UseCount o + 1)) o) ;;
            let* o := assoc a in
            upd_sock this (fun s =>
              set_s_ConnectionlessAssociationList
                (mm_insert (a_AssociationID o) a (s_ConnectionlessAssociationList s)) s) ;;
            unlock ;;
            ret (Some a)
        | None => ret None
        end
      else ret None
  | _, _ => ret association
  end.

(** The handling of [MSG_EOF] and [MSG_ABORT] after the send; the association
    that remains. *)
Definition sendTo_shutdown (this : nat) (flags : Z) (a : nat) : P (option nat) :=
  when (has_flag flags MSG_ABORT) (assoc_abort deliver a) ;;
  when (has_flag flags MSG_EOF) (assoc_shutdown deliver a) ;;
  let* s := sock this in
  let* association :=
    if has_flag (s_Flags s) SSF_AutoConnect then
      lock ;;
      let* o := assoc a in
      let* s := sock this in
      match mm_find (a_AssociationID o) (s_ConnectionlessAssociationList s) with
      | Some it => upd_sock this (set_s_ConnectionlessAssociationList
                     (mm_erase it (s_ConnectionlessAssociationList s)))
      | None => ret tt
      end ;;
      unlock ;;
      delete_SCTPAssociation deliver a ;;
      ret None
    else ret (Some a) in
  checkAutoConnect this ;;
  ret association.

(** The decrement of the use count at the end of [sendTo]. *)
Definition sendTo_end (association : option nat) : P unit :=
  lock ;;
  match association with
  | Some a =>
      let* now := call getMicroTime_ in
      upd_assoc a (set_a_LastUsage now) ;;
      let* o := assoc a in
      if bool_decide (0 < a_UseCount o)
      then upd_assoc a (set_a_UseCount (a_UseCount o - 1))
      else stop ProcessAbort
  | None => ret tt
  end ;;
  unlock.

Fixpoint sendTo_all (l : list (@entry nat)) (buffer : option (list Z))
    (flags streamID protoID timeToLive : Z) (useDefaults : bool) (sched : schedule) : P unit :=
  match l with
  | [] => ret tt
  | it :: l =>
      assoc_sendTo it.2 buffer flags streamID protoID timeToLive useDefaults None sched ;;
      sendTo_all l buffer flags streamID protoID timeToLive useDefaults sched
  end.

(** [SCTPSocket::sendTo]: the result and the association ID.  The connection
    setup and the send wait on schedules of their own. *)
Definition sock_sendTo (this : nat) (buffer : option (list Z))
    (flags assocID streamID protoID timeToLive maxAttempts maxInitTimeout : Z)
    (useDefaults : bool) (destinationAddressList : option (list Addr))
    (noOfOutgoingStreams : Z) (connect_sched send_sched : schedule) : P (Z * Z) :=
  if negb (has_flag flags MSG_SEND_TO_ALL) then
    let* begun := sendTo_begin this buffer flags assocID destinationAddressList in
    match begun with
    | inl result => ret (result, assocID)
    | inr association =>
        let* association := sendTo_connect this flags maxAttempts maxInitTimeout
                              destinationAddressList noOfOutgoingStreams connect_sched
                              association in
        let* '(result, assocID, association) :=
          match association with
          | Some a =>
              let* assocID := assoc_getID a in
              let* result :=
                match buffer with
                | Some (_ :: _) =>
                    assoc_sendTo a buffer flags streamID protoID timeToLive useDefaults
                      (match destinationAddressList with Some ds => head ds | None => None end)
                      send_sched
                | _ => ret 0
                end in
              let* association :=
                if wants_shutdown flags then sendTo_shutdown this flags a else ret (Some a) in
              ret (result, assocID, association)
          | None => ret (- EIO, assocID, None)
          end in
        sendTo_end association ;;
        ret (result, assocID)
    end
  else
    lock ;;
    let* s := sock this in
    sendTo_all (s_ConnectionlessAssociationList s) buffer flags streamID protoID timeToLive
      useDefaults send_sched ;;
    unlock ;;
    ret (s32 (Z.of_nat (length (default [] buffer))), assocID).

(** ** Peeling off *)

(** [peelOff(assocID)] *)
Definition peelOff (this : nat) (assocID : Z) : P (option nat) :=
  lock ;;
  let* s := sock this in
  let* association :=
    match mm_find assocID (s_ConnectionlessAssociationList s) with
    | Some it =>
        let* o := assoc it.2 in
        if negb (a_IsShuttingDown o) then
          upd_assoc it.2 (set_a_PeeledOff true) ;;
          upd_sock this (set_s_ConnectionlessAssociationList
            (mm_erase it (s_ConnectionlessAssociationList s))) ;;
          ret (Some it.2)
        else ret None
    | None => ret None
    end in
  unlock ;;
  ret association.

(** [peelOff(destinationAddress)] *)
Fixpoint find_peelOff (l : list (@entry nat)) (destinationAddress : Addr)
  : P (option (@entry nat)) :=
  match l with
  | [] => ret None
  | it :: l =>
      let* o := assoc it.2 in
      let* status := ask (sctp_getAssocStatus (a_AssociationID o)) in
      match status with
      | Some st =>
          if negb (a_IsShuttingDown o)
             && bool_decide (getPort destinationAddress = destPort st)
             && String.eqb (getAddressString destinationAddress
                             (Z.lor (Z.lor PF_HidePort PF_Address) PF_Legacy))
                           (primaryDestinationAddress st)
          then ret (Some it)
          else find_peelOff l destinationAddress
      | None => find_peelOff l destinationAddress
      end
  end.

Definition peelOff_address (this : nat) (destinationAddress : Addr) : P (option nat) :=
  lock ;;
  let* s := sock this in
  let* found := find_peelOff (s_ConnectionlessAssociationList s) destinationAddress in
  let* association :=
    match found with
    | Some it =>
        upd_assoc it.2 (set_a_PeeledOff true) ;;
        upd_sock this (set_s_ConnectionlessAssociationList
          (mm_erase it (s_ConnectionlessAssociationList s))) ;;
        ret (Some it.2)
    | None => ret None
    end in
  unlock ;;
  ret association.

(** ** Parameters of the connectionless associations *)

(** The first connectionless association. *)
Definition first_association (this : nat) : P (option nat) :=
  let* s := sock this in
  ret (match s_ConnectionlessAssociationList s with [] => None | it :: _ => Some it.2 end).

(** [getAssocIODefaults], [setAssocIODefaults], [setDefaultStreamTimeouts],
    [getDefaultStreamTimeout]: the lock taken first is not released. *)
Definition sock_getAssocIODefaults (this : nat) (assocID : Z) : P (option AssocIODefaults) :=
  lock ;;
  let* a := first_association this in
  match a with
  | Some a => let* d := assoc_getAssocIODefaults a in ret (Some d)
  | None => ret None
  end.

Definition sock_setAssocIODefaults (this : nat) (assocID : Z) (defaults : AssocIODefaults)
  : P bool :=
  lock ;;
  let* a := first_association this in
  match a with
  | Some a => assoc_setAssocIODefaults a defaults ;; ret true
  | None => ret false
  end.

Definition sock_setDefaultStreamTimeouts (past_end fill : StreamDefaultTimeout)
    (this : nat) (assocID timeout start end_ : Z) : P bool :=
  lock ;;
  let* a := first_association this in
  match a with
  | Some a => setDefaultStreamTimeouts past_end fill a timeout start end_ ;; ret true
  | None => ret false
  end.

Definition sock_getDefaultStreamTimeout (this : nat) (assocID streamID : Z)
  : P (bool * option Z) :=
  lock ;;
  let* a := first_association this in
  match a with
  | Some a => let* t := getDefaultStreamTimeout a streamID in ret (true, t)
  | None => ret (false, None)
  end.

(** An operation on the first connectionless association, if there is one. *)
Definition on_first (this : nat) (op : nat -> P bool) : P bool :=
  let* a := first_association this in
  match a with Some a => op a | None => ret true end.

Definition sock_setSendBuffer (this : nat) (size : Z) : P bool :=
  lock ;;
  let* ok := on_first this (fun a => assoc_setSendBuffer a size) in
  unlock ;;
  ret ok.
Definition sock_setReceiveBuffer (this : nat) (size : Z) : P bool :=
  lock ;;
  let* ok := on_first this (fun a => assoc_setReceiveBuffer a size) in
  unlock ;;
  ret ok.
Definition sock_setTrafficClass (this : nat) (trafficClass streamID : Z) : P bool :=
  lock ;;
  upd_sock this (set_s_DefaultTrafficClass trafficClass) ;;
  let* ok := on_first this (fun a => assoc_setTrafficClass a trafficClass streamID) in
  unlock ;;
  ret ok.

(** [addAddress], [deleteAddress]: not implemented with sctplib 1.3.0.  A
    zero ID selects the first connectionless association. *)
Definition change_address (this : nat) (assocID : Z) (address : Addr) : P bool :=
  lock ;;
  upd_sock this (fun s => set_s_CorrelationID (u32 (s_CorrelationID s + 1)) s) ;;
  unlock ;;
  ret false.
Definition addAddress (this : nat) (assocID : Z) (address : Addr) : P bool :=
  if bool_decide (assocID = 0) then
    lock ;;
    let* ok := on_first this (fun a =>
      let* o := assoc a in change_address (a_Socket o) (a_AssociationID o) address) in
    unlock ;;
    ret ok
  else change_address this assocID address.
Definition deleteAddress (this : nat) (assocID : Z) (address : Addr) : P bool :=
  if bool_decide (assocID = 0) then
    lock ;;
    let* ok := on_first this (fun a =>
      let* o := assoc a in change_address (a_Socket o) (a_AssociationID o) address) in
    unlock ;;
    ret ok
  else change_address this assocID address.

(** ** Local and remote addresses *)

(** The loop of [SCTPSocket::getLocalAddresses]. *)
Fixpoint create_addresses (port : Z) (l : list string) : option (list Addr) :=
  match l with
  | [] => Some []
  | str :: l =>
      match createSocketAddress 0 str port with
      | Some addr => cons addr <$> create_addresses port l
      | None => None
      end
  end.

(** [SCTPSocket::getLocalAddresses]: the result is never set to true. *)
Definition getLocalAddresses (this : nat) : P (bool * option (list Addr)) :=
  lock ;;
  let* p := sock_getAssocDefaults this in
  let* s := sock this in
  let r :=
    match p with
    | Some p => create_addresses (s_LocalPort s)
                  (take (Z.to_nat (noOfLocalAddresses p)) (localAddressList p))
    | None => None
    end in
  unlock ;;
  ret (false, r).

(** The loop of [SCTPAssociation::getRemoteAddresses]. *)
Fixpoint remote_addresses (assocID port : Z) (ids : list Z) (w : W) : option (list Addr) :=
  match ids with
  | [] => Some []
  | index :: ids =>
      match sctp_getPathStatus assocID index w with
      | Some p =>
          match createSocketAddress 0 (destinationAddress p) port with
          | Some addr => cons addr <$> remote_addresses assocID port ids w
          | None => None
          end
      | None => None
      end
  end.

(** [SCTPAssociation::getRemoteAddresses] *)
Definition assoc_getRemoteAddresses (this : nat) : P (bool * option (list Addr)) :=
  let* o := assoc this in
  lock ;;
  let* status := ask (sctp_getAssocStatus (a_AssociationID o)) in
  let* w := gets world in
  let r :=
    match status with
    | Some st =>
        match remote_addresses (a_AssociationID o) (destPort st)
                (take (Z.to_nat (numberOfDestinationPaths st)) (destinationPathIDs st)) w with
        | Some l => (true, Some l)
        | None => (false, None)
        end
    | None => (true, None)
    end in
  unlock ;;
  ret r.

(** [SCTPSocket::getRemoteAddresses] *)
Definition sock_getRemoteAddresses (this : nat) (assocID : Z) : P (bool * option (list Addr)) :=
  lock ;;
  let* association := getAssociationForAssociationID this assocID false in
  let* s := sock this in
  let association :=
    match association with
    | Some a => Some a
    | None => snd <$> mm_find assocID (s_ConnectionlessAssociationList s)
    end in
  let* r :=
    match association with
    | Some a => assoc_getRemoteAddresses a
    | None => ret (false, None)
    end in
  unlock ;;
  ret r.
End SocketAssoc.
