(* ===== verification/SocketMaster.v ===== *)
(** * [SCTPSocketMaster]: the callbacks of sctplib (sctpsocketmaster.cc) *)

From S2P Require Import Prelude MultiMap Memory Notification NotificationQueue State.
From S2P Require Import Association Socket SocketIO SocketOps SocketAssoc.
Local Open Scope Z_scope.

Definition AF_INET : Z := 2.
Definition AF_UNSPEC : Z := 0.

Section SocketMaster.
Context `{!Platform}.

(** ** Notifications *)

(** [initNotification(notification)] *)
Definition initNotification_plain : SCTPNotification :=
  {| RemotePort := 0;
     RemoteAddresses := 0;
     RemoteAddress := (fun _ => ""%string) <$> RemoteAddress indeterminate_notification;
     Content := wr sn_type SCTP_UNDEFINED (Content indeterminate_notification);
     ContentPosition := 0 |}.

(** The loop that copies the path addresses; a path without status leaves its
    element as it is. *)
Fixpoint copy_paths (assocID : Z) (i : nat) (ids : list Z) (w : W) (l : list string)
  : list string :=
  match ids with
  | [] => l
  | id :: ids =>
      let l := match sctp_getPathStatus assocID id w with
               | Some p => <[i := destinationAddress p]> l
               | None => l
               end in
      copy_paths assocID (S i) ids w l
  end.

(** [initNotification(notification, assocID, streamID)] *)
Definition initNotification (assocID : Z) : P SCTPNotification := fun y =>
  let c := wr sn_type SCTP_UNDEFINED (Content indeterminate_notification) in
  let w := world y in
  match sctp_getAssocStatus assocID w with
  | Some st =>
      let n := Z.min (u16 SCTP_MAX_NUM_ADDRESSES) (numberOfDestinationPaths st) in
      Ret {| RemotePort := u16 (destPort st);
             RemoteAddresses := n;
             RemoteAddress := copy_paths assocID 0
               (take (Z.to_nat n) (destinationPathIDs st)) w
               (RemoteAddress indeterminate_notification);
             Content := c;
             ContentPosition := 0 |} y
  | None =>
      Ret {| RemotePort := RemotePort indeterminate_notification;
             RemoteAddresses := RemoteAddresses indeterminate_notification;
             RemoteAddress := RemoteAddress indeterminate_notification;
             Content := c;
             ContentPosition := 0 |} y
  end.

(** [getSocketForAssociationID] *)
Definition getSocketForAssociationID (assocID : Z) : P (option nat) :=
  let* i := ask (sctp_getInstanceID assocID) in
  match i with
  | Some instanceID =>
      if bool_decide (instanceID <> 0) then
        let* l := gets SocketList in
        ret (match mm_find instanceID l with Some it => Some it.2 | None => None end)
      else ret None
  | None => ret None
  end.

(** Does the notification of the association go to the socket's queue? *)
Definition to_global_queue (s : SCTPSocket) (o : SCTPAssociation) : bool :=
  has_flag (s_Flags s) SSF_GlobalQueue && negb (a_PeeledOff o).

(** [addNotification]; [SCTPNotificationQueue::addNotification] signals the
    queue's update condition. *)
Definition addNotification (socket : nat) (assocID : Z) (n : SCTPNotification) : P unit :=
  let* association := getAssociationForAssociationID socket assocID false in
  match association with
  | None => ret tt
  | Some a =>
      let* o := assoc a in
      if readable (a_NotificationFlags o) (n_type n) then
        upd_assoc a (fun o => set_a_UseCount (u32 (a_UseCount o + 1)) o) ;;
        let* s := sock socket in
        if to_global_queue s o then
          upd_sock socket (fun s =>
            set_s_GlobalQueue (Spec.addNotification n (s_GlobalQueue s)) s) ;;
          broadcast (socket, InQueueUpdate) ;;
          update_ReadReady socket
        else
          upd_assoc a (fun o => set_a_InQueue (Spec.addNotification n (a_InQueue o)) o) ;;
          broadcast (a, InQueueUpdate) ;;
          let* d := assoc_hasData a in
          upd_assoc a (set_a_ReadReady d)
      else
        let* s := sock socket in
        when (negb (to_global_queue s o)) (broadcast (a, InQueueUpdate))
  end.

(** ** The contents the callbacks build *)

Definition data_arrive (assocID streamID length protoID unordered : Z) (c : list Z) : list Z :=
  wr sda_bytes_arrived length (wr sda_ppid protoID (wr sda_stream streamID
    (wr sda_assoc_id assocID (wr sn_length sizeof_sctp_data_arrive
      (wr sn_flags (if bool_decide (unordered = 1) then SCTP_ARRIVE_UNORDERED else 0)
        (wr sn_type SCTP_DATA_ARRIVE c)))))).

(** [ssf_type] is set to [SCTP_REMOTE_ERROR] in the source. *)
Definition send_failed (assocID : Z) (c : list Z) : list Z :=
  wr ssf_info_sinfo_assoc_id assocID (wr ssf_info_sinfo_timetolive 0
    (wr ssf_info_sinfo_context 0 (wr ssf_info_sinfo_ppid 0 (wr ssf_info_sinfo_flags 0
      (wr ssf_info_sinfo_ssn 0 (wr ssf_info_sinfo_stream 0 (wr ssf_assoc_id assocID
        (wr ssf_error 0 (wr sn_length sizeof_sctp_send_failed (wr sn_flags 0
          (wr sn_type SCTP_REMOTE_ERROR c))))))))))).

Definition assoc_change (state out in_ assocID : Z) (c : list Z) : list Z :=
  wr sac_assoc_id assocID (wr sac_inbound_streams in_ (wr sac_outbound_streams out
    (wr sac_error 0 (wr sac_state state (wr sn_length sizeof_sctp_assoc_change
      (wr sn_flags 0 (wr sn_type SCTP_ASSOC_CHANGE c))))))).

Definition remote_error (assocID : Z) (c : list Z) : list Z :=
  wr sre_assoc_id assocID (wr sre_error 0 (wr sn_length sizeof_sctp_remote_error
    (wr sn_flags 0 (wr sn_type SCTP_REMOTE_ERROR c)))).

(** [sse_length] is set to the size of [sctp_assoc_change] in the source. *)
Definition shutdown_event (assocID : Z) (c : list Z) : list Z :=
  wr sse_assoc_id assocID (wr sn_length sizeof_sctp_assoc_change
    (wr sn_flags 0 (wr sn_type SCTP_SHUTDOWN_EVENT c))).

(** The switch on the new path state: [spc_state] and [spc_error]. *)
Definition path_state (newState : Z) : Z * Z :=
  if bool_decide (newState = SCTP_PATH_OK) then (SCTP_ADDR_REACHABLE, 0)
  else if bool_decide (newState = SCTP_PATH_UNREACHABLE) then (SCTP_ADDR_UNREACHABLE, 0)
  else if bool_decide (newState = SCTP_PATH_ADDED) then (SCTP_ADDR_ADDED, 0)
  else if bool_decide (newState = SCTP_PATH_REMOVED) then (SCTP_ADDR_REMOVED, 0)
  else if bool_decide (newState = SCTP_ASCONF_SUCCEEDED) then (SCTP_ADDR_CONFIRMED, 0)
  else if bool_decide (newState = SCTP_ASCONF_FAILED) then (SCTP_ADDR_CONFIRMED, 1)
  else (0, 0).

(** The IPv4 form of an IPv6 address is preferred when it exists. *)
Definition path_sockaddr (destination : Addr) : list Z :=
  let v4 := if bool_decide (getFamily destination = AF_INET6)
            then getSystemAddress destination AF_INET else [] in
  if bool_decide (v4 = []) then getSystemAddress destination AF_UNSPEC else v4.

Definition paddr_change (assocID newState : Z) (destination : Addr) (c : list Z) : list Z :=
  let c := wr spc_assoc_id assocID (wr sn_length sizeof_sctp_paddr_change
             (wr spc_error 0 (wr sn_flags 0 (wr sn_type SCTP_PEER_ADDR_CHANGE c)))) in
  let c := wr spc_error (path_state newState).2 (wr spc_state (path_state newState).1 c) in
  put_bytes (f_off spc_aaddr) (path_sockaddr destination) c.

Variable deliver : list Callback -> P unit.

(** [sctp_abort] outside of an [SCTPAssociation] *)
Definition raw_abort (assocID : Z) : P unit :=
  let* callbacks := (fun y =>
    let '(w, cbs) := sctp_abort assocID (world y) in Ret cbs (set_world w y)) in
  deliver callbacks.

Definition raw_delete (assocID : Z) : P unit :=
  let* r := call (sctp_deleteAssociation assocID) in
  when (bool_decide (r <> 0)) (stop ProcessAbort).

(** [associationGarbageCollection] *)
Definition associationGarbageCollection (assocID : Z) (sendAbort : bool) : P bool :=
  let* closing := gets ClosingAssociations in
  match mm_find assocID closing with
  | Some it =>
      when sendAbort (raw_abort assocID) ;;
      raw_delete assocID ;;
      let* closing := gets ClosingAssociations in
      let* closing := of_option DanglingIterator (mm_erase_at it closing) in
      modify (set_ClosingAssociations closing) ;;
      socketGarbageCollection deliver ;;
      ret true
  | None => ret false
  end.

(** ** The callbacks *)

Definition dataArriveNotif (assocID streamID length protoID unordered : Z) : P unit :=
  let* socket := getSocketForAssociationID assocID in
  match socket with
  | Some p =>
      let* n := initNotification assocID in
      addNotification p assocID
        (with_Content n (data_arrive assocID streamID length protoID unordered (Content n)))
  | None => ret tt
  end.

Definition sendFailureNotif (assocID : Z) : P unit :=
  let* socket := getSocketForAssociationID assocID in
  match socket with
  | Some p =>
      let* n := initNotification assocID in
      addNotification p assocID (with_Content n (send_failed assocID (Content n)))
  | None => ret tt
  end.

Definition networkStatusChangeNotif (assocID affectedPathID newState : Z) : P unit :=
  let* p := ask (sctp_getPathStatus assocID affectedPathID) in
  match p with
  | None => ret tt
  | Some pathStatus =>
      match createSocketAddress_name PF_HidePort (destinationAddress pathStatus) with
      | None => ret tt
      | Some destination =>
          let* socket := getSocketForAssociationID assocID in
          match socket with
          | Some p =>
              let* n := initNotification assocID in
              addNotification p assocID
                (with_Content n (paddr_change assocID newState destination (Content n)))
          | None => ret tt
          end
      end
  end.

(** Restore the [rtoMax] the initial time-out had displaced. *)
Definition correct_RTOMax (a : nat) (assocID : Z) : P unit :=
  let* o := assoc a in
  when (a_RTOMaxIsInitTimeout o) (
    let* st := sock_getAssocStatus assocID in
    match st with
    | Some st => sock_setAssocStatus assocID (with_rtoMax (a_RTOMax o) st) ;; ret tt
    | None => ret tt
    end ;;
    upd_assoc a (set_a_RTOMaxIsInitTimeout false)).

(** The two cases of [communicationUpNotif] that give an association. *)
Definition established (a : nat) (assocID : Z) : P unit :=
  correct_RTOMax a assocID ;;
  upd_assoc a (set_a_CommunicationUpNotification true) ;;
  broadcast (a, Establish) ;;
  upd_assoc a (set_a_WriteReady true) ;;
  upd_assoc a (set_a_HasException false) ;;
  upd_assoc a (set_a_PreEstablishmentAddressList None) ;;
  sendPreEstablishmentPackets a ;;
  ret tt.

Definition incoming (socket : nat) (assocID : Z) (n : SCTPNotification) : P nat :=
  let* s := sock socket in
  let* a := new_SCTPAssociation socket assocID (s_NotificationFlags s)
              (has_flag (s_Flags s) SSF_GlobalQueue) in
  upd_assoc a (set_a_CommunicationUpNotification true) ;;
  upd_sock socket (fun s => set_s_ConnectionRequests
    (s_ConnectionRequests s ++ [{| ic_Association := a; ic_Notification := n |}]) s) ;;
  upd_sock socket (set_s_ReadReady true) ;;
  broadcast (socket, Establish) ;;
  upd_assoc a (set_a_WriteReady true) ;;
  upd_assoc a (set_a_HasException false) ;;
  ret a.

Definition communicationUpNotif (assocID noOfInStreams noOfOutStreams : Z) : P unit :=
  let* n := initNotification assocID in
  let* socket := getSocketForAssociationID assocID in
  let* wanted :=
    match socket with
    | Some p =>
        let* association := getAssociationForAssociationID p assocID true in
        match association with
        | Some a => established a assocID ;; ret (Some p)
        | None =>
            let* s := sock p in
            if has_flag (s_Flags s) SSF_Listening
            then incoming p assocID n ;; ret (Some p)
            else ret None
        end
    | None => ret None
    end in
  match wanted with
  | Some p =>
      addNotification p assocID (with_Content n
        (assoc_change SCTP_COMM_UP noOfOutStreams noOfInStreams assocID (Content n)))
  | None => raw_abort assocID ;; raw_delete assocID
  end.

Definition communicationLostNotif (assocID : Z) : P unit :=
  let* collected := associationGarbageCollection assocID false in
  if collected then ret tt
  else
    let* socket := getSocketForAssociationID assocID in
    match socket with
    | Some p =>
        let* association := getAssociationForAssociationID p assocID false in
        match association with
        | Some a =>
            correct_RTOMax a assocID ;;
            upd_assoc a (set_a_CommunicationLostNotification true) ;;
            upd_assoc a (set_a_ShutdownCompleteNotification true) ;;
            broadcast (a, ShutdownCompleteC) ;;
            broadcast (a, ReadUpdate) ;;
            addNotification p assocID (with_Content initNotification_plain
              (assoc_change SCTP_COMM_LOST 0 0 assocID (Content initNotification_plain))) ;;
            upd_assoc a (set_a_HasException true) ;;
            upd_assoc a (set_a_WriteReady true) ;;
            upd_assoc a (set_a_ReadReady true) ;;
            broadcast (a, Establish) ;;
            broadcast (a, ReadyForTransmit)
        | None => ret tt
        end ;;
        checkAutoClose deliver p
    | None => ret tt
    end.

Definition communicationErrorNotif (assocID : Z) : P unit :=
  let* socket := getSocketForAssociationID assocID in
  match socket with
  | Some p =>
      let* n := initNotification assocID in
      addNotification p assocID (with_Content n (remote_error assocID (Content n)))
  | None => ret tt
  end.

Definition restartNotif (assocID : Z) : P unit :=
  let* socket := getSocketForAssociationID assocID in
  match socket with
  | Some p =>
      let* st := ask (sctp_getAssocStatus assocID) in
      let '(out, in_) := match st with
                         | Some st => (outStreams st, inStreams st)
                         | None => (1, 1)
                         end in
      addNotification p assocID (with_Content initNotification_plain
        (assoc_change SCTP_RESTART out in_ assocID (Content initNotification_plain)))
  | None => ret tt
  end.

Definition shutdownReceivedNotif (assocID : Z) : P unit :=
  let* socket := getSocketForAssociationID assocID in
  match socket with
  | Some p =>
      let* association := getAssociationForAssociationID p assocID false in
      match association with
      | Some _ =>
          addNotification p assocID (with_Content initNotification_plain
            (shutdown_event assocID (Content initNotification_plain)))
      | None => ret tt
      end
  | None => ret tt
  end.

Definition shutdownCompleteNotif (assocID : Z) : P unit :=
  let* collected := associationGarbageCollection assocID false in
  if collected then ret tt
  else
    let* socket := getSocketForAssociationID assocID in
    match socket with
    | Some p =>
        let* association := getAssociationForAssociationID p assocID false in
        match association with
        | Some a =>
            upd_assoc a (set_a_WriteReady true) ;;
            upd_assoc a (set_a_ReadReady true) ;;
            upd_assoc a (set_a_HasException true) ;;
            upd_assoc a (set_a_ShutdownCompleteNotification true) ;;
            broadcast (a, ShutdownCompleteC) ;;
            broadcast (a, ReadyForTransmit) ;;
            broadcast (a, ReadUpdate) ;;
            addNotification p assocID (with_Content initNotification_plain
              (assoc_change SCTP_SHUTDOWN_COMP 0 0 assocID (Content initNotification_plain)))
        | None => ret tt
        end ;;
        checkAutoClose deliver p
    | None => ret tt
    end.

Definition queueStatusChangeNotif (assocID : Z) : P unit :=
  let* socket := getSocketForAssociationID assocID in
  match socket with
  | Some p =>
      let* association := getAssociationForAssociationID p assocID false in
      match association with
      | Some a =>
          broadcast (a, ReadyForTransmit) ;;
          upd_assoc a (set_a_WriteReady true) ;;
          sendPreEstablishmentPackets a ;;
          ret tt
      | None => ret tt
      end
  | None => ret tt
  end.

(** The callback table set up by the constructor of [SCTPSocketMaster]. *)
Definition handle (cb : Callback) : P unit :=
  match cb with
  | DataArrive assocID streamID length ssn tsn protoID unordered =>
      dataArriveNotif assocID streamID length protoID unordered
  | SendFailure assocID => sendFailureNotif assocID
  | NetworkStatusChange assocID path st => networkStatusChangeNotif assocID path st
  | CommunicationUp assocID ins outs => communicationUpNotif assocID ins outs
  | CommunicationLost assocID => communicationLostNotif assocID
  | CommunicationError assocID => communicationErrorNotif assocID
  | Restart assocID => restartNotif assocID
  | ShutdownReceived assocID => shutdownReceivedNotif assocID
  | ShutdownComplete assocID => shutdownCompleteNotif assocID
  | QueueStatusChange assocID => queueStatusChangeNotif assocID
  end.
End SocketMaster.

(** ** The dispatch of callbacks; [depth] bounds the nesting *)

Fixpoint dispatch `{!Platform} (depth : nat) (cbs : list Callback) : P unit :=
  match cbs, depth with
  | [], _ => ret tt
  | _ :: _, O => stop OutOfFuel
  | _ :: _, S depth => for_each cbs (handle (dispatch depth))
  end.
