(* ===== verification/InternetAddress.v ===== *)
(** * Internet addresses: internetaddress.cc, internetaddress.icc

    The object holds an IPv6 address in network byte order, IPv4 addresses as
    mapped addresses, and the port in network byte order.  [AddrSpec] is the
    union as its 16 bytes; numbers are read from memory in the byte order of a
    little-endian machine.  The functions of the resolver are the class
    [Resolver]; [UseIPv6] is what [checkIPv6] found at the start.

    [PortableAddress] (portableaddress.icc) and [InternetFlow]
    (internetflow.cc) are at the end. *)

From Stdlib Require Import String Ascii.
From stdpp Require Import strings.
From S2P Require Import Prelude Memory Strings Tools.
From S2P Require Import Socket SocketOps SocketMaster.
Local Open Scope Z_scope.

(** ** The resolver *)

Record AddrInfoHints : Type := { ai_family : Z; ai_socktype : Z; ai_flags : Z }.
Definition AI_NUMERICHOST : Z := 4.
Definition AI_ADDRCONFIG : Z := 32.
Definition SOCK_DGRAM_ : Z := 2.

Class Resolver : Type := {
  (* the socket address of the first result *)
  getaddrinfo : option string -> option string -> AddrInfoHints -> option (list Z);
  getaddrinfo_ok node service hints b : getaddrinfo node service hints = Some b ->
    bytes_ok b /\ (16 <= length b)%nat /\ (get 0 2 b = AF_INET6 -> (28 <= length b)%nat);
  getnameinfo : list Z -> option (string * string); (* host and service; NI_NAMEREQD *)
  if_indextoname : Z -> option string;
  nodename : option string }.                       (* uname *)

Definition ntohs (x : Z) : Z := translate16 x.
Definition htons (x : Z) : Z := translate16 x.
Definition ntohl (x : Z) : Z := translate32 x.
Definition htonl (x : Z) : Z := translate32 x.

(** ** The object *)

Record InternetAddress : Type := {
  AddrSpec : list Z;
  Port : Z;
  ScopeID : Z;
  Valid : bool;
  Format : Z }.

Definition PF_Hostname : Z := 2 ^ 1.
Definition PF_Default : Z := Z.lor PF_Address PF_Legacy.

Definition Host16 (a : InternetAddress) (i : Z) : Z := get (2 * Z.to_nat i) 2 (AddrSpec a).
Definition Host32 (a : InternetAddress) (i : Z) : Z := get (4 * Z.to_nat i) 4 (AddrSpec a).
Definition Host8 (a : InternetAddress) (i : Z) : Z := get (Z.to_nat i) 1 (AddrSpec a).
Definition with_AddrSpec (spec : list Z) (a : InternetAddress) : InternetAddress :=
  {| AddrSpec := spec; Port := Port a; ScopeID := ScopeID a; Valid := Valid a; Format := Format a |}.
Definition with_Valid (v : bool) (a : InternetAddress) : InternetAddress :=
  {| AddrSpec := AddrSpec a; Port := Port a; ScopeID := ScopeID a; Valid := v; Format := Format a |}.
Definition with_Port (p : Z) (a : InternetAddress) : InternetAddress :=
  {| AddrSpec := AddrSpec a; Port := p; ScopeID := ScopeID a; Valid := Valid a; Format := Format a |}.
Definition with_ScopeID (s : Z) (a : InternetAddress) : InternetAddress :=
  {| AddrSpec := AddrSpec a; Port := Port a; ScopeID := s; Valid := Valid a; Format := Format a |}.
Definition setPrintFormat (f : Z) (a : InternetAddress) : InternetAddress :=
  {| AddrSpec := AddrSpec a; Port := Port a; ScopeID := ScopeID a; Valid := Valid a; Format := f |}.

Definition getPort (a : InternetAddress) : Z := ntohs (Port a).
Definition setPort (port : Z) (a : InternetAddress) : InternetAddress := with_Port (htons port) a.
Definition getPrintFormat (a : InternetAddress) : Z := Format a.
Definition isValid (a : InternetAddress) : bool := Valid a.
Definition reset (a : InternetAddress) : InternetAddress :=
  setPrintFormat PF_Default (setPort 0
    {| AddrSpec := replicate 16 0; Port := Port a; ScopeID := 0; Valid := true; Format := Format a |}).

(** ** Properties of addresses *)

(** The macros of netinet/in.h. *)
Definition IN6_IS_ADDR_V4MAPPED (a : InternetAddress) : bool :=
  (Host32 a 0 =? 0) && (Host32 a 1 =? 0) && (Host32 a 2 =? htonl 0xffff).
Definition IN6_IS_ADDR_UNSPECIFIED (a : InternetAddress) : bool :=
  (Host32 a 0 =? 0) && (Host32 a 1 =? 0) && (Host32 a 2 =? 0) && (Host32 a 3 =? 0).
Definition IN6_IS_ADDR_V4COMPAT (a : InternetAddress) : bool :=
  (Host32 a 0 =? 0) && (Host32 a 1 =? 0) && (Host32 a 2 =? 0) && (ntohl (Host32 a 3) >? 1).
Definition IN6_IS_ADDR_LOOPBACK (a : InternetAddress) : bool :=
  (Host32 a 0 =? 0) && (Host32 a 1 =? 0) && (Host32 a 2 =? 0) && (Host32 a 3 =? htonl 1).
Definition IN6_IS_ADDR_MULTICAST (a : InternetAddress) : bool := Host8 a 0 =? 0xff.
Definition IN6_IS_ADDR_LINKLOCAL (a : InternetAddress) : bool :=
  Z.land (Host32 a 0) (htonl 0xffc00000) =? htonl 0xfe800000.
Definition IN6_IS_ADDR_SITELOCAL (a : InternetAddress) : bool :=
  Z.land (Host32 a 0) (htonl 0xffc00000) =? htonl 0xfec00000.
Definition multicast_scope (scope : Z) (a : InternetAddress) : bool :=
  IN6_IS_ADDR_MULTICAST a && (Z.land (Host8 a 1) 0xf =? scope).
Definition IN_MULTICAST (x : Z) : bool := Z.land x 0xf0000000 =? 0xe0000000.
Definition IN_BADCLASS (x : Z) : bool := Z.land x 0xf0000000 =? 0xf0000000.
Definition IN_EXPERIMENTAL (x : Z) : bool := Z.land x 0xe0000000 =? 0xe0000000.
Definition INADDR_BROADCAST : Z := 0xffffffff.
Definition INADDR_MAX_LOCAL_GROUP : Z := 0xe00000ff.
Definition IN_LOOPBACKNET : Z := 127.

(** All groups zero, but for 0xffff in group 5. *)
Definition isUnspecified (a : InternetAddress) : bool :=
  forallb (fun i => (Host16 a i =? 0) || ((i =? 5) && (Host16 a i =? 0xffff)))
    [0; 1; 2; 3; 4; 5; 6; 7].
Definition isNull (a : InternetAddress) : bool := isUnspecified a && (Port a =? 0).
Definition isIPv6 (a : InternetAddress) : bool := negb (IN6_IS_ADDR_V4MAPPED a).
Definition isIPv4 (a : InternetAddress) : bool :=
  IN6_IS_ADDR_V4MAPPED a || IN6_IS_ADDR_UNSPECIFIED a.
Definition isIPv4compatible (a : InternetAddress) : bool := IN6_IS_ADDR_V4COMPAT a.
Definition isLoopback (a : InternetAddress) : bool :=
  if isIPv6 a then IN6_IS_ADDR_LOOPBACK a
  else wrap 8 (Z.shiftr (ntohs (Host16 a 6)) 8) =? IN_LOOPBACKNET.
Definition isMulticast (a : InternetAddress) : bool :=
  if isIPv6 a then IN6_IS_ADDR_MULTICAST a else IN_MULTICAST (ntohl (Host32 a 3)).
Definition isBroadcast (a : InternetAddress) : bool :=
  if isIPv6 a then false else ntohl (Host32 a 3) =? INADDR_BROADCAST.
Definition isUnicast (a : InternetAddress) : bool := negb (isMulticast a || isBroadcast a).
Definition isReserved (a : InternetAddress) : bool :=
  if isIPv6 a then false
  else IN_BADCLASS (ntohl (Host32 a 3)) || IN_EXPERIMENTAL (ntohl (Host32 a 3)).
Definition isLinkLocal (a : InternetAddress) : bool :=
  if isIPv6 a then IN6_IS_ADDR_LINKLOCAL a
  else Z.shiftr (ntohs (Host16 a 6)) 8 =? IN_LOOPBACKNET.
Definition isSiteLocal (a : InternetAddress) : bool :=
  if isIPv6 a then IN6_IS_ADDR_SITELOCAL a
  else
    let x := wrap 8 (Z.shiftr (ntohs (Host16 a 6)) 8) in
    if (x =? IN_LOOPBACKNET) || (x =? 10) then true
    else
      let y := wrap 8 (Z.land (ntohs (Host16 a 6)) 0xff) in
      if (x =? 192) && (y =? 168) then true
      else if x =? 172 then (13 <=? y) && (y <=? 31)
      else false.
Definition isGlobal (a : InternetAddress) : bool :=
  negb (isSiteLocal a || isLinkLocal a || isLoopback a).
Definition isNodeLocalMulticast (a : InternetAddress) : bool :=
  if isIPv6 a then multicast_scope 0x1 a else false.
Definition isLinkLocalMulticast (a : InternetAddress) : bool :=
  if isIPv6 a then multicast_scope 0x2 a
  else if IN_MULTICAST (ntohl (Host32 a 3))
       then Z.land (ntohl (Host32 a 3)) INADDR_MAX_LOCAL_GROUP =? ntohl (Host32 a 3)
       else false.
Definition isSiteLocalMulticast (a : InternetAddress) : bool :=
  if isIPv6 a then multicast_scope 0x5 a else false.
Definition isOrgLocalMulticast (a : InternetAddress) : bool :=
  if isIPv6 a then multicast_scope 0x8 a else false.
Definition isGlobalMulticast (a : InternetAddress) : bool :=
  if isIPv6 a then multicast_scope 0xe a else false.

(** ** Comparison *)

Definition address_eq (a b : InternetAddress) : bool :=
  (Host32 a 0 =? Host32 b 0) && (Host32 a 1 =? Host32 b 1)
  && (Host32 a 2 =? Host32 b 2) && (Host32 a 3 =? Host32 b 3).
Definition address_ne (a b : InternetAddress) : bool := negb (address_eq a b).
(** The first group that differs decides, then [last]. *)
Fixpoint first_difference (before after : Z -> Z -> bool) (last : bool)
    (f g : Z -> Z) (n : nat) (i : Z) : bool :=
  match n with
  | O => last
  | S n => if before (f i) (g i) then true
           else if after (f i) (g i) then false
           else first_difference before after last f g n (i + 1)
  end.
Definition group (a : InternetAddress) (i : Z) : Z := ntohs (Host16 a i).
Definition address_lt (a b : InternetAddress) : bool :=
  first_difference Z.ltb Z.gtb (ntohs (Port a) <? ntohs (Port b)) (group a) (group b) 8 0.
Definition address_gt (a b : InternetAddress) : bool :=
  first_difference Z.gtb Z.ltb (Port a >? Port b) (group a) (group b) 8 0.
Definition address_le (a b : InternetAddress) : bool := address_lt a b || address_eq a b.
Definition address_ge (a b : InternetAddress) : bool := address_gt a b || address_eq a b.

(** ** Construction *)

Definition init_copy (address this : InternetAddress) : InternetAddress :=
  setPrintFormat (getPrintFormat address)
    {| AddrSpec := AddrSpec address; Port := Port address; ScopeID := ScopeID address;
       Valid := Valid address; Format := Format this |}.
Definition init_port (port : Z) (this : InternetAddress) : InternetAddress :=
  setPrintFormat PF_Default (setPort port
    {| AddrSpec := replicate 16 0; Port := Port this; ScopeID := 0; Valid := true;
       Format := Format this |}).

(** An IPv4 address as a mapped address: groups 0 to 4 zero, group 5 0xffff. *)
Definition mapped (ipv4 : list Z) : list Z := replicate 10 0 ++ [0xff; 0xff] ++ ipv4.

(** [%d] of [sscanf]: blanks, a sign, digits; the number is clamped to 64 bits
    and stored in 32. *)
Definition is_space (c : ascii) : bool :=
  Ascii.eqb c " " || ((9 <=? code c) && (code c <=? 13)).
Fixpoint skip_space (s : string) : string :=
  match s with
  | String c s' => if is_space c then skip_space s' else s
  | EmptyString => EmptyString
  end.
Definition digit_value (base : Z) (c : ascii) : option Z :=
  let d := if in_range c "0" "9" then code c - 48
           else if in_range c "a" "z" then code c - 87
           else if in_range c "A" "Z" then code c - 55 else 36 in
  if d <? base then Some d else None.
Fixpoint read_digits (base : Z) (s : string) (acc : Z) : Z * string :=
  match s with
  | String c s' => match digit_value base c with
                   | Some d => read_digits base s' (acc * base + d)
                   | None => (acc, s)
                   end
  | EmptyString => (acc, s)
  end.
Definition clamp64 (x : Z) : Z := Z.max (- 2 ^ 63) (Z.min (2 ^ 63 - 1) x).
Definition sscanf_d (s : TdString) : option Z :=
  let s := skip_space (data_of s) in
  let '(negative, digits) :=
    match s with
    | String c s' => if Ascii.eqb c "-" then (true, s') else if Ascii.eqb c "+" then (false, s')
                     else (false, s)
    | EmptyString => (false, s)
    end in
  match digits with
  | String c _ =>
      match digit_value 10 c with
      | Some _ => let n := (read_digits 10 digits 0).1 in
                  Some (s32 (clamp64 (if negative : bool then - n else n)))
      | None => None
      end
  | EmptyString => None
  end.

Section Construction.
Context `{!Resolver} (UseIPv6 : bool).

Definition getFamily (a : InternetAddress) : Z :=
  if isIPv6 a then AF_INET6 else if UseIPv6 then AF_INET6 else AF_INET.

(** Only digits and points, and no colon. *)
Fixpoint any_char (f : ascii -> bool) (s : string) : bool :=
  match s with EmptyString => false | String c s => f c || any_char f s end.
Definition is_numeric (name : string) : bool :=
  any_char (fun c => Ascii.eqb c ":") name
  || negb (any_char (fun c => negb (in_range c "0" "9" || Ascii.eqb c ".")) name).

(** The length of the address, its bytes (as far as they are set), and the
    scope. *)
Definition getHostByName (hostName : TdString) : Z * list Z * Z :=
  match hostName with
  | None => if UseIPv6 then (16, replicate 16 0, 0) else (4, replicate 16 0, 0)
  | Some name =>
      let hints :=
        {| ai_family := if UseIPv6 then AF_UNSPEC else AF_INET;
           ai_socktype := SOCK_DGRAM_;
           ai_flags := if is_numeric name then AI_NUMERICHOST
                       else if UseIPv6 then AI_ADDRCONFIG else 0 |} in
      match getaddrinfo (Some name) None hints with
      | None => (0, [], 0)
      | Some ai_addr =>
          let sa_family := get 0 2 ai_addr in
          if sa_family =? AF_INET then (4, take 4 (drop 4 ai_addr), 0)
          else if sa_family =? AF_INET6 then
            let sin6_addr := take 16 (drop 8 ai_addr) in
            let sin6_scope_id := get 24 4 ai_addr in
            if (Z.land (get 8 4 ai_addr) (htonl 0xffc00000) =? htonl 0xfe800000)
               && (sin6_scope_id =? 0)
            then (0, [], 0)
            else (16, sin6_addr, wrap 16 sin6_scope_id)
          else (0, [], 0)
      end
  end.

Definition init_host (hostName : TdString) (port : Z) (this : InternetAddress) : InternetAddress :=
  let '(length, address, scopeID) := getHostByName hostName in
  let this := with_ScopeID scopeID (setPrintFormat PF_Default
                (setPort port (with_Valid true this))) in
  if length =? 4 then with_AddrSpec (mapped (take 4 address)) this
  else if length =? 16 then with_AddrSpec (take 16 address) this
  else with_Valid false (reset this).

Definition getServiceByName (name : TdString) : Z :=
  match getaddrinfo None name {| ai_family := AF_INET; ai_socktype := 0; ai_flags := 0 |} with
  | Some ai_addr => ntohs (get 2 2 ai_addr)
  | None => 0
  end.

(** The constructors get the memory of the object, [this]. *)
Definition InternetAddress_default (this : InternetAddress) : InternetAddress :=
  with_Valid false (reset this).
Definition InternetAddress_host (hostName : TdString) (port : Z) (this : InternetAddress)
    : InternetAddress :=
  match hostName with None => init_port port this | _ => init_host hostName port this end.
Definition InternetAddress_port (port : Z) (this : InternetAddress) : InternetAddress :=
  init_port port this.

(** Where the host and the port of [<Address>:port] are; [None] if a bracket is
    not closed. *)
Definition split_address (address : TdString) : option (TdString * TdString) :=
  let p1 := index address "(" in
  let host := if p1 >? 0
              then (let host := mid_rest address (p1 + 1) in left host (stringLength host))
              else address in
  if Ascii.eqb (char_at (data_of host) 0) "[" then
    let p1 := index host "]" in
    if p1 >? 0 then
      let next := char_at (data_of host) (p1 + 1) in
      let port := if Ascii.eqb next ":" || Ascii.eqb next "!" then mid_rest host (p1 + 2)
                  else Some "0"%string in
      let host := mid host 1 (p1 - 1) in
      Some (left host (stringLength host), port)
    else None
  else
    let p1 := rindex address ":" in
    let p1 := if p1 <? 0 then rindex address "!" else p1 in
    if p1 >? 0 then Some (left address p1, mid_rest address (p1 + 1))
    else Some (host, Some "0"%string).

Definition InternetAddress_string (address : TdString) (this : InternetAddress) : InternetAddress :=
  match address with
  | None => reset this
  | Some _ =>
      match split_address address with
      | None => with_Valid false this
      | Some (host, port) =>
          match sscanf_d port with
          | Some portNumber =>
              if (0 <=? portNumber) && (portNumber <=? 65535) then init_host host portNumber this
              else
                let portNumber := getServiceByName port in
                if portNumber =? 0 then with_Valid false this else init_host host portNumber this
          | None =>
              let portNumber := getServiceByName port in
              if portNumber =? 0 then with_Valid false this else init_host host portNumber this
          end
      end
  end.

(** ** System addresses *)

Definition sizeof_sockaddr_in : Z := 16.
Definition sizeof_sockaddr_in6 : Z := 28.

(** The length written, 0 on failure, and the buffer. *)
Definition getSystemAddress (a : InternetAddress) (buffer : list Z) (length type : Z)
    : Z * list Z :=
  let newType := if type =? AF_UNSPEC then if UseIPv6 then AF_INET6 else AF_INET else type in
  if newType =? AF_INET6 then
    if sizeof_sockaddr_in6 <=? length then
      let buffer := put 0 2 AF_INET6 buffer in
      let buffer := put 4 4 0 buffer in
      let buffer := put 2 2 (Port a) buffer in
      let buffer := put 24 4 (ScopeID a) buffer in
      (sizeof_sockaddr_in6, put_bytes 8 (AddrSpec a) buffer)
    else (0, buffer)
  else if newType =? AF_INET then
    if sizeof_sockaddr_in <=? length then
      let buffer := put 0 2 AF_INET buffer in
      if isIPv4 a then
        let buffer := put 2 2 (Port a) buffer in
        (sizeof_sockaddr_in, put_bytes 4 (take 4 (drop 12 (AddrSpec a))) buffer)
      else (0, buffer)
    else (0, buffer)
  else (0, buffer).

(** The length is not looked at. *)
Definition setSystemAddress (address : list Z) (length : Z) (this : InternetAddress)
    : bool * InternetAddress :=
  let this := with_Port (get 2 2 address) this in
  let sin_family := get 0 2 address in
  if sin_family =? AF_INET then
    (true, with_Valid true (with_AddrSpec (mapped (take 4 (drop 4 address))) this))
  else if sin_family =? AF_INET6 then
    (true, with_Valid true (with_ScopeID (wrap 16 (get 24 4 address))
             (with_AddrSpec (take 16 (drop 8 address)) this)))
  else (false, with_Valid true (reset this)).

Definition init_sockaddr (address : list Z) (length : Z) (this : InternetAddress) : InternetAddress :=
  setPrintFormat PF_Default (setSystemAddress address length this).2.

(** The [in_addr], if there is one. *)
Definition setIPv4Address (address : InternetAddress) (blank : list Z) : option (list Z) :=
  let '(n, sa) := getSystemAddress address blank sizeof_sockaddr_in AF_INET in
  if n >? 0 then Some (take 4 (drop 4 sa)) else None.
Definition getIPv4Address (ipv4Address blank : list Z) (this : InternetAddress) : InternetAddress :=
  let sa := put_bytes 4 (take 4 ipv4Address) (put 2 2 0 (put 0 2 AF_INET blank)) in
  init_sockaddr sa sizeof_sockaddr_in this.

(** ** Printing *)

(** [%d.%d.%d.%d] of an IPv4 address. *)
Definition print_ipv4 (a : Z) : string :=
  print_int (Z.shiftr (Z.land a 0xff000000) 24) +:+ "." +:+
  print_int (Z.shiftr (Z.land a 0x00ff0000) 16) +:+ "." +:+
  print_int (Z.shiftr (Z.land a 0x0000ff00) 8) +:+ "." +:+
  print_int (Z.land a 0x000000ff).

(** The first group from [j] on that is not zero, or 8. *)
Fixpoint end_of_zeros (a : InternetAddress) (fuel : nat) (j : Z) : Z :=
  match fuel with
  | O => j
  | S fuel => if j <? 8 then if negb (Host16 a j =? 0) then j else end_of_zeros a fuel (j + 1)
              else j
  end.
(** The loop over the groups [i], [i+1], ... below [length]. *)
Fixpoint print_groups (a : InternetAddress) (fuel : nat) (length i : Z) (compressed : bool) : string :=
  match fuel with
  | O => EmptyString
  | S fuel =>
      if i <? length then
        let value := ntohs (Host16 a i) in
        let '(str, compressed, i) :=
          if negb (value =? 0) || compressed || (i =? 7)
          then (print_unsigned 16 value, compressed, i)
          else
            let j := end_of_zeros a 8 (i + 1) in
            if j =? i + 1 then (print_unsigned 16 value, compressed, i)
            else ((if (i =? 0) || (j =? 8) then ":"%string else ""%string), true, j - 1) in
        str +:+ (if (i <? 7)%Z then ":" else "") +:+ print_groups a fuel length (i + 1)%Z compressed
      else EmptyString
  end.

Definition print_ipv6 (a : InternetAddress) (format : Z) : string :=
  let length := if isIPv6 a then 8 else 6 in
  let port := negb (has_flag format PF_HidePort) in
  let bracket := (if port then "[" else "")%string in
  let groups := print_groups a 9 length 0 false in
  (* the character after the first one that was printed *)
  let groups := if Ascii.eqb (char_at groups 1) NUL then (groups +:+ ":")%string else groups in
  bracket +:+ groups
  +:+ (if (length =? 6)%Z then print_ipv4 (ntohl (Host32 a 3)) else "")
  +:+ (if isIPv6 a && isLinkLocal a
       then "%" +:+ default "(BAD!)" (if_indextoname (ScopeID a)) else "")
  +:+ (if port then "]:" +:+ print_int (ntohs (Port a)) else "").

Definition print_hostname (a : InternetAddress) (format : Z) (blank : list Z) : string :=
  let '(len, b) := getSystemAddress a blank sizeof_sockaddr_in6 AF_UNSPEC in
  match getnameinfo (take (Z.to_nat len) b) with
  | Some (cname, sname) =>
      if negb (has_flag format PF_HidePort) then cname +:+ ":" +:+ sname else cname
  | None => EmptyString
  end.

Definition getAddressString (a : InternetAddress) (format : Z) (blank : list Z) : string :=
  if negb (Valid a) then "(invalid)"
  else if negb (has_flag format PF_Hostname || has_flag format PF_Address)
  then "(check print format)"
  else
    let hostString := if has_flag format PF_Hostname then print_hostname a format blank
                      else EmptyString in
    let no_host := bool_decide (hostString = EmptyString) in
    let addressString :=
      if has_flag format PF_Address || (has_flag format PF_Hostname && no_host) then
        if (UseIPv6 && negb (has_flag format PF_Legacy)) || negb (isIPv4 a)
        then print_ipv6 a format
        else print_ipv4 (ntohl (Host32 a 3))
             +:+ (if negb (has_flag format PF_HidePort)
                  then ":" +:+ print_int (ntohs (Port a)) else "")
      else EmptyString in
    if negb no_host && negb (bool_decide (addressString = EmptyString))
    then hostString +:+ " (" +:+ addressString +:+ ")"
    else hostString +:+ addressString.

Definition getFullHostName (blank : list Z) (this : InternetAddress) : option string :=
  match nodename with
  | Some name =>
      let address := InternetAddress_string (Some name) this in
      Some (getAddressString address (Z.lor PF_Hostname PF_HidePort) blank)
  | None => None
  end.
End Construction.

(** ** The Internet checksum *)

Definition add_carry (sum x : Z) : Z :=
  let sum := wrap 32 (sum + x) in
  if sum >? 0xffff then sum - 0xffff else sum.
Fixpoint calculateChecksum (buf : list Z) (sum : Z) : Z :=
  match buf with
  | x :: y :: buf => calculateChecksum buf (add_carry sum (ntohs (le_combine [x; y])))
  | [x] => add_carry sum (htons x)
  | [] => sum
  end.
Definition wrapChecksum (sum : Z) : Z := htons (Z.land (Z.lnot sum) 0xffff).

(** ** Portable addresses *)

Record PortableAddress : Type := { pa_Host : list Z; pa_Port : Z }.
Definition pa_reset : PortableAddress := {| pa_Host := replicate 8 0; pa_Port := 0 |}.
Definition pa_host (p : PortableAddress) (i : Z) : Z := default 0 (pa_Host p !! Z.to_nat i).
Definition pa_lt (p q : PortableAddress) : bool :=
  first_difference Z.ltb Z.gtb (pa_Port p <? pa_Port q) (pa_host p) (pa_host q) 8 0.
Definition pa_gt (p q : PortableAddress) : bool :=
  first_difference Z.gtb Z.ltb (pa_Port p >? pa_Port q) (pa_host p) (pa_host q) 8 0.
Definition pa_eq (p q : PortableAddress) : bool :=
  forallb (fun i => pa_host p i =? pa_host q i) [0; 1; 2; 3; 4; 5; 6; 7] && (pa_Port p =? pa_Port q).
Definition pa_ne (p q : PortableAddress) : bool :=
  existsb (fun i => negb (pa_host p i =? pa_host q i)) [0; 1; 2; 3; 4; 5; 6; 7]
  || negb (pa_Port p =? pa_Port q).
Definition pa_le (p q : PortableAddress) : bool := pa_lt p q || pa_eq p q.
Definition pa_ge (p q : PortableAddress) : bool := pa_gt p q || pa_eq p q.

Definition getPortableAddress (a : InternetAddress) : PortableAddress :=
  {| pa_Host := Host16 a <$> [0; 1; 2; 3; 4; 5; 6; 7]; pa_Port := Port a |}.
(** The constructor and [init] of a portable address. *)
Definition init_portable (address : PortableAddress) (this : InternetAddress) : InternetAddress :=
  setPrintFormat PF_Default
    {| AddrSpec := concat (le_split 2 <$> pa_Host address); Port := pa_Port address;
       ScopeID := 0; Valid := true; Format := Format this |}.

(** ** Flows (internetflow.cc, internetflow.icc) *)

Record InternetFlow : Type := { if_address : InternetAddress; FlowInfo : Z }.
Definition IPV6_FLOWINFO_FLOWLABEL : Z := 0x000fffff.
Definition IPV6_FLOWINFO_PRIORITY : Z := 0x0ff00000.

Definition InternetFlow_default (this : InternetFlow) : InternetFlow :=
  {| if_address := InternetAddress_default (if_address this); FlowInfo := 0 |}.
Definition InternetFlow_address (address : InternetAddress) (flowLabel trafficClass : Z)
    (this : InternetFlow) : InternetFlow :=
  {| if_address := init_copy address (if_address this);
     FlowInfo := htonl (Z.lor flowLabel (wrap 32 (Z.shiftl trafficClass 20))) |}.
Definition InternetFlow_copy (flow this : InternetFlow) : InternetFlow :=
  {| if_address := init_copy (if_address flow) (if_address this); FlowInfo := FlowInfo flow |}.
Definition flow_reset (this : InternetFlow) : InternetFlow :=
  {| if_address := reset (if_address this); FlowInfo := 0 |}.
Definition getFlowInfo (f : InternetFlow) : Z := ntohl (FlowInfo f).
Definition getFlowLabel (f : InternetFlow) : Z := Z.land (ntohl (FlowInfo f)) IPV6_FLOWINFO_FLOWLABEL.
Definition getTrafficClass (f : InternetFlow) : Z :=
  wrap 8 (Z.shiftr (Z.land (ntohl (FlowInfo f)) IPV6_FLOWINFO_PRIORITY) 20).
Definition set_FlowInfo (x : Z) (f : InternetFlow) : InternetFlow :=
  {| if_address := if_address f; FlowInfo := x |}.
Definition setTrafficClass (trafficClass : Z) (f : InternetFlow) : InternetFlow :=
  set_FlowInfo (htonl (Z.lor (Z.land (ntohl (FlowInfo f)) IPV6_FLOWINFO_FLOWLABEL)
    (wrap 32 (Z.shiftl trafficClass 20)))) f.
Definition setFlowLabel (flowLabel : Z) (f : InternetFlow) : InternetFlow :=
  set_FlowInfo (htonl (Z.lor (Z.land (ntohl (FlowInfo f)) IPV6_FLOWINFO_PRIORITY) flowLabel)) f.

Section Flow.
Context `{!Resolver} (UseIPv6 : bool).
Definition flow_getSystemAddress (f : InternetFlow) (buffer : list Z) (length type : Z)
    : Z * list Z :=
  let '(addressLength, buffer) := getSystemAddress UseIPv6 (if_address f) buffer length type in
  (addressLength, if (addressLength >? 0) && (type =? AF_INET6)
                  then put 4 4 (FlowInfo f) buffer else buffer).
Definition flow_setSystemAddress (address : list Z) (length : Z) (f : InternetFlow)
    : bool * InternetFlow :=
  let '(ok, a) := setSystemAddress address length (if_address f) in
  (ok, {| if_address := a;
          FlowInfo := if ok && (get 0 2 address =? AF_INET6) then get 4 4 address else 0 |}).

(** [%05x] and [%02x] *)
Definition padded (width n : Z) : string :=
  let s := print_unsigned 16 n in
  String.concat "" (replicate (Z.to_nat width - String.length s) "0"%string) +:+ s.
Definition flow_getAddressString (f : InternetFlow) (format : Z) (blank : list Z) : string :=
  getAddressString UseIPv6 (if_address f) format blank
  +:+ "/$" +:+ padded 5 (getFlowLabel f) +:+ ", $" +:+ padded 2 (getTrafficClass f).
End Flow.
