(* ===== verification/SocketAddress.v ===== *)
(** * Socket addresses: unixaddress.cc, unixaddress.icc, socketaddress.cc

    Addresses of the two families, their creation, and the interface
    [SocketAddressI] of the socket layer implemented by them. *)

From Stdlib Require Import String Ascii.
From stdpp Require Import strings.
From S2P Require Import Prelude Memory Strings Tools State.
From S2P Require Import Socket SocketOps SocketMaster InternetAddress.
Local Open Scope Z_scope.

(** ** Characters in memory *)

Definition char_of_byte (b : Z) : ascii := ascii_of_N (Z.to_N b).
(** The characters up to the terminating zero. *)
Fixpoint c_string (b : list Z) : string :=
  match b with
  | [] => EmptyString
  | x :: b => if x =? 0 then EmptyString else String (char_of_byte x) (c_string b)
  end.
Fixpoint string_bytes (s : string) : list Z :=
  match s with EmptyString => [] | String c s => code c :: string_bytes s end.
(** [strcpy] to the beginning of the memory. *)
Definition strcpy (s : string) (b : list Z) : list Z := put_bytes 0 (string_bytes s ++ [0]) b.

(** ** Unix addresses *)

Definition AF_UNIX : Z := 1.
Definition MaxNameLength : Z := 108.
Definition sizeof_sockaddr_un : Z := 110.

Record UnixAddress : Type := { Name : list Z }.  (* char[MaxNameLength + 1] *)

Definition unix_isNull (a : UnixAddress) : bool := get 0 1 (Name a) =? 0.
Definition unix_isValid (a : UnixAddress) : bool := negb (unix_isNull a).
Definition unix_reset (this : UnixAddress) : UnixAddress := {| Name := put 0 1 0 (Name this) |}.

(** [init(const String&)] *)
Definition unix_init (name : TdString) (this : UnixAddress) : UnixAddress :=
  let this := unix_reset this in
  let length := stringLength name in
  if length <? MaxNameLength then
    if string_eq (left name 5) (Some "unix:"%string)
    then {| Name := strcpy (data_of (mid_rest name 5)) (Name this) |}
    else this
  else this.
(** [init(const UnixAddress&)], the copy constructor and [operator=]. *)
Definition unix_init_copy (address this : UnixAddress) : UnixAddress :=
  unix_init (Some (c_string (Name address))) this.
Definition unix_duplicate (address blank : UnixAddress) : UnixAddress := unix_init_copy address blank.

Definition unix_getPort (a : UnixAddress) : Z := 0.
Definition unix_setPort (port : Z) (a : UnixAddress) : UnixAddress := a.
Definition unix_getFamily (a : UnixAddress) : Z := AF_UNIX.
Definition unix_getAddressString (a : UnixAddress) (format : Z) : string :=
  if unix_isNull a then "(invalid)" else "unix:" +:+ c_string (Name a).
Definition unix_getSystemAddress (a : UnixAddress) (buffer : list Z) (length type : Z) : Z * list Z :=
  if (type =? AF_UNSPEC) || (type =? AF_UNIX) then
    if sizeof_sockaddr_un <=? length
    then (sizeof_sockaddr_un, put_bytes 2 (take 108 (Name a)) (put 0 2 AF_UNIX buffer))
    else (0, buffer)
  else (0, buffer).
Definition unix_setSystemAddress (address : list Z) (length : Z) (this : UnixAddress)
    : bool * UnixAddress :=
  if get 0 2 address =? AF_UNIX
  then (true, {| Name := put 108 1 0 (put_bytes 0 (take 108 (drop 2 address)) (Name this)) |})
  else (false, unix_reset this).

Definition unix_compare (a b : UnixAddress) : Z := strcmp (c_string (Name a)) (c_string (Name b)).
Definition unix_eq (a b : UnixAddress) : bool := unix_compare a b =? 0.
Definition unix_ne (a b : UnixAddress) : bool := negb (unix_compare a b =? 0).
Definition unix_lt (a b : UnixAddress) : bool := unix_compare a b <? 0.
Definition unix_gt (a b : UnixAddress) : bool := unix_compare a b >? 0.
Definition unix_le (a b : UnixAddress) : bool := unix_compare a b <=? 0.
Definition unix_ge (a b : UnixAddress) : bool := unix_compare a b >=? 0.

(** ** Addresses of both families *)

Inductive SocketAddress : Type :=
| Internet (a : InternetAddress)
| Unix (a : UnixAddress).

(** An array of pointers, all NULL. *)
Definition newAddressList (entries : Z) : list (option SocketAddress) :=
  replicate (Z.to_nat (wrap 32 (entries + 1))) None.
(** The addresses [deleteAddressList] deletes: those before the first NULL;
    [None] if there is no NULL and it reads on. *)
Fixpoint deleteAddressList (addressArray : list (option SocketAddress)) : option (list SocketAddress) :=
  match addressArray with
  | Some a :: l => cons a <$> deleteAddressList l
  | None :: _ => Some []
  | [] => None
  end.

Section SocketAddress.
Context `{!Resolver} (UseIPv6 : bool).
(** The memory of new objects, and of a local [sockaddr_storage]. *)
Variables (blank : InternetAddress) (blank_unix : UnixAddress) (blank_buffer : list Z).

Definition createSocketAddress_family (family : Z) : option SocketAddress :=
  if (family =? AF_INET) || (family =? AF_INET6)
  then Some (Internet (InternetAddress_default blank))
  else if family =? AF_UNIX then Some (Unix (unix_reset blank_unix))
  else None.
Definition create_from_name (flags : Z) (name : TdString) : option SocketAddress :=
  let internetAddress := if has_flag flags PF_HidePort
                         then InternetAddress_host UseIPv6 name 0 blank
                         else InternetAddress_string UseIPv6 name blank in
  if isValid internetAddress then Some (Internet internetAddress)
  else
    let unixAddress := unix_init name blank_unix in
    if unix_isValid unixAddress then Some (Unix unixAddress) else None.
Definition create_from_host (flags : Z) (name : TdString) (port : Z) : option SocketAddress :=
  let internetAddress := InternetAddress_host UseIPv6 name port blank in
  if isValid internetAddress then Some (Internet internetAddress) else None.
Definition create_from_sockaddr (flags : Z) (address : list Z) (length : Z) : option SocketAddress :=
  let sa_family := get 0 2 address in
  if (sa_family =? AF_INET) || (sa_family =? AF_INET6) then
    let internetAddress := init_sockaddr address length blank in
    if isValid internetAddress then Some (Internet internetAddress) else None
  else if sa_family =? AF_UNIX then
    let unixAddress := (unix_setSystemAddress address length blank_unix).2 in
    if unix_isValid unixAddress then Some (Unix unixAddress) else None
  else None.

(** The virtual functions. *)
Definition address_getAddressString (a : SocketAddress) (format : Z) : string :=
  match a with
  | Internet a => getAddressString UseIPv6 a format blank_buffer
  | Unix a => unix_getAddressString a format
  end.
Definition address_getPort (a : SocketAddress) : Z :=
  match a with Internet a => getPort a | Unix a => unix_getPort a end.
Definition address_getFamily (a : SocketAddress) : Z :=
  match a with Internet a => getFamily UseIPv6 a | Unix a => unix_getFamily a end.
Definition address_getSystemAddress (a : SocketAddress) (buffer : list Z) (length type : Z)
    : Z * list Z :=
  match a with
  | Internet a => getSystemAddress UseIPv6 a buffer length type
  | Unix a => unix_getSystemAddress a buffer length type
  end.

(** Memory holds bytes. *)
Definition cells (b : list Z) : list Z := (fun x => x mod 256) <$> b.
Lemma cells_ok b : bytes_ok (cells b).
Proof. apply Forall_fmap, Forall_true. intros x. by apply Z.mod_pos_bound. Qed.
Lemma cells_id b : bytes_ok b -> cells b = b.
Proof.
  induction 1 as [|x b Hx Hb IH]; [done|]. cbn [cells fmap list_fmap] in *.
  f_equal; [by apply Z.mod_small|exact IH].
Qed.

(** The bytes written to a [sockaddr_storage]. *)
Definition storage_bytes (a : SocketAddress) (family : Z) : list Z :=
  let '(n, b) := address_getSystemAddress a blank_buffer 128 family in
  cells (take (Z.to_nat n) b).

Lemma storage_bytes_ok a family :
  (length (storage_bytes a family) <= 128)%nat /\ bytes_ok (storage_bytes a family).
Proof.
  unfold storage_bytes.
  assert (Hn : (address_getSystemAddress a blank_buffer 128 family).1 <= 128).
  { unfold address_getSystemAddress, getSystemAddress, unix_getSystemAddress.
    destruct a; repeat case_match; simpl; compute; done. }
  destruct (address_getSystemAddress _ _ _ _) as [n b]. simpl in Hn.
  split; [|apply cells_ok]. unfold cells. rewrite length_fmap, length_take. lia.
Qed.

#[local] Obligation Tactic := idtac.
Definition socket_addresses : SocketAddressI SocketAddress.
Proof.
  refine {|
    State.getAddressString := address_getAddressString;
    State.getPort := address_getPort;
    State.getFamily := address_getFamily;
    State.isIPv6 a := match a with Internet a => isIPv6 a | Unix _ => false end;
    State.getSystemAddress := storage_bytes;
    State.getSystemAddress_ok := storage_bytes_ok;
    State.createSocketAddress flags name port := create_from_host flags (Some name) port;
    State.createSocketAddress_name flags name := create_from_name flags (Some name);
    State.createSocketAddress_sockaddr b := create_from_sockaddr 0 b (Z.of_nat (length b));
    State.any_address port := Internet (InternetAddress_port port blank) |}.
  intros port Hport. apply translate16_involutive. exact Hport.
Defined.
End SocketAddress.
