(* ===== verification/Descriptors.v ===== *)
(** * File descriptors of the socket API (extsocketdescriptor.h,
    sctpsocketwrapper.cc)

    The static table that maps the descriptors of the application to SCTP
    sockets and to descriptors of the system, the calls of the kernel, the
    [errno] of the thread, and the conversion of packed addresses. *)

From S2P Require Import Prelude Memory State SocketOps SocketMaster.
Local Open Scope Z_scope.

(** ** Constants *)

Definition EPERM : Z := 1.
Definition ENXIO : Z := 6.
Definition ENOMEM : Z := 12.
Definition EBUSY : Z := 16.
Definition EMFILE : Z := 24.
Definition ENAMETOOLONG : Z := 36.
Definition ENOPROTOOPT : Z := 92.
Definition EOPNOTSUPP : Z := 95.
Definition ENOTSUP : Z := 95.
Definition EADDRNOTAVAIL : Z := 99.
Definition ENOTCONN : Z := 107.
Definition EINPROGRESS : Z := 115.
Definition EWOULDBLOCK : Z := EAGAIN.

Definition IPPROTO_SCTP : Z := 132.
Definition SOCK_STREAM : Z := 1.
Definition SOCK_DGRAM : Z := 2.
Definition SOCK_SEQPACKET : Z := 5.
Definition O_NONBLOCK : Z := 2 ^ 11.
Definition MaxSockets : nat := 1024.

(** ** Descriptors *)

Inductive DescriptorType : Set := ESDT_Invalid | ESDT_System | ESDT_SCTP.

#[export] Instance DescriptorType_eq_dec : EqDecision DescriptorType.
Proof. solve_decision. Defined.

Record sctp_initmsg : Set := {
  sinit_num_ostreams : Z;
  sinit_max_instreams : Z;
  sinit_max_attempts : Z;
  sinit_max_init_timeo : Z }.

Record linger : Set := { l_onoff : Z; l_linger : Z }.

(** [ExtSocketDescriptor].  The union overlays [SystemSocketID] with the
    first member of [SCTPSocketDesc], the integer [Domain]: one member of the
    record, with two names. *)
Record ExtSocketDescriptor : Set := {
  ed_Type : DescriptorType;
  SystemSocketID : Z;
  ed_SocketType : Z;
  SCTPSocketPtr : option nat;
  SCTPAssociationPtr : option nat;
  ed_Flags : Z;
  InitMsg : sctp_initmsg;
  Linger : linger;
  ConnectionOriented : bool }.
Definition Domain (d : ExtSocketDescriptor) : Z := SystemSocketID d.

Definition eta_Descriptor (d : ExtSocketDescriptor) : ExtSocketDescriptor :=
  {| ed_Type := ed_Type d; SystemSocketID := SystemSocketID d; ed_SocketType := ed_SocketType d;
     SCTPSocketPtr := SCTPSocketPtr d; SCTPAssociationPtr := SCTPAssociationPtr d;
     ed_Flags := ed_Flags d; InitMsg := InitMsg d; Linger := Linger d;
     ConnectionOriented := ConnectionOriented d |}.

Definition set_Type (v : DescriptorType) (d : ExtSocketDescriptor) : ExtSocketDescriptor :=
  ltac:(set_member eta_Descriptor ed_Type v d).
Definition set_SystemSocketID (v : Z) (d : ExtSocketDescriptor) : ExtSocketDescriptor :=
  ltac:(set_member eta_Descriptor SystemSocketID v d).
Definition set_SCTPSocketPtr (v : option nat) (d : ExtSocketDescriptor) : ExtSocketDescriptor :=
  ltac:(set_member eta_Descriptor SCTPSocketPtr v d).
Definition set_SCTPAssociationPtr (v : option nat) (d : ExtSocketDescriptor)
  : ExtSocketDescriptor :=
  ltac:(set_member eta_Descriptor SCTPAssociationPtr v d).
Definition set_Flags (v : Z) (d : ExtSocketDescriptor) : ExtSocketDescriptor :=
  ltac:(set_member eta_Descriptor ed_Flags v d).
Definition set_InitMsg (v : sctp_initmsg) (d : ExtSocketDescriptor) : ExtSocketDescriptor :=
  ltac:(set_member eta_Descriptor InitMsg v d).
Definition set_Linger (v : linger) (d : ExtSocketDescriptor) : ExtSocketDescriptor :=
  ltac:(set_member eta_Descriptor Linger v d).
Definition set_ConnectionOriented (v : bool) (d : ExtSocketDescriptor) : ExtSocketDescriptor :=
  ltac:(set_member eta_Descriptor ConnectionOriented v d).

(** ** Packed addresses

    A block of packed addresses is the memory at a [sockaddr*]; a copied
    address is its bytes, as many as its family has. *)

Definition sockaddr_size (family : Z) : option nat :=
  if bool_decide (family = AF_INET) then Some 16%nat
  else if bool_decide (family = AF_INET6) then Some 28%nat
  else None.

Definition sa_family (b : list Z) : Z := get 0 2 b.

(** The first [n] bytes of a memory block. *)
Definition read_bytes {S} (n : nat) (b : list Z) : M S (list Z) :=
  if bool_decide (n <= length b)%nat then ret (take n b) else stop OutOfBounds.

(** [unpack_sockaddr] *)
Fixpoint unpack_sockaddr {S} (addrs : nat) (block : list Z) : M S (list (list Z)) :=
  match addrs with
  | O => ret []
  | S addrs =>
      read_bytes 2 block ;;
      match sockaddr_size (sa_family block) with
      | Some n =>
          let* a := read_bytes n block in
          let* rest := unpack_sockaddr addrs (drop n block) in
          ret (a :: rest)
      | None => stop ProcessAbort
      end
  end.

(** [pack_sockaddr_storage]: the required size is computed first. *)
Fixpoint pack_sockaddr_storage {S} (addrs : list (list Z)) : M S (list Z) :=
  match addrs with
  | [] => ret []
  | a :: addrs =>
      match sockaddr_size (sa_family a) with
      | Some n => let* rest := pack_sockaddr_storage addrs in ret (take n a ++ rest)
      | None => stop ProcessAbort
      end
  end.

(** ** The kernel

    The system calls the wrapper makes, as functions on the world.  A call
    that fails returns a negative number and leaves its error in [k_errno]. *)

Class Kernel `{!Platform} : Type := {
  k_errno : W -> Z;
  k_getdtablesize : W -> Z;
  k_socket : Z -> Z -> Z -> W -> Z * W;
  k_open : string -> Z -> Z -> W -> Z * W;
  k_creat : string -> Z -> W -> Z * W;
  k_pipe : W -> Z * (Z * Z) * W;
  k_close : Z -> W -> Z * W;
  k_bind : Z -> list Z -> W -> Z * W;
  k_listen : Z -> Z -> W -> Z * W;
  k_accept : Z -> W -> Z * list Z * W;
  k_getsockname : Z -> W -> Z * list Z * W;
  k_getpeername : Z -> W -> Z * list Z * W;
  k_fcntl : Z -> Z -> Z -> W -> Z * W;
  k_ioctl : Z -> Z -> W -> Z * W;
  k_getsockopt : Z -> Z -> Z -> W -> Z * list Z * W;
  k_setsockopt : Z -> Z -> Z -> list Z -> W -> Z * W;
  k_shutdown : Z -> Z -> W -> Z * W;
  k_connect : Z -> list Z -> W -> Z * W;
  k_read : Z -> Z -> W -> Z * list Z * W;
  k_write : Z -> list Z -> W -> Z * W;
  k_recv : Z -> Z -> Z -> W -> Z * list Z * W;
  k_recvfrom : Z -> Z -> Z -> W -> Z * (list Z * list Z) * W;
  k_recvmsg : Z -> Z -> Z -> W -> Z * (list Z * list Z) * W;
  k_send : Z -> list Z -> Z -> W -> Z * W;
  k_sendto : Z -> list Z -> Z -> option (list Z) -> W -> Z * W;
  k_sendmsg : Z -> list Z -> Z -> option (list Z) -> option (list Z) -> W -> Z * W;
  (* [select]: the sets and the time-out come back changed *)
  k_select : Z -> gset Z * gset Z * gset Z -> option (Z * Z) -> W ->
             Z * ((gset Z * gset Z * gset Z) * option (Z * Z)) * W }.

Section Api.
Context `{!Platform}.

(** The process as the application sees it. *)
Record Api : Type := {
  sys : Sys;
  Sockets : list ExtSocketDescriptor;
  errno : Z }.
Definition set_sys (y : Sys) (s : Api) : Api :=
  {| sys := y; Sockets := Sockets s; errno := errno s |}.
Definition set_Sockets (l : list ExtSocketDescriptor) (s : Api) : Api :=
  {| sys := sys s; Sockets := l; errno := errno s |}.
Definition set_errno (e : Z) (s : Api) : Api :=
  {| sys := sys s; Sockets := Sockets s; errno := e |}.

Definition A (X : Type) : Type := M Api X.

(** An operation of the socket layer. *)
Definition lift {X} (m : P X) : A X := fun s =>
  match m (sys s) with Ret x y => Ret x (set_sys y s) | Stop f => Stop f end.

(** [getErrnoResult] and [errno_return] *)
Definition getErrnoResult (result : Z) : A Z :=
  if bool_decide (result < 0) then modify (set_errno (- result)) ;; ret (-1)
  else ret result.

Context `{!Kernel}.

(** A system call: [errno] is set when it fails. *)
Definition syscall_with {X} (f : W -> Z * X * W) : A (Z * X) := fun s =>
  let '(r, x, w) := f (world (sys s)) in
  let s := set_sys (set_world w (sys s)) s in
  Ret (r, x) (if bool_decide (r < 0) then set_errno (k_errno w) s else s).
Definition syscall (f : W -> Z * W) : A Z :=
  let* '(r, _) := syscall_with (fun w => let '(r, w) := f w in (r, tt, w)) in ret r.

(** ** The table: [ExtSocketDescriptorMaster] *)

(** [getSocket]: the index of the descriptor instead of its address. *)
Definition getSocket (id : Z) : option nat :=
  if bool_decide (id < Z.of_nat MaxSockets) && bool_decide (0 <= id)
  then Some (Z.to_nat id) else None.

Definition desc (i : nat) : A ExtSocketDescriptor := fun s =>
  match Sockets s !! i with Some d => Ret d s | None => Stop OutOfBounds end.
Definition upd_desc (i : nat) (f : ExtSocketDescriptor -> ExtSocketDescriptor) : A unit :=
  let* d := desc i in modify (fun s => set_Sockets (<[i := f d]> (Sockets s)) s).

(** The loop of [setSocket] from index [n - 1] down. *)
Fixpoint find_invalid (n : nat) : A (option nat) :=
  match n with
  | O => ret None
  | S i =>
      let* d := desc i in
      if bool_decide (ed_Type d = ESDT_Invalid) then ret (Some i) else find_invalid i
  end.

(** [setSocket] *)
Definition setSocket (newSocket : ExtSocketDescriptor) : A Z :=
  lift lock ;;
  let* size := gets (fun s => k_getdtablesize (world (sys s))) in
  let* free := find_invalid (Z.to_nat (Z.min (Z.of_nat MaxSockets) size)) in
  match free with
  | Some i =>
      upd_desc i (fun _ => newSocket) ;;
      lift unlock ;;
      ret (Z.of_nat i)
  | None => lift unlock ;; ret (- EMFILE)
  end.

(** The constructor of [ExtSocketDescriptorMaster], for the memory the
    static table starts with. *)
Definition initial_table (memory : list ExtSocketDescriptor) : list ExtSocketDescriptor :=
  imap (fun i d =>
    if bool_decide (i < 3)%nat
    then set_SystemSocketID (Z.of_nat i) (set_Type ESDT_System d)
    else set_Type ESDT_Invalid d) memory.

(** The object most operations go to: the association of a connected
    descriptor, otherwise the socket. *)
Inductive Target : Set := ToAssociation (a : nat) | ToSocket (p : nat) | ToNothing.
Definition target (d : ExtSocketDescriptor) : Target :=
  match SCTPAssociationPtr d, ConnectionOriented d, SCTPSocketPtr d with
  | Some a, true, _ => ToAssociation a
  | _, _, Some p => ToSocket p
  | _, _, None => ToNothing
  end.

(** The dispatch on the type of the descriptor at the beginning of a call:
    [-EBADF] for a number outside of the table, [-ENXIO] for an unused
    descriptor.  [error] returns the error of a call. *)
Definition on_descriptor {R} (error : Z -> A R) (sockfd : Z)
    (sctp system : nat -> ExtSocketDescriptor -> A R) : A R :=
  match getSocket sockfd with
  | Some i =>
      let* d := desc i in
      match ed_Type d with
      | ESDT_SCTP => sctp i d
      | ESDT_System => system i d
      | ESDT_Invalid => error (- ENXIO)
      end
  | None => error (- EBADF)
  end.
Definition with_descriptor := on_descriptor getErrnoResult.

(** [errno_return] in a call that has an output besides its result. *)
Definition return_with {X} (x : X) (result : Z) : A (Z * X) :=
  let* r := getErrnoResult result in ret (r, x).
End Api.
