(* ===== verification/WrapperSockets.v ===== *)
(** * The socket API: creating, binding, connecting and closing
    (sctpsocketwrapper.cc)

    One definition per function of the API.  An output parameter is a part of
    the result; a parameter [sched] is what other threads do while the call
    waits, see [Socket]. *)

From S2P Require Import Prelude MultiMap Memory Notification State Association Socket SocketIO.
From S2P Require Import SocketOps SocketLife SocketAssoc SocketMaster Descriptors.
Local Open Scope Z_scope.

Section WrapperSockets.
Context `{!Platform} `{!Kernel}.
Variable deliver : list Callback -> P unit.

(** Memory that is not initialised: a new [SCTPSocket], the local variable
    [ExtSocketDescriptor tdSocket], a local [sockaddr_storage]. *)
Variable memory : SCTPSocket.
Variable blank : ExtSocketDescriptor.
Variable stack : list Z.

(** [sctp_isavailable] *)
Definition sctp_isavailable : A bool :=
  let* r := lift (gets InitializationResult) in ret (bool_decide (r = 0)).

Definition system_descriptor (id : Z) : ExtSocketDescriptor :=
  set_SystemSocketID id (set_Type ESDT_System blank).

Definition default_initmsg : sctp_initmsg :=
  {| sinit_num_ostreams := 10; sinit_max_instreams := 10; sinit_max_attempts := 8;
     sinit_max_init_timeo := 60000 |}.

Definition sctp_descriptor (domain type : Z) (connectionOriented : bool) (p : nat)
  : ExtSocketDescriptor :=
  {| ed_Type := ESDT_SCTP; SystemSocketID := domain; ed_SocketType := type;
     SCTPSocketPtr := Some p; SCTPAssociationPtr := None; ed_Flags := 0;
     InitMsg := default_initmsg; Linger := {| l_onoff := 1; l_linger := 10 |};
     ConnectionOriented := connectionOriented |}.

(** The two cases of the socket type: [ConnectionOriented] and the flags. *)
Definition socket_kind (type : Z) : option (bool * Z) :=
  if bool_decide (type = SOCK_STREAM) then Some (true, 0)
  else if bool_decide (type = SOCK_DGRAM) || bool_decide (type = SOCK_SEQPACKET)
  then Some (false, set_flag SSF_GlobalQueue SSF_AutoConnect)
  else None.

(** [ext_socket] *)
Definition ext_socket (domain type protocol : Z) : A Z :=
  if bool_decide (protocol = IPPROTO_SCTP) then
    let* available := sctp_isavailable in
    if negb available then getErrnoResult (- ENOPROTOOPT)
    else
      match socket_kind type with
      | None => getErrnoResult (- EINVAL)
      | Some (connectionOriented, flags) =>
          let* p := lift (new_SCTPSocket memory domain flags) in
          when (negb connectionOriented)
            (lift (sock_setNotificationFlags p SCTP_RECVDATAIOEVNT)) ;;
          let* result := setSocket (sctp_descriptor domain type connectionOriented p) in
          when (bool_decide (result < 0)) (lift (delete_SCTPSocket deliver p)) ;;
          getErrnoResult result
      end
  else
    let* id := syscall (k_socket domain type protocol) in
    if bool_decide (0 <= id) then
      let* result := setSocket (system_descriptor id) in getErrnoResult result
    else getErrnoResult id.

(** [ext_open], [ext_creat] *)
Definition enter_system (id : Z) : A Z :=
  if bool_decide (0 <= id) then
    let* result := setSocket (system_descriptor id) in
    when (bool_decide (result < 0)) (syscall (k_close id) ;; ret tt) ;;
    getErrnoResult result
  else getErrnoResult id.
Definition ext_open (pathname : string) (flags mode : Z) : A Z :=
  let* id := syscall (k_open pathname flags mode) in enter_system id.
Definition ext_creat (pathname : string) (mode : Z) : A Z :=
  let* id := syscall (k_creat pathname mode) in enter_system id.

(** [mayRemoveSocket]: no other descriptor refers to the socket. *)
Definition refers_to (p : nat) (d : ExtSocketDescriptor) : bool :=
  bool_decide (ed_Type d = ESDT_SCTP) && bool_decide (SCTPSocketPtr d = Some p).
Definition mayRemoveSocket (table : list ExtSocketDescriptor) (i p : nat) : bool :=
  negb (existsb (fun j =>
    match getSocket (Z.of_nat j) with
    | Some k => negb (bool_decide (k = i))
                && match table !! k with Some d => refers_to p d | None => false end
    | None => false
    end) (seq 1 MaxSockets)).

(** The two objects an SCTP descriptor may own. *)
Definition close_association (i : nat) (d : ExtSocketDescriptor) : A unit :=
  match SCTPAssociationPtr d with
  | Some a =>
      when (bool_decide (l_onoff (Linger d) = 1))
        (if bool_decide (0 < l_linger (Linger d)) then lift (assoc_shutdown deliver a)
         else lift (assoc_abort deliver a)) ;;
      lift (delete_SCTPAssociation deliver a) ;;
      upd_desc i (set_SCTPAssociationPtr None)
  | None => ret tt
  end.
Definition close_socket (i : nat) (d : ExtSocketDescriptor) : A unit :=
  match SCTPSocketPtr d with
  | Some p =>
      let* table := gets Sockets in
      when (mayRemoveSocket table i p)
        (when (bool_decide (l_onoff (Linger d) = 1))
           (lift (unbind deliver p (negb (bool_decide (0 < l_linger (Linger d)))))) ;;
         lift (delete_SCTPSocket deliver p)) ;;
      upd_desc i (set_SCTPSocketPtr None)
  | None => ret tt
  end.

(** [ext_close] *)
Definition ext_close (sockfd : Z) : A Z :=
  match getSocket sockfd with
  | None => getErrnoResult (- EBADF)
  | Some i =>
      lift lock ;;
      let* d := desc i in
      match ed_Type d with
      | ESDT_Invalid => lift unlock ;; getErrnoResult (- ENXIO)
      | ESDT_SCTP =>
          close_association i d ;;
          close_socket i d ;;
          upd_desc i (set_Type ESDT_Invalid) ;;
          lift unlock ;;
          getErrnoResult 0
      | ESDT_System =>
          syscall (k_close (SystemSocketID d)) ;;
          upd_desc i (set_SystemSocketID 0) ;;
          upd_desc i (set_Type ESDT_Invalid) ;;
          lift unlock ;;
          getErrnoResult 0
      end
  end.

(** [ext_pipe]: the result and the two descriptors. *)
Definition ext_pipe (fds : Z * Z) : A (Z * (Z * Z)) :=
  let* '(r, (id0, id1)) := syscall_with k_pipe in
  if bool_decide (r = 0) then
    let* fd0 := setSocket (system_descriptor id0) in
    if bool_decide (fd0 < 0) then
      syscall (k_close id0) ;; syscall (k_close id1) ;;
      return_with (fd0, fds.2) fd0
    else
      let* fd1 := setSocket (system_descriptor id1) in
      if bool_decide (fd1 < 0) then
        ext_close fd0 ;; syscall (k_close id1) ;;
        return_with (fd0, fd1) fd1
      else return_with (fd0, fd1) 0
  else ret (-1, fds).

(** ** Binding *)

(** The loop of [bindToAny], with [RANDOM_PORTSELECTION]. *)
Fixpoint try_any_ports (tries : nat) (p : nat) (init : sctp_initmsg) (result : Z) : A Z :=
  match tries with
  | O => ret result
  | S tries =>
      lift lock ;;
      let* r := lift random32 in
      lift unlock ;;
      let address := any_address (random_port r) in
      let* result := lift (sock_bind deliver p (getPort address) (sinit_max_instreams init)
                             (sinit_num_ostreams init) [address]) in
      if bool_decide (0 <= result) then ret result
      else try_any_ports tries p init result
  end.

(** [bindToAny] *)
Definition bindToAny (i : nat) : A Z :=
  let* d := desc i in
  match ed_Type d, SCTPSocketPtr d with
  | ESDT_SCTP, Some p =>
      let* id := lift (sock_getID p) in
      if bool_decide (id <= 0) then
        let* result := try_any_ports (Z.to_nat bind_tries) p (InitMsg d) 0 in
        getErrnoResult result
      else getErrnoResult 0
  | _, _ => getErrnoResult 0
  end.

(** [createSocketAddress] for every copied address. *)
Definition create_all (addrs : list (list Z)) : option (list Addr) :=
  mapM createSocketAddress_sockaddr addrs.

(** A loop that stops at the first address that is refused. *)
Fixpoint for_addresses (op : Addr -> P bool) (l : list Addr) : A Z :=
  match l with
  | [] => ret 0
  | address :: l =>
      let* ok := lift (op address) in
      if negb ok then ret (- EINVAL) else for_addresses op l
  end.

(** [SCTPAssociation::addAddress], [deleteAddress] *)
Definition assoc_addAddress (a : nat) (address : Addr) : P bool :=
  let* o := assoc a in addAddress (a_Socket o) (a_AssociationID o) address.
Definition assoc_deleteAddress (a : nat) (address : Addr) : P bool :=
  let* o := assoc a in deleteAddress (a_Socket o) (a_AssociationID o) address.

Definition SCTP_BINDX_ADD_ADDR : Z := 1.
Definition SCTP_BINDX_REM_ADDR : Z := 2.

(** The part of [sctp_bindx] that has the addresses as objects. *)
Definition bindx_addresses (d : ExtSocketDescriptor) (port flags : Z) (socket : nat)
    (addresses : list Addr) : A Z :=
  let* id := lift (sock_getID socket) in
  if bool_decide (id <= 0) then
    if bool_decide (flags = SCTP_BINDX_ADD_ADDR) then
      lift (sock_bind deliver socket port (sinit_max_instreams (InitMsg d))
              (sinit_num_ostreams (InitMsg d)) addresses)
    else ret (- EINVAL)
  else if bool_decide (flags = SCTP_BINDX_ADD_ADDR) then
    for_addresses (match SCTPAssociationPtr d with
                   | Some a => assoc_addAddress a
                   | None => addAddress socket 0
                   end) addresses
  else if bool_decide (flags = SCTP_BINDX_REM_ADDR) then
    for_addresses (match SCTPAssociationPtr d with
                   | Some a => assoc_deleteAddress a
                   | None => deleteAddress socket 0
                   end) addresses
  else ret (- EINVAL).

(** [sctp_bindx]; the array of a negative size is undefined behaviour. *)
Definition sctp_bindx (sockfd : Z) (packedAddrs : list Z) (addrcnt flags : Z) : A Z :=
  if bool_decide (addrcnt < 0) then stop OutOfBounds
  else
    let* addrs := unpack_sockaddr (Z.to_nat addrcnt) packedAddrs in
    with_descriptor sockfd
      (fun _ d =>
         if bool_decide (addrcnt < 1) || bool_decide (SCTP_MAX_NUM_ADDRESSES < addrcnt)
         then getErrnoResult (- EINVAL)
         else
           match SCTPSocketPtr d with
           | None => getErrnoResult (- EBADF)
           | Some p =>
               match create_all addrs with
               | Some (first :: rest) =>
                   let* result := bindx_addresses d (getPort first) flags p (first :: rest) in
                   getErrnoResult result
               | _ => getErrnoResult (- ENOMEM)
               end
           end)
      (fun _ d =>
         let first := default [] (head addrs) in
         syscall (k_bind (SystemSocketID d) (first ++ drop (length first) stack))).

(** [ext_bind] *)
Definition ext_bind (sockfd : Z) (my_addr : list Z) (addrlen : Z) : A Z :=
  with_descriptor sockfd
    (fun _ _ => sctp_bindx sockfd my_addr 1 SCTP_BINDX_ADD_ADDR)
    (fun _ d => syscall (k_bind (SystemSocketID d) (take (Z.to_nat addrlen) my_addr))).

(** [ext_listen] *)
Definition ext_listen (sockfd backlog : Z) : A Z :=
  with_descriptor sockfd
    (fun i d =>
       bindToAny i ;;
       match SCTPSocketPtr d with
       | Some p => lift (listen p backlog) ;; getErrnoResult 0
       | None => getErrnoResult (- EOPNOTSUPP)
       end)
    (fun _ d => syscall (k_listen (SystemSocketID d) backlog)).

(** ** Accepting and peeling off *)

(** [getSystemAddress] with the size of the caller's buffer. *)
Definition system_address (address : Addr) (size : Z) (family : Z) : list Z :=
  let b := getSystemAddress address family in
  if bool_decide (Z.of_nat (length b) <= size) then b else [].

Definition nonblocking (d : ExtSocketDescriptor) : bool := has_flag (ed_Flags d) O_NONBLOCK.

(** The descriptor of an accepted or peeled off association. *)
Definition association_descriptor (d : ExtSocketDescriptor) (a : nat) : ExtSocketDescriptor :=
  set_SCTPAssociationPtr (Some a) (set_ConnectionOriented true d).

(** [ext_accept]: the result and the bytes stored at [addr]; [addr] is the
    size of the buffer, if there is one. *)
Definition ext_accept (sockfd : Z) (addr : option Z) (sched : schedule) : A (Z * list Z) :=
  on_descriptor (return_with []) sockfd
    (fun i _ =>
       let* d := desc i in
       match SCTPSocketPtr d with
       | None => return_with [] (- EOPNOTSUPP)
       | Some p =>
           let* '(association, remote) := lift (accept p true (negb (nonblocking d)) sched) in
           match association with
           | None => return_with [] (- EWOULDBLOCK)
           | Some a =>
               let bytes :=
                 match remote, addr with
                 | Some (first :: _), Some size => system_address first size (Domain d)
                 | _, _ => []
                 end in
               let* newFD := setSocket (association_descriptor d a) in
               (if bool_decide (newFD < 0) then
                  lift (delete_SCTPAssociation deliver a) ;;
                  stop NullDereference
                else lift (assoc_setNotificationFlags a SCTP_RECVDATAIOEVNT)) ;;
               return_with bytes newFD
           end
       end)
    (fun _ d =>
       let* '(id, bytes) := syscall_with (k_accept (SystemSocketID d)) in
       if bool_decide (0 <= id) then
         let* result := setSocket (set_SystemSocketID id d) in
         when (bool_decide (result < 0)) (syscall (k_close id) ;; ret tt) ;;
         return_with bytes result
       else return_with bytes id).

(** [sctp_peeloff]: a number outside of the table does not set [errno]. *)
Definition sctp_peeloff (sockfd id : Z) : A Z :=
  match getSocket sockfd with
  | None => ret (- EBADF)
  | Some i =>
      let* d := desc i in
      match ed_Type d with
      | ESDT_SCTP =>
          let* association :=
            match SCTPSocketPtr d with
            | Some p => if bool_decide (ed_SocketType d <> SOCK_STREAM)
                        then lift (peelOff p id) else ret None
            | None => ret None
            end in
          match association with
          | Some a =>
              let* newFD := setSocket (association_descriptor d a) in
              when (bool_decide (newFD < 0)) (lift (delete_SCTPAssociation deliver a)) ;;
              getErrnoResult newFD
          | None => getErrnoResult (- EINVAL)
          end
      | _ => getErrnoResult (- EOPNOTSUPP)
      end
  end.

(** ** Names *)

(** The loop that takes the first address that fits. *)
Fixpoint first_fitting (l : list Addr) (size family : Z) : option (list Z) :=
  match l with
  | [] => None
  | address :: l =>
      match system_address address size family with
      | [] => first_fitting l size family
      | b => Some b
      end
  end.

(** The end of [ext_getsockname] and [ext_getpeername]: [name] is the size of
    the caller's buffer, if there is one. *)
Definition return_name (addresses : option (list Addr)) (name : option Z) (family result : Z)
  : A (Z * list Z) :=
  match addresses, name with
  | Some (first :: rest), Some size =>
      match first_fitting (first :: rest) size family with
      | Some b => return_with b 0
      | None => return_with [] (- ENAMETOOLONG)
      end
  | _, _ => return_with [] result
  end.

Definition assoc_getLocalAddresses (a : nat) : P (bool * option (list Addr)) :=
  let* o := assoc a in getLocalAddresses (a_Socket o).

(** [ext_getsockname], [ext_getpeername] *)
Definition ext_getsockname (sockfd : Z) (name : option Z) : A (Z * list Z) :=
  on_descriptor (return_with []) sockfd
    (fun _ d =>
       match target d with
       | ToAssociation a => let* '(_, l) := lift (assoc_getLocalAddresses a) in
                            return_name l name (Domain d) (- ENXIO)
       | ToSocket p => let* '(_, l) := lift (getLocalAddresses p) in
                       return_name l name (Domain d) (- ENXIO)
       | ToNothing => return_name None name (Domain d) (- EBADF)
       end)
    (fun _ d => syscall_with (k_getsockname (SystemSocketID d))).

Definition ext_getpeername (sockfd : Z) (name : option Z) : A (Z * list Z) :=
  on_descriptor (return_with []) sockfd
    (fun _ d =>
       match SCTPAssociationPtr d with
       | Some a => let* '(_, l) := lift (assoc_getRemoteAddresses a) in
                   return_name l name (Domain d) (- ENXIO)
       | None => return_name None name (Domain d) (- EBADF)
       end)
    (fun _ d => syscall_with (k_getpeername (SystemSocketID d))).

(** ** Control *)

Definition F_GETFL : Z := 3.
Definition F_SETFL : Z := 4.

(** [ext_fcntl], [ext_ioctl], [ext_shutdown]; [Flags] is an [int] *)
Definition ext_fcntl (sockfd cmd arg : Z) : A Z :=
  with_descriptor sockfd
    (fun i d =>
       if bool_decide (cmd = F_GETFL) then getErrnoResult (ed_Flags d)
       else if bool_decide (cmd = F_SETFL) then
         upd_desc i (set_Flags (s32 arg)) ;; getErrnoResult 0
       else getErrnoResult (- EOPNOTSUPP))
    (fun _ d => syscall (k_fcntl (SystemSocketID d) cmd arg)).

Definition ext_ioctl (sockfd request : Z) : A Z :=
  with_descriptor sockfd
    (fun _ _ => getErrnoResult (- EOPNOTSUPP))
    (fun _ d => syscall (k_ioctl (SystemSocketID d) request)).

Definition ext_shutdown (sockfd how : Z) : A Z :=
  with_descriptor sockfd
    (fun _ d =>
       match SCTPAssociationPtr d with
       | Some a => lift (assoc_shutdown deliver a) ;; getErrnoResult 0
       | None => getErrnoResult (- EOPNOTSUPP)
       end)
    (fun _ d => syscall (k_shutdown (SystemSocketID d) how)).

(** ** Connecting *)

(** The connection of a one-to-one socket. *)
Definition connect_association (i : nat) (d : ExtSocketDescriptor) (p : nat)
    (addresses : list Addr) (sched : schedule) : A (Z * Z) :=
  let init := InitMsg d in
  let* association := lift (associate deliver p (sinit_num_ostreams init)
                              (sinit_max_attempts init) (sinit_max_init_timeo init)
                              addresses (negb (nonblocking d)) sched) in
  upd_desc i (set_SCTPAssociationPtr association) ;;
  match association with
  | None => return_with 0 (- EIO)
  | Some a =>
      if nonblocking d then return_with 0 (- EINPROGRESS)
      else let* id := lift (assoc_getID a) in return_with id 0
  end.

(** The connection of a one-to-many socket: an empty message. *)
Definition connect_implicitly (d : ExtSocketDescriptor) (p : nat) (addresses : list Addr)
    (sched : schedule) : A (Z * Z) :=
  let init := InitMsg d in
  let* '(result, id) := lift (sock_sendTo deliver p None
                          (if nonblocking d then MSG_DONTWAIT else 0) 0 0 0
                          SCTP_INFINITE_LIFETIME (sinit_max_attempts init)
                          (sinit_max_init_timeo init) true (Some addresses)
                          (sinit_num_ostreams init) sched []) in
  if bool_decide (0 < result) then return_with id result
  else if bool_decide (result = 0) && nonblocking d then return_with id (- EINPROGRESS)
  else return_with id result.

(** [ext_connectx]: the result and the association ID. *)
Definition ext_connectx (sockfd : Z) (packedAddrs : list Z) (addrcnt id : Z)
    (sched : schedule) : A (Z * Z) :=
  if bool_decide (addrcnt < 0) then stop OutOfBounds
  else
    let* addrs := unpack_sockaddr (Z.to_nat addrcnt) packedAddrs in
    on_descriptor (return_with id) sockfd
      (fun i _ =>
         bindToAny i ;;
         let* d := desc i in
         match SCTPSocketPtr d with
         | None => return_with 0 (- EBADF)
         | Some p =>
             match create_all addrs with
             | None => return_with 0 (- EINVAL)
             | Some addresses =>
                 if ConnectionOriented d then connect_association i d p addresses sched
                 else connect_implicitly d p addresses sched
             end
         end)
      (fun _ _ => return_with id (- EOPNOTSUPP)).

(** [ext_connect]: a descriptor that is not one of SCTP is handed to the
    kernel, an unused one included. *)
Definition ext_connect (sockfd : Z) (serv_addr : list Z) (addrlen : Z) (sched : schedule) : A Z :=
  match getSocket sockfd with
  | None => getErrnoResult (- EBADF)
  | Some i =>
      let* d := desc i in
      if bool_decide (ed_Type d = ESDT_SCTP) then
        let* b := read_bytes (Z.to_nat (Z.min 128 addrlen)) serv_addr in
        let* '(r, _) := ext_connectx sockfd (b ++ drop (length b) stack) 1 0 sched in
        ret r
      else syscall (k_connect (SystemSocketID d) (take (Z.to_nat addrlen) serv_addr))
  end.

(** ** Lists of addresses *)

(** An address in the IPv4 form, if it has one. *)
Definition storage_address (address : Addr) : option (list Z) :=
  let family := getFamily address in
  let family := if bool_decide (family = AF_INET6)
                   && negb (bool_decide (getSystemAddress address AF_INET = []))
                then AF_INET else family in
  match getSystemAddress address family with [] => None | b => Some b end.

(** The end of [sctp_getlpaddrs]: the result and the packed block. *)
Definition return_addresses (addresses : option (list Addr)) (result : Z) : A (Z * list Z) :=
  match addresses with
  | Some (first :: rest) =>
      match mapM storage_address (first :: rest) with
      | Some addrs => let* block := pack_sockaddr_storage addrs in
                      return_with block (Z.of_nat (length addrs))
      | None => return_with [] (- ENAMETOOLONG)
      end
  | _ => return_with [] result
  end.

(** [sctp_getlpaddrs] *)
Definition sctp_getlpaddrs (sockfd id : Z) (peerAddresses : bool) : A (Z * list Z) :=
  on_descriptor (return_with []) sockfd
    (fun _ d =>
       match SCTPAssociationPtr d, SCTPSocketPtr d with
       | Some a, _ =>
           if peerAddresses then
             let* aid := lift (assoc_getID a) in
             if bool_decide (id <> 0) && bool_decide (aid <> id)
             then return_addresses None (- EINVAL)
             else let* '(_, l) := lift (assoc_getRemoteAddresses a) in
                  return_addresses l (- ENXIO)
           else let* '(_, l) := lift (assoc_getLocalAddresses a) in
                return_addresses l (- ENXIO)
       | None, Some p =>
           let* '(_, l) := lift (if peerAddresses then sock_getRemoteAddresses p id
                                 else getLocalAddresses p) in
           return_addresses l (- ENXIO)
       | None, None => return_addresses None (- EBADF)
       end)
    (fun _ _ => return_with [] (- EOPNOTSUPP)).
Definition sctp_getpaddrs (sockfd id : Z) : A (Z * list Z) := sctp_getlpaddrs sockfd id true.
Definition sctp_getladdrs (sockfd id : Z) : A (Z * list Z) := sctp_getlpaddrs sockfd id false.
End WrapperSockets.
