(* ===== verification/WrapperIO.v ===== *)
(** * The socket API: messages (sctpsocketwrapper.cc, tdmessage.icc)

    [ext_sendmsg], [ext_recvmsg] and the calls built on them: the control
    messages that carry [sctp_sndrcvinfo], scattered and gathered buffers. *)

From S2P Require Import Prelude MultiMap Memory Notification State Association Socket SocketIO.
From S2P Require Import SocketOps SocketLife SocketAssoc SocketMaster Descriptors WrapperSockets.
Local Open Scope Z_scope.

Definition MSG_MULTIADDRS : Z := 2 ^ 5.
Definition MSG_PR_SCTP_TTL : Z := 2 ^ 13.
Definition SCTP_INIT : Z := 1.
Definition SCTP_SNDRCV : Z := 2.

(** ** Control messages

    The layout of [struct cmsghdr] and the macros [CMSG_*] of the system, on
    the bytes of the control block. *)

Definition sizeof_cmsghdr : Z := 16.
Definition CMSG_ALIGN (n : Z) : Z := (n + 7) / 8 * 8.
(** [CSpace], [CLength] *)
Definition CSpace (payloadLength : Z) : Z := CMSG_ALIGN sizeof_cmsghdr + CMSG_ALIGN payloadLength.
Definition CLength (payloadLength : Z) : Z := CMSG_ALIGN sizeof_cmsghdr + payloadLength.

Definition cmsg_len : field := Fld 0 8.
Definition cmsg_level : field := Fld 8 4.
Definition cmsg_type : field := Fld 12 4.

(** [CFirstHeader], [CNextHeader], [CData]: headers are offsets. *)
Definition CFirstHeader (control : option (list Z)) (controllen : Z) : option nat :=
  match control with
  | Some _ => if bool_decide (sizeof_cmsghdr <= controllen) then Some 0%nat else None
  | None => None
  end.
Definition CNextHeader (control : list Z) (controllen : Z) (cmsg : nat) : option nat :=
  let len := rd cmsg_len (drop cmsg control) in
  if bool_decide (len < sizeof_cmsghdr) then None
  else
    let next := Z.of_nat cmsg + CMSG_ALIGN len in
    if bool_decide (controllen < next + sizeof_cmsghdr) then None
    else
      let len := rd cmsg_len (drop (Z.to_nat next) control) in
      if bool_decide (controllen < next + CMSG_ALIGN len) then None else Some (Z.to_nat next).
Definition CData (control : list Z) (cmsg : nat) : list Z := drop (cmsg + 16) control.

(** [sctp_sndrcvinfo] *)
Definition sizeof_sctp_sndrcvinfo : Z := 32.
Record sctp_sndrcvinfo : Set := {
  sinfo_stream : Z; sinfo_ssn : Z; sinfo_flags : Z; sinfo_ppid : Z; sinfo_context : Z;
  sinfo_timetolive : Z; sinfo_tsn : Z; sinfo_cumtsn : Z; sinfo_assoc_id : Z }.

Definition write_sndrcvinfo (i : sctp_sndrcvinfo) : list Z :=
  le_split 2 (sinfo_stream i) ++ le_split 2 (sinfo_ssn i) ++ le_split 4 (sinfo_flags i) ++
  le_split 4 (sinfo_ppid i) ++ le_split 4 (sinfo_context i) ++ le_split 4 (sinfo_timetolive i) ++
  le_split 4 (sinfo_tsn i) ++ le_split 4 (sinfo_cumtsn i) ++ le_split 4 (sinfo_assoc_id i).
Definition read_sndrcvinfo (b : list Z) : sctp_sndrcvinfo :=
  {| sinfo_stream := get 0 2 b; sinfo_ssn := get 2 2 b; sinfo_flags := get 4 4 b;
     sinfo_ppid := get 8 4 b; sinfo_context := get 12 4 b; sinfo_timetolive := get 16 4 b;
     sinfo_tsn := get 20 4 b; sinfo_cumtsn := get 24 4 b; sinfo_assoc_id := get 28 4 b |}.

(** [sctp_initmsg] *)
Definition read_initmsg (b : list Z) : sctp_initmsg :=
  {| sinit_num_ostreams := get 0 2 b; sinit_max_instreams := get 2 2 b;
     sinit_max_attempts := get 4 2 b; sinit_max_init_timeo := get 6 2 b |}.

(** One control message: its header and its payload. *)
Definition control_message (len level type : Z) (payload : list Z) : list Z :=
  le_split 8 len ++ le_split 4 level ++ le_split 4 type ++ payload.

(** [struct msghdr] without the vector of buffers, which is passed along. *)
Record MsgHdr : Type := {
  msg_name : option (list Z);
  msg_namelen : Z;
  msg_control : option (list Z);
  msg_controllen : Z;
  msg_flags : Z }.

Section WrapperIO.
Context `{!Platform} `{!Kernel}.
Variable deliver : list Callback -> P unit.

(** ** Receiving *)

(** The loop around [receive] and [receiveFrom]: [-EAGAIN] is not returned to
    a caller that waits.  [rounds] are the schedules of the calls; the flags
    are a reference parameter and keep what a call has made of them. *)
Fixpoint receive_until (receive : RecvArgs -> schedule -> P (Z * RecvArgs)) (oldSize : Z)
    (r : RecvArgs) (rounds : list schedule) : P (Z * RecvArgs) :=
  match rounds with
  | [] => stop OutOfFuel
  | sched :: rounds =>
      let* '(result, r) := receive (set_ra_buffer (ra_buffer r) oldSize r) sched in
      if bool_decide (result = - EAGAIN) && negb (has_flag (ra_flags r) MSG_DONTWAIT)
      then receive_until receive oldSize r rounds
      else ret (result, r)
  end.

(** The flags a receive call starts with. *)
Definition receive_flags (d : ExtSocketDescriptor) (msgflags flags : Z)
    (receiveNotifications : bool) : Z :=
  let f := Z.lor msgflags flags in
  let f := if receiveNotifications then set_flag f MSG_NOTIFICATION
           else clear_flag f MSG_NOTIFICATION in
  if nonblocking d then set_flag f MSG_DONTWAIT else f.

(** What the SCTP case of [ext_recvmsg_singlebuffer] leaves: the result, the
    arguments, the notification flags and the association ID. *)
Definition receive_target (d : ExtSocketDescriptor) (size flags : Z) (rounds : list schedule)
  : P (Z * RecvArgs * Z * Z) :=
  let r := {| ra_buffer := []; ra_bufferSize := size; ra_flags := flags; ra_assocID := 0;
              ra_streamID := 0; ra_protoID := 0; ra_ssn := 0; ra_tsn := 0;
              ra_address := None |} in
  match target d with
  | ToAssociation a =>
      let* '(result, r) := receive_until (assoc_receiveFrom a false) size r rounds in
      let* notificationFlags := assoc_getNotificationFlags a in
      let* assocID := assoc_getID a in
      ret (result, r, notificationFlags, assocID)
  | ToSocket p =>
      let* '(result, r) := receive_until (receiveFrom p true) size r rounds in
      let* notificationFlags := sock_getNotificationFlags p in
      ret (result, r, notificationFlags, ra_assocID r)
  | ToNothing => ret (- EBADF, r, 0, 0)
  end.

Definition received_info (flags assocID : Z) (r : RecvArgs) : sctp_sndrcvinfo :=
  {| sinfo_stream := ra_streamID r; sinfo_ssn := ra_ssn r; sinfo_flags := flags;
     sinfo_ppid := ra_protoID r; sinfo_context := 0; sinfo_timetolive := 0;
     sinfo_tsn := ra_tsn r; sinfo_cumtsn := 0; sinfo_assoc_id := assocID |}.

(** The control block after a receive call: [cmsg_len] is set to the space of
    the message. *)
Definition fill_control (notificationFlags flags assocID : Z) (r : RecvArgs)
    (control : option (list Z)) (controllen : Z) : option (list Z) * Z :=
  let space := CSpace sizeof_sctp_sndrcvinfo in
  match control with
  | Some b =>
      if has_flag notificationFlags SCTP_RECVDATAIOEVNT && bool_decide (space <= controllen) then
        (Some (put_bytes 0 (control_message space IPPROTO_SCTP SCTP_SNDRCV
                 (write_sndrcvinfo (received_info flags assocID r))) b), space)
      else (None, 0)
  | None => (None, 0)
  end.

(** What a receive call returns: the bytes put into the buffer, the new
    length of the buffer, and the header. *)
Record Received_message : Type := {
  rm_data : list Z;
  rm_iov_len : Z;
  rm_header : MsgHdr }.

Definition failed_header (m : MsgHdr) (flags : Z) : MsgHdr :=
  {| msg_name := None; msg_namelen := 0; msg_control := None; msg_controllen := 0;
     msg_flags := flags |}.

(** [ext_recvmsg_singlebuffer] for a buffer of the given length. *)
Definition ext_recvmsg_singlebuffer (sockfd iov_len : Z) (m : MsgHdr) (flags : Z)
    (receiveNotifications : bool) (rounds : list schedule) : A (Z * Received_message) :=
  let unchanged := {| rm_data := []; rm_iov_len := iov_len; rm_header := m |} in
  on_descriptor (return_with unchanged) sockfd
    (fun _ d =>
       let* '(result, r, notificationFlags, assocID) :=
         lift (receive_target d iov_len
                 (receive_flags d (msg_flags m) flags receiveNotifications) rounds) in
       let result := if bool_decide (0 <= result) then s32 (ra_bufferSize r) else result in
       let header :=
         if bool_decide (0 <= result) then
           let name := match msg_name m, ra_address r with
                       | Some _, Some address =>
                           system_address address (msg_namelen m) (Domain d)
                       | _, _ => []
                       end in
           let '(control, controllen) :=
             fill_control notificationFlags flags assocID r (msg_control m) (msg_controllen m) in
           {| msg_name := match msg_name m with Some b => Some (put_bytes 0 name b) | None => None end;
              msg_namelen := Z.of_nat (length name); msg_control := control;
              msg_controllen := controllen; msg_flags := ra_flags r |}
         else failed_header m (ra_flags r) in
       return_with {| rm_data := ra_buffer r; rm_iov_len := ra_bufferSize r;
                      rm_header := header |} result)
    (fun _ d =>
       let* '(result, (data, name)) :=
         syscall_with (k_recvmsg (SystemSocketID d) iov_len flags) in
       ret (result, {| rm_data := data; rm_iov_len := iov_len; rm_header := m |})).

(** The loop of [ext_recvmsg2] over the buffers, given by their lengths: the
    result, the data of the buffers that were filled, and the header.  The
    comparison with [iov_len] sees the length the call has stored there. *)
Fixpoint recvmsg_loop (sockfd : Z) (iov : list Z) (m : MsgHdr) (flags : Z)
    (receiveNotifications : bool) (rounds : list schedule) (result : Z)
  : A (Z * list (list Z) * MsgHdr) :=
  match iov with
  | [] => ret (result, [], m)
  | len :: iov =>
      let* '(subresult, got) :=
        ext_recvmsg_singlebuffer sockfd len m flags receiveNotifications rounds in
      let m := rm_header got in
      let result := if bool_decide (0 < subresult) then s32 (result + subresult) else result in
      if bool_decide (result = 0) && bool_decide (subresult <= 0)
      then ret (subresult, [rm_data got], m)
      else if bool_decide (subresult < s32 (rm_iov_len got)) && has_flag (msg_flags m) MSG_EOR
      then ret (result, [rm_data got], m)
      else
        let* '(result, data, m) :=
          recvmsg_loop sockfd iov m flags receiveNotifications rounds result in
        ret (result, rm_data got :: data, m)
  end.

(** [ext_recvmsg2], [ext_recvmsg] *)
Definition ext_recvmsg2 (sockfd : Z) (iov : list Z) (m : MsgHdr) (flags : Z)
    (receiveNotifications : bool) (rounds : list schedule) : A (Z * list (list Z) * MsgHdr) :=
  recvmsg_loop sockfd iov m flags receiveNotifications rounds 0.
Definition ext_recvmsg (sockfd : Z) (iov : list Z) (m : MsgHdr) (flags : Z)
    (rounds : list schedule) : A (Z * list (list Z) * MsgHdr) :=
  ext_recvmsg2 sockfd iov m flags true rounds.

(** [ext_recvfrom]: the result, the data and the address; [from] is the
    caller's buffer for it. *)
Variable stack : list Z.
Definition ext_recvfrom (sockfd len flags : Z) (from : option (list Z)) (fromlen : option Z)
    (rounds : list schedule) : A (Z * (list Z * (option (list Z) * Z))) :=
  on_descriptor (return_with ([], (from, default 0 fromlen))) sockfd
    (fun _ _ =>
       let* '(cc, data, m) :=
         ext_recvmsg2 sockfd [len]
           {| msg_name := from; msg_namelen := default 0 fromlen;
              msg_control := Some (take 1024 stack); msg_controllen := 1024; msg_flags := flags |}
           flags false rounds in
       ret (cc, (concat data, (msg_name m, msg_namelen m))))
    (fun _ d =>
       let* '(result, (data, name)) := syscall_with (k_recvfrom (SystemSocketID d) len flags) in
       ret (result, (data, (Some name, Z.of_nat (length name))))).

(** [ext_recv], [ext_read] *)
Definition ext_recv (sockfd len flags : Z) (rounds : list schedule) : A (Z * list Z) :=
  on_descriptor (return_with []) sockfd
    (fun _ _ =>
       let* '(r, (data, _)) := ext_recvfrom sockfd len flags None (Some 0) rounds in
       ret (r, data))
    (fun _ d => syscall_with (k_recv (SystemSocketID d) len flags)).
Definition ext_read (fd count : Z) (rounds : list schedule) : A (Z * list Z) :=
  match getSocket fd with
  | None => return_with [] (- EBADF)
  | Some i =>
      let* d := desc i in
      if bool_decide (ed_Type d = ESDT_System)
      then syscall_with (k_read (SystemSocketID d) count)
      else ext_recv fd count 0 rounds
  end.

(** ** Sending *)

(** The case [SCTP_INIT] of a control message: [Some e] ends the call. *)
Definition init_message (i : nat) (m : MsgHdr) (payload : list Z) (sched : schedule)
  : A (option Z) :=
  let initmsg := read_initmsg payload in
  upd_desc i (set_InitMsg initmsg) ;;
  let* d := desc i in
  match ConnectionOriented d, msg_name m with
  | true, Some name =>
      match SCTPAssociationPtr d with
      | Some _ => ret (Some (- EBUSY))
      | None =>
          match createSocketAddress_sockaddr (take (Z.to_nat (msg_namelen m)) name) with
          | None => ret (Some (- EADDRNOTAVAIL))
          | Some address =>
              match SCTPSocketPtr d with
              | None => stop NullDereference
              | Some p =>
                  let* association :=
                    lift (associate deliver p (sinit_num_ostreams initmsg)
                            (sinit_max_attempts initmsg) (sinit_max_init_timeo initmsg)
                            [address] (negb (nonblocking d)) sched) in
                  upd_desc i (set_SCTPAssociationPtr association) ;;
                  ret (match association with Some _ => None | None => Some (- ENOTCONN) end)
              end
          end
      end
  | _, _ => ret None
  end.

(** The loop over the control messages from the header [cmsg] on: an error,
    or the [sctp_sndrcvinfo] of the last message of that type. *)
Fixpoint control_loop (fuel : nat) (i : nat) (m : MsgHdr) (control : list Z)
    (cmsg : option nat) (info : option sctp_sndrcvinfo) (sched : schedule)
  : A (Z + option sctp_sndrcvinfo) :=
  match cmsg, fuel with
  | None, _ => ret (inr info)
  | Some _, O => stop OutOfFuel
  | Some c, S fuel =>
      let header := drop c control in
      let payload := CData control c in
      let next := CNextHeader control (msg_controllen m) c in
      if bool_decide (rd cmsg_level header = IPPROTO_SCTP) then
        if bool_decide (rd cmsg_type header = SCTP_SNDRCV) then
          if bool_decide (sizeof_sctp_sndrcvinfo <= rd cmsg_len header)
          then control_loop fuel i m control next (Some (read_sndrcvinfo payload)) sched
          else ret (inl (- EINVAL))
        else if bool_decide (rd cmsg_type header = SCTP_INIT) then
          let* stopped := init_message i m payload sched in
          match stopped with
          | Some e => ret (inl e)
          | None => control_loop fuel i m control next info sched
          end
        else control_loop fuel i m control next info sched
      else control_loop fuel i m control next info sched
  end.

(** The addresses of a message with [MSG_MULTIADDRS]: [n] addresses, the next
    one goes to index [i] of an array of [SCTP_MAX_NUM_ADDRESSES + 1]. *)
Fixpoint multi_addresses (n i : nat) (block : list Z) : A (option (list Addr)) :=
  if bool_decide (Z.of_nat i <= SCTP_MAX_NUM_ADDRESSES) then
    match n with
    | O => ret (Some [])
    | S n =>
        read_bytes 2 block ;;
        match sockaddr_size (sa_family block) with
        | None => ret None
        | Some size =>
            let* a := read_bytes size block in
            match createSocketAddress_sockaddr a with
            | None => ret None
            | Some address =>
                let* rest := multi_addresses n (S i) (drop size block) in
                ret (cons address <$> rest)
            end
        end
    end
  else stop OutOfBounds.

(** The flags of the message. *)
Definition send_flags (d : ExtSocketDescriptor) (msgflags flags : Z)
    (info : option sctp_sndrcvinfo) : Z :=
  let f := Z.lor flags msgflags in
  let f := match info with Some i => Z.lor f (sinfo_flags i) | None => f end in
  if nonblocking d then set_flag f MSG_DONTWAIT else f.

Definition time_to_live (info : option sctp_sndrcvinfo) : Z :=
  match info with
  | Some i => if has_flag (sinfo_flags i) MSG_PR_SCTP_TTL then sinfo_timetolive i
              else SCTP_INFINITE_LIFETIME
  | None => SCTP_INFINITE_LIFETIME
  end.
Definition info_member (f : sctp_sndrcvinfo -> Z) (info : option sctp_sndrcvinfo) : Z :=
  match info with Some i => f i | None => 0 end.

(** The call of [sendTo] with the parameters of the message. *)
Definition send_through_socket (d : ExtSocketDescriptor) (p : nat) (data : list Z) (flags : Z)
    (info : option sctp_sndrcvinfo) (destinations : option (list Addr))
    (connect_sched send_sched : schedule) : A Z :=
  let init := InitMsg d in
  let* '(result, _) :=
    lift (sock_sendTo deliver p (Some data) flags (info_member sinfo_assoc_id info)
            (info_member sinfo_stream info) (info_member sinfo_ppid info) (time_to_live info)
            (sinit_max_attempts init) (sinit_max_init_timeo init)
            (bool_decide (info = None)) destinations (sinit_num_ostreams init)
            connect_sched send_sched) in
  ret result.

(** The SCTP case of [ext_sendmsg_singlebuffer] behind the control messages. *)
Definition send_message (d : ExtSocketDescriptor) (data : list Z) (m : MsgHdr) (flags : Z)
    (info : option sctp_sndrcvinfo) (connect_sched send_sched : schedule) : A Z :=
  let flags := send_flags d (msg_flags m) flags info in
  match msg_name m with
  | Some name =>
      match SCTPSocketPtr d with
      | None => getErrnoResult (- EBADF)
      | Some p =>
          let* destinations :=
            if negb (has_flag flags MSG_MULTIADDRS)
            then ret (Some (option_list
                   (createSocketAddress_sockaddr (take (Z.to_nat (msg_namelen m)) name))))
            else multi_addresses (Z.to_nat (msg_namelen m)) 0 name in
          match destinations with
          | None => getErrnoResult (- EINVAL)
          | Some l =>
              let* result := send_through_socket d p data flags info (Some l)
                               connect_sched send_sched in
              getErrnoResult result
          end
      end
  | None =>
      match SCTPAssociationPtr d, SCTPSocketPtr d with
      | Some a, _ =>
          let* result := lift (assoc_sendTo a (Some data) flags (info_member sinfo_stream info)
                                 (info_member sinfo_ppid info) (time_to_live info)
                                 (bool_decide (info = None)) None send_sched) in
          getErrnoResult result
      | None, Some p =>
          let* result := send_through_socket d p data flags info None
                           connect_sched send_sched in
          getErrnoResult result
      | None, None => getErrnoResult (- EBADF)
      end
  end.

(** [ext_sendmsg_singlebuffer].  The three schedules are for the connection
    set up by a control message, by [sendTo], and for the send. *)
Definition ext_sendmsg_singlebuffer (sockfd : Z) (data : list Z) (m : MsgHdr) (flags : Z)
    (init_sched connect_sched send_sched : schedule) : A Z :=
  with_descriptor sockfd
    (fun i _ =>
       bindToAny deliver i ;;
       let control := default [] (msg_control m) in
       let* parsed := control_loop (S (length control)) i m control
                        (CFirstHeader (msg_control m) (msg_controllen m)) None init_sched in
       match parsed with
       | inl e => getErrnoResult e
       | inr info =>
           let* d := desc i in
           send_message d data m flags info connect_sched send_sched
       end)
    (fun _ d => syscall (k_sendmsg (SystemSocketID d) data flags (msg_name m) (msg_control m))).

(** [ext_sendmsg]: the buffers are gathered into one. *)
Definition ext_sendmsg (sockfd : Z) (iov : list (list Z)) (m : MsgHdr) (flags : Z)
    (init_sched connect_sched send_sched : schedule) : A Z :=
  match iov with
  | [] => stop OutOfBounds
  | [data] => ext_sendmsg_singlebuffer sockfd data m flags init_sched connect_sched send_sched
  | _ => ext_sendmsg_singlebuffer sockfd (concat iov) m flags init_sched connect_sched send_sched
  end.

(** [ext_sendto], [ext_send], [ext_write] *)
Definition ext_sendto (sockfd : Z) (buf : list Z) (flags : Z) (to : option (list Z))
    (tolen : Z) (connect_sched send_sched : schedule) : A Z :=
  with_descriptor sockfd
    (fun _ _ =>
       ext_sendmsg sockfd [buf]
         {| msg_name := to; msg_namelen := tolen; msg_control := None; msg_controllen := 0;
            msg_flags := flags |} flags [] connect_sched send_sched)
    (fun _ d => syscall (k_sendto (SystemSocketID d) buf flags to)).
Definition ext_send (sockfd : Z) (msg : list Z) (flags : Z)
    (connect_sched send_sched : schedule) : A Z :=
  with_descriptor sockfd
    (fun _ _ => ext_sendto sockfd msg flags None 0 connect_sched send_sched)
    (fun _ d => syscall (k_send (SystemSocketID d) msg flags)).
Definition ext_write (fd : Z) (buf : list Z) (connect_sched send_sched : schedule) : A Z :=
  match getSocket fd with
  | None => getErrnoResult (- EBADF)
  | Some i =>
      let* d := desc i in
      if bool_decide (ed_Type d = ESDT_System) then syscall (k_write (SystemSocketID d) buf)
      else ext_send fd buf 0 connect_sched send_sched
  end.

(** ** The calls with [sctp_sndrcvinfo] as a parameter *)

(** The control block that carries one [sctp_sndrcvinfo]. *)
Definition info_control (info : sctp_sndrcvinfo) : list Z :=
  control_message (CLength sizeof_sctp_sndrcvinfo) IPPROTO_SCTP SCTP_SNDRCV
    (write_sndrcvinfo info).

Definition send_with_info (s : Z) (data : list Z) (name : option (list Z)) (namelen flags : Z)
    (info : sctp_sndrcvinfo) (connect_sched send_sched : schedule) : A Z :=
  ext_sendmsg s [data]
    {| msg_name := name; msg_namelen := namelen; msg_control := Some (info_control info);
       msg_controllen := CSpace sizeof_sctp_sndrcvinfo; msg_flags := flags |}
    0 [] connect_sched send_sched.

(** [sctp_sendmsg], [sctp_send], [sctp_sendx] *)
Definition sctp_sendmsg (s : Z) (data : list Z) (to : option (list Z))
    (tolen ppid flags stream_no timetolive context : Z)
    (connect_sched send_sched : schedule) : A Z :=
  send_with_info s data to tolen (s32 flags)
    {| sinfo_stream := stream_no; sinfo_ssn := 0; sinfo_flags := flags; sinfo_ppid := ppid;
       sinfo_context := 0; sinfo_timetolive := timetolive; sinfo_tsn := 0; sinfo_cumtsn := 0;
       sinfo_assoc_id := 0 |} connect_sched send_sched.

Definition sctp_send (s : Z) (data : list Z) (sinfo : sctp_sndrcvinfo) (flags : Z)
    (connect_sched send_sched : schedule) : A Z :=
  send_with_info s data None 0 flags sinfo connect_sched send_sched.

Definition zero_info : sctp_sndrcvinfo :=
  {| sinfo_stream := 0; sinfo_ssn := 0; sinfo_flags := 0; sinfo_ppid := 0; sinfo_context := 0;
     sinfo_timetolive := 0; sinfo_tsn := 0; sinfo_cumtsn := 0; sinfo_assoc_id := 0 |}.
Definition add_info_flag (f : Z) (i : sctp_sndrcvinfo) : sctp_sndrcvinfo :=
  {| sinfo_stream := sinfo_stream i; sinfo_ssn := sinfo_ssn i;
     sinfo_flags := set_flag (sinfo_flags i) f; sinfo_ppid := sinfo_ppid i;
     sinfo_context := sinfo_context i; sinfo_timetolive := sinfo_timetolive i;
     sinfo_tsn := sinfo_tsn i; sinfo_cumtsn := sinfo_cumtsn i;
     sinfo_assoc_id := sinfo_assoc_id i |}.
Definition sctp_sendx (sd : Z) (data : list Z) (addrs : list Z) (addrcnt : Z)
    (sinfo : option sctp_sndrcvinfo) (flags : Z) (connect_sched send_sched : schedule) : A Z :=
  send_with_info sd data (Some addrs) addrcnt (set_flag flags MSG_MULTIADDRS)
    (add_info_flag MSG_MULTIADDRS (default zero_info sinfo)) connect_sched send_sched.

(** The information in the control block of a received message. *)
Definition control_info (control : option (list Z)) (controllen : Z) : option sctp_sndrcvinfo :=
  match control, CFirstHeader control controllen with
  | Some b, Some c =>
      let header := drop c b in
      if bool_decide (0 < controllen)
         && bool_decide (rd cmsg_len header = CLength sizeof_sctp_sndrcvinfo)
         && bool_decide (rd cmsg_level header = IPPROTO_SCTP)
         && bool_decide (rd cmsg_type header = SCTP_SNDRCV)
      then Some (read_sndrcvinfo (CData b c)) else None
  | _, _ => None
  end.

(** [sctp_recvmsg]: the result, the data, the address, the information and
    the flags. *)
Definition sctp_recvmsg (s len : Z) (from : option (list Z)) (fromlen : option Z)
    (sinfo : sctp_sndrcvinfo) (flags : Z) (rounds : list schedule)
  : A (Z * list Z * (option (list Z) * Z) * sctp_sndrcvinfo * Z) :=
  let* '(cc, data, m) :=
    ext_recvmsg s [len]
      {| msg_name := from; msg_namelen := default 0 fromlen;
         msg_control := Some (take 48 stack); msg_controllen := CSpace sizeof_sctp_sndrcvinfo;
         msg_flags := flags |} 0 rounds in
  let sinfo := if bool_decide (0 < cc)
               then default sinfo (control_info (msg_control m) (msg_controllen m)) else sinfo in
  ret (cc, concat data, (msg_name m, msg_namelen m), sinfo, msg_flags m).
End WrapperIO.
