(* ===== verification/WrapperOptions.v ===== *)
(** * The socket API: options (sctpsocketwrapper.cc)

    [ext_getsockopt] and [ext_setsockopt].  The value of an option is the
    memory at the caller's pointer, as bytes with the layout of the structures
    of ext_socket.h; NULL is [None]. *)

From S2P Require Import Prelude MultiMap Memory Notification State Association Socket SocketIO.
From S2P Require Import SocketOps SocketLife SocketAssoc SocketMaster Descriptors WrapperSockets.
From S2P Require Import WrapperIO.
Local Open Scope Z_scope.

(** ** Levels, options and layouts *)

Definition SOL_IP : Z := 0.
Definition SOL_SOCKET : Z := 1.
Definition SOL_IPV6 : Z := 41.
Definition IP_TOS : Z := 1.
Definition IP_RECVTOS : Z := 13.
Definition IPV6_FLOWINFO : Z := 11.
Definition IPV6_FLOWINFO_SEND : Z := 33.
Definition SO_SNDBUF : Z := 7.
Definition SO_RCVBUF : Z := 8.
Definition SO_LINGER : Z := 13.
Definition SCTP_INITMSG : Z := 1000.
Definition SCTP_AUTOCLOSE : Z := 1001.
Definition SCTP_RTOINFO : Z := 1010.
Definition SCTP_ASSOCINFO : Z := 1011.
Definition SCTP_PRIMARY_ADDR : Z := 1012.
Definition SCTP_SET_PEER_PRIMARY_ADDR : Z := 1013.
Definition SCTP_SET_STREAM_TIMEOUTS : Z := 1014.
Definition SCTP_PEER_ADDR_PARAMS : Z := 1015.
Definition SCTP_STATUS : Z := 1016.
Definition SCTP_GET_PEER_ADDR_INFO : Z := 1017.
Definition SCTP_NODELAY : Z := 1018.
Definition SCTP_SET_DEFAULT_SEND_PARAM : Z := 1019.
Definition SCTP_EVENTS : Z := 1020.
Definition SCTP_DELAYED_SACK : Z := 1021.

(** A member of a structure is a field; the association ID comes first in
    all of them. *)
Definition opt_assoc_id : field := Fld 0 4.

Definition srto_initial : field := Fld 4 4.
Definition srto_max : field := Fld 8 4.
Definition srto_min : field := Fld 12 4.
Definition sizeof_sctp_rtoinfo : Z := 16.

Definition sasoc_asocmaxrxt : field := Fld 4 2.
Definition sasoc_number_peer_destinations : field := Fld 6 2.
Definition sasoc_peer_rwnd : field := Fld 8 4.
Definition sasoc_local_rwnd : field := Fld 12 4.
Definition sasoc_cookie_life : field := Fld 16 4.
Definition sizeof_sctp_assocparams : Z := 20.

(** [sctp_setprim], [sctp_setpeerprim]: an ID and an address *)
Definition ssp_addr (b : list Z) : list Z := take 128 (drop 8 b).
Definition sizeof_sctp_setprim : Z := 136.

Definition ssto_timeout : field := Fld 4 4.
Definition ssto_streamid_start : field := Fld 8 2.
Definition ssto_streamid_end : field := Fld 10 2.
Definition sizeof_sctp_setstrm_timeout : Z := 12.

Definition spp_hbinterval : field := Fld 136 4.
Definition spp_pathmaxrxt : field := Fld 140 2.
Definition spp_pathmtu : field := Fld 144 4.
Definition spp_sackdelay : field := Fld 148 4.
Definition spp_flags : field := Fld 152 4.
Definition sizeof_sctp_paddrparams : Z := 160.
Definition SPP_HB_ENABLE : Z := 2 ^ 0.
Definition SPP_HB_DISABLE : Z := 2 ^ 1.

Definition spinfo_address : nat := 8.
Definition spinfo_state : field := Fld 136 4.
Definition spinfo_cwnd : field := Fld 140 4.
Definition spinfo_srtt : field := Fld 144 4.
Definition spinfo_rto : field := Fld 148 4.
Definition spinfo_mtu : field := Fld 152 4.
Definition sizeof_sctp_paddrinfo : Z := 160.
Definition SCTP_INACTIVE : Z := 0.
Definition SCTP_ACTIVE : Z := 1.

Definition sstat_state : field := Fld 4 4.
Definition sstat_rwnd : field := Fld 8 4.
Definition sstat_unackdata : field := Fld 12 2.
Definition sstat_penddata : field := Fld 14 2.
Definition sstat_instrms : field := Fld 16 2.
Definition sstat_outstrms : field := Fld 18 2.
Definition sstat_fragmentation_point : field := Fld 20 4.
Definition sstat_primary : nat := 24.
Definition sizeof_sctp_status : Z := 184.

Definition sack_delay : field := Fld 4 4.
Definition sizeof_sctp_sack_info : Z := 12.
Definition sizeof_sctp_event_subscribe : Z := 8.
Definition sizeof_sctp_initmsg : Z := 8.
Definition sizeof_linger : Z := 8.

Definition write_initmsg (i : sctp_initmsg) : list Z :=
  le_split 2 (sinit_num_ostreams i) ++ le_split 2 (sinit_max_instreams i) ++
  le_split 2 (sinit_max_attempts i) ++ le_split 2 (sinit_max_init_timeo i).
Definition write_linger (l : linger) : list Z :=
  le_split 4 (l_onoff l) ++ le_split 4 (l_linger l).
Definition read_linger (b : list Z) : linger :=
  {| l_onoff := s32 (get 0 4 b); l_linger := s32 (get 4 4 b) |}.

(** Members of sctplib's structures that the options set. *)
Definition with_rtoInitial (v : Z) (st : SCTP_Association_Status) : SCTP_Association_Status :=
  ltac:(set_member eta_Association_Status rtoInitial v st).
Definition with_rtoMin (v : Z) (st : SCTP_Association_Status) : SCTP_Association_Status :=
  ltac:(set_member eta_Association_Status rtoMin v st).
Definition with_delay (v : Z) (st : SCTP_Association_Status) : SCTP_Association_Status :=
  ltac:(set_member eta_Association_Status delay v st).
Definition with_assocMaxRetransmits (v : Z) (st : SCTP_Association_Status)
  : SCTP_Association_Status :=
  ltac:(set_member eta_Association_Status assocMaxRetransmits v st).
Definition with_heartbeatIntervall (v : Z) (p : SCTP_Path_Status) : SCTP_Path_Status :=
  ltac:(set_member eta_Path_Status heartbeatIntervall v p).
Definition with_ip_delay (v : Z) (p : SCTP_Instance_Parameters) : SCTP_Instance_Parameters :=
  ltac:(set_member eta_Instance_Parameters ip_delay v p).
Definition with_streams (outs ins : Z) (p : SCTP_Instance_Parameters)
  : SCTP_Instance_Parameters :=
  let p := ltac:(set_member eta_Instance_Parameters ip_outStreams outs p) in
  ltac:(set_member eta_Instance_Parameters ip_inStreams ins p).

Section WrapperOptions.
Context `{!Platform} `{!Kernel}.
Variable deliver : list Callback -> P unit.

(** Local variables that are not initialised: a path status, and the array
    elements of the time-outs. *)
Variable indeterminate_path : SCTP_Path_Status.
Variables past_end fill : StreamDefaultTimeout.

(** ** Parameters of the target *)

(** [SCTPAssociation::getPathParameters], [setPathParameters], [setPrimary] *)
Definition assoc_getPathParameters (a : nat) (address : option Addr)
  : P (bool * option SCTP_Path_Status) :=
  let* o := assoc a in getPathParameters (a_AssociationID o) address.
Definition assoc_setPathParameters (a : nat) (address : option Addr) (p : SCTP_Path_Status)
  : P bool :=
  let* o := assoc a in setPathParameters (a_AssociationID o) address p.
Definition assoc_setPrimary (a : nat) (primary : Addr) : P bool :=
  let* o := assoc a in setPrimary (a_AssociationID o) primary.

(** [getAssocParams]: the association ID and the parameters, if any. *)
Definition getAssocParams (d : ExtSocketDescriptor) (assocID : Z)
  : P (option (Z * SCTP_Association_Status)) :=
  match target d with
  | ToAssociation a =>
      let* st := assoc_getAssocStatus a in
      let* id := assoc_getID a in
      ret (match st with Some st => Some (id, st) | None => None end)
  | ToSocket _ =>
      let* st := sock_getAssocStatus assocID in
      ret (match st with Some st => Some (assocID, st) | None => None end)
  | ToNothing => ret None
  end.

(** [setAssocParams]: 0 or -1. *)
Definition setAssocParams (d : ExtSocketDescriptor) (assocID : Z)
    (parameters : SCTP_Association_Status) : P Z :=
  let* ok :=
    match target d with
    | ToAssociation a => assoc_setAssocStatus a parameters
    | ToSocket _ => sock_setAssocStatus assocID parameters
    | ToNothing => ret false
    end in
  ret (if (ok : bool) then 0 else -1).

(** [getPathStatus]: the result and the parameters. *)
Definition getPathStatus (d : ExtSocketDescriptor) (assocID : Z) (sockadr : list Z)
  : P (Z * SCTP_Path_Status) :=
  match createSocketAddress_sockaddr sockadr with
  | None => ret (- EINVAL, indeterminate_path)
  | Some address =>
      let* '(ok, p) :=
        match target d with
        | ToAssociation a => assoc_getPathParameters a (Some address)
        | ToSocket _ => getPathParameters assocID (Some address)
        | ToNothing => ret (false, None)
        end in
      ret (if (ok : bool) then 0 else - EIO, default indeterminate_path p)
  end.

(** [setPathStatus] *)
Definition setPathStatus (d : ExtSocketDescriptor) (assocID : Z) (sockadr : list Z)
    (newParameters : SCTP_Path_Status) : P Z :=
  match createSocketAddress_sockaddr sockadr with
  | None => ret (- EINVAL)
  | Some address =>
      let* ok :=
        match target d with
        | ToAssociation a => assoc_setPathParameters a (Some address) newParameters
        | ToSocket _ => setPathParameters assocID (Some address) newParameters
        | ToNothing => ret false
        end in
      ret (if (ok : bool) then 0 else - EIO)
  end.

(** [getPrimaryAddressInfo]: the result and the new [sctp_paddrinfo]. *)
Definition getPrimaryAddressInfo (d : ExtSocketDescriptor) (assocID : Z) (info : list Z)
  : P (Z * list Z) :=
  lock ;;
  let* found :=
    match target d with
    | ToAssociation a =>
        let* '(ok, p) := assoc_getPathParameters a None in
        let* id := assoc_getID a in
        ret (if (ok : bool) then Some (id, default indeterminate_path p) else None)
    | ToSocket _ =>
        let* '(ok, p) := getPathParameters assocID None in
        ret (if (ok : bool) then Some (assocID, default indeterminate_path p) else None)
    | ToNothing => ret None
    end in
  let r :=
    match found with
    | None => (- EBADF, info)
    | Some (id, p) =>
        match createSocketAddress_name 0 (destinationAddress p) with
        | None => (- EIO, info)
        | Some address =>
            match system_address address 128 (Domain d) with
            | [] => (- EIO, info)
            | b => (0, wr opt_assoc_id id (wr spinfo_mtu (mtu p) (wr spinfo_rto (rto p)
                         (wr spinfo_srtt (srtt p) (wr spinfo_cwnd (cwnd p)
                           (wr spinfo_state (ps_state p) (put_bytes spinfo_address b info)))))))
            end
        end
    end in
  unlock ;;
  ret r.

(** ** Reading options *)

(** The value and its length after a call, and the check of both before. *)
Definition OptResult : Type := Z * (option (list Z) * Z).
Definition with_value (optval : option (list Z)) (optlen size : Z)
    (body : list Z -> A OptResult) : A OptResult :=
  match optval with
  | Some b => if bool_decide (optlen < size) then return_with (optval, optlen) (- EINVAL)
              else body b
  | None => return_with (optval, optlen) (- EINVAL)
  end.

(** [getAssocStatus] *)
Definition getAssocStatus (d : ExtSocketDescriptor) (optval : option (list Z)) (optlen : Z)
  : A OptResult :=
  with_value optval optlen sizeof_sctp_status (fun status =>
    lift lock ;;
    let* params := lift (getAssocParams d (rd opt_assoc_id status)) in
    match params with
    | Some (assocID, p) =>
        let status := wr sstat_state (st_state p) status in
        let status := wr sstat_rwnd (currentReceiverWindowSize p) status in
        let status := wr sstat_unackdata (noOfChunksInRetransmissionQueue p) status in
        let status := wr sstat_penddata (noOfChunksInReceptionQueue p) status in
        let status := wr sstat_instrms (inStreams p) status in
        let status := wr sstat_outstrms (outStreams p) status in
        let status := wr opt_assoc_id assocID (wr sstat_fragmentation_point 0 status) in
        let* '(result, primary) :=
          lift (getPrimaryAddressInfo d assocID (drop sstat_primary status)) in
        lift unlock ;;
        return_with (Some (take sstat_primary status ++ primary), sizeof_sctp_status) result
    | None => lift unlock ;; return_with (optval, optlen) (-1)
    end).

(** [getRTOInfo] *)
Definition getRTOInfo (d : ExtSocketDescriptor) (optval : option (list Z)) (optlen : Z)
  : A OptResult :=
  with_value optval optlen sizeof_sctp_rtoinfo (fun rtoinfo =>
    let* params := lift (getAssocParams d (rd opt_assoc_id rtoinfo)) in
    match params with
    | Some (assocID, p) =>
        return_with (Some (wr opt_assoc_id assocID (wr srto_min (rtoMin p)
          (wr srto_max (rtoMax p) (wr srto_initial (rtoInitial p) rtoinfo)))),
          sizeof_sctp_rtoinfo) 0
    | None => return_with (optval, optlen) (-1)
    end).

(** The association an option of the acknowledgement delay is about. *)
Definition sack_association (d : ExtSocketDescriptor) (sackInfo : list Z) : P Z :=
  let assocID := rd opt_assoc_id sackInfo in
  match SCTPAssociationPtr d with
  | Some a => if bool_decide (assocID = 0) then assoc_getID a else ret assocID
  | None => ret assocID
  end.

(** [getDelayedAckTime] *)
Definition getDelayedAckTime (d : ExtSocketDescriptor) (optval : option (list Z)) (optlen : Z)
  : A OptResult :=
  with_value optval optlen sizeof_sctp_sack_info (fun sackInfo =>
    let* assocID := lift (sack_association d sackInfo) in
    if bool_decide (assocID <> 0) then
      let* params := lift (getAssocParams d assocID) in
      match params with
      | Some (_, p) =>
          return_with (Some (wr sack_delay (delay p) sackInfo), sizeof_sctp_sack_info) 0
      | None => return_with (optval, optlen) (-1)
      end
    else if bool_decide (ed_Type d = ESDT_SCTP) then
      match SCTPSocketPtr d with
      | Some s =>
          let* p := lift (sock_getAssocDefaults s) in
          match p with
          | Some p => return_with (Some (wr sack_delay (ip_delay p) sackInfo),
                                   sizeof_sctp_sack_info) 0
          | None => return_with (optval, optlen) (- EINVAL)
          end
      | None => return_with (optval, optlen) (- EINVAL)
      end
    else return_with (optval, optlen) (- ENOTSUP)).

(** [getAssocInfo] *)
Definition getAssocInfo (d : ExtSocketDescriptor) (optval : option (list Z)) (optlen : Z)
  : A OptResult :=
  with_value optval optlen sizeof_sctp_assocparams (fun b =>
    let* params := lift (getAssocParams d (rd opt_assoc_id b)) in
    match params with
    | Some (assocID, p) =>
        let b := wr sasoc_asocmaxrxt (assocMaxRetransmits p) (wr opt_assoc_id assocID b) in
        let b := wr sasoc_number_peer_destinations (numberOfDestinationPaths p) b in
        let b := wr sasoc_local_rwnd (currentReceiverWindowSize p) (wr sasoc_peer_rwnd 0 b) in
        return_with (Some (wr sasoc_cookie_life (validCookieLife p) b), sizeof_sctp_assocparams) 0
    | None => return_with (optval, optlen) (-1)
    end).

(** [getPeerAddressInfo] *)
Definition getPeerAddressInfo (d : ExtSocketDescriptor) (optval : option (list Z)) (optlen : Z)
  : A OptResult :=
  with_value optval optlen sizeof_sctp_paddrinfo (fun b =>
    let assocID := rd opt_assoc_id b in
    let* '(result, p) := lift (getPathStatus d assocID (take 128 (drop spinfo_address b))) in
    if bool_decide (result = 0) then
      let state := if bool_decide (ps_state p = 1) then SCTP_INACTIVE else SCTP_ACTIVE in
      let b := wr spinfo_srtt (srtt p) (wr spinfo_cwnd (cwnd p) (wr spinfo_state state b)) in
      return_with (Some (wr opt_assoc_id assocID (wr spinfo_mtu (mtu p)
                     (wr spinfo_rto (rto p) b))), sizeof_sctp_paddrinfo) result
    else return_with (optval, optlen) result).

(** [configurePeerAddressParams] *)
Definition configurePeerAddressParams (d : ExtSocketDescriptor) (optval : option (list Z))
    (optlen : Z) (readOnly : bool) : A OptResult :=
  with_value optval optlen sizeof_sctp_paddrparams (fun b =>
    lift lock ;;
    let assocID := rd opt_assoc_id b in
    let address := take 128 (drop 8 b) in
    let* '(result, p) := lift (getPathStatus d assocID address) in
    if bool_decide (result = 0) then
      let hb := if bool_decide (rd spp_hbinterval b = 0) then heartbeatIntervall p
                else rd spp_hbinterval b in
      let b := wr spp_pathmtu (mtu p) (wr spp_pathmaxrxt 0 (wr spp_hbinterval hb b)) in
      let b := wr spp_flags (if bool_decide (0 < hb) then SPP_HB_ENABLE else SPP_HB_DISABLE)
                 (wr spp_sackdelay 0 b) in
      let* result :=
        if readOnly then ret result
        else lift (setPathStatus d assocID address (with_heartbeatIntervall hb p)) in
      lift unlock ;;
      return_with (Some b, sizeof_sctp_paddrparams) result
    else lift unlock ;; return_with (optval, optlen) result).

(** The options on the association alone: a buffer size. *)
Definition get_buffer (d : ExtSocketDescriptor) (optval : option (list Z)) (optlen : Z)
    (size : nat -> P Z) : A OptResult :=
  with_value optval optlen 4 (fun b =>
    match SCTPAssociationPtr d with
    | Some a =>
        let* n := lift (size a) in
        return_with (Some (put 0 4 n b), 4) (if bool_decide (0 <= s32 n) then 0 else - EIO)
    | None => return_with (optval, optlen) (- EBADF)
    end).

(** The SCTP case of [ext_getsockopt], one definition for each level. *)
Definition getsockopt_ip (d : ExtSocketDescriptor) (level optname : Z)
    (optval : option (list Z)) (optlen : Z) : A OptResult :=
  let done := return_with (optval, optlen) in
  if bool_decide (level = SOL_IPV6) then
    if bool_decide (optname = IPV6_FLOWINFO) || bool_decide (optname = IPV6_FLOWINFO_SEND)
    then done 0 else done (- EOPNOTSUPP)
  else if bool_decide (optname = IP_TOS) then
    match SCTPAssociationPtr d with
    | Some a => let* tos := lift (getTrafficClass a 0) in done tos
    | None => done 0
    end
  else if bool_decide (optname = IP_RECVTOS) then done 0
  else done (- EOPNOTSUPP).

Definition getsockopt_sctp (d : ExtSocketDescriptor) (optname : Z)
    (optval : option (list Z)) (optlen : Z) : A OptResult :=
  let done := return_with (optval, optlen) in
  if bool_decide (optname = SCTP_PEER_ADDR_PARAMS) then
    configurePeerAddressParams d optval optlen true
  else if bool_decide (optname = SCTP_STATUS) then getAssocStatus d optval optlen
  else if bool_decide (optname = SCTP_INITMSG) then
    with_value optval optlen sizeof_sctp_initmsg (fun b =>
      return_with (Some (put_bytes 0 (write_initmsg (InitMsg d)) b), sizeof_sctp_initmsg) 0)
  else if bool_decide (optname = SCTP_GET_PEER_ADDR_INFO) then
    getPeerAddressInfo d optval optlen
  else if bool_decide (optname = SCTP_RTOINFO) then getRTOInfo d optval optlen
  else if bool_decide (optname = SCTP_DELAYED_SACK) then getDelayedAckTime d optval optlen
  else if bool_decide (optname = SCTP_NODELAY) then done 0
  else if bool_decide (optname = SCTP_ASSOCINFO) then getAssocInfo d optval optlen
  else if bool_decide (optname = SCTP_AUTOCLOSE) then
    with_value optval optlen 4 (fun b =>
      match SCTPSocketPtr d with
      | Some p =>
          let* timeout := lift (getAutoClose p) in
          return_with (Some (put 0 4 (timeout / 1000000) b), 4) 0
      | None => done (- EBADF)
      end)
  else done (- EOPNOTSUPP).

Definition getsockopt_socket (d : ExtSocketDescriptor) (optname : Z)
    (optval : option (list Z)) (optlen : Z) : A OptResult :=
  if bool_decide (optname = SO_SNDBUF) then get_buffer d optval optlen getSendBuffer
  else if bool_decide (optname = SO_RCVBUF) then get_buffer d optval optlen getReceiveBuffer
  else if bool_decide (optname = SO_LINGER) then
    with_value optval optlen sizeof_linger (fun b =>
      return_with (Some (put_bytes 0 (write_linger (Linger d)) b), sizeof_linger) 0)
  else return_with (optval, optlen) (- EOPNOTSUPP).

(** [ext_getsockopt] *)
Definition ext_getsockopt (sockfd level optname : Z) (optval : option (list Z)) (optlen : Z)
  : A OptResult :=
  on_descriptor (return_with (optval, optlen)) sockfd
    (fun _ d =>
       if bool_decide (level = SOL_IPV6) || bool_decide (level = SOL_IP)
       then getsockopt_ip d level optname optval optlen
       else if bool_decide (level = IPPROTO_SCTP) then getsockopt_sctp d optname optval optlen
       else if bool_decide (level = SOL_SOCKET) then getsockopt_socket d optname optval optlen
       else return_with (optval, optlen) (- EOPNOTSUPP))
    (fun _ d =>
       let* '(r, b) := syscall_with (k_getsockopt (SystemSocketID d) level optname) in
       ret (r, (Some b, Z.of_nat (length b)))).

(** ** Setting options *)

(** The check of the value and its length; [exact] for the options that want
    the length of the structure. *)
Definition with_optval (optval : option (list Z)) (valid : bool) (body : list Z -> A Z) : A Z :=
  match optval with
  | Some b => if valid then body b else getErrnoResult (- EINVAL)
  | None => getErrnoResult (- EINVAL)
  end.

(** [setDefaultSendParams] *)
Definition setDefaultSendParams (d : ExtSocketDescriptor) (optval : option (list Z))
    (optlen : Z) : A Z :=
  with_optval optval (bool_decide (optlen = sizeof_sctp_sndrcvinfo)) (fun b =>
    let i := read_sndrcvinfo b in
    let defaults := {| d_StreamID := sinfo_stream i; d_ProtoID := sinfo_ppid i;
                       d_TimeToLive := sinfo_timetolive i; d_Context := sinfo_context i |} in
    match target d with
    | ToAssociation a => lift (assoc_setAssocIODefaults a defaults) ;; getErrnoResult 0
    | ToSocket p =>
        let* ok := lift (sock_setAssocIODefaults p (sinfo_assoc_id i) defaults) in
        getErrnoResult (if (ok : bool) then 0 else - EINVAL)
    | ToNothing => getErrnoResult (- EINVAL)
    end).

(** [setDefaultStreamTimeouts] of the wrapper *)
Definition set_stream_timeouts_option (d : ExtSocketDescriptor) (optval : option (list Z))
    (optlen : Z) : A Z :=
  with_optval optval (bool_decide (optlen = sizeof_sctp_setstrm_timeout)) (fun b =>
    let timeout := rd ssto_timeout b in
    let start := rd ssto_streamid_start b in
    let end_ := rd ssto_streamid_end b in
    match target d with
    | ToAssociation a =>
        lift (setDefaultStreamTimeouts past_end fill a timeout start end_) ;; ret 0
    | ToSocket p =>
        let* ok := lift (sock_setDefaultStreamTimeouts past_end fill p (rd opt_assoc_id b)
                           timeout start end_) in
        if (ok : bool) then ret 0 else getErrnoResult (- EINVAL)
    | ToNothing => getErrnoResult (- EINVAL)
    end).

(** The notification flags of an [sctp_event_subscribe]: one byte for each
    kind of event, in the order of the structure. *)
Definition event_masks : list Z :=
  [SCTP_RECVDATAIOEVNT; SCTP_RECVASSOCEVNT; SCTP_RECVPADDREVNT; SCTP_RECVSENDFAILEVNT;
   SCTP_RECVPEERERR; SCTP_RECVSHUTDOWNEVNT; SCTP_RECVPDEVNT; SCTP_RECVADAPTATIONINDICATION].
Definition event_flags (events : list Z) : Z :=
  foldl (fun flags e => if bool_decide (e.1 <> 0) then set_flag flags e.2 else flags) 0
    (zip events event_masks).

(** [setEvents]; the last error does not set [errno]. *)
Definition setEvents (d : ExtSocketDescriptor) (optval : option (list Z)) (optlen : Z) : A Z :=
  with_optval optval (bool_decide (optlen = sizeof_sctp_event_subscribe)) (fun b =>
    let flags := event_flags b in
    match target d with
    | ToAssociation a => lift (assoc_setNotificationFlags a flags) ;; getErrnoResult 0
    | ToSocket p => lift (sock_setNotificationFlags p flags) ;; getErrnoResult 0
    | ToNothing => ret (- EBADF)
    end).

(** Read the association parameters, change them, write them back. *)
Definition change_assoc_params (d : ExtSocketDescriptor) (assocID : Z)
    (f : SCTP_Association_Status -> SCTP_Association_Status) : P Z :=
  let* params := getAssocParams d assocID in
  match params with
  | Some (assocID, p) => setAssocParams d assocID (f p)
  | None => ret (-1)
  end.

(** [setRTOInfo]: a zero leaves a parameter as it is. *)
Definition rto_parameters (b : list Z) (p : SCTP_Association_Status) : SCTP_Association_Status :=
  let p := if bool_decide (rd srto_initial b <> 0) then with_rtoInitial (rd srto_initial b) p
           else p in
  let p := if bool_decide (rd srto_min b <> 0) then with_rtoMin (rd srto_min b) p else p in
  if bool_decide (rd srto_max b <> 0) then with_rtoMax (rd srto_max b) p else p.
Definition setRTOInfo (d : ExtSocketDescriptor) (optval : option (list Z)) (optlen : Z) : A Z :=
  with_optval optval (bool_decide (sizeof_sctp_rtoinfo <= optlen)) (fun b =>
    lift lock ;;
    let* result := lift (change_assoc_params d (rd opt_assoc_id b) (rto_parameters b)) in
    lift unlock ;;
    getErrnoResult result).

(** [setDelayedAckTime] *)
Definition setDelayedAckTime (d : ExtSocketDescriptor) (optval : option (list Z)) (optlen : Z)
  : A Z :=
  with_optval optval (bool_decide (sizeof_sctp_sack_info <= optlen)) (fun b =>
    let* assocID := lift (sack_association d b) in
    if bool_decide (assocID <> 0) then
      let* result := lift (change_assoc_params d assocID (with_delay (rd sack_delay b))) in
      getErrnoResult result
    else if bool_decide (ed_Type d = ESDT_SCTP) then
      match SCTPSocketPtr d with
      | Some s =>
          let* p := lift (sock_getAssocDefaults s) in
          match p with
          | Some p =>
              let* ok := lift (sock_setAssocDefaults s (with_ip_delay (rd sack_delay b) p)) in
              getErrnoResult (if (ok : bool) then 0 else - EINVAL)
          | None => getErrnoResult (- EINVAL)
          end
      | None => getErrnoResult (- EINVAL)
      end
    else getErrnoResult (- ENOTSUP)).

(** [setAssocInfo] *)
Definition setAssocInfo (d : ExtSocketDescriptor) (optval : option (list Z)) (optlen : Z) : A Z :=
  with_optval optval (bool_decide (sizeof_sctp_assocparams <= optlen)) (fun b =>
    lift lock ;;
    let* result := lift (change_assoc_params d (rd opt_assoc_id b)
                           (with_assocMaxRetransmits (rd sasoc_asocmaxrxt b))) in
    lift unlock ;;
    getErrnoResult result).

(** [setPrimaryAddr]; [setPeerPrimaryAddr] has the same body, on a structure
    with the same layout. *)
Definition setPrimaryAddr (d : ExtSocketDescriptor) (optval : option (list Z)) (optlen : Z)
  : A Z :=
  with_optval optval (bool_decide (sizeof_sctp_setprim <= optlen)) (fun b =>
    match createSocketAddress_sockaddr (ssp_addr b) with
    | None => getErrnoResult (- EINVAL)
    | Some address =>
        match target d with
        | ToAssociation a => let* ok := lift (assoc_setPrimary a address) in
                             getErrnoResult (if (ok : bool) then 0 else - EIO)
        | ToSocket _ => let* ok := lift (setPrimary (rd opt_assoc_id b) address) in
                        getErrnoResult (if (ok : bool) then 0 else - EIO)
        | ToNothing => getErrnoResult (- EBADF)
        end
    end).
Definition setPeerPrimaryAddr (d : ExtSocketDescriptor) (optval : option (list Z)) (optlen : Z)
  : A Z :=
  with_optval optval (bool_decide (sizeof_sctp_setprim <= optlen)) (fun b =>
    match createSocketAddress_sockaddr (ssp_addr b) with
    | None => getErrnoResult (- EINVAL)
    | Some address =>
        match target d with
        | ToAssociation a => let* ok := lift (assoc_setPrimary a address) in
                             getErrnoResult (if (ok : bool) then 0 else - EIO)
        | ToSocket _ => let* ok := lift (setPrimary (rd opt_assoc_id b) address) in
                        getErrnoResult (if (ok : bool) then 0 else - EIO)
        | ToNothing => getErrnoResult (- EBADF)
        end
    end).

(** [setInitMsg] *)
Definition setInitMsg (p : nat) (initmsg : sctp_initmsg) : P bool :=
  lock ;;
  let* parameters := sock_getAssocDefaults p in
  let* result :=
    match parameters with
    | Some ip => sock_setAssocDefaults p
                   (with_streams (sinit_num_ostreams initmsg) (sinit_max_instreams initmsg) ip)
    | None => ret false
    end in
  unlock ;;
  ret result.

(** The operations of both classes with one parameter: 0 or [-EIO]. *)
Definition set_on_target (d : ExtSocketDescriptor) (on_association on_socket : nat -> P bool)
    (error : Z) : A Z :=
  match target d with
  | ToAssociation a => let* ok := lift (on_association a) in
                       getErrnoResult (if (ok : bool) then 0 else - EIO)
  | ToSocket p => let* ok := lift (on_socket p) in
                  getErrnoResult (if (ok : bool) then 0 else - EIO)
  | ToNothing => getErrnoResult error
  end.

Definition setsockopt_ip (d : ExtSocketDescriptor) (level optname : Z)
    (optval : option (list Z)) (optlen : Z) : A Z :=
  if bool_decide (level = SOL_IPV6) then
    if bool_decide (optname = IPV6_FLOWINFO) || bool_decide (optname = IPV6_FLOWINFO_SEND)
    then getErrnoResult 0 else getErrnoResult (- EOPNOTSUPP)
  else if bool_decide (optname = IP_TOS) then
    with_optval optval (bool_decide (4 <= optlen)) (fun b =>
      let tos := u8 (get 0 4 b) in
      set_on_target d (fun a => assoc_setTrafficClass a tos (-1))
        (fun p => sock_setTrafficClass p tos (-1)) (- EOPNOTSUPP))
  else if bool_decide (optname = IP_RECVTOS) then getErrnoResult 0
  else getErrnoResult (- EOPNOTSUPP).

(** An unknown option of the level [IPPROTO_SCTP] has no case. *)
Definition setsockopt_sctp (i : nat) (d : ExtSocketDescriptor) (optname : Z)
    (optval : option (list Z)) (optlen : Z) : A Z :=
  if bool_decide (optname = SCTP_INITMSG) then
    with_optval optval (bool_decide (sizeof_sctp_initmsg <= optlen)) (fun b =>
      let initmsg := read_initmsg b in
      upd_desc i (set_InitMsg initmsg) ;;
      match SCTPSocketPtr d with
      | Some p => lift (setInitMsg p initmsg) ;; ret tt
      | None => ret tt
      end ;;
      getErrnoResult 0)
  else if bool_decide (optname = SCTP_PEER_ADDR_PARAMS) then
    let* '(r, _) := configurePeerAddressParams d optval optlen false in ret r
  else if bool_decide (optname = SCTP_PRIMARY_ADDR) then setPrimaryAddr d optval optlen
  else if bool_decide (optname = SCTP_SET_PEER_PRIMARY_ADDR) then
    setPeerPrimaryAddr d optval optlen
  else if bool_decide (optname = SCTP_RTOINFO) then setRTOInfo d optval optlen
  else if bool_decide (optname = SCTP_DELAYED_SACK) then setDelayedAckTime d optval optlen
  else if bool_decide (optname = SCTP_NODELAY) then getErrnoResult 0
  else if bool_decide (optname = SCTP_ASSOCINFO) then setAssocInfo d optval optlen
  else if bool_decide (optname = SCTP_EVENTS) then setEvents d optval optlen
  else if bool_decide (optname = SCTP_SET_DEFAULT_SEND_PARAM) then
    setDefaultSendParams d optval optlen
  else if bool_decide (optname = SCTP_SET_STREAM_TIMEOUTS) then
    set_stream_timeouts_option d optval optlen
  else if bool_decide (optname = SCTP_AUTOCLOSE) then
    with_optval optval (bool_decide (4 <= optlen)) (fun b =>
      match SCTPSocketPtr d with
      | Some p => lift (setAutoClose p (u64 (1000000 * get 0 4 b))) ;; getErrnoResult 0
      | None => getErrnoResult (- EBADF)
      end)
  else getErrnoResult (- ENXIO).

Definition setsockopt_socket (i : nat) (d : ExtSocketDescriptor) (optname : Z)
    (optval : option (list Z)) (optlen : Z) : A Z :=
  if bool_decide (optname = SO_SNDBUF) then
    with_optval optval (bool_decide (4 <= optlen)) (fun b =>
      set_on_target d (fun a => assoc_setSendBuffer a (get 0 4 b))
        (fun p => sock_setSendBuffer p (get 0 4 b)) (- EBADF))
  else if bool_decide (optname = SO_RCVBUF) then
    with_optval optval (bool_decide (4 <= optlen)) (fun b =>
      set_on_target d (fun a => assoc_setReceiveBuffer a (get 0 4 b))
        (fun p => sock_setReceiveBuffer p (get 0 4 b)) (- EBADF))
  else if bool_decide (optname = SO_LINGER) then
    with_optval optval (bool_decide (sizeof_linger <= optlen)) (fun b =>
      let l := read_linger b in
      if bool_decide (l_linger l < 0) || bool_decide (l_onoff l < 0)
         || bool_decide (1 < l_onoff l)
      then getErrnoResult (- EINVAL)
      else upd_desc i (set_Linger l) ;; getErrnoResult 0)
  else getErrnoResult (- EOPNOTSUPP).

(** [ext_setsockopt] *)
Definition ext_setsockopt (sockfd level optname : Z) (optval : option (list Z)) (optlen : Z)
  : A Z :=
  with_descriptor sockfd
    (fun i d =>
       if bool_decide (level = SOL_IPV6) || bool_decide (level = SOL_IP)
       then setsockopt_ip d level optname optval optlen
       else if bool_decide (level = IPPROTO_SCTP) then setsockopt_sctp i d optname optval optlen
       else if bool_decide (level = SOL_SOCKET) then setsockopt_socket i d optname optval optlen
       else getErrnoResult (- EOPNOTSUPP))
    (fun _ d => syscall (k_setsockopt (SystemSocketID d) level optname (default [] optval))).

(** [sctp_opt_info] *)
Definition sctp_opt_info (sd assocID opt : Z) (arg : list Z) (size : Z) : A OptResult :=
  if bool_decide (opt = SCTP_RTOINFO) || bool_decide (opt = SCTP_ASSOCINFO)
     || bool_decide (opt = SCTP_STATUS) || bool_decide (opt = SCTP_GET_PEER_ADDR_INFO)
  then ext_getsockopt sd IPPROTO_SCTP opt (Some (wr opt_assoc_id assocID arg)) size
  else if bool_decide (opt = SCTP_PRIMARY_ADDR) || bool_decide (opt = SCTP_SET_PEER_PRIMARY_ADDR)
       || bool_decide (opt = SCTP_SET_STREAM_TIMEOUTS) || bool_decide (opt = SCTP_PEER_ADDR_PARAMS)
  then let* r := ext_setsockopt sd IPPROTO_SCTP opt (Some arg) size in
       ret (r, (Some arg, size))
  else return_with (Some arg, size) (- EOPNOTSUPP).
End WrapperOptions.
