(* ===== verification/WrapperSelect.v ===== *)
(** * The socket API: waiting for many descriptors (sctpsocketwrapper.cc)

    [ext_select] and [ext_poll], the user socket notifications of
    [SCTPSocketMaster] they use for descriptors of the system, and the
    conversion of descriptors by [select_wrapper]. *)

From S2P Require Import Prelude MultiMap Memory Notification State Association Socket SocketIO.
From S2P Require Import SocketOps SocketLife SocketMaster Descriptors WrapperSockets.
From S2P Require Condition.
Local Open Scope Z_scope.

Definition POLLIN : Z := 2 ^ 0.
Definition POLLPRI : Z := 2 ^ 1.
Definition POLLOUT : Z := 2 ^ 2.
Definition POLLERR : Z := 2 ^ 3.
Definition POLLNVAL : Z := 2 ^ 5.
Definition FD_SETSIZE : Z := 1024.

#[export] Instance UpdateConditionType_eq_dec : EqDecision UpdateConditionType.
Proof. solve_decision. Defined.

(** The three sets of descriptors; NULL is [None]. *)
Record FdSets : Type := {
  readfds : option (gset Z);
  writefds : option (gset Z);
  exceptfds : option (gset Z) }.

(** [SAFE_FD_ISSET]; [FD_SET], [FD_CLR] through a pointer that may be NULL. *)
Definition SAFE_FD_ISSET (fd : Z) (s : option (gset Z)) : bool :=
  match s with Some s => bool_decide (fd ∈ s) | None => false end.
Definition set_fd (fd : Z) (s : option (gset Z)) : option (gset Z) := (fun s => {[fd]} ∪ s) <$> s.
Definition clear_fds (fds : list Z) (s : option (gset Z)) : option (gset Z) :=
  (fun s => s ∖ list_to_set fds) <$> s.

(** A descriptor in the bounds of an [fd_set]. *)
Definition fits (fd : Z) : bool := bool_decide (0 <= fd) && bool_decide (fd < FD_SETSIZE).

Section Conditions.
Context `{!Platform}.

Definition signal (c : cid) : P unit := on_conditions (Condition.signal cond_fuel c).
Definition removeParent (c p : cid) : P unit := on_conditions (Condition.removeParent c (Some p)).
Definition peekFired (c : cid) : P bool := on_conditions (Condition.peekFired c).
(** The destructor of a condition. *)
Definition delete_Condition (c : cid) : P unit := modify (fun y => set_conditions
  {| Condition.conds := delete c (Condition.conds (conditions y));
     Condition.wakeups := Condition.wakeups (conditions y) |} y).

Definition select_kind (type : UpdateConditionType) : CondKind :=
  match type with
  | UCT_Read => SelectRead | UCT_Write => SelectWrite | UCT_Except => SelectExcept
  end.

(** [Condition::timedWait]; with [forever], [Condition::wait], which repeats
    it.  An element of [waits] is the result of a [pthread_cond_timedwait] and
    what the other threads did during it. *)
Fixpoint wait_for (forever : bool) (c : cid) (waits : list (Condition.WaitResult * P unit))
  : P bool :=
  let* f := peekFired c in
  if (f : bool) then on_conditions (Condition.set_Fired false c) ;; ret true
  else
    match waits with
    | [] => stop WouldBlock
    | (r, others) :: waits =>
        others ;;
        match r with
        | Condition.WaitEINTR => wait_for forever c waits
        | Condition.WaitOk => on_conditions (Condition.set_Fired false c) ;; ret true
        | Condition.WaitTimeout => if forever then wait_for forever c waits else ret false
        end
    end.

(** ** User socket notifications *)

Definition user_notification (u : nat) : P UserSocketNotification := fun y =>
  match UserNotifications y !! u with Some n => Ret n y | None => Stop UseAfterFree end.
Definition set_Events (events : Z) (u : nat) : P unit :=
  let* n := user_notification u in
  modify (fun y => set_UserNotifications (<[u :=
    {| un_FileDescriptor := un_FileDescriptor n; un_EventMask := un_EventMask n;
       un_Events := events |}]> (UserNotifications y)) y).

(** [new UserSocketNotification], its first two members assigned. *)
Definition new_UserSocketNotification (fd mask : Z) : P nat :=
  let* u := gets next_address in
  modify (set_next_address (S u)) ;;
  modify (fun y => set_UserNotifications (<[u :=
    {| un_FileDescriptor := fd; un_EventMask := mask; un_Events := 0 |}]>
    (UserNotifications y)) y) ;;
  new_Condition (u, UserUpdate) ;;
  ret u.
Definition delete_UserSocketNotification (u : nat) : P unit :=
  user_notification u ;;
  delete_Condition (u, UserUpdate) ;;
  modify (fun y => set_UserNotifications (delete u (UserNotifications y)) y).

(** [deleteUserSocketNotification]: a failure is only reported. *)
Definition deleteUserSocketNotification (u : nat) : P unit :=
  lock ;;
  let* n := user_notification u in
  call (sctp_unregisterUserCallback (un_FileDescriptor n)) ;;
  unlock.

(** [userCallback] for a notification of [ext_select], called by sctplib: the
    new value of [*registeredEvents]. *)
Definition userCallback (eventMask registeredEvents : Z) (u : nat) : P Z :=
  let* n := user_notification u in
  set_Events (Z.lor (un_Events n) eventMask) u ;;
  when (has_flag eventMask (un_EventMask n)) (broadcast (u, UserUpdate)) ;;
  ret (clear_flag registeredEvents eventMask).
End Conditions.

Section WrapperSelect.
Context `{!Platform} `{!Kernel}.

(** [addUserSocketNotification], with the break pipe. *)
Definition addUserSocketNotification (u : nat) : A unit :=
  lift lock ;;
  lift (set_Events 0 u) ;;
  let* n := lift (user_notification u) in
  lift (call (sctp_registerUserCallback (un_FileDescriptor n) u (un_EventMask n))) ;;
  let* pipe := lift (gets BreakPipe) in
  (if negb (bool_decide (un_FileDescriptor n = pipe.1)) && negb (bool_decide (pipe.1 = -1))
   then syscall (k_write pipe.2 [84]) ;; ret tt else ret tt) ;;
  lift unlock.

(** ** [SelectData] *)

Record ConditionEntry : Set := {
  ce_fd : Z;
  ce_type : UpdateConditionType;
  ce_condition : cid;
  ce_parent : cid }.

(** The used parts of the arrays, each of [FD_SETSIZE] elements; the
    conditions of the structure are members of the object [sd_address]. *)
Record SelectData : Type := {
  sd_address : nat;
  sd_Conditions : list ConditionEntry;
  sd_UserCallbacks : list (Z * nat) }.

Definition new_SelectData : P SelectData :=
  let* a := gets next_address in
  modify (set_next_address (S a)) ;;
  for_each [SelectGlobal; SelectRead; SelectWrite; SelectExcept]
    (fun k => new_Condition (a, k)) ;;
  for_each [SelectRead; SelectWrite; SelectExcept]
    (fun k => addParent (a, k) (a, SelectGlobal)) ;;
  ret {| sd_address := a; sd_Conditions := []; sd_UserCallbacks := [] |}.
Definition delete_SelectData (sd : SelectData) : P unit :=
  for_each [SelectGlobal; SelectRead; SelectWrite; SelectExcept]
    (fun k => delete_Condition (sd_address sd, k)).

(** Both cases of [collectSCTP_FDs] end like this; an index behind the end of
    the arrays is out of bounds. *)
Definition add_condition (sd : SelectData) (fd : Z) (type : UpdateConditionType) (c : cid)
  : P SelectData :=
  if bool_decide (Z.of_nat (length (sd_Conditions sd)) < FD_SETSIZE) then
    let parent := (sd_address sd, select_kind type) in
    addParent c parent ;;
    ret {| sd_address := sd_address sd;
           sd_Conditions := sd_Conditions sd ++
             [{| ce_fd := fd; ce_type := type; ce_condition := c; ce_parent := parent |}];
           sd_UserCallbacks := sd_UserCallbacks sd |}
  else stop OutOfBounds.

(** [collectSCTP_FDs] *)
Definition collectSCTP_FDs (sd : SelectData) (fd : Z) (d : ExtSocketDescriptor)
    (type : UpdateConditionType) : P (SelectData * Z) :=
  match SCTPAssociationPtr d, SCTPSocketPtr d with
  | Some a, _ =>
      let* c := assoc_getUpdateCondition a type in
      let* sd := add_condition sd fd type c in
      ret (sd, 0)
  | None, Some p =>
      let* c := sock_getUpdateCondition p type in
      when (bool_decide (type = UCT_Write) && negb (ConnectionOriented d)) (signal c) ;;
      let* sd := add_condition sd fd type c in
      ret (sd, 0)
  | None, None => ret (sd, - EBADF)
  end.

(** The case of a system descriptor in [collectFDs]. *)
Definition collect_system (sd : SelectData) (fd : Z) (d : ExtSocketDescriptor) (eventMask : Z)
  : A SelectData :=
  if bool_decide (Z.of_nat (length (sd_UserCallbacks sd)) < FD_SETSIZE) then
    let* u := lift (new_UserSocketNotification (SystemSocketID d) eventMask) in
    let register event k :=
      when (has_flag eventMask event) (lift (addParent (u, UserUpdate) (sd_address sd, k))) in
    register POLLIN SelectRead ;;
    register POLLOUT SelectWrite ;;
    register POLLERR SelectExcept ;;
    addUserSocketNotification u ;;
    ret {| sd_address := sd_address sd; sd_Conditions := sd_Conditions sd;
           sd_UserCallbacks := sd_UserCallbacks sd ++ [(fd, u)] |}
  else stop OutOfBounds.

(** One of the three steps for an SCTP descriptor. *)
Definition collect_event (fd eventMask event : Z) (d : ExtSocketDescriptor)
    (type : UpdateConditionType) (acc : SelectData * Z) : A (SelectData * Z) :=
  if has_flag eventMask event then lift (collectSCTP_FDs acc.1 fd d type) else ret acc.

(** [collectFDs] *)
Definition collectFDs (sd : SelectData) (fd eventMask : Z) : A (SelectData * Z) :=
  let bad := let* r := getErrnoResult (- EBADF) in ret (sd, r) in
  match getSocket fd with
  | None => bad
  | Some i =>
      let* d := desc i in
      match ed_Type d with
      | ESDT_Invalid => bad
      | ESDT_System =>
          let* sd := collect_system sd fd d eventMask in
          ret (sd, 0)
      | ESDT_SCTP =>
          let* acc := collect_event fd eventMask POLLIN d UCT_Read (sd, 0) in
          let* acc := collect_event fd eventMask POLLOUT d UCT_Write acc in
          let* acc := collect_event fd eventMask POLLERR d UCT_Except acc in
          let* r := getErrnoResult acc.2 in
          ret (acc.1, r)
      end
  end.

(** The loop of [ext_select] over the descriptors: the first error ends it. *)
Definition event_mask (fds : FdSets) (i : Z) : Z :=
  let mask := if SAFE_FD_ISSET i (readfds fds) then Z.lor POLLIN POLLPRI else 0 in
  let mask := if SAFE_FD_ISSET i (writefds fds) then Z.lor mask POLLOUT else mask in
  if SAFE_FD_ISSET i (exceptfds fds) then Z.lor mask POLLERR else mask.
Fixpoint collect_all (l : list Z) (fds : FdSets) (sd : SelectData) : A (SelectData * Z) :=
  match l with
  | [] => ret (sd, 0)
  | i :: l =>
      let mask := event_mask fds i in
      if bool_decide (mask = 0) then collect_all l fds sd
      else
        let* '(sd, result) := collectFDs sd i mask in
        if bool_decide (result = 0) then collect_all l fds sd else ret (sd, result)
  end.

(** ** [ext_select] *)

Definition set_read (s : option (gset Z)) (fds : FdSets) : FdSets :=
  {| readfds := s; writefds := writefds fds; exceptfds := exceptfds fds |}.
Definition set_write (s : option (gset Z)) (fds : FdSets) : FdSets :=
  {| readfds := readfds fds; writefds := s; exceptfds := exceptfds fds |}.
Definition set_except (s : option (gset Z)) (fds : FdSets) : FdSets :=
  {| readfds := readfds fds; writefds := writefds fds; exceptfds := s |}.
Definition clear_in_all (l : list Z) (fds : FdSets) : FdSets :=
  {| readfds := clear_fds l (readfds fds); writefds := clear_fds l (writefds fds);
     exceptfds := clear_fds l (exceptfds fds) |}.

Definition set_type (type : UpdateConditionType) (fd : Z) (fds : FdSets) : FdSets :=
  match type with
  | UCT_Read => set_read (set_fd fd (readfds fds)) fds
  | UCT_Write => set_write (set_fd fd (writefds fds)) fds
  | UCT_Except => set_except (set_fd fd (exceptfds fds)) fds
  end.

(** The loop over the conditions after the wait. *)
Fixpoint harvest_conditions (l : list ConditionEntry) (fds : FdSets) (changes : Z)
  : P (FdSets * Z) :=
  match l with
  | [] => ret (fds, changes)
  | e :: l =>
      let* f := fired (ce_condition e) in
      removeParent (ce_condition e) (ce_parent e) ;;
      if (f : bool) then harvest_conditions l (set_type (ce_type e) (ce_fd e) fds) (changes + 1)
      else harvest_conditions l fds changes
  end.

(** The events of a system descriptor: the sets, and whether one changed. *)
Definition user_events (fd events : Z) (fds : FdSets) : FdSets * bool :=
  let r := bool_decide (readfds fds <> None) && has_flag events (Z.lor POLLIN POLLPRI) in
  let w := bool_decide (writefds fds <> None) && has_flag events POLLOUT in
  let e := bool_decide (exceptfds fds <> None)
           && negb (bool_decide (clear_flag events (Z.lor (Z.lor POLLIN POLLPRI) POLLOUT) = 0)) in
  let fds := if r then set_type UCT_Read fd fds else fds in
  let fds := if w then set_type UCT_Write fd fds else fds in
  let fds := if e then set_type UCT_Except fd fds else fds in
  (fds, r || w || e).

Fixpoint harvest_users (l : list (Z * nat)) (fds : FdSets) (changes : Z) : P (FdSets * Z) :=
  match l with
  | [] => ret (fds, changes)
  | (fd, u) :: l =>
      deleteUserSocketNotification u ;;
      let* n := user_notification u in
      let '(fds, changed) := user_events fd (un_Events n) fds in
      delete_UserSocketNotification u ;;
      harvest_users l fds (if changed then changes + 1 else changes)
  end.

(** The wait between the two halves, without the lock. *)
Definition select_wait (sd : SelectData) (timeout : option (Z * Z))
    (waits : list (Condition.WaitResult * P unit)) : A (Z * option (Z * Z)) :=
  if negb (bool_decide (sd_Conditions sd = [])) || negb (bool_decide (sd_UserCallbacks sd = []))
  then lift (wait_for (bool_decide (timeout = None)) (sd_address sd, SelectGlobal) waits) ;;
       ret (0, timeout)
  else
    let* '(result, (_, timeout)) := syscall_with (k_select 0 (∅, ∅, ∅) timeout) in
    ret (result, timeout).

(** The second half, with the lock: the sets and the number of changes. *)
Definition select_harvest (sd : SelectData) (fds : FdSets) : P (FdSets * Z) :=
  let fds := clear_in_all (ce_fd <$> sd_Conditions sd) fds in
  let* '(fds, changes) := harvest_conditions (sd_Conditions sd) fds 0 in
  let fds := clear_in_all (sd_UserCallbacks sd).*1 fds in
  harvest_users (sd_UserCallbacks sd) fds changes.

(** The part of [ext_select] with a running event thread. *)
Definition select_sctp (n : Z) (fds : FdSets) (timeout : option (Z * Z))
    (waits : list (Condition.WaitResult * P unit)) : A (Z * (FdSets * option (Z * Z))) :=
  lift lock ;;
  let* sd := lift new_SelectData in
  let* '(sd, result) := collect_all (seqZ 0 (Z.min n FD_SETSIZE)) fds sd in
  let* '(result, timeout) :=
    if bool_decide (result = 0) then
      lift unlock ;;
      let* r := select_wait sd timeout waits in
      lift lock ;;
      ret r
    else ret (result, timeout) in
  let* '(fds, changes) := lift (select_harvest sd fds) in
  lift unlock ;;
  let* r := return_with (fds, timeout) (if bool_decide (result < 0) then result else changes) in
  lift (delete_SelectData sd) ;;
  ret r.

(** ** [select_wrapper] *)

(** The first loop: the sets for the system, the largest descriptor, the
    reverse mapping, and whether there is a one-to-many socket of SCTP. *)
Record Converted : Type := {
  cv_r : gset Z; cv_w : gset Z; cv_e : gset Z;
  cv_max : Z;
  cv_reverse : gmap Z Z;
  cv_fake : bool }.
Definition nothing_converted : Converted :=
  {| cv_r := ∅; cv_w := ∅; cv_e := ∅; cv_max := 0; cv_reverse := ∅; cv_fake := false |}.

Definition convert_system (fds : FdSets) (i fd : Z) (c : Converted) : Converted :=
  let add (s : option (gset Z)) (acc : gset Z) := if SAFE_FD_ISSET i s then {[fd]} ∪ acc else acc in
  {| cv_r := add (readfds fds) (cv_r c); cv_w := add (writefds fds) (cv_w c);
     cv_e := add (exceptfds fds) (cv_e c); cv_max := Z.max (cv_max c) fd;
     cv_reverse := <[fd := i]> (cv_reverse c); cv_fake := cv_fake c |}.

Fixpoint convert_all (l : list Z) (fds : FdSets) (c : Converted) : A Converted :=
  match l with
  | [] => ret c
  | i :: l =>
      if SAFE_FD_ISSET i (readfds fds) || SAFE_FD_ISSET i (writefds fds)
         || SAFE_FD_ISSET i (exceptfds fds)
      then
        match getSocket i with
        | None => convert_all l fds c
        | Some k =>
            let* d := desc k in
            if bool_decide (ed_Type d = ESDT_System) then
              if fits (SystemSocketID d)
              then convert_all l fds (convert_system fds i (SystemSocketID d) c)
              else stop OutOfBounds
            else if bool_decide (ed_Type d = ESDT_SCTP) && negb (ConnectionOriented d) then
              convert_all l fds {| cv_r := cv_r c; cv_w := cv_w c; cv_e := cv_e c;
                cv_max := cv_max c; cv_reverse := cv_reverse c; cv_fake := true |}
            else convert_all l fds c
        end
      else convert_all l fds c
  end.

(** The sets of the system back in the caller's descriptors, for every
    descriptor from 0 to the largest. *)
Fixpoint convert_back (l : list Z) (reverse : gmap Z Z) (got : gset Z) (s : option (gset Z))
  : A (option (gset Z)) :=
  match l with
  | [] => ret s
  | i :: l =>
      if bool_decide (i ∈ got) then
        match reverse !! i with
        | Some fd => convert_back l reverse got (set_fd fd s)
        | None => stop OutOfBounds
        end
      else convert_back l reverse got s
  end.

(** The loop over the write set with a one-to-many socket: its descriptors
    stay and are counted, all others are removed. *)
Fixpoint fake_write (l : list Z) (s : option (gset Z)) (result : Z)
  : A (option (gset Z) * Z) :=
  match l with
  | [] => ret (s, result)
  | i :: l =>
      if SAFE_FD_ISSET i s then
        match getSocket i with
        | None => fake_write l (clear_fds [i] s) result
        | Some k =>
            let* d := desc k in
            if bool_decide (ed_Type d = ESDT_SCTP) && negb (ConnectionOriented d)
            then fake_write l (set_fd i s) (result + 1)
            else fake_write l (clear_fds [i] s) result
        end
      else fake_write l s result
  end.

Definition SAFE_FD_ZERO (s : option (gset Z)) : option (gset Z) := (fun _ => ∅) <$> s.

Definition select_wrapper (n : Z) (fds : FdSets) (timeout : option (Z * Z))
  : A (Z * (FdSets * option (Z * Z))) :=
  let* c := convert_all (seqZ 0 (Z.min (u32 n) FD_SETSIZE)) fds nothing_converted in
  let* '(result, ((r, w, e), remaining)) :=
    syscall_with (k_select (cv_max c + 1) (cv_r c, cv_w c, cv_e c)
                    (if cv_fake c then Some (0, 0) else timeout)) in
  let timeout := if cv_fake c then timeout else remaining in
  if bool_decide (0 <= result) then
    let* '(written, result) :=
      if cv_fake c then fake_write (seqZ 0 FD_SETSIZE) (writefds fds) result
      else ret (SAFE_FD_ZERO (writefds fds), result) in
    let all := seqZ 0 (cv_max c + 1) in
    let* r := convert_back all (cv_reverse c) r (SAFE_FD_ZERO (readfds fds)) in
    let* w := convert_back all (cv_reverse c) w written in
    let* e := convert_back all (cv_reverse c) e (SAFE_FD_ZERO (exceptfds fds)) in
    ret (result, ({| readfds := r; writefds := w; exceptfds := e |}, timeout))
  else ret (result, (fds, timeout)).

(** [ext_select] *)
Definition ext_select (n : Z) (fds : FdSets) (timeout : option (Z * Z))
    (waits : list (Condition.WaitResult * P unit)) : A (Z * (FdSets * option (Z * Z))) :=
  let* running := lift (gets ThreadRunning) in
  if (running : bool) then select_sctp n fds timeout waits else select_wrapper n fds timeout.

(** ** [ext_poll] *)

Record pollfd : Set := { pfd : Z; pevents : Z; prevents : Z }.
Definition set_revents (v : Z) (p : pollfd) : pollfd :=
  {| pfd := pfd p; pevents := pevents p; prevents := v |}.

(** The sets and the largest descriptor. *)
Definition poll_add (acc : FdSets * Z) (p : pollfd) : FdSets * Z :=
  if fits (pfd p) then
    let fds := acc.1 in
    let fds := if has_flag (pevents p) POLLIN then set_type UCT_Read (pfd p) fds else fds in
    let fds := if has_flag (pevents p) POLLOUT then set_type UCT_Write (pfd p) fds else fds in
    (set_type UCT_Except (pfd p) fds, Z.max acc.2 (pfd p))
  else acc.

(** The flags of an element after the call of [ext_select]. *)
Definition poll_result (fds : FdSets) (p : pollfd) : pollfd :=
  if fits (pfd p) then
    let bits s event := if SAFE_FD_ISSET (pfd p) s && has_flag (pevents p) event then event else 0 in
    set_revents (Z.lor (Z.lor (bits (readfds fds) POLLIN) (bits (writefds fds) POLLOUT))
      (if SAFE_FD_ISSET (pfd p) (exceptfds fds) then POLLERR else 0)) p
  else p.

Definition poll_timeout (time : Z) : option (Z * Z) :=
  if bool_decide (time < 0) then None else Some (time / 1000, (time mod 1000) * 1000).

Definition ext_poll (fdlist : list pollfd) (time : Z)
    (waits : list (Condition.WaitResult * P unit)) : A (Z * list pollfd) :=
  let '(fds, n) := foldl poll_add ({| readfds := Some ∅; writefds := Some ∅;
                                      exceptfds := Some ∅ |}, 0) fdlist in
  if existsb (fun p => fits (pfd p)) fdlist then
    let fdlist := set_revents 0 <$> fdlist in
    let* '(result, (fds, _)) := ext_select (n + 1) fds (poll_timeout time) waits in
    if bool_decide (result < 0) then ret (result, fdlist)
    else
      let fdlist := poll_result fds <$> fdlist in
      let count := length (filter (fun p => fits (pfd p) = true /\ prevents p <> 0) fdlist) in
      ret (Z.of_nat count, fdlist)
  else ret (0, (fun p => set_revents POLLNVAL p) <$> fdlist).
End WrapperSelect.
