(* ===== verification/Runs.v ===== *)
(** * Running operations of the socket layer

    [runs l m y r l' y']: started at lock level [l] in the state [y], the
    operation [m] returns [r] at lock level [l'] in the state [y'], and the
    cancel state of the thread follows the lock: it is what it was whenever the
    level is zero, and disabled above.  A balanced operation has [l' = l]. *)

From S2P Require Import Prelude MultiMap Memory Notification NotificationQueue State.
From S2P Require Import Association Socket.
From S2P Require Condition.
Local Open Scope Z_scope.

Section Runs.
Context `{!Platform}.

(** The state [y] at lock level [l], for a thread whose cancel state is [ce]
    outside of the lock; [old] is the stale [OldCancelState] at level 0. *)
Definition relock (l : Z) (ce old : bool) (y : Sys) : Sys :=
  set_LockLevel l
    (if bool_decide (l = 0) then set_CancelEnabled ce (set_OldCancelState old y)
     else set_CancelEnabled false (set_OldCancelState ce y)).

Definition runs {A} (l : Z) (m : P A) (y : Sys) (r : A) (l' : Z) (y' : Sys) : Prop :=
  forall ce old, exists old', m (relock l ce old y) = Ret r (relock l' ce old' y').

(** The levels the mutex counter can take without wrapping. *)
Definition level_ok (l : Z) : Prop := 0 <= l < 2 ^ 31.

Lemma relock_proj {X} (f : Sys -> X) l ce old y :
  (forall v z, f (set_LockLevel v z) = f z) ->
  (forall v z, f (set_CancelEnabled v z) = f z) ->
  (forall v z, f (set_OldCancelState v z) = f z) ->
  f (relock l ce old y) = f y.
Proof. intros E1 E2 E3. unfold relock. rewrite E1. case_bool_decide; rewrite E2, E3; done. Qed.

Lemma relock_set (g : Sys -> Sys) l ce old y :
  (forall v z, g (set_LockLevel v z) = set_LockLevel v (g z)) ->
  (forall v z, g (set_CancelEnabled v z) = set_CancelEnabled v (g z)) ->
  (forall v z, g (set_OldCancelState v z) = set_OldCancelState v (g z)) ->
  g (relock l ce old y) = relock l ce old (g y).
Proof. intros E1 E2 E3. unfold relock. rewrite E1. case_bool_decide; rewrite E2, E3; done. Qed.

Lemma runs_ret {A} l (a : A) y : runs l (ret a) y a l y.
Proof. intros ce old. by exists old. Qed.

Lemma runs_bind {A B} l (m : P A) (k : A -> P B) y a l1 y1 b l2 y2 :
  runs l m y a l1 y1 -> runs l1 (k a) y1 b l2 y2 -> runs l (bind m k) y b l2 y2.
Proof.
  intros Hm Hk ce old. destruct (Hm ce old) as [old1 Hm'].
  destruct (Hk ce old1) as [old2 Hk']. exists old2. unfold bind. by rewrite Hm'.
Qed.

(** The counterpart of [runs] for an operation that stops with the fault [f]. *)
Definition stops {A} (f : Fault) (l : Z) (m : P A) (y : Sys) : Prop :=
  forall ce old, m (relock l ce old y) = Stop f.

Lemma stops_stop {A} f l y : stops f l (stop (A := A) f) y.
Proof. by intros ce old. Qed.

Lemma stops_first {A B} f l (m : P A) (k : A -> P B) y : stops f l m y -> stops f l (bind m k) y.
Proof. intros Hm ce old. unfold bind. by rewrite Hm. Qed.

Lemma stops_then {A B} f l (m : P A) (k : A -> P B) y a l1 y1 :
  runs l m y a l1 y1 -> stops f l1 (k a) y1 -> stops f l (bind m k) y.
Proof.
  intros Hm Hk ce old. destruct (Hm ce old) as [old1 Hm']. unfold bind. by rewrite Hm'.
Qed.

(** Rewriting the result or the final state. *)
Lemma runs_eq {A} l (m : P A) y r r' l1 l1' y1 y1' :
  runs l m y r l1 y1 -> r = r' -> l1 = l1' -> y1 = y1' -> runs l m y r' l1' y1'.
Proof. by intros Hm -> -> ->. Qed.

Lemma runs_lock l y : level_ok l -> runs l lock y tt (l + 1) y.
Proof.
  intros Hl ce old. exists ce. unfold lock, relock.
  rewrite (bool_decide_false (l + 1 = 0)) by (unfold level_ok in Hl; lia). simpl.
  rewrite (wrap_small 32) by (unfold level_ok in Hl; lia).
  destruct (decide (l = 0)) as [->|Hne].
  - rewrite !bool_decide_true by done. done.
  - rewrite !(bool_decide_false (l = 0)), (bool_decide_false (l + 1 = 1)) by lia. done.
Qed.

Lemma runs_unlock l y : 0 <= l -> runs (l + 1) unlock y tt l y.
Proof.
  intros Hl ce old. exists ce. unfold unlock, relock. simpl.
  rewrite (bool_decide_false (l + 1 = 0)) by lia. simpl.
  replace (l + 1 - 1) with l by lia. case_bool_decide; done.
Qed.

Lemma runs_ask {A} l (f : W -> A) y : runs l (ask f) y (f (world y)) l y.
Proof.
  intros ce old. exists old. unfold ask, gets. f_equal.
  by rewrite (relock_proj world).
Qed.

Lemma runs_call {A} l (f : W -> A * W) y :
  runs l (call f) y (f (world y)).1 l (set_world (f (world y)).2 y).
Proof.
  intros ce old. exists old. unfold call. rewrite (relock_proj world) by done.
  destruct (f (world y)) as [a w]. simpl. f_equal. by apply (relock_set (set_world w)).
Qed.

Lemma runs_assoc l a o y : assocs y !! a = Some o -> runs l (assoc a) y o l y.
Proof.
  intros Ha ce old. exists old. unfold assoc. rewrite (relock_proj assocs) by done.
  by rewrite Ha.
Qed.

Lemma runs_sock l p s y : sockets y !! p = Some s -> runs l (sock p) y s l y.
Proof.
  intros Hp ce old. exists old. unfold sock. rewrite (relock_proj sockets) by done.
  by rewrite Hp.
Qed.

Lemma runs_modify l (g : Sys -> Sys) y :
  (forall ce old, g (relock l ce old y) = relock l ce old (g y)) ->
  runs l (modify g) y tt l (g y).
Proof. intros Hg ce old. exists old. unfold modify. by rewrite Hg. Qed.

Lemma runs_gets {A} l (f : Sys -> A) y :
  (forall ce old, f (relock l ce old y) = f y) -> runs l (gets f) y (f y) l y.
Proof. intros Hf ce old. exists old. unfold gets. by rewrite Hf. Qed.

Definition put_assoc (a : nat) (o : SCTPAssociation) (y : Sys) : Sys :=
  set_assocs (<[a := o]> (assocs y)) y.
Definition put_sock (p : nat) (s : SCTPSocket) (y : Sys) : Sys :=
  set_sockets (<[p := s]> (sockets y)) y.

Lemma runs_upd_assoc l a o f y :
  assocs y !! a = Some o -> runs l (upd_assoc a f) y tt l (put_assoc a (f o) y).
Proof.
  intros Ha. eapply runs_bind; [by apply runs_assoc|].
  intros ce old. exists old. unfold modify, put_assoc. f_equal.
  rewrite (relock_proj assocs) by done.
  apply (relock_set (set_assocs (<[a := f o]> (assocs y)))); done.
Qed.

Lemma runs_upd_sock l p s f y :
  sockets y !! p = Some s -> runs l (upd_sock p f) y tt l (put_sock p (f s) y).
Proof.
  intros Hp. eapply runs_bind; [by apply runs_sock|].
  intros ce old. exists old. unfold modify, put_sock. f_equal.
  rewrite (relock_proj sockets) by done.
  apply (relock_set (set_sockets (<[p := f s]> (sockets y)))); done.
Qed.

Lemma runs_on_conditions {A} (l : Z) (m : Condition.C (K := cid) A) (y : Sys) r c :
  m (conditions y) = Ret r c -> runs l (on_conditions m) y r l (set_conditions c y).
Proof.
  intros Hm ce old. exists old. unfold on_conditions.
  rewrite (relock_proj conditions) by done. rewrite Hm. f_equal.
  by apply (relock_set (set_conditions c)).
Qed.

(** ** Live conditions *)

(** The conditions form a graph along the ranks of their kinds. *)
Definition conditions_ok (y : Sys) : Prop :=
  Condition.graph_ok cond_rank (Condition.conds (conditions y)).
Definition live_condition (y : Sys) (c : cid) : Prop :=
  is_Some (Condition.conds (conditions y) !! c).
Definition is_fired (y : Sys) (c : cid) : Prop :=
  exists d, Condition.conds (conditions y) !! c = Some d /\ Condition.Fired d = true.

Lemma runs_broadcast l c y :
  conditions_ok y -> live_condition y c ->
  exists cs, runs l (broadcast c) y tt l (set_conditions cs y)
    /\ Condition.fires c (Condition.conds (conditions y)) (Condition.conds cs).
Proof.
  intros Hok Hc.
  destruct (Condition.visit_fires Condition.broadcast Condition.PthreadBroadcast
              (fun _ _ => eq_refl) cond_rank cond_fuel c (conditions y)) as (s' & Hrun & Hf);
    [done | done | destruct c as [? []]; unfold cond_rank, cond_fuel; simpl; lia |].
  exists s'. split; [by apply runs_on_conditions|]. done.
Qed.

(** Broadcasting sets the flag of the condition and of its parents. *)
Lemma broadcast_is_fired c c' y y' :
  live_condition y c' ->
  Condition.fires c (Condition.conds (conditions y)) (Condition.conds (conditions y')) ->
  rtc (Condition.parent (Condition.conds (conditions y))) c c' ->
  is_fired y' c'.
Proof.
  intros [d Hd] [Hs Hf] Hr.
  destruct (proj1 (Condition.same_parents_dom _ _ c' Hs)) as [d' Hd']; [by eexists|].
  exists d'. split; [done|]. apply (Hf _ _ _ Hd Hd'). by right.
Qed.

Lemma fires_keeps_graph c y y' :
  conditions_ok y ->
  Condition.fires c (Condition.conds (conditions y)) (Condition.conds (conditions y')) ->
  conditions_ok y'.
Proof.
  intros Hok [Hs _]. unfold conditions_ok.
  apply (Condition.graph_ok_proper cond_rank _ _ Hs). exact Hok.
Qed.
End Runs.

(** ** Automation: step through the binds of an operation.  The side
    conditions are object lookups in an updated state. *)

Lemma lookup_put_assoc `{!Platform} a o y : assocs (put_assoc a o y) !! a = Some o.
Proof. apply lookup_insert_eq. Qed.
Lemma lookup_put_sock `{!Platform} p s y : sockets (put_sock p s y) !! p = Some s.
Proof. apply lookup_insert_eq. Qed.
Lemma lookup_put_assoc_ne `{!Platform} a b o y :
  a <> b -> assocs (put_assoc a o y) !! b = assocs y !! b.
Proof. apply lookup_insert_ne. Qed.
Lemma lookup_put_sock_ne `{!Platform} p q s y :
  p <> q -> sockets (put_sock p s y) !! q = sockets y !! q.
Proof. apply lookup_insert_ne. Qed.

Ltac find_object :=
  first
    [ eassumption
    | apply lookup_put_assoc
    | apply lookup_put_sock
    | rewrite lookup_put_assoc_ne by first [assumption | congruence | lia]; find_object
    | rewrite lookup_put_sock_ne by first [assumption | congruence | lia]; find_object
    | progress (cbn [assocs sockets put_assoc put_sock set_assocs set_sockets set_world
                     set_conditions]); find_object ].

Ltac level := solve [ assumption | unfold level_ok in *; lia ].

Ltac runs_prim :=
  lazymatch goal with
  | |- runs _ (ret _) _ _ _ _ => apply runs_ret
  | |- runs _ lock _ _ _ _ => apply runs_lock; level
  | |- runs _ unlock _ _ _ _ => apply runs_unlock; level
  | |- runs _ (assoc _) _ _ _ _ => apply runs_assoc; find_object
  | |- runs _ (sock _) _ _ _ _ => apply runs_sock; find_object
  | |- runs _ (upd_assoc _ _) _ _ _ _ => eapply runs_upd_assoc; find_object
  | |- runs _ (upd_sock _ _) _ _ _ _ => eapply runs_upd_sock; find_object
  | |- runs _ (ask _) _ _ _ _ => apply runs_ask
  | |- runs _ (call _) _ _ _ _ => apply runs_call
  | |- runs _ (gets _) _ _ _ _ => apply runs_gets; intros; reflexivity
  end.

Ltac rstep :=
  lazymatch goal with
  | |- runs _ (bind _ _) _ _ _ _ => eapply runs_bind; [solve [runs_prim] |]; cbv beta
  end.
Ltac sstep :=
  lazymatch goal with
  | |- stops _ _ (bind _ _) _ => eapply stops_then; [solve [runs_prim] |]; cbv beta
  end.
Ltac rsteps := repeat rstep; try solve [runs_prim].

(** ** Runs of the small operations *)

Section SmallRuns.
Context `{!Platform}.

Lemma runs_getAssociation l p s i b e o y :
  level_ok l -> sockets y !! p = Some s -> mm_find i (s_AssociationList s) = Some e ->
  assocs y !! e.2 = Some o ->
  runs l (getAssociationForAssociationID p i b) y
    (if negb (a_IsShuttingDown o && b) then Some e.2 else None) l y.
Proof.
  intros Hl Hs He Ho. unfold getAssociationForAssociationID. rsteps. rewrite He.
  destruct e as [k a]. eapply runs_bind; [rsteps|]. cbv beta. rsteps.
Qed.

Lemma runs_getAssociation_none l p s i b y :
  level_ok l -> sockets y !! p = Some s -> mm_find i (s_AssociationList s) = None ->
  runs l (getAssociationForAssociationID p i b) y None l y.
Proof.
  intros Hl Hs He. unfold getAssociationForAssociationID. rsteps. rewrite He. rsteps.
Qed.

Lemma runs_sock_hasData l p s y :
  level_ok l -> sockets y !! p = Some s ->
  runs l (sock_hasData p) y
    (has_flag (s_Flags s) SSF_GlobalQueue && Spec.hasData (s_NotificationFlags s) (s_GlobalQueue s))
    l y.
Proof. intros Hl Hs. unfold sock_hasData. rsteps. Qed.

Lemma runs_assoc_hasData l a o y :
  level_ok l -> assocs y !! a = Some o ->
  runs l (assoc_hasData a) y (Spec.hasData (a_NotificationFlags o) (a_InQueue o)) l y.
Proof. intros Hl Ho. unfold assoc_hasData. rsteps. Qed.

Definition ready_to_read (s : SCTPSocket) : bool :=
  (has_flag (s_Flags s) SSF_GlobalQueue && Spec.hasData (s_NotificationFlags s) (s_GlobalQueue s))
  || bool_decide (s_ConnectionRequests s <> []).

Lemma runs_update_ReadReady l p s y :
  level_ok l -> sockets y !! p = Some s ->
  runs l (update_ReadReady p) y tt l (put_sock p (set_s_ReadReady (ready_to_read s) s) y).
Proof.
  intros Hl Hs. unfold update_ReadReady.
  eapply runs_bind; [by apply runs_sock_hasData|]. cbv beta. rsteps.
Qed.

(** [getErrorCode]: the result, and the object with its exception flag. *)
Definition error_code (o : SCTPAssociation) : Z :=
  if a_ShutdownCompleteNotification o then - ECONNRESET
  else if a_CommunicationLostNotification o then - ECONNABORTED else 0.

Lemma runs_getErrorCode l p s i e o y :
  level_ok l -> sockets y !! p = Some s -> mm_find i (s_AssociationList s) = Some e ->
  assocs y !! e.2 = Some o ->
  runs l (getErrorCode p i) y (error_code o) l
    (if bool_decide (error_code o = 0) then y
     else put_assoc e.2 (set_a_HasException true o) y).
Proof.
  intros Hl Hs He Ho. unfold getErrorCode, error_code.
  eapply runs_bind; [by eapply runs_getAssociation|]. cbv beta. rewrite andb_false_r. simpl.
  rstep. destruct (a_ShutdownCompleteNotification o); [rsteps|].
  destruct (a_CommunicationLostNotification o); rsteps.
Qed.

Lemma runs_getErrorCode_none l p s i y :
  level_ok l -> sockets y !! p = Some s -> mm_find i (s_AssociationList s) = None ->
  runs l (getErrorCode p i) y 0 l y.
Proof.
  intros Hl Hs He. unfold getErrorCode.
  eapply runs_bind; [by eapply runs_getAssociation_none|]. cbv beta. simpl. rsteps.
Qed.
End SmallRuns.

(** ** Conditions and waiting *)

Section WaitRuns.
Context `{!Platform}.

(** The state after the flag of a condition has been read. *)
Definition clear_fired (c : cid) (y : Sys) : Sys :=
  match Condition.conds (conditions y) !! c with
  | Some d => set_conditions (Condition.set_cond c
      {| Condition.Fired := false; Condition.ParentSet := Condition.ParentSet d |}
      (conditions y)) y
  | None => y
  end.

Lemma sockets_clear c y : sockets (clear_fired c y) = sockets y.
Proof. unfold clear_fired. by destruct (Condition.conds (conditions y) !! c). Qed.
Lemma assocs_clear c y : assocs (clear_fired c y) = assocs y.
Proof. unfold clear_fired. by destruct (Condition.conds (conditions y) !! c). Qed.
Lemma world_clear c y : world (clear_fired c y) = world y.
Proof. unfold clear_fired. by destruct (Condition.conds (conditions y) !! c). Qed.

Lemma runs_fired l c d y :
  Condition.conds (conditions y) !! c = Some d ->
  runs l (fired c) y (Condition.Fired d) l (clear_fired c y).
Proof.
  intros Hc. unfold clear_fired. rewrite Hc. apply runs_on_conditions.
  unfold Condition.fired, Condition.set_Fired, Condition.load_cond, bind. by rewrite !Hc.
Qed.

Lemma clear_fired_id c d y :
  Condition.conds (conditions y) !! c = Some d -> Condition.Fired d = false ->
  clear_fired c y = y.
Proof.
  intros Hc Hd. unfold clear_fired. rewrite Hc.
  assert (Hset : Condition.set_cond c {| Condition.Fired := false;
    Condition.ParentSet := Condition.ParentSet d |} (conditions y) = conditions y).
  { unfold Condition.set_cond. rewrite <- Hd. destruct d; simpl in *. rewrite insert_id by done.
    by destruct (conditions y). }
  rewrite Hset. by destruct y.
Qed.

(** One wait: the condition is not fired before, and is fired by the others. *)
Lemma runs_wait_once l ac c d others y y1 :
  Condition.conds (conditions y) !! c = Some d -> Condition.Fired d = false ->
  runs l others y tt l y1 -> is_fired y1 c ->
  runs l (wait_condition ac c [others]) y [] l (clear_fired c y1).
Proof.
  intros Hc Hd Hothers (d1 & Hc1 & Hd1). unfold wait_condition. cbn [poll_condition length].
  eapply runs_bind; [by apply runs_fired|]. cbv beta. rewrite Hd, (clear_fired_id c d) by done.
  eapply runs_bind; [exact Hothers|]. cbv beta.
  eapply runs_bind; [by apply runs_fired|]. cbv beta. rewrite Hd1. apply runs_ret.
Qed.

(** Without a condition that fires and without other threads, a wait is for ever. *)
Lemma wait_blocks ac c d y :
  Condition.conds (conditions y) !! c = Some d -> Condition.Fired d = false ->
  wait_condition ac c [] y = Stop WouldBlock.
Proof.
  intros Hc Hd. unfold wait_condition. cbn [poll_condition length]. unfold bind, fired, on_conditions.
  unfold Condition.fired, Condition.set_Fired, Condition.load_cond, bind, modify, ret.
  by rewrite !Hc, Hd.
Qed.
End WaitRuns.
