(* ===== verification/WellFormed.v ===== *)
(** * Well-formed states of the socket layer

    The pointers between sockets, associations, conditions and the lists of
    [SCTPSocketMaster], and the two relations between states the proof of
    memory safety ([MemorySafety]) composes: [quiet], the equivalence of
    states with the same objects and lists, and [stable], what an operation
    that may delete connectionless associations guarantees to its caller. *)

From S2P Require Import Prelude MultiMap Memory Notification NotificationQueue State.
From S2P Require Import Association Socket SocketIO SocketOps SocketMaster Runs.
From S2P Require Condition.
Local Open Scope Z_scope.
#[local] Existing Instance Condition.same_parents_equiv.

(** Faults that are undefined behaviour: accesses to memory that is not, or no
    longer, there.  The others are the program's own [abort()], a wait for an
    event that never comes, and a recursion bound of the model. *)
Definition memory_fault (f : Fault) : Prop :=
  f = UseAfterFree \/ f = NullDereference \/ f = OutOfBounds \/ f = DanglingIterator.
Definition benign (f : Fault) : Prop := ~ memory_fault f.

Section WellFormed.
Context `{!Platform}.

(** What the pointers of the state depend on. *)
Definition skeleton (s : SCTPSocket) :=
  (s_AssociationList s, s_ConnectionlessAssociationList s, s_ConnectionRequests s,
   s_AutoCloseRecursion s).
Definition identity (o : SCTPAssociation) : nat * Z := (a_Socket o, a_AssociationID o).

(** The entry of a socket's list points to an association of the socket that
    has the entry's key as its ID. *)
Definition entry_ok (y : Sys) (p : nat) (e : @entry nat) : Prop :=
  identity <$> assocs y !! e.2 = Some (p, e.1).

Definition association_kinds : list CondKind :=
  [InQueueUpdate; Establish; ShutdownCompleteC; ReadyForTransmit; ReadUpdate; WriteUpdate;
   ExceptUpdate].
Definition socket_conditions : list CondKind :=
  [InQueueUpdate; Establish; ReadUpdate; WriteUpdate; ExceptUpdate].

Record socket_ok (y : Sys) (p : nat) (s : SCTPSocket) : Prop := {
  so_entries : forall e, e ∈ s_AssociationList s -> entry_ok y p e;
  so_unique : NoDup (s_AssociationList s).*1;
  so_connectionless : s_ConnectionlessAssociationList s ⊆ s_AssociationList s;
  so_distinct : NoDup (s_ConnectionlessAssociationList s);
  so_requests : forall r, r ∈ s_ConnectionRequests s ->
    exists e, e ∈ s_AssociationList s /\ e.2 = ic_Association r
              /\ e ∉ s_ConnectionlessAssociationList s;
  so_conditions : forall k, k ∈ socket_conditions -> live_condition y (p, k) }.

Record well_formed (y : Sys) : Prop := {
  wf_sockets : forall p s, sockets y !! p = Some s -> socket_ok y p s;
  wf_registered : forall e, e ∈ SocketList y -> is_Some (sockets y !! e.2);
  wf_assocs : forall a o, assocs y !! a = Some o ->
    is_Some (sockets y !! a_Socket o)
    /\ forall k, k ∈ association_kinds -> live_condition y (a, k);
  wf_graph : conditions_ok y;
  wf_closing : closing_ok (ClosingSockets y);
  wf_fresh : forall a, (next_address y <= a)%nat ->
    assocs y !! a = None /\ sockets y !! a = None }.

(** ** The same objects and lists *)

Record quiet (y y' : Sys) : Prop := {
  q_list : SocketList y' = SocketList y;
  q_closing : ClosingSockets y' = ClosingSockets y;
  q_next : next_address y' = next_address y;
  q_sockets : forall p, skeleton <$> sockets y' !! p = skeleton <$> sockets y !! p;
  q_assocs : forall a, identity <$> assocs y' !! a = identity <$> assocs y !! a;
  q_conditions : Condition.same_parents (Condition.conds (conditions y))
                   (Condition.conds (conditions y')) }.

#[export] Instance quiet_equiv : Equivalence quiet.
Proof.
  split.
  - intros y. split; done.
  - intros x y [H1 H2 H3 H4 H5 H6]. by split.
  - intros x y z [H1 H2 H3 H4 H5 H6] [G1 G2 G3 G4 G5 G6]. split; congruence.
Qed.

Lemma quiet_socket y y' p s : quiet y y' -> sockets y !! p = Some s ->
  exists s', sockets y' !! p = Some s' /\ skeleton s' = skeleton s.
Proof.
  intros Hq Hs. pose proof (q_sockets _ _ Hq p) as E. rewrite Hs in E. simpl in E.
  destruct (sockets y' !! p) as [s'|]; [|discriminate E].
  eexists. split; [reflexivity|]. by apply (inj Some).
Qed.

Lemma quiet_assoc y y' a o : quiet y y' -> assocs y !! a = Some o ->
  exists o', assocs y' !! a = Some o' /\ identity o' = identity o.
Proof.
  intros Hq Ho. pose proof (q_assocs _ _ Hq a) as E. rewrite Ho in E. simpl in E.
  destruct (assocs y' !! a) as [o'|]; [|discriminate E].
  eexists. split; [reflexivity|]. by apply (inj Some).
Qed.

Lemma quiet_live y y' c : quiet y y' -> live_condition y c -> live_condition y' c.
Proof. intros Hq. apply (Condition.same_parents_dom _ _ c (q_conditions _ _ Hq)). Qed.

#[export] Instance entry_ok_proper : Proper (quiet ==> eq ==> eq ==> iff) entry_ok.
Proof. intros y y' Hq p ? <- e ? <-. unfold entry_ok. by rewrite (q_assocs _ _ Hq). Qed.

Lemma socket_ok_quiet y y' p s s' :
  quiet y y' -> skeleton s' = skeleton s -> socket_ok y p s -> socket_ok y' p s'.
Proof.
  intros Hq Hsk [H1 H2 H3 H4 H5 H6]. injection Hsk as E1 E2 E3 E4.
  split; rewrite ?E1, ?E2, ?E3; try done.
  - intros e He. rewrite <- Hq. eauto.
  - intros k Hk. eapply quiet_live; eauto.
Qed.

#[export] Instance well_formed_proper : Proper (quiet ==> iff) well_formed.
Proof.
  assert (Hone : forall y y', quiet y y' -> well_formed y -> well_formed y').
  { intros y y' Hq [H1 H2 H3 H4 Hcl H5].
    assert (Hlive : forall p, is_Some (sockets y !! p) -> is_Some (sockets y' !! p)).
    { intros p [s Hs]. destruct (quiet_socket y y' p s Hq Hs) as (s' & -> & _). eauto. }
    split.
    - intros p s' Hs'.
      destruct (quiet_socket y' y p s' (symmetry Hq) Hs') as (s & Hs & Hsk).
      apply (socket_ok_quiet y y' p s s' Hq); auto.
    - rewrite (q_list _ _ Hq). eauto.
    - intros a o' Ho'.
      destruct (quiet_assoc y' y a o' (symmetry Hq) Ho') as (o & Ho & Hid).
      injection Hid as <- _. destruct (H3 a o Ho) as [Hs Hc]. split; [eauto|].
      intros k Hk. eapply quiet_live; eauto.
    - unfold conditions_ok.
      by apply (Condition.graph_ok_proper cond_rank _ _ (q_conditions _ _ Hq)).
    - by rewrite (q_closing _ _ Hq).
    - intros a. rewrite (q_next _ _ Hq). intros Ha. destruct (H5 a Ha) as [Ea Es].
      pose proof (q_sockets _ _ Hq a) as E1. pose proof (q_assocs _ _ Hq a) as E2.
      rewrite Es in E1. rewrite Ea in E2.
      destruct (sockets y' !! a), (assocs y' !! a); simplify_eq/=; done. }
  intros y y' Hq. split; apply Hone; [done|by symmetry].
Qed.

(** ** What survives an operation that may close associations

    [hole] is a socket whose connectionless associations are being closed. *)

Record socket_stable (hole : bool) (s s' : SCTPSocket) : Prop := {
  ss_requests : s_ConnectionRequests s' = s_ConnectionRequests s;
  ss_guard : s_AutoCloseRecursion s' = s_AutoCloseRecursion s;
  ss_members : s_AssociationList s' ⊆ s_AssociationList s;
  ss_subset : s_ConnectionlessAssociationList s' ⊆ s_ConnectionlessAssociationList s;
  ss_guarded : s_AutoCloseRecursion s = true -> hole = false ->
    s_ConnectionlessAssociationList s' = s_ConnectionlessAssociationList s;
  ss_kept : forall e, e ∈ s_AssociationList s ->
    e ∉ s_ConnectionlessAssociationList s \/ (s_AutoCloseRecursion s = true /\ hole = false) ->
    e ∈ s_AssociationList s' }.

Record stable (hole : option nat) (y y' : Sys) : Prop := {
  st_list : SocketList y' = SocketList y;
  st_sockets : forall p s, sockets y !! p = Some s -> exists s',
    sockets y' !! p = Some s' /\ socket_stable (bool_decide (hole = Some p)) s s' }.

Lemma socket_stable_refl hole s s' : skeleton s' = skeleton s -> socket_stable hole s s'.
Proof. intros Hsk. injection Hsk as E1 E2 E3 E4. split; rewrite ?E1, ?E2; done. Qed.

Lemma socket_stable_trans hole s1 s2 s3 :
  socket_stable hole s1 s2 -> socket_stable hole s2 s3 -> socket_stable hole s1 s3.
Proof.
  intros [A1 A2 Am A3 A4 A5] [B1 B2 Bm B3 B4 B5]. split; try congruence.
  - by transitivity (s_AssociationList s2).
  - by transitivity (s_ConnectionlessAssociationList s2).
  - intros Hg Hh. rewrite B4 by congruence. auto.
  - intros e He [Hn|[Hg Hh]].
    + apply B5; [auto|]. left. auto.
    + apply B5; [auto|]. right. split; congruence.
Qed.

#[export] Instance stable_preorder hole : PreOrder (stable hole).
Proof.
  split.
  - intros y. split; [done|]. intros p s Hs. exists s. split; [done|]. by apply socket_stable_refl.
  - intros x y z [A1 A2] [B1 B2]. split; [congruence|]. intros p s Hs.
    destruct (A2 p s Hs) as (s1 & Hs1 & R1). destruct (B2 p s1 Hs1) as (s2 & Hs2 & R2).
    exists s2. split; [done|]. by eapply socket_stable_trans.
Qed.

Lemma quiet_stable hole y y' : quiet y y' -> stable hole y y'.
Proof.
  intros Hq. split; [by apply q_list|]. intros p s Hs.
  destruct (quiet_socket y y' p s Hq Hs) as (s' & Hs' & Hsk). exists s'. split; [done|].
  by apply socket_stable_refl.
Qed.

(** Without a hole, more is kept. *)
Lemma stable_hole hole y y' : stable None y y' -> stable hole y y'.
Proof.
  intros [H1 H2]. split; [done|]. intros p s Hs. destruct (H2 p s Hs) as (s' & Hs' & [A1 A2 Am A3 A4 A5]).
  exists s'. split; [done|]. split; try done.
  - intros Hg _. auto.
  - intros e He [Hn|[Hg _]]; apply A5; auto.
Qed.

Lemma stable_socket hole y y' p : stable hole y y' ->
  is_Some (sockets y !! p) -> is_Some (sockets y' !! p).
Proof. intros [_ Hst] [s Hs]. destruct (Hst p s Hs) as (s' & Hs' & _). eauto. Qed.

(** ** Accesses to objects *)

Lemma wp_sock E p s (Q : SCTPSocket -> Sys -> Prop) y :
  sockets y !! p = Some s -> Q s y -> wp E (sock p) Q y.
Proof. intros Hs HQ. unfold wp, sock. by rewrite Hs. Qed.
Lemma wp_assoc E a o (Q : SCTPAssociation -> Sys -> Prop) y :
  assocs y !! a = Some o -> Q o y -> wp E (assoc a) Q y.
Proof. intros Ho HQ. unfold wp, assoc. by rewrite Ho. Qed.
Lemma wp_upd_sock E p s f (Q : unit -> Sys -> Prop) y :
  sockets y !! p = Some s -> Q tt (put_sock p (f s) y) -> wp E (upd_sock p f) Q y.
Proof. intros Hs HQ. unfold wp, upd_sock, bind, sock. by rewrite Hs. Qed.
Lemma wp_upd_assoc E a o f (Q : unit -> Sys -> Prop) y :
  assocs y !! a = Some o -> Q tt (put_assoc a (f o) y) -> wp E (upd_assoc a f) Q y.
Proof. intros Ho HQ. unfold wp, upd_assoc, bind, assoc. by rewrite Ho. Qed.

(** Assigning to a socket keeps the state well-formed if the socket is. *)
Lemma wf_put_sock p s s' y :
  well_formed y -> sockets y !! p = Some s -> socket_ok y p s' -> well_formed (put_sock p s' y).
Proof.
  intros Hwf Hs Hok.
  assert (Hdom : forall q, is_Some (sockets y !! q) -> is_Some (sockets (put_sock p s' y) !! q)).
  { intros q Hq. simpl. destruct (decide (p = q)) as [<-|];
      [rewrite lookup_insert_eq; eauto|by rewrite lookup_insert_ne]. }
  split.
  - intros q t. simpl. destruct (decide (p = q)) as [<-|Hne].
    + rewrite lookup_insert_eq. intros [= <-]. destruct Hok. by split.
    + rewrite lookup_insert_ne by done. intros Ht. destruct (wf_sockets y Hwf q t Ht). by split.
  - intros x Hx. apply Hdom, (wf_registered y Hwf x Hx).
  - intros a o Ho. destruct (wf_assocs y Hwf a o Ho). eauto.
  - apply (wf_graph y Hwf).
  - apply (wf_closing y Hwf).
  - intros a Ha. destruct (wf_fresh y Hwf a Ha) as [E1 E2]. split; [done|]. simpl.
    rewrite lookup_insert_ne; [done|]. congruence.
Qed.

Lemma quiet_put_assoc a o o' y :
  assocs y !! a = Some o -> identity o' = identity o -> quiet y (put_assoc a o' y).
Proof.
  intros Ho Hid. split; try done. intros b. simpl.
  destruct (decide (a = b)) as [<-|Hne]; [|by rewrite lookup_insert_ne].
  rewrite lookup_insert_eq, Ho. simpl. by rewrite Hid.
Qed.

Lemma quiet_put_sock p s s' y :
  sockets y !! p = Some s -> skeleton s' = skeleton s -> quiet y (put_sock p s' y).
Proof.
  intros Hs Hsk. split; try done. intros q. simpl.
  destruct (decide (p = q)) as [<-|Hne]; [|by rewrite lookup_insert_ne].
  rewrite lookup_insert_eq, Hs. simpl. by rewrite Hsk.
Qed.
End WellFormed.

(** A well-formed state is recognised by evaluation. *)
Section Recognition.
Context `{!Platform}.

Definition socket_check (y : Sys) (p : nat) (s : SCTPSocket) : Prop :=
  Forall (fun e => identity <$> assocs y !! e.2 = Some (p, e.1)) (s_AssociationList s)
  /\ NoDup (s_AssociationList s).*1
  /\ Forall (fun e => e ∈ s_AssociationList s) (s_ConnectionlessAssociationList s)
  /\ NoDup (s_ConnectionlessAssociationList s)
  /\ Forall (fun r => Exists (fun e => e.2 = ic_Association r /\
                                (e ∉ s_ConnectionlessAssociationList s)) (s_AssociationList s))
       (s_ConnectionRequests s)
  /\ Forall (fun k => is_Some (Condition.conds (conditions y) !! (p, k))) socket_conditions.

Definition state_check (y : Sys) : Prop :=
  map_Forall (fun p s => socket_check y p s /\ (p < next_address y)%nat) (sockets y)
  /\ Forall (fun e => is_Some (sockets y !! e.2)) (SocketList y)
  /\ map_Forall (fun a o => is_Some (sockets y !! a_Socket o) /\ (a < next_address y)%nat /\
       Forall (fun k => is_Some (Condition.conds (conditions y) !! (a, k)))
         association_kinds) (assocs y)
  /\ map_Forall (fun k c => set_Forall (fun q =>
       is_Some (Condition.conds (conditions y) !! q) /\ (cond_rank q < cond_rank k)%nat)
       (Condition.ParentSet c)) (Condition.conds (conditions y))
  /\ Sorted Z.lt (ClosingSockets y) /\ Forall (fun k => 0 <= k < 2 ^ 16) (ClosingSockets y).

Lemma state_check_ok y : state_check y -> well_formed y.
Proof.
  intros (H1 & H2 & H3 & H4 & H5 & H6). split.
  - intros p s Hs. destruct (H1 p s Hs) as [(A1 & A2 & A3 & A4 & A5 & A6) _].
    split; try done; try by apply Forall_forall.
    { intros e He. by apply (proj1 (Forall_forall _ _) A3). }
    intros r Hr. apply (proj1 (Forall_forall _ _) A5) in Hr.
    apply Exists_exists in Hr as (e & He & E & Hc). eauto.
  - intros e He. rewrite Forall_forall in H2. auto.
  - intros a o Ho. destruct (H3 a o Ho) as (Hs & _ & Hc). split; [done|]. intros k.
    rewrite Forall_forall in Hc. by apply Hc.
  - split; intros k q (c & Hc & Hq); by destruct (H4 k c Hc q Hq).
  - split; [|done]. apply Sorted_StronglySorted; [intros a b c; lia|done].
  - intros a Ha. split; apply eq_None_not_Some; intros [o Ho].
    + destruct (H3 a o Ho) as (_ & Hlt & _). lia.
    + destruct (H1 a o Ho) as [_ Hlt]. lia.
Qed.

#[export] Instance state_check_dec y : Decision (state_check y).
Proof. unfold state_check, socket_check, set_Forall. apply _. Defined.
End Recognition.
