(* ===== verification/Demo.v ===== *)
(** * A small instance of the platform

    A concrete sctplib and operating system the examples and witnesses of the
    development run on: tables for associations and paths, a store of received
    bytes, a log of sent packets and of unregistered instances.
    [sctp_shutdown] and [sctp_abort] call back synchronously. *)

From S2P Require Import Prelude MultiMap Memory Notification NotificationQueue State.
From S2P Require Condition.
Local Open Scope Z_scope.

Record World : Type := {
  w_clock : Z;
  w_instance : gmap Z Z;
  w_status : gmap Z SCTP_Association_Status;
  w_path : gmap (Z * Z) SCTP_Path_Status;
  w_data : gmap Z (list Z);
  w_sent : list (Z * list Z);
  w_capacity : nat;
  w_unregistered : list Z;
  w_next : Z }.

Definition demo_world : World := {|
  w_clock := 1000; w_instance := ∅; w_status := ∅; w_path := ∅; w_data := ∅;
  w_sent := []; w_capacity := 2; w_unregistered := []; w_next := 1 |}.

Definition tick (w : World) : World := {|
  w_clock := w_clock w + 1; w_instance := w_instance w; w_status := w_status w;
  w_path := w_path w; w_data := w_data w; w_sent := w_sent w; w_capacity := w_capacity w;
  w_unregistered := w_unregistered w; w_next := w_next w |}.
Definition with_status (m : gmap Z SCTP_Association_Status) (w : World) : World := {|
  w_clock := w_clock w; w_instance := w_instance w; w_status := m;
  w_path := w_path w; w_data := w_data w; w_sent := w_sent w; w_capacity := w_capacity w;
  w_unregistered := w_unregistered w; w_next := w_next w |}.
Definition with_data (m : gmap Z (list Z)) (w : World) : World := {|
  w_clock := w_clock w; w_instance := w_instance w; w_status := w_status w;
  w_path := w_path w; w_data := m; w_sent := w_sent w; w_capacity := w_capacity w;
  w_unregistered := w_unregistered w; w_next := w_next w |}.
Definition with_sent (l : list (Z * list Z)) (w : World) : World := {|
  w_clock := w_clock w; w_instance := w_instance w; w_status := w_status w;
  w_path := w_path w; w_data := w_data w; w_sent := l; w_capacity := w_capacity w;
  w_unregistered := w_unregistered w; w_next := w_next w |}.
Definition with_unregistered (l : list Z) (w : World) : World := {|
  w_clock := w_clock w; w_instance := w_instance w; w_status := w_status w;
  w_path := w_path w; w_data := w_data w; w_sent := w_sent w; w_capacity := w_capacity w;
  w_unregistered := l; w_next := w_next w |}.
Definition with_instance (m : gmap Z Z) (w : World) : World := {|
  w_clock := w_clock w; w_instance := m; w_status := w_status w;
  w_path := w_path w; w_data := w_data w; w_sent := w_sent w; w_capacity := w_capacity w;
  w_unregistered := w_unregistered w; w_next := w_next w + 1 |}.

(** Addresses: an IPv4-like name and a port. *)
Definition DemoAddr : Type := string * Z.

Definition demo_sockaddr (a : DemoAddr) : list Z :=
  [2; 0] ++ le_split 2 a.2 ++ replicate 12 0.

#[refine] Instance demo_addresses : SocketAddressI DemoAddr := {|
  getAddressString a format := a.1;
  getPort a := a.2;
  getFamily a := 2;
  isIPv6 a := false;
  getSystemAddress a family := demo_sockaddr a;
  createSocketAddress flags name port :=
    if bool_decide (name = ""%string) then None else Some (name, port);
  createSocketAddress_name flags name :=
    if bool_decide (name = ""%string) then None else Some (name, 0);
  createSocketAddress_sockaddr b :=
    match b with [] => None | _ => Some ("10.0.0.9"%string, 7) end;
  any_address port := ("0.0.0.0"%string, port) |}.
Proof.
  2: done.
  intros addr _. split.
  - unfold demo_sockaddr. rewrite !length_app, length_le_split, length_replicate. simpl. lia.
  - unfold demo_sockaddr, bytes_ok. rewrite !Forall_app. repeat split.
    + repeat (constructor; [by split|]). constructor.
    + apply le_split_ok.
    + apply Forall_replicate. by split.
Defined.

Definition demo_parameters : SCTP_Instance_Parameters :=
  {| maxInitRetransmits := 8; ip_rtoMax := 60000; noOfLocalAddresses := 0;
     localAddressList := []; ip_outStreams := 10; ip_inStreams := 10; ip_delay := 200 |}.

Definition demo_notification : SCTPNotification :=
  {| RemotePort := 0; RemoteAddresses := 0; RemoteAddress := replicate 20 ""%string;
     Content := replicate sizeof_sctp_notification 0; ContentPosition := 0 |}.

Definition demo_receive (assocID streamID n : Z) (peek : bool) (w : World)
  : option Received * World :=
  match w_data w !! assocID with
  | Some d =>
      (Some {| r_data := take (Z.to_nat n) d; r_ssn := 0; r_tsn := 0 |},
       if peek then w else with_data (<[assocID := drop (Z.to_nat n) d]> (w_data w)) w)
  | None => (None, w)
  end.

Definition demo_send (assocID : Z) (data : list Z) (w : World) : Z * World :=
  if bool_decide (length (w_sent w) < w_capacity w)%nat
  then (0, with_sent (w_sent w ++ [(assocID, data)]) w)
  else (-2, w).

#[refine] Instance demo : Platform := {|
  W := World;
  Addr := DemoAddr;
  getMicroTime_ w := (w_clock w, tick w);
  start_thread w := (true, w);
  sctp_getInstanceID a w := w_instance w !! a;
  sctp_getAssocStatus a w := w_status w !! a;
  sctp_setAssocStatus a st w := (0, with_status (<[a := st]> (w_status w)) w);
  sctp_getPathStatus a i w := w_path w !! (a, i);
  sctp_getPrimary a w := 0;
  sctp_setPrimary a i w := (0, w);
  sctp_setRemotePrimary a s w := (0, w);
  sctp_requestHeartbeat a i w := (0, w);
  sctp_changeHeartBeat a i on t w := (0, w);
  sctp_getAssocDefaults i w := Some demo_parameters;
  sctp_setAssocDefaults i p w := (0, w);
  sctp_registerInstance port ins outs n l w := (w_next w, with_instance (w_instance w) w);
  sctp_unregisterInstance i w := (0, with_unregistered (w_unregistered w ++ [i]) w);
  sctp_associatex i outs l port w :=
    (w_next w, with_instance (<[w_next w := i]> (w_instance w)) w);
  sctp_deleteAssociation a w := (0, with_status (delete a (w_status w)) w);
  sctp_receive a s n peek w := demo_receive a s n peek w;
  sctp_send_private a s d ppid path ttl unordered unbundled w := demo_send a d w;
  sctp_shutdown a w := (w, [ShutdownComplete a]);
  sctp_abort a w := (w, [CommunicationLost a]);
  sctp_registerUserCallback fd usn mask w := (0, w);
  sctp_unregisterUserCallback fd w := (0, w);
  SCTP_QUEUE_EXCEEDED := -2;
  SCTP_PARAMETER_PROBLEM := -3;
  SCTP_INFINITE_LIFETIME := 2 ^ 32 - 1;
  SCTP_MAX_NUM_ADDRESSES := 20;
  SCTP_MAX_IP_LEN := 46;
  SCTP_PATH_OK := 0;
  SCTP_PATH_UNREACHABLE := 1;
  SCTP_PATH_ADDED := 2;
  SCTP_PATH_REMOVED := 3;
  SCTP_ASCONF_SUCCEEDED := 4;
  SCTP_ASCONF_FAILED := 5;
  indeterminate_Context := 7;
  indeterminate_InitTimeout := 11;
  indeterminate_RTOMax := 13;
  indeterminate_Fired := true;
  indeterminate_parameters := demo_parameters;
  indeterminate_notification := demo_notification |}.
Proof.
  split; [reflexivity|].
  change (bytes_ok (replicate sizeof_sctp_notification 0)). apply Forall_replicate. by split.
Defined.

(** ** A system with one socket

    Socket 0 is bound to instance 1, listens, connects automatically and has
    the global queue; association 5 of the instance exists in sctplib. *)

Definition demo_status : SCTP_Association_Status :=
  {| numberOfDestinationPaths := 1; destinationPathIDs := [0]; destPort := 7;
     rtoMax := 60000; maxSendQueue := 100; maxRecvQueue := 100; ipTos := 0;
     outStreams := 1; inStreams := 1; primaryDestinationAddress := "10.0.0.1";
     st_state := 3; currentReceiverWindowSize := 4096; noOfChunksInRetransmissionQueue := 0;
     noOfChunksInReceptionQueue := 0; rtoInitial := 3000; rtoMin := 1000; delay := 200;
     assocMaxRetransmits := 10; validCookieLife := 60000 |}.

Definition demo_connected : World := {|
  w_clock := 1000; w_instance := {[ 5 := 1; 6 := 1 ]};
  w_status := {[ 5 := demo_status; 6 := demo_status ]};
  w_path := {[ (5, 0) := {| destinationAddress := "10.0.0.1"; heartbeatIntervall := 30000;
    ps_state := 0; cwnd := 1500; srtt := 10; rto := 1000; mtu := 1500 |} ]};
  w_data := {[ 5 := [104; 101; 108; 108; 111] ]}; w_sent := []; w_capacity := 2;
  w_unregistered := []; w_next := 2 |}.

Definition demo_socket (flags : Z) : SCTPSocket := {|
  s_GlobalQueue := []; s_ConnectionRequests := []; s_AssociationList := [];
  s_ConnectionlessAssociationList := []; s_InstanceName := 1; s_LocalPort := 5000;
  s_NoOfInStreams := 1; s_NoOfOutStreams := 1; s_Flags := flags;
  s_NotificationFlags := SCTP_RECVDATAIOEVNT; s_CorrelationID := 0; s_AutoCloseTimeout := 0;
  s_DefaultTrafficClass := 0; s_Family := 2; s_ReadReady := false; s_WriteReady := false;
  s_HasException := false; s_AutoCloseRecursion := false;
  s_AutoCloseNewCheckRequired := false |}.

Definition demo_conditions : Condition.CState cid := {|
  Condition.conds := list_to_map (map (fun k =>
    ((0%nat, k), {| Condition.Fired := false; Condition.ParentSet := ∅ |}))
    [InQueueUpdate; Establish; ReadUpdate; WriteUpdate; ExceptUpdate]);
  Condition.wakeups := [] |}.

Definition demo_boot (flags : Z) : @Sys demo := {|
  world := (demo_connected : @W demo); assocs := ∅;
  sockets := {[ 0%nat := demo_socket flags ]};
  conditions := demo_conditions; next_address := 1; InitializationResult := 0;
  ThreadRunning := true; RandomValue := 1; LockLevel := 0; CancelEnabled := true;
  OldCancelState := false; LastGarbageCollection := 0; SocketList := [(1, 0%nat)];
  ClosingSockets := []; ClosingAssociations := [];
  UserNotifications := ∅; BreakPipe := (-1, -1); GarbageCollectionTimerID := -1 |}.


Definition udp_flags : Z := SSF_GlobalQueue + SSF_AutoConnect + SSF_Listening.
Definition tcp_flags : Z := SSF_Listening.

(** An association that has just been constructed. *)
Definition demo_association (id : Z) : @SCTPAssociation demo := {|
  a_Socket := 0; a_InQueue := []; a_LastUsage := 0; a_UseCount := 0; a_AssociationID := id;
  a_NotificationFlags := SCTP_RECVDATAIOEVNT;
  a_Defaults := {| d_StreamID := 0; d_ProtoID := 0; d_TimeToLive := 0; d_Context := 0 |};
  a_StreamDefaultTimeoutArray := None; a_StreamDefaultTimeoutCount := 0;
  a_CommunicationUpNotification := false; a_CommunicationLostNotification := false;
  a_ShutdownCompleteNotification := false; a_IsShuttingDown := false; a_ReadReady := false;
  a_WriteReady := false; a_HasException := false; a_RTOMaxIsInitTimeout := false;
  a_InitTimeout := 0; a_RTOMax := 0; a_PreEstablishment := [];
  a_PreEstablishmentAddressList := None; a_PeeledOff := false |}.

(** The same system with association 5 established: its object is at address 1,
    in both lists of the socket. *)
Definition demo_up_assoc : @SCTPAssociation demo :=
  set_a_CommunicationUpNotification true (set_a_WriteReady true (demo_association 5)).
Definition demo_up_socket : SCTPSocket :=
  set_s_AssociationList [(5, 1%nat)]
    (set_s_ConnectionlessAssociationList [(5, 1%nat)] (demo_socket udp_flags)).
Definition demo_up_conditions : Condition.CState cid := {|
  Condition.conds := list_to_map (
    map (fun k => ((0%nat, k), {| Condition.Fired := false; Condition.ParentSet := ∅ |}))
      [InQueueUpdate; Establish; ReadUpdate; WriteUpdate; ExceptUpdate] ++
    map (fun k => ((1%nat, k), {| Condition.Fired := false; Condition.ParentSet :=
        match k with InQueueUpdate => {[ (1%nat, ReadUpdate) ]} | _ => ∅ end |}))
      [InQueueUpdate; Establish; ShutdownCompleteC; ReadyForTransmit; ReadUpdate;
       WriteUpdate; ExceptUpdate]);
  Condition.wakeups := [] |}.
Definition demo_up : @Sys demo :=
  set_assocs {[ 1%nat := demo_up_assoc ]} (set_sockets {[ 0%nat := demo_up_socket ]}
    (set_conditions demo_up_conditions (set_next_address 2 (demo_boot udp_flags)))).

Lemma demo_up_conditions_ok :
  Condition.graph_ok cond_rank (Condition.conds (conditions demo_up)).
Proof.
  assert (Hg : map_Forall (fun k c => set_Forall (fun q =>
      is_Some (Condition.conds (conditions demo_up) !! q) /\ (cond_rank q < cond_rank k)%nat)
      (Condition.ParentSet c)) (Condition.conds (conditions demo_up))).
  { apply (bool_decide_unpack _). by vm_compute. }
  split; intros k q (c & Hc & Hq); by destruct (Hg k c Hc q Hq).
Qed.

(** The state a run ends in. *)
Definition final {A} (m : @P demo A) (y : @Sys demo) : @Sys demo :=
  match m y with Ret _ y' => y' | Stop _ => y end.
Definition outcome {A} (m : @P demo A) (y : @Sys demo) : option A :=
  match m y with Ret a _ => Some a | Stop _ => None end.
Definition fault {A} (m : @P demo A) (y : @Sys demo) : option Fault :=
  match m y with Ret _ _ => None | Stop f => Some f end.

Lemma run_final {A} (m : @P demo A) y a :
  outcome m y = Some a -> m y = Ret a (final m y).
Proof. unfold outcome, final. destruct (m y); congruence. Qed.
