(* ===== verification/CppSocket.v ===== *)
(** * The C++ class [Socket]: cppsocketapi/tdsocket.cc, tdsocket.icc

    A [Socket] object owns a descriptor of the socket API and remembers the
    family, the flow information, the last error and the destination.  A
    method takes the object and returns it, in the monad of the socket API.
    Addresses are those of [SocketAddress]; [buffer] is the memory of a local
    [sockaddr_storage] before it is written. *)

From S2P Require Import Prelude Memory Notification State SocketOps SocketMaster Tools Strings.
From S2P Require Import InternetAddress SocketAddress.
From S2P Require Import Descriptors WrapperSockets WrapperIO WrapperOptions.
Local Open Scope Z_scope.

(** ** The object *)

Definition UndefinedSocketFamily : Z := -1.
Definition UndefinedSocketType : Z := -1.
Definition UndefinedSocketProtocol : Z := -1.
Definition IP : Z := 255.
Definition MinAutoSelectPort : Z := 16384.
Definition MaxAutoSelectPort : Z := 61000.
Definition MaxSockLen : Z := 128.

Record TDSocket : Type := {
  SocketDescriptor : Z;
  Family : Z;
  SocketType : Z;
  Protocol : Z;
  SendFlow : Z;
  ReceivedFlow : Z;
  LastError : Z;
  Backlog : Z;
  Destination : option (list Z) }.

Definition eta_TDSocket (t : TDSocket) : TDSocket :=
  {| SocketDescriptor := SocketDescriptor t; Family := Family t; SocketType := SocketType t;
     Protocol := Protocol t; SendFlow := SendFlow t; ReceivedFlow := ReceivedFlow t;
     LastError := LastError t; Backlog := Backlog t; Destination := Destination t |}.
Definition set_SocketDescriptor (v : Z) (t : TDSocket) : TDSocket :=
  ltac:(set_member eta_TDSocket SocketDescriptor v t).
Definition set_SendFlow (v : Z) (t : TDSocket) : TDSocket := ltac:(set_member eta_TDSocket SendFlow v t).
Definition set_ReceivedFlow (v : Z) (t : TDSocket) : TDSocket :=
  ltac:(set_member eta_TDSocket ReceivedFlow v t).
Definition set_LastError (v : Z) (t : TDSocket) : TDSocket := ltac:(set_member eta_TDSocket LastError v t).
Definition set_Backlog (v : Z) (t : TDSocket) : TDSocket := ltac:(set_member eta_TDSocket Backlog v t).
Definition set_Destination (v : option (list Z)) (t : TDSocket) : TDSocket :=
  ltac:(set_member eta_TDSocket Destination v t).

(** [init] *)
Definition Socket_init : TDSocket :=
  {| SocketDescriptor := -1; Family := UndefinedSocketFamily; SocketType := UndefinedSocketType;
     Protocol := UndefinedSocketProtocol; SendFlow := 0; ReceivedFlow := 0; LastError := 0;
     Backlog := 0; Destination := None |}.

(** ** Members that only read or write the object (tdsocket.icc) *)

Definition ready (t : TDSocket) : bool := 0 <=? SocketDescriptor t.
Definition getSendFlowLabel (t : TDSocket) : Z := Z.land (SendFlow t) IPV6_FLOWINFO_FLOWLABEL.
Definition getSendTrafficClass (t : TDSocket) : Z :=
  wrap 8 (Z.shiftr (Z.land (SendFlow t) IPV6_FLOWINFO_PRIORITY) 20).
Definition getReceivedFlowLabel (t : TDSocket) : Z := Z.land (ReceivedFlow t) IPV6_FLOWINFO_FLOWLABEL.
Definition getReceivedTrafficClass (t : TDSocket) : Z :=
  wrap 8 (Z.shiftr (Z.land (ReceivedFlow t) IPV6_FLOWINFO_PRIORITY) 20).
Definition getSystemSocketDescriptor (t : TDSocket) : Z := SocketDescriptor t.
Definition getLastError (t : TDSocket) : Z * TDSocket := (LastError t, set_LastError 0 t).

(** Fields of a [sockaddr_in] or [sockaddr_in6]. *)
Definition sin_family (b : list Z) : Z := get 0 2 b.
Definition sin_port (b : list Z) : Z := get 2 2 b.
Definition set_sin_port (port : Z) (b : list Z) : list Z := put 2 2 port b.
Definition sin6_flowinfo (b : list Z) : Z := get 4 4 b.
Definition set_sin6_flowinfo (x : Z) (b : list Z) : list Z := put 4 4 x b.
Definition is_internet (b : list Z) : bool := (sin_family b =? AF_INET6) || (sin_family b =? AF_INET).
(** [IN6_IS_ADDR_V4MAPPED] of [sin6_addr]. *)
Definition sin6_mapped (b : list Z) : bool :=
  (get 8 4 b =? 0) && (get 12 4 b =? 0) && (get 16 4 b =? htonl 0xffff).

(** [packSocketAddressArray] *)
Fixpoint packSocketAddressArray {S : Type} (addrArray : list (list Z)) : M S (list Z) :=
  match addrArray with
  | [] => ret []
  | a :: l =>
      if sin_family a =? AF_INET then
        let* rest := packSocketAddressArray l in ret (take 16 a ++ rest)
      else if sin_family a =? AF_INET6 then
        let* rest := packSocketAddressArray l in ret (take 28 a ++ rest)
      else stop ProcessAbort
  end.

Section CppSocket.
Context `{!Resolver} (UseIPv6 : bool) `{!Platform} `{!Kernel}.
Variable deliver : list Callback -> P unit.
Variables (memory : SCTPSocket) (blank : ExtSocketDescriptor) (stack : list Z).
Variable indeterminate_path : SCTP_Path_Status.
Variables past_end fill : StreamDefaultTimeout.
Variables (blank_address : InternetAddress) (blank_unix : UnixAddress) (buffer : list Z).

Notation Method X := (A (X * TDSocket)).

Definition system_bytes (a : SocketAddress) (size family : Z) : Z * list Z :=
  address_getSystemAddress UseIPv6 a buffer size family.
(** [LastError = errno], if [failed]. *)
Definition note_error (failed : bool) (this : TDSocket) : A TDSocket :=
  if failed then let* e := gets errno in ret (set_LastError e this) else ret this.
(** A result below 0 is replaced by [-errno]. *)
Definition negative_errno (result : Z) (this : TDSocket) : Method Z :=
  if result <? 0 then let* e := gets errno in ret (- e, set_LastError e this) else ret (result, this).

(** ** Wrappers of single calls *)

Definition Socket_fcntl (this : TDSocket) (cmd arg : Z) : Method Z :=
  let* result := ext_fcntl (SocketDescriptor this) cmd arg in
  let* this := note_error (negb (result =? 0)) this in
  ret (result, this).
Definition Socket_ioctl (this : TDSocket) (request : Z) : Method Z :=
  let* result := ext_ioctl (SocketDescriptor this) request in
  let* this := note_error (negb (result =? 0)) this in
  ret (result, this).
Definition getSocketOption (this : TDSocket) (level name : Z) (value : option (list Z)) (len : Z)
    : Method OptResult :=
  let* r := ext_getsockopt indeterminate_path (SocketDescriptor this) level name value len in
  let* this := note_error (negb (r.1 =? 0)) this in
  ret (r, this).
Definition setSocketOption (this : TDSocket) (level name : Z) (value : list Z) (len : Z) : Method Z :=
  let* result := ext_setsockopt indeterminate_path past_end fill (SocketDescriptor this)
                   level name (Some value) len in
  let* this := note_error (negb (result =? 0)) this in
  ret (result, this).
Definition Socket_read (this : TDSocket) (length : Z) (rounds : list schedule) : Method (Z * list Z) :=
  let* '(result, data) := ext_read stack (SocketDescriptor this) length rounds in
  let* '(result, this) := negative_errno result this in
  ret ((result, data), this).
Definition Socket_write (this : TDSocket) (data : list Z) (cs ss : schedule) : Method Z :=
  let* result := ext_write deliver (SocketDescriptor this) data cs ss in
  negative_errno result this.

(** ** Creation *)

Definition Socket_close (this : TDSocket) : A TDSocket :=
  let* this := if SocketDescriptor this =? -1 then ret this
               else ext_close deliver (SocketDescriptor this) ;;
                    ret (set_SocketDescriptor (-1) this) in
  ret (set_Destination None this).

Definition IPV6_FLOWINFO : Z := 11.
Definition IPV6_FLOWINFO_SEND : Z := 33.
Definition IP_RECVTOS : Z := 13.
Definition IPV6_V6ONLY : Z := 26.
Definition IPPROTO_IPV6 : Z := 41.
Definition int_bytes (x : Z) : list Z := le_split 4 x.

Definition Socket_create (this : TDSocket) (communicationDomain socketType socketProtocol : Z)
    : Method bool :=
  let* this := Socket_close this in
  let family := if communicationDomain =? IP then if UseIPv6 then AF_INET6 else AF_INET
                else communicationDomain in
  let* fd := ext_socket deliver memory blank family socketType socketProtocol in
  let this := {| SocketDescriptor := fd; Family := family; SocketType := socketType;
                 Protocol := socketProtocol; SendFlow := SendFlow this;
                 ReceivedFlow := ReceivedFlow this; LastError := LastError this;
                 Backlog := Backlog this; Destination := Destination this |} in
  if fd <? 0 then ret (false, this)
  else
    let option level name value :=
      ext_setsockopt indeterminate_path past_end fill fd level name (Some (int_bytes value)) 4 in
    option SOL_IPV6 IPV6_FLOWINFO 1 ;;
    option SOL_IPV6 IPV6_FLOWINFO_SEND 1 ;;
    option SOL_IP IP_RECVTOS 1 ;;
    (if family =? AF_INET6 then option IPPROTO_IPV6 IPV6_V6ONLY 0 ;; ret tt else ret tt) ;;
    ret (true, this).
(** The constructor with arguments. *)
Definition Socket_new (communicationDomain socketType socketProtocol : Z) : A TDSocket :=
  let* '(_, this) := Socket_create Socket_init communicationDomain socketType socketProtocol in
  ret this.
Definition Socket_delete (this : TDSocket) : A unit := Socket_close this ;; ret tt.

Definition Socket_shutdown (this : TDSocket) (shutdownLevel : Z) : A unit :=
  ext_shutdown deliver (SocketDescriptor this) shutdownLevel ;; ret tt.
Definition Socket_listen (this : TDSocket) (backlog : Z) : Method bool :=
  let* result := ext_listen deliver (SocketDescriptor this) backlog in
  if result <? 0 then ret (false, this) else ret (true, set_Backlog backlog this).

(** The new socket and, if [address] is not NULL, the address of the peer. *)
Definition Socket_accept (this : TDSocket) (address : bool) (sched : schedule)
    : A (option TDSocket * option SocketAddress) :=
  let* '(result, bytes) := ext_accept deliver (SocketDescriptor this) (Some MaxSockLen) sched in
  if result <? 0 then ret (None, None)
  else
    let accepted :=
      {| SocketDescriptor := result; Family := Family this; SocketType := SocketType this;
         Protocol := Protocol this; SendFlow := 0; ReceivedFlow := 0; LastError := 0;
         Backlog := 0; Destination := None |} in
    ret (Some accepted,
         if address
         then create_from_sockaddr blank_address blank_unix 0
                (put_bytes 0 bytes buffer) (Z.of_nat (length bytes))
         else None).

(** ** Binding *)

Definition PortRange : Z := MaxAutoSelectPort - MinAutoSelectPort.

(** A bind call with the port (in network byte order) written to the stored
    addresses; it returns the result and the addresses afterwards. *)
Definition Attempt : Type := Z -> list (list Z) -> A (Z * list (list Z)).

(** What a failed attempt does: the error is noted, and
    EPROTONOSUPPORT ends the search ([None]). *)
Definition after_attempt (result : Z) (this : TDSocket) : Method (option Z) :=
  if result =? 0 then ret (Some 0, this)
  else
    let* e := gets errno in
    ret (if e =? EPROTONOSUPPORT then None else Some result, set_LastError e this).

(** The first loop: random ports. *)
Fixpoint random_ports (n : nat) (attempt : Attempt) (storage : list (list Z)) (result : Z)
    (this : TDSocket) : Method (option Z * list (list Z)) :=
  match n with
  | O => ret (Some result, storage, this)
  | S n =>
      let* r := lift random32 in
      let port := r mod PortRange in
      let* '(result, storage) := attempt (htons (wrap 16 (port + MinAutoSelectPort))) storage in
      let* '(outcome, this) := after_attempt result this in
      match outcome with
      | None => ret (None, storage, this)
      | Some result =>
          if result =? 0 then ret (Some 0, storage, this)
          else random_ports n attempt storage result this
      end
  end.
(** The second loop: every second port from [i] on. *)
Fixpoint all_ports (n : nat) (i : Z) (attempt : Attempt) (storage : list (list Z)) (result : Z)
    (this : TDSocket) : Method (option Z) :=
  match n with
  | O => ret (Some result, this)
  | S n =>
      let* '(result, storage) := attempt (htons (wrap 16 i)) storage in
      let* '(outcome, this) := after_attempt result this in
      match outcome with
      | None => ret (None, this)
      | Some result =>
          if result =? 0 then ret (Some 0, this)
          else all_ports n (i + 2) attempt storage result this
      end
  end.
Definition port_search (random_attempt sequential_attempt : Attempt) (storage : list (list Z))
    (this : TDSocket) : Method bool :=
  let* '(outcome, storage, this) := random_ports (Z.to_nat (4 * PortRange)) random_attempt storage (-1) this in
  match outcome with
  | None => ret (false, this)
  | Some result =>
      if result =? 0 then ret (true, this)
      else
        let* '(outcome, this) :=
          all_ports (Z.to_nat (PortRange / 2)) MinAutoSelectPort sequential_attempt storage result this in
        match outcome with
        | None => ret (false, this)
        | Some result => ret (result =? 0, this)
        end
  end.

Definition bind_attempt (this : TDSocket) (length : Z) : Attempt := fun port storage =>
  let b := set_sin_port port (default [] (head storage)) in
  let* result := ext_bind deliver stack (SocketDescriptor this) b length in
  ret (result, [b]).
Definition Socket_bind (this : TDSocket) (address : SocketAddress) : Method bool :=
  let '(socketAddressLength, b) := system_bytes address MaxSockLen (Family this) in
  if socketAddressLength =? 0 then ret (false, set_LastError ENAMETOOLONG this)
  else if is_internet b && (sin_port b =? 0) then
    port_search (bind_attempt this socketAddressLength) (bind_attempt this socketAddressLength) [b] this
  else
    let* result := ext_bind deliver stack (SocketDescriptor this) b socketAddressLength in
    let* this := note_error (result <? 0) this in
    ret (result =? 0, this).

(** The ports of the internet addresses after the first. *)
Definition copy_port (port : Z) (others : list (list Z)) : list (list Z) :=
  (fun b => if is_internet b then set_sin_port port b else b) <$> others.
Definition bindx_call (this : TDSocket) (storage : list (list Z)) (flags : Z) : A Z :=
  let* packed := packSocketAddressArray storage in
  sctp_bindx deliver stack (SocketDescriptor this) packed (Z.of_nat (length storage)) flags.
Definition bindx_random_attempt (this : TDSocket) (flags : Z) : Attempt := fun port storage =>
  let storage := match storage with
                 | b :: others => set_sin_port port b :: copy_port port others
                 | [] => []
                 end in
  let* result := bindx_call this storage flags in
  ret (result, storage).
(** In the second loop the ports of the others are set after the call. *)
Definition bindx_all_attempt (this : TDSocket) (flags : Z) : Attempt := fun port storage =>
  match storage with
  | b :: others =>
      let b := set_sin_port port b in
      let* result := bindx_call this (b :: others) flags in
      ret (result, b :: copy_port port others)
  | [] => let* result := bindx_call this [] flags in ret (result, [])
  end.
(** The addresses in system form; [None] if one has none. *)
Definition system_storage (addressArray : list SocketAddress) : option (list (list Z)) :=
  mapM (fun a => let '(n, b) := system_bytes a 128 AF_UNSPEC in if n =? 0 then None else Some b)
    addressArray.
(** [bind()] binds to the invalid any address with port 0. *)
Definition Socket_bindx (this : TDSocket) (addressArray : list SocketAddress) (flags : Z) : Method bool :=
  match addressArray with
  | [] => Socket_bind this (Internet (InternetAddress_default blank_address))
  | _ =>
      match system_storage addressArray with
      | None => ret (false, this)
      | Some storage =>
          let first := default [] (head storage) in
          if is_internet first && (sin_port first =? 0) then
            port_search (bindx_random_attempt this flags) (bindx_all_attempt this flags) storage this
          else
            let* result := bindx_call this storage flags in
            let* this := note_error (result <? 0) this in
            ret (result =? 0, this)
      end
  end.

(** [duplicate] and [setPort]. *)
Definition duplicate (a : SocketAddress) : SocketAddress :=
  match a with
  | Internet a => Internet (init_copy a blank_address)
  | Unix a => Unix (unix_duplicate a blank_unix)
  end.
Definition address_setPort (port : Z) (a : SocketAddress) : SocketAddress :=
  match a with
  | Internet a => Internet (setPort (wrap 16 port) a)
  | Unix a => Unix (unix_setPort port a)
  end.

(** Binding a pair: [bind1] and [bind2] bind the two sockets, given the
    port. *)
Section Pair.
Variables (bind1 bind2 : TDSocket -> Z -> Method bool).
Notation Pair X := (A (X * TDSocket * TDSocket)).

Definition bind_both (port1 port2 : Z) (socket1 socket2 : TDSocket) : Pair bool :=
  let* '(ok, socket1) := bind1 socket1 port1 in
  if ok : bool then
    let* '(ok, socket2) := bind2 socket2 port2 in
    ret (ok, socket1, socket2)
  else ret (false, socket1, socket2).
(** [None]: go on searching. *)
Fixpoint pair_random (n : nat) (socket1 socket2 : TDSocket) : Pair (option bool) :=
  match n with
  | O => ret (None, socket1, socket2)
  | S n =>
      let* r := lift random32 in
      let port := r mod (PortRange - 1) in
      let* '(ok, socket1, socket2) := bind_both port (port + 1) socket1 socket2 in
      if ok : bool then ret (Some true, socket1, socket2)
      else if LastError socket1 =? EPROTONOSUPPORT then ret (Some false, socket1, socket2)
      else pair_random n socket1 socket2
  end.
Fixpoint pair_all (n : nat) (i : Z) (socket1 socket2 : TDSocket) : Pair bool :=
  match n with
  | O => ret (false, socket1, socket2)
  | S n =>
      let* '(ok, socket1, socket2) := bind_both i (i + 1) socket1 socket2 in
      if ok : bool then ret (true, socket1, socket2) else pair_all n (i + 2) socket1 socket2
  end.
Definition bind_pair (port : Z) (socket1 socket2 : TDSocket) : Pair bool :=
  if negb (port =? 0) then bind_both port (port + 1) socket1 socket2
  else
    let* '(outcome, socket1, socket2) := pair_random (Z.to_nat (4 * PortRange)) socket1 socket2 in
    match outcome with
    | Some ok => ret (ok, socket1, socket2)
    | None => pair_all (Z.to_nat (PortRange / 2)) MinAutoSelectPort socket1 socket2
    end.
End Pair.

Definition bindSocketPair (socket1 socket2 : TDSocket) (address : SocketAddress)
    : A (bool * TDSocket * TDSocket) :=
  let ba := duplicate address in
  let bind_to this port := Socket_bind this (address_setPort port ba) in
  bind_pair bind_to bind_to (address_getPort ba) socket1 socket2.

(** [getAddressArray], [setAddressArrayPort] *)
Definition getAddressArray (addressArray : list SocketAddress) : list SocketAddress :=
  match addressArray with
  | [] => [Internet (InternetAddress_port 0 blank_address)]
  | _ => duplicate <$> addressArray
  end.
Definition setAddressArrayPort (addressArray : list SocketAddress) (addresses : nat) (port : Z)
    : list SocketAddress :=
  (address_setPort port <$> take addresses addressArray) ++ drop addresses addressArray.
Definition bindxSocketPair (socket1 socket2 : TDSocket) (addressArray : list SocketAddress) (flags : Z)
    : A (bool * TDSocket * TDSocket) :=
  let addresses := length addressArray in
  let ba := getAddressArray addressArray in
  let bind_to this port :=
    Socket_bindx this (take addresses (setAddressArrayPort ba addresses port)) flags in
  bind_pair bind_to bind_to
    (match ba with a :: _ => address_getPort a | [] => 0 end) socket1 socket2.

(** ** Type of service *)

Definition IP_TOS : Z := 1.
Definition setTypeOfService (this : TDSocket) (trafficClass : Z) : Method bool :=
  let* '(result, this) := setSocketOption this SOL_IP IP_TOS (int_bytes trafficClass) 4 in
  ret (result =? 0, this).

(** ** Connecting *)

Definition Socket_connect (this : TDSocket) (address : SocketAddress) (trafficClass : Z)
    (sched : schedule) : Method bool :=
  let '(socketAddressLength, b) := system_bytes address MaxSockLen (Family this) in
  if socketAddressLength =? 0 then ret (false, this)
  else
    let this := set_SendFlow 0 this in
    let* this :=
      if negb (trafficClass =? 0) && is_internet b then
        let this := set_SendFlow (wrap 32 (Z.shiftl trafficClass 20)) this in
        let* '(ok, this) := setTypeOfService this trafficClass in
        ret (if ok : bool then this else set_SendFlow 0 this)
      else ret this in
    let '(b, this) :=
      if sin_family b =? AF_INET6 then
        let b := set_sin6_flowinfo (htonl (Z.lor (ntohl (sin6_flowinfo b)) (SendFlow this))) b in
        (b, set_SendFlow (ntohl (sin6_flowinfo b)) this)
      else (b, this) in
    let this := set_Destination (Some (take (Z.to_nat socketAddressLength) b)) this in
    let* result := ext_connect deliver stack (SocketDescriptor this) b socketAddressLength sched in
    if result =? 0 then ret (true, this)
    else
      let* e := gets errno in
      let this := set_LastError e this in
      ret (false, if e =? EINPROGRESS then this else set_SendFlow 0 this).

(** The addresses are not checked; [None] of [create_*] cannot arise here, a
    failed conversion leaves [buffer]. *)
Definition Socket_connectx (this : TDSocket) (addressArray : list SocketAddress) (sched : schedule)
    : Method bool :=
  let storage := (fun a => (system_bytes a 128 (Family this)).2) <$> addressArray in
  let this := set_Destination None this in
  let* packed := packSocketAddressArray storage in
  let* '(result, _) := ext_connectx deliver (SocketDescriptor this) packed
                         (Z.of_nat (length addressArray)) 0 sched in
  if result =? 0 then ret (true, this)
  else
    let* e := gets errno in
    let this := set_LastError e this in
    ret (false, if e =? EINPROGRESS then this else set_SendFlow 0 this).

(** ** Receiving *)

(** The loop over the control messages: [msg_name] and [ReceivedFlow]. *)
Fixpoint flow_controls (fuel : nat) (control : list Z) (controllen : Z) (cmsg : option nat)
    (name : list Z) (this : TDSocket) : Method (list Z) :=
  match cmsg, fuel with
  | None, _ => ret (name, this)
  | Some _, O => stop OutOfFuel
  | Some c, S fuel =>
      let header := drop c control in
      let payload := CData control c in
      let next := CNextHeader control controllen c in
      let level := Notification.rd cmsg_level header in
      let type := Notification.rd cmsg_type header in
      if (level =? SOL_IPV6) && (sin_family name =? AF_INET6) && (type =? IPV6_FLOWINFO) then
        flow_controls fuel control controllen next (set_sin6_flowinfo (get 0 4 payload) name)
          (set_ReceivedFlow (ntohl (get 0 4 payload)) this)
      else if (level =? SOL_IP) && (type =? IP_TOS) then
        flow_controls fuel control controllen next name
          (set_ReceivedFlow (wrap 32 (Z.shiftl (get 0 1 payload) 20)) this)
      else flow_controls fuel control controllen next name this
  end.

(** The result, the data and the message header. *)
Definition receiveMsg (this : TDSocket) (iov : list Z) (msg : MsgHdr) (flags : Z)
    (internalCall : bool) (rounds : list schedule) : Method (Z * list (list Z) * MsgHdr) :=
  let* '(cc, data, msg) := ext_recvmsg2 (SocketDescriptor this) iov msg flags (negb internalCall) rounds in
  if cc <? 0 then
    let* e := gets errno in
    ret ((- e, data, msg), set_LastError e this)
  else
    let this := set_ReceivedFlow 0 this in
    let control := default [] (msg_control msg) in
    let* '(name, this) :=
      flow_controls (S (length control)) control (msg_controllen msg)
        (CFirstHeader (msg_control msg) (msg_controllen msg)) (default [] (msg_name msg)) this in
    ret ((cc, data,
          {| msg_name := match msg_name msg with Some _ => Some name | None => None end;
             msg_namelen := msg_namelen msg; msg_control := msg_control msg;
             msg_controllen := msg_controllen msg; msg_flags := msg_flags msg |}), this).

(** The result, the data, the address with its length, and the flags. *)
Definition recvFrom (this : TDSocket) (len flags : Z) (addr : list Z) (addrlen : Z)
    (rounds : list schedule) : Method (Z * list Z * (list Z * Z) * Z) :=
  let* '((cc, data, msg), this) :=
    receiveMsg this [len]
      {| msg_name := Some addr; msg_namelen := addrlen; msg_control := Some (take 1024 stack);
         msg_controllen := 1024; msg_flags := flags |} flags true rounds in
  if cc <? 0 then ret ((cc, concat data, (addr, addrlen), flags), this)
  else ret ((cc, concat data, (default addr (msg_name msg), msg_namelen msg), msg_flags msg), this).

(** [setSystemAddress] of either family. *)
Definition address_setSystemAddress (b : list Z) (length : Z) (a : SocketAddress) : SocketAddress :=
  match a with
  | Internet a => Internet (setSystemAddress b length a).2
  | Unix a => Unix (unix_setSystemAddress b length a).2
  end.
Definition receiveFrom (this : TDSocket) (length : Z) (sender : SocketAddress) (flags : Z)
    (rounds : list schedule) : Method (Z * list Z * SocketAddress * Z) :=
  let* '((result, data, (b, len), flags), this) :=
    recvFrom this length flags buffer MaxSockLen rounds in
  ret ((result, data, if 0 <? result then address_setSystemAddress b len sender else sender, flags), this).
Definition Socket_receive (this : TDSocket) (length flags : Z) (rounds : list schedule)
    : Method (Z * list Z * Z) :=
  let* '((result, data, _, flags), this) := recvFrom this length flags buffer MaxSockLen rounds in
  let* '(result, this) := negative_errno result this in
  ret ((result, data, flags), this).

(** ** Sending *)

(** The flow information of an IPv6 destination with the traffic class. *)
Definition with_traffic_class (trafficClass : Z) (b : list Z) : list Z :=
  set_sin6_flowinfo (htonl (Z.lor (Z.land (ntohl (sin6_flowinfo b)) IPV6_FLOWINFO_FLOWLABEL)
    (wrap 32 (Z.shiftl trafficClass 20)))) b.
(** [call] between setting the type of service and setting it back. *)
Definition with_service (this : TDSocket) (trafficClass : Z) (call : A Z) : Method Z :=
  let* '(_, this) := setTypeOfService this trafficClass in
  let* result := call in
  let* '(_, this) := setTypeOfService this (wrap 8 (Z.shiftr (SendFlow this) 20)) in
  negative_errno result this.

Definition Socket_send (this : TDSocket) (data : list Z) (flags trafficClass : Z) (cs ss : schedule)
    : Method Z :=
  let plain := let* result := ext_send deliver (SocketDescriptor this) data flags cs ss in
               negative_errno result this in
  match Destination this with
  | Some b =>
      if trafficClass =? 0 then plain
      else if (sin_family b =? AF_INET6) && negb (sin6_mapped b) then
        let* result := ext_sendto deliver (SocketDescriptor this) data flags
                         (Some (with_traffic_class trafficClass (take 28 b))) 28 cs ss in
        negative_errno result this
      else if is_internet b then
        with_service this trafficClass (ext_send deliver (SocketDescriptor this) data flags cs ss)
      else plain
  | None => plain
  end.

Definition Socket_sendTo (this : TDSocket) (data : list Z) (flags : Z) (receiver : SocketAddress)
    (trafficClass : Z) (cs ss : schedule) : Method Z :=
  let '(socketAddressLength, b) := system_bytes receiver MaxSockLen (Family this) in
  let plain := ext_sendto deliver (SocketDescriptor this) data flags (Some b) socketAddressLength cs ss in
  if socketAddressLength =? 0 then ret (-1, this)
  else if trafficClass =? 0 then let* result := plain in negative_errno result this
  else if (sin_family b =? AF_INET6) && negb (sin6_mapped b) then
    let* result := ext_sendto deliver (SocketDescriptor this) data flags
                     (Some (with_traffic_class trafficClass (take 28 b))) 28 cs ss in
    negative_errno result this
  else if is_internet b then with_service this trafficClass plain
  else let* result := plain in negative_errno result this.

Definition Socket_sendMsg (this : TDSocket) (iov : list (list Z)) (msg : MsgHdr) (flags trafficClass : Z)
    (init cs ss : schedule) : Method Z :=
  let* this := if trafficClass =? 0 then ret this
               else let* '(_, this) := setTypeOfService this trafficClass in ret this in
  let* result := ext_sendmsg deliver (SocketDescriptor this) iov msg flags init cs ss in
  let* '(result, this) := negative_errno result this in
  let* this := if trafficClass =? 0 then ret this
               else let* '(_, this) := setTypeOfService this (wrap 8 (Z.shiftr (SendFlow this) 20)) in
                    ret this in
  ret (result, this).

(** ** Flows *)

Definition IPV6_FLOWLABEL_MGR : Z := 32.
Definition IPV6_FL_A_GET : Z := 0.
Definition IPV6_FL_A_PUT : Z := 1.
Definition IPV6_FL_A_RENEW : Z := 2.
Definition IPV6_FL_F_CREATE : Z := 1.
(** The bytes of [in6_flowlabel_req]. *)
Definition flowlabel_request (dst : list Z) (label action share flags expires linger : Z) : list Z :=
  take 16 dst ++ le_split 4 label ++ le_split 1 action ++ le_split 1 share ++ le_split 2 flags
  ++ le_split 2 expires ++ le_split 2 linger ++ le_split 4 0.

Section Flows.
Variable blank_flow : InternetFlow.

Definition plain_flow (address : InternetAddress) : InternetFlow :=
  InternetFlow_address address 0 0 blank_flow.
(** The label the kernel grants is written to the request: [granted]. *)
Definition allocFlow (this : TDSocket) (address : InternetAddress) (flowLabel shareLevel granted : Z)
    : Method InternetFlow :=
  if negb UseIPv6 || negb (isIPv6 address) then ret (plain_flow address, this)
  else
    let '(n, b) := getSystemAddress UseIPv6 address buffer 28 AF_INET6 in
    if n =? 0 then ret (plain_flow address, this)
    else
      let* '(result, this) :=
        setSocketOption this SOL_IPV6 IPV6_FLOWLABEL_MGR
          (flowlabel_request (drop 8 b) (htonl flowLabel) IPV6_FL_A_GET shareLevel
             IPV6_FL_F_CREATE 10 6) 32 in
      if result =? 0
      then ret (InternetFlow_address address (ntohl granted) 0 blank_flow, this)
      else ret (InternetFlow_default blank_flow, this).
Definition freeFlow (this : TDSocket) (flow : InternetFlow) : A TDSocket :=
  let* '(_, this) :=
    setSocketOption this SOL_IPV6 IPV6_FLOWLABEL_MGR
      (flowlabel_request (replicate 16 0) (htonl (getFlowLabel flow)) IPV6_FL_A_PUT 0 0 0 0) 32 in
  ret this.
Definition renew (this : TDSocket) (label expires linger : Z) : Method bool :=
  if negb UseIPv6 || (Z.land (SendFlow this) IPV6_FLOWINFO_FLOWLABEL =? 0) then ret (true, this)
  else
    let* '(result, this) :=
      setSocketOption this SOL_IPV6 IPV6_FLOWLABEL_MGR
        (flowlabel_request (replicate 16 0) (htonl label) IPV6_FL_A_RENEW 0 0 expires linger) 32 in
    ret (result =? 0, this).
Definition renewFlow_of (this : TDSocket) (flow : InternetFlow) (expires linger : Z) : Method bool :=
  renew this (getFlowLabel flow) expires linger.
Definition renewFlow (this : TDSocket) (expires linger : Z) : Method bool :=
  renew this (SendFlow this) expires linger.
End Flows.

(** ** Addresses of the socket *)

(** Whether there is one, and [address] afterwards. *)
Definition getSocketAddress (this : TDSocket) (address : SocketAddress) : A (bool * SocketAddress) :=
  let* '(result, b) := ext_getsockname (SocketDescriptor this) (Some MaxSockLen) in
  if result =? 0
  then ret (true, address_setSystemAddress (put_bytes 0 b buffer) (Z.of_nat (length b)) address)
  else ret (false, address).
Definition getPeerAddress (this : TDSocket) (address : SocketAddress) : A (bool * SocketAddress) :=
  let* '(result, b) := ext_getpeername (SocketDescriptor this) (Some MaxSockLen) in
  if result =? 0
  then ret (true, address_setSystemAddress (put_bytes 0 b buffer) (Z.of_nat (length b)) address)
  else ret (false, address).

(** ** Options *)

Definition getBlockingMode (this : TDSocket) : Method bool :=
  let* '(result, this) := Socket_fcntl this F_GETFL 0 in
  ret (negb (has_flag result O_NONBLOCK), this).
Definition setBlockingMode (this : TDSocket) (on : bool) : Method bool :=
  let* '(flags, this) := Socket_fcntl this F_GETFL 0 in
  if flags =? -1 then ret (false, this)
  else
    let flags := if on then clear_flag flags O_NONBLOCK else set_flag flags O_NONBLOCK in
    let* '(result, this) := Socket_fcntl this F_SETFL flags in
    ret (result =? 0, this).

(** The result of [getsockopt] and the memory of the value. *)
Definition get_option_bytes (this : TDSocket) (level name : Z) (value : list Z) : Method (Z * list Z) :=
  let* '((result, (b, _)), this) := getSocketOption this level name (Some value) (Z.of_nat (length value)) in
  ret ((result, default value b), this).
Definition set_int_option (this : TDSocket) (level name value : Z) : Method bool :=
  let* '(result, this) := setSocketOption this level name (int_bytes value) 4 in
  ret (result =? 0, this).
Definition get_flag_option (this : TDSocket) (level name : Z) : Method bool :=
  let* '((_, b), this) := get_option_bytes this level name (int_bytes 0) in
  ret (negb (get 0 4 b =? 0), this).

Definition SO_REUSEADDR : Z := 2.
Definition SO_BROADCAST : Z := 6.
Definition IPPROTO_TCP : Z := 6.
Definition TCP_NODELAY : Z := 1.

Definition getSoLinger (this : TDSocket) : Method Z :=
  let* '((result, b), this) := get_option_bytes this SOL_SOCKET SO_LINGER (take 8 stack) in
  ret (if result =? 0 then get 4 4 b else 0, this).
Definition setSoLinger (this : TDSocket) (on : bool) (linger : Z) : Method bool :=
  let* '(result, this) :=
    setSocketOption this SOL_SOCKET SO_LINGER
      (int_bytes (if on then 1 else 0) ++ int_bytes linger) 8 in
  ret (result =? 0, this).
Definition bool_int (on : bool) : Z := if on then 1 else 0.
Definition getSoReuseAddress (this : TDSocket) : Method bool := get_flag_option this SOL_SOCKET SO_REUSEADDR.
Definition setSoReuseAddress (this : TDSocket) (on : bool) : Method bool :=
  set_int_option this SOL_SOCKET SO_REUSEADDR (bool_int on).
Definition getSoBroadcast (this : TDSocket) : Method bool := get_flag_option this SOL_SOCKET SO_BROADCAST.
Definition setSoBroadcast (this : TDSocket) (on : bool) : Method bool :=
  set_int_option this SOL_SOCKET SO_BROADCAST (bool_int on).
Definition getTCPNoDelay (this : TDSocket) : Method bool := get_flag_option this IPPROTO_TCP TCP_NODELAY.
Definition setTCPNoDelay (this : TDSocket) (on : bool) : Method bool :=
  set_int_option this IPPROTO_TCP TCP_NODELAY (bool_int on).

(** ** Multicast *)

Definition IPPROTO_IP : Z := 0.
Definition IP_ADD_MEMBERSHIP : Z := 35.
Definition IP_DROP_MEMBERSHIP : Z := 36.
Definition IPV6_JOIN_GROUP : Z := 20.
Definition IPV6_LEAVE_GROUP : Z := 21.
Definition IP_MULTICAST_LOOP : Z := 34.
Definition IPV6_MULTICAST_LOOP : Z := 19.
Definition IP_MULTICAST_TTL : Z := 33.
Definition IPV6_MULTICAST_HOPS : Z := 18.
Definition SIOCGIFADDR : Z := 35093.

(** [interface]: NULL, or the address [ioctl] returns for it and its index.
    The result of [setsockopt] is converted to a truth value. *)
Definition multicastMembership (this : TDSocket) (address : SocketAddress)
    (interface : option (list Z * Z)) (add : bool) : Method bool :=
  if Family this =? AF_INET then
    let '(n, addr) := system_bytes address 16 AF_INET in
    if n =? 0 then ret (false, this)
    else
      let* '(imr_interface, this) :=
        match interface with
        | Some (ifr_addr, _) =>
            let* '(result, this) := Socket_ioctl this SIOCGIFADDR in
            ret (if result =? 0 then Some (take 4 (drop 4 ifr_addr)) else None, this)
        | None => ret (Some (replicate 4 0), this)
        end in
      match imr_interface with
      | None => ret (false, this)
      | Some i =>
          let* '(result, this) :=
            setSocketOption this IPPROTO_IP (if add then IP_ADD_MEMBERSHIP else IP_DROP_MEMBERSHIP)
              (take 4 (drop 4 addr) ++ i) 8 in
          ret (negb (result =? 0), this)
      end
  else if Family this =? AF_INET6 then
    let '(n, addr) := system_bytes address 28 AF_INET6 in
    if n =? 0 then ret (false, this)
    else
      let* '(result, this) :=
        setSocketOption this IPPROTO_IPV6 (if add then IPV6_JOIN_GROUP else IPV6_LEAVE_GROUP)
          (take 16 (drop 8 addr) ++ int_bytes (match interface with Some (_, i) => i | None => 0 end)) 20 in
      ret (negb (result =? 0), this)
  else ret (false, this).
(** [multicastMembership(...) == 0] *)
Definition addMulticastMembership (this : TDSocket) (address : SocketAddress)
    (interface : option (list Z * Z)) : Method bool :=
  let* '(r, this) := multicastMembership this address interface true in ret (negb r, this).
Definition dropMulticastMembership (this : TDSocket) (address : SocketAddress)
    (interface : option (list Z * Z)) : Method bool :=
  let* '(r, this) := multicastMembership this address interface false in ret (negb r, this).

(** An option that is a byte for IPv4 and an int for IPv6. *)
Definition get_multicast_option (this : TDSocket) (name4 name6 : Z) : Method Z :=
  if Family this =? AF_INET then
    let* '((result, b), this) := get_option_bytes this IPPROTO_IP name4 (take 1 stack) in
    ret (if result =? 0 then get 0 1 b else 0, this)
  else if Family this =? AF_INET6 then
    let* '((result, b), this) := get_option_bytes this IPPROTO_IPV6 name6 (take 4 stack) in
    ret (if result =? 0 then get 0 4 b else 0, this)
  else ret (0, this).
Definition set_multicast_option (this : TDSocket) (name4 name6 value : Z) : Method bool :=
  if Family this =? AF_INET then
    let* '(result, this) := setSocketOption this IPPROTO_IP name4 (le_split 1 value) 1 in
    ret (result =? 0, this)
  else if Family this =? AF_INET6 then
    let* '(result, this) := setSocketOption this IPPROTO_IPV6 name6 (int_bytes value) 4 in
    ret (result =? 0, this)
  else ret (false, this).
Definition getMulticastLoop (this : TDSocket) : Method bool :=
  let* '(loop, this) := get_multicast_option this IP_MULTICAST_LOOP IPV6_MULTICAST_LOOP in
  ret (negb (loop =? 0), this).
Definition setMulticastLoop (this : TDSocket) (on : bool) : Method bool :=
  set_multicast_option this IP_MULTICAST_LOOP IPV6_MULTICAST_LOOP (bool_int on).
Definition getMulticastTTL (this : TDSocket) : Method Z :=
  let* '(ttl, this) := get_multicast_option this IP_MULTICAST_TTL IPV6_MULTICAST_HOPS in
  ret (wrap 8 ttl, this).
Definition setMulticastTTL (this : TDSocket) (ttl : Z) : Method bool :=
  set_multicast_option this IP_MULTICAST_TTL IPV6_MULTICAST_HOPS ttl.

(** ** Local addresses *)

Definition GLAF_HideLoopback : Z := 2 ^ 0.
Definition GLAF_HideLinkLocal : Z := 2 ^ 1.
Definition GLAF_HideSiteLocal : Z := 2 ^ 2.
Definition GLAF_HideMulticast : Z := 2 ^ 4.
Definition GLAF_HideBroadcast : Z := 2 ^ 5.
Definition GLAF_HideReserved : Z := 2 ^ 6.
Definition filterInternetAddress (a : InternetAddress) (flags : Z) : bool :=
  negb ((negb UseIPv6 && isIPv6 a)
        || (has_flag flags GLAF_HideLoopback && isLoopback a)
        || (has_flag flags GLAF_HideLinkLocal && isLinkLocal a)
        || (has_flag flags GLAF_HideSiteLocal && isSiteLocal a)
        || (has_flag flags GLAF_HideMulticast && isMulticast a)
        || (has_flag flags GLAF_HideBroadcast && isBroadcast a)
        || (has_flag flags GLAF_HideReserved && isReserved a)
        || isUnspecified a).

(** [getLocalAddressList] on what the system reports: the addresses of
    /proc/net/if_inet6, and the socket address of every interface with its
    flags ([None]: the flags cannot be read). *)
Definition IFF_UP : Z := 2 ^ 0.
Definition IFF_LOOPBACK : Z := 2 ^ 3.
Definition listed_address (b : list Z) (flags : Z) : option InternetAddress :=
  let a := init_sockaddr b (if sin_family b =? AF_INET6 then 28 else 16) blank_address in
  if filterInternetAddress a flags then Some a else None.
Fixpoint read_interfaces (flags : Z) (interfaces : list (list Z * option Z))
    (addressList : list InternetAddress) : list InternetAddress :=
  match interfaces with
  | [] => addressList
  | (currentAddress, ifflags) :: rest =>
      let next := read_interfaces flags rest in
      match ifflags with
      | None => next addressList
      | Some f =>
          if negb (has_flag f IFF_UP) then next addressList
          else if has_flag flags GLAF_HideLoopback && has_flag f IFF_LOOPBACK then next addressList
          else if negb (is_internet currentAddress) then next addressList
          else
            match listed_address currentAddress flags with
            | None => next addressList
            | Some a =>
                let lastAddress := getAddressString UseIPv6 a PF_Default buffer in
                if existsb (fun b => String.eqb (getAddressString UseIPv6 b PF_Default buffer) lastAddress)
                     addressList
                then next addressList
                else next (addressList ++ [a])
            end
      end
  end.
Definition getLocalAddressList (flags : Z) (v6list : list (list Z))
    (interfaces : list (list Z * option Z)) : list InternetAddress :=
  read_interfaces flags interfaces
    (if UseIPv6 then omap (fun b => listed_address b flags) v6list else []).
End CppSocket.
