(* ===== verification/Timer.v ===== *)
(** * Timer threads: multitimerthread.icc

    A timer thread calls the virtual function [timerEvent] for each of its
    timers.  The state holds the parameters other threads set, the local
    variables of [run], and what is known of the environment: the readings of
    the clock to come, and the calls of [timerEvent] made so far.  An operation
    between [synchronized] and [unsynchronized] is one step; what other threads
    do while the thread sleeps is an argument of the pass. *)

From S2P Require Import Prelude State SocketOps.
Local Open Scope Z_scope.

Definition u64 (x : Z) : Z := wrap 64 x.

Record TimerParameters : Type := {
  Interval : Z;
  CallLimit : Z;
  TimerCorrection : Z;
  FastStart : bool;
  Running : bool;
  Updated : bool }.

Record TimerThread : Type := {
  Parameters : list TimerParameters;
  ParametersUpdated : bool;
  Shutdown : bool;
  LeaveCorrectionLoop : list bool;
  (* local variables of [run] *)
  parameters : list TimerParameters;
  calls : list Z;
  next : list Z;
  now : Z;
  Value : Z;                     (* of the randomizer *)
  (* environment *)
  clock : list Z;
  events : list (nat * Z) }.     (* the timer, and [now] *)

Definition eta_Timer (t : TimerThread) : TimerThread :=
  {| Parameters := Parameters t; ParametersUpdated := ParametersUpdated t; Shutdown := Shutdown t;
     LeaveCorrectionLoop := LeaveCorrectionLoop t; parameters := parameters t; calls := calls t;
     next := next t; now := now t; Value := Value t; clock := clock t; events := events t |}.
Definition set_Parameters (v : list TimerParameters) (t : TimerThread) : TimerThread :=
  ltac:(set_member eta_Timer Parameters v t).
Definition set_ParametersUpdated (v : bool) (t : TimerThread) : TimerThread :=
  ltac:(set_member eta_Timer ParametersUpdated v t).
Definition set_Shutdown (v : bool) (t : TimerThread) : TimerThread :=
  ltac:(set_member eta_Timer Shutdown v t).
Definition set_LeaveCorrectionLoop (v : list bool) (t : TimerThread) : TimerThread :=
  ltac:(set_member eta_Timer LeaveCorrectionLoop v t).
Definition set_parameters (v : list TimerParameters) (t : TimerThread) : TimerThread :=
  ltac:(set_member eta_Timer parameters v t).
Definition set_calls (v : list Z) (t : TimerThread) : TimerThread := ltac:(set_member eta_Timer calls v t).
Definition set_next (v : list Z) (t : TimerThread) : TimerThread := ltac:(set_member eta_Timer next v t).
Definition set_now (v : Z) (t : TimerThread) : TimerThread := ltac:(set_member eta_Timer now v t).
Definition set_Value (v : Z) (t : TimerThread) : TimerThread := ltac:(set_member eta_Timer Value v t).
Definition set_clock (v : list Z) (t : TimerThread) : TimerThread := ltac:(set_member eta_Timer clock v t).
Definition set_events (v : list (nat * Z)) (t : TimerThread) : TimerThread :=
  ltac:(set_member eta_Timer events v t).

Definition with_Interval (v : Z) (p : TimerParameters) : TimerParameters :=
  {| Interval := v; CallLimit := CallLimit p; TimerCorrection := TimerCorrection p;
     FastStart := FastStart p; Running := Running p; Updated := Updated p |}.
Definition with_CallLimit (v : Z) (p : TimerParameters) : TimerParameters :=
  {| Interval := Interval p; CallLimit := v; TimerCorrection := TimerCorrection p;
     FastStart := FastStart p; Running := Running p; Updated := Updated p |}.
Definition with_TimerCorrection (v : Z) (p : TimerParameters) : TimerParameters :=
  {| Interval := Interval p; CallLimit := CallLimit p; TimerCorrection := v;
     FastStart := FastStart p; Running := Running p; Updated := Updated p |}.
Definition with_FastStart (v : bool) (p : TimerParameters) : TimerParameters :=
  {| Interval := Interval p; CallLimit := CallLimit p; TimerCorrection := TimerCorrection p;
     FastStart := v; Running := Running p; Updated := Updated p |}.
Definition with_Running (v : bool) (p : TimerParameters) : TimerParameters :=
  {| Interval := Interval p; CallLimit := CallLimit p; TimerCorrection := TimerCorrection p;
     FastStart := FastStart p; Running := v; Updated := Updated p |}.
Definition with_Updated (v : bool) (p : TimerParameters) : TimerParameters :=
  {| Interval := Interval p; CallLimit := CallLimit p; TimerCorrection := TimerCorrection p;
     FastStart := FastStart p; Running := Running p; Updated := v |}.

Notation T := (M TimerThread).

Definition entry {X} (l : TimerThread -> list X) (i : nat) : T X :=
  let* v := gets l in of_option OutOfBounds (v !! i).

(** The constructor: the members of the object.  It leaves [ParametersUpdated]
    and [Shutdown] uninitialised, and [run] sets both; the local variables of
    [run] do not exist yet. *)
Definition MultiTimerThread (timers : nat) (clock : list Z) : TimerThread :=
  {| Parameters := replicate timers
       {| Interval := 2 ^ 64 - 1; CallLimit := 0; TimerCorrection := 10; FastStart := true;
          Running := false; Updated := true |};
     ParametersUpdated := false; Shutdown := false;
     LeaveCorrectionLoop := replicate timers false;
     parameters := []; calls := []; next := []; now := 0; Value := 0;
     clock := clock; events := [] |}.

(** ** Setting the parameters *)

Definition cancel : T unit := modify (set_Shutdown true).
Definition isShuttingDown : T bool := gets Shutdown.

Definition upd_Parameters (f : TimerParameters -> TimerParameters) (timer : nat) (t : TimerThread)
    : TimerThread := set_Parameters (alter f timer (Parameters t)) t.

(** [timer < Timers] *)
Definition valid_timer (timer : nat) (body : T unit) : T unit :=
  let* n := gets (fun t => length (Parameters t)) in
  when (bool_decide (timer < n)%nat) body.

Definition getInterval (timer : nat) : T Z :=
  gets (fun t => match Parameters t !! timer with Some p => Interval p | None => 0 end).
Definition setInterval (timer : nat) (usec callLimit : Z) : T unit :=
  valid_timer timer
    (modify (fun t => set_LeaveCorrectionLoop (<[timer := false]> (LeaveCorrectionLoop t)) t) ;;
     modify (upd_Parameters (fun p => with_Running (0 <? usec) (with_CallLimit callLimit
       (with_Updated true (with_Interval usec p)))) timer) ;;
     modify (set_ParametersUpdated true)).
Definition setFastStart (timer : nat) (on : bool) : T unit :=
  valid_timer timer (modify (upd_Parameters (with_FastStart on) timer)).
Definition getFastStart (timer : nat) : T bool :=
  gets (fun t => match Parameters t !! timer with Some p => FastStart p | None => false end).
Definition getMicroTime : T Z := fun t =>
  match clock t with
  | x :: l => Ret x (set_clock l t)
  | [] => Stop WouldBlock
  end.
Definition setNextAction (timer : nat) (usec callLimit : Z) : T unit :=
  setFastStart timer false ;; setInterval timer usec callLimit.
(** The difference is signed. *)
Definition setNextActionAbs (timer : nat) (timeStamp callLimit : Z) : T unit :=
  let* now := getMicroTime in
  setFastStart timer false ;;
  let difference := u64 (timeStamp - now) in
  if (0 <? difference) && (difference <? 2 ^ 63)
  then setInterval timer difference callLimit
  else setInterval timer 1 callLimit.
Definition getTimerCorrection (timer : nat) : T Z :=
  gets (fun t => match Parameters t !! timer with Some p => TimerCorrection p | None => 0 end).
Definition leaveCorrectionLoop (timer : nat) : T unit :=
  valid_timer timer
    (modify (fun t => set_LeaveCorrectionLoop (<[timer := true]> (LeaveCorrectionLoop t)) t)).
Definition setTimerCorrection (timer : nat) (maxCorrection : Z) : T unit :=
  valid_timer timer
    (modify (upd_Parameters (fun p => with_Updated true (with_TimerCorrection maxCorrection p)) timer) ;;
     modify (set_ParametersUpdated true)).

(** ** The thread *)

Section Run.
(** The implementation of the subclass. *)
Variable timerEvent : nat -> T unit.
Definition UpdateResolution : Z := 100000.

Definition random32 : T Z :=
  modify (fun t => set_Value (random32_step (Value t)) t) ;; gets Value.

(** The call of the virtual function. *)
Definition call_event (i : nat) : T unit :=
  modify (fun t => set_events (events t ++ [(i, now t)]) t) ;; timerEvent i.

Definition read_clock : T unit := let* x := getMicroTime in modify (set_now x).
Definition set_next_at (i : nat) (x : Z) : T unit :=
  modify (fun t => set_next (<[i := u64 x]> (next t)) t).
Definition stop_timer (i : nat) : T unit :=
  modify (fun t => set_parameters (alter (with_Running false) i (parameters t)) t).
Definition count_call (i : nat) : T unit :=
  modify (fun t => set_calls (alter (fun c => u64 (c + 1)) i (calls t)) t).

(** One changed timer. *)
Definition update_timer (i : nat) : T unit :=
  let* shared := entry Parameters i in
  when (Updated shared)
    (modify (fun t => set_parameters (<[i := shared]> (parameters t)) t) ;;
     modify (upd_Parameters (with_Updated false) i) ;;
     when (Running shared)
       (let* t0 := gets now in
        if negb (FastStart shared) then
          if negb (Interval shared =? 0) && (CallLimit shared =? 0) then
            let* r := random32 in
            set_next_at i (t0 + r mod Interval shared)
          else set_next_at i (t0 + Interval shared)
        else set_next_at i t0) ;;
     modify (fun t => set_calls (<[i := 0]> (calls t)) t)).

Definition indices : T (list nat) := gets (fun t => seq 0 (length (Parameters t))).
Definition update_parameters : T unit :=
  let* updated := gets ParametersUpdated in
  when updated
    (modify (set_ParametersUpdated false) ;;
     let* l := indices in for_each l update_timer).

(** The time up to which the thread sleeps. *)
Definition nextTimeStamp (t : TimerThread) : Z :=
  foldl (fun stamp pn => if Running pn.1 then Z.min stamp pn.2 else stamp)
    (u64 (now t + UpdateResolution)) (zip (parameters t) (next t)).

(** "Invoke timer event" *)
Definition invoke (i : nat) : T unit :=
  let* p := entry parameters i in
  let* n := entry next i in
  let* t0 := gets now in
  when (Running p && (n <=? t0))
    (let* c := entry calls i in
     when ((0 <? CallLimit p) && (CallLimit p <=? c)) (stop_timer i) ;;
     set_next_at i (n + Interval p) ;;
     call_event i ;;
     count_call i).

(** [while(next[i] < now)]; an iteration reads the clock once. *)
Fixpoint correction_loop (fuel : nat) (i : nat) : T unit :=
  match fuel with
  | O => stop OutOfFuel
  | S fuel =>
      let* n := entry next i in
      let* t0 := gets now in
      if n <? t0 then
        let* leave := entry LeaveCorrectionLoop i in
        modify (fun t => set_LeaveCorrectionLoop (<[i := false]> (LeaveCorrectionLoop t)) t) ;;
        if leave : bool then ret tt
        else
          let* p := entry parameters i in
          set_next_at i (n + Interval p) ;;
          call_event i ;;
          count_call i ;;
          read_clock ;;
          let* c := entry calls i in
          when ((0 <? CallLimit p) && (CallLimit p <=? c)) (stop_timer i) ;;
          let* n := entry next i in
          let* t0 := gets now in
          if t0 <=? n then ret tt else correction_loop fuel i
      else ret tt
  end.
(** "Do timer correction" *)
Definition correct (i : nat) : T unit :=
  let* p := entry parameters i in
  let* n := entry next i in
  let* t0 := gets now in
  when (Running p && (n <=? t0))
    (if t0 <? u64 (n + u64 (TimerCorrection p * Interval p)) then
       let* fuel := gets (fun t => S (length (clock t))) in
       correction_loop fuel i
     else
       read_clock ;;
       let* t0 := gets now in
       set_next_at i (t0 + Interval p)).

(** One round of the main loop; [others] acts while the thread sleeps. *)
Definition pass (others : T unit) : T unit :=
  update_parameters ;;
  read_clock ;;
  others ;;
  read_clock ;;
  let* l := indices in
  for_each l invoke ;;
  for_each l correct.

Definition run_init : T unit :=
  modify (set_Shutdown false) ;;
  modify (set_ParametersUpdated true) ;;
  modify (fun t => set_parameters (with_Updated true <$> Parameters t) t) ;;
  modify (fun t => set_next (replicate (length (Parameters t)) 0) t) ;;
  modify (fun t => set_calls (replicate (length (Parameters t)) 0) t) ;;
  read_clock.
Fixpoint run_loop (rounds : list (T unit)) : T unit :=
  let* shutdown := isShuttingDown in
  if shutdown : bool then ret tt
  else match rounds with
       | [] => stop WouldBlock
       | others :: rounds => pass others ;; run_loop rounds
       end.
Definition run (rounds : list (T unit)) : T unit := run_init ;; run_loop rounds.
End Run.
