(* ===== verification/TimedThread.v ===== *)
(** * Threads with one timer: timedthread.cc, timedthread.icc *)

From S2P Require Import Prelude Timer.
Local Open Scope Z_scope.

Definition timer : nat := 0%nat.
Definition TimedThread (usec : Z) (clock : list Z) : Res TimerThread unit :=
  Timer.setInterval timer usec 0 (MultiTimerThread 1 clock).
Definition getInterval : T Z := Timer.getInterval timer.
Definition setInterval (usec : Z) : T unit := Timer.setInterval timer usec 0.
Definition getTimerCorrection : T Z := Timer.getTimerCorrection timer.
Definition setTimerCorrection (maxCorrection : Z) : T unit := Timer.setTimerCorrection timer maxCorrection.
Definition leaveCorrectionLoop : T unit := Timer.leaveCorrectionLoop timer.
Definition getFastStart : T bool := Timer.getFastStart timer.
Definition setFastStart (on : bool) : T unit := Timer.setFastStart timer on.
Definition setNextAction (usec callLimit : Z) : T unit := Timer.setNextAction timer usec callLimit.
(** The inline definition calls its arguments [usec] and [timeStamp]; they are
    the time stamp and the limit of the declaration. *)
Definition setNextActionAbs (timeStamp callLimit : Z) : T unit :=
  Timer.setNextActionAbs timer timeStamp callLimit.
(** The virtual function of the base class. *)
Definition timerEvent (event : T unit) (timer : nat) : T unit := event.
