(* ===== verification/BreakDetector.v ===== *)
(** * The break detector: breakdetector.cc

    The static variables, the handler of SIGINT, and the functions around it.
    What the process prints, and the signals it sends, are recorded. *)

From S2P Require Import Prelude State.
Local Open Scope Z_scope.

Inductive Output : Set := PrintBreak | PrintKill.
Inductive Signal : Set := SIGINT | SIGKILL.
Definition no_time : Z := 2 ^ 64 - 1.

Record BreakDetector : Type := {
  DetectedBreak : bool;
  PrintedBreak : bool;
  Quiet : bool;
  PrintedKill : bool;
  LastDetection : Z;
  handler_installed : bool;
  clock : list Z;                    (* the readings to come *)
  printed : list Output;
  signals : list Signal }.           (* sent to MainThreadPID *)

Definition eta_BreakDetector (b : BreakDetector) : BreakDetector :=
  {| DetectedBreak := DetectedBreak b; PrintedBreak := PrintedBreak b; Quiet := Quiet b;
     PrintedKill := PrintedKill b; LastDetection := LastDetection b;
     handler_installed := handler_installed b; clock := clock b; printed := printed b;
     signals := signals b |}.
Definition set_DetectedBreak (v : bool) (b : BreakDetector) : BreakDetector :=
  ltac:(set_member eta_BreakDetector DetectedBreak v b).
Definition set_PrintedBreak (v : bool) (b : BreakDetector) : BreakDetector :=
  ltac:(set_member eta_BreakDetector PrintedBreak v b).
Definition set_Quiet (v : bool) (b : BreakDetector) : BreakDetector :=
  ltac:(set_member eta_BreakDetector Quiet v b).
Definition set_PrintedKill (v : bool) (b : BreakDetector) : BreakDetector :=
  ltac:(set_member eta_BreakDetector PrintedKill v b).
Definition set_LastDetection (v : Z) (b : BreakDetector) : BreakDetector :=
  ltac:(set_member eta_BreakDetector LastDetection v b).
Definition set_handler (v : bool) (b : BreakDetector) : BreakDetector :=
  ltac:(set_member eta_BreakDetector handler_installed v b).
Definition set_clock (v : list Z) (b : BreakDetector) : BreakDetector :=
  ltac:(set_member eta_BreakDetector clock v b).
Definition set_printed (v : list Output) (b : BreakDetector) : BreakDetector :=
  ltac:(set_member eta_BreakDetector printed v b).
Definition set_signals (v : list Signal) (b : BreakDetector) : BreakDetector :=
  ltac:(set_member eta_BreakDetector signals v b).

Notation B := (M BreakDetector).

Definition print (o : Output) : B unit := modify (fun b => set_printed (printed b ++ [o]) b).
Definition kill (s : Signal) : B unit := modify (fun b => set_signals (signals b ++ [s]) b).
Definition getMicroTime : B Z := fun b =>
  match clock b with
  | x :: l => Ret x (set_clock l b)
  | [] => Stop WouldBlock
  end.

(** The variables at the start of the process. *)
Definition initial (clock : list Z) : BreakDetector :=
  {| DetectedBreak := false; PrintedBreak := false; Quiet := false; PrintedKill := false;
     LastDetection := no_time; handler_installed := false; clock := clock; printed := [];
     signals := [] |}.

(** The handler of SIGINT. *)
Definition breakDetector : B unit :=
  modify (set_DetectedBreak true) ;;
  let* killed := gets PrintedKill in
  when (negb killed)
    (let* now := getMicroTime in
     let* last := gets LastDetection in
     if last =? no_time then modify (set_LastDetection now)
     else when (2000000 <=? wrap 64 (now - last))
            (modify (set_PrintedKill true) ;; print PrintKill ;; kill SIGKILL)).
Definition reset_flags : B unit :=
  modify (set_DetectedBreak false) ;; modify (set_PrintedBreak false) ;; modify (set_Quiet false) ;;
  modify (set_PrintedKill false) ;; modify (set_LastDetection no_time).
Definition installBreakDetector : B unit := reset_flags ;; modify (set_handler true).
Definition uninstallBreakDetector : B unit := modify (set_handler false) ;; reset_flags.
(** [PrintedBreak] is set to the truth value of the time. *)
Definition breakDetected : B bool :=
  let* detected := gets DetectedBreak in
  let* was_printed := gets PrintedBreak in
  when (detected && negb was_printed)
    (let* quiet := gets Quiet in
     when (negb quiet) (print PrintBreak) ;;
     let* now := getMicroTime in
     modify (set_PrintedBreak (negb (now =? 0)))) ;;
  gets DetectedBreak.
Definition sendBreak (quiet : bool) : B unit := modify (set_Quiet quiet) ;; kill SIGINT.

(** ** What the user sees *)

Definition presses (n : nat) : B unit := for_each (replicate n tt) (fun _ => breakDetector).

Ltac run_detector b :=
  destruct b; cbn in *; subst;
  unfold breakDetector, modify, gets, bind, when, getMicroTime, print, kill; cbn; rewrite ?Z.eqb_refl.

Lemma presses_cons n b b' : breakDetector b = Ret tt b' -> presses (S n) b = presses n b'.
Proof. intros H. unfold presses. cbn [replicate for_each]. unfold bind at 1. by rewrite H. Qed.
Lemma presses_snoc : forall n b b',
  presses n b = Ret tt b' -> presses (n + 1) b = breakDetector b'.
Proof.
  unfold presses. generalize breakDetector as d. intros d.
  induction n as [|n IH]; intros b b' H; cbn in *; unfold bind in *.
  - injection H as ->. by destruct (d b') as [[] ?|].
  - destruct (d b) as [[] b1|]; [|done]. by apply IH.
Qed.

Lemma press_first t0 l b :
  PrintedKill b = false -> LastDetection b = no_time -> clock b = t0 :: l ->
  breakDetector b = Ret tt (set_LastDetection t0 (set_clock l (set_DetectedBreak true b))).
Proof. intros Hk Hl Hc. by run_detector b. Qed.
Lemma press_before last now l b :
  PrintedKill b = false -> LastDetection b = last -> last <> no_time -> clock b = now :: l ->
  0 <= now - last < 2000000 ->
  breakDetector b = Ret tt (set_clock l (set_DetectedBreak true b)).
Proof.
  intros Hk Hl Hn Hc Hd. run_detector b. rewrite (proj2 (Z.eqb_neq _ _)), wrap_small by lia.
  by rewrite (proj2 (Z.leb_gt _ _)) by lia.
Qed.
Lemma press_after last now l b :
  PrintedKill b = false -> LastDetection b = last -> last <> no_time -> clock b = now :: l ->
  2000000 <= now - last < 2 ^ 64 ->
  exists b', breakDetector b = Ret tt b' /\ signals b' = signals b ++ [SIGKILL].
Proof.
  intros Hk Hl Hn Hc Hd. run_detector b. rewrite (proj2 (Z.eqb_neq _ _)), wrap_small by lia.
  rewrite (proj2 (Z.leb_le _ _)) by lia. by eexists.
Qed.

Lemma presses_before : forall l last rest b,
  PrintedKill b = false -> LastDetection b = last -> last <> no_time ->
  Forall (fun now => 0 <= now - last < 2000000) l -> clock b = l ++ rest ->
  exists b', presses (length l) b = Ret tt b' /\ PrintedKill b' = false /\ LastDetection b' = last
    /\ clock b' = rest /\ signals b' = signals b.
Proof.
  induction l as [|now l IH]; intros last rest b Hk Hl Hn Ht Hc; [by exists b|].
  inversion Ht; subst. cbn [length].
  rewrite (presses_cons _ _ _ (press_before _ now (l ++ rest) b Hk eq_refl Hn Hc ltac:(done))).
  by apply (IH (LastDetection b) rest (set_clock (l ++ rest) (set_DetectedBreak true b))).
Qed.

(** The process is killed by the first interrupt at least two seconds after
    the first one the handler has seen, and by none before. *)
Lemma kill_after_timeout t0 l t1 b :
  PrintedKill b = false -> LastDetection b = no_time -> t0 <> no_time ->
  Forall (fun now => 0 <= now - t0 < 2000000) l -> 2000000 <= t1 - t0 < 2 ^ 64 ->
  clock b = t0 :: l ++ [t1] ->
  (exists b', presses (S (length l)) b = Ret tt b' /\ signals b' = signals b)
  /\ (exists b', presses (S (length l) + 1) b = Ret tt b' /\ signals b' = signals b ++ [SIGKILL]).
Proof.
  intros Hk Hl Hn Hs Ht Hc. pose proof (press_first t0 _ b Hk Hl Hc) as H0.
  set (b1 := set_LastDetection t0 _) in H0.
  destruct (presses_before l t0 [t1] b1 Hk eq_refl Hn Hs eq_refl) as (b2 & Hr & Hk2 & Hl2 & Hc2 & Hs2).
  assert (presses (S (length l)) b = Ret tt b2) as Hr2 by (by rewrite (presses_cons _ _ _ H0)).
  split; [by exists b2|]. rewrite (presses_snoc _ _ _ Hr2).
  change (signals b) with (signals b1). rewrite <- Hs2. by apply (press_after t0 t1 []).
Qed.
