(* ===== verification/SocketMessage.v ===== *)
(** * Messages with control data: the class SocketMessage of tdmessage.icc

    The message header points into the object: to its address, its buffer
    descriptor and its control block.  Pointers into the control block are
    offsets. *)

From S2P Require Import Prelude Memory Notification State Descriptors WrapperIO InternetAddress SocketAddress.
Local Open Scope Z_scope.

Section SocketMessage.
Context (UseIPv6 : bool) (blank : InternetAddress) (blank_unix : UnixAddress).
(** The template parameter, the space for the payload of the control block. *)
Variable size : Z.

Record SocketMessage : Type := {
  msg_name : bool;                       (* [NULL] or [&Address] *)
  msg_namelen : Z;
  msg_iov : option (list Z * Z);         (* [NULL], or the buffer and its size in [IOVector] *)
  msg_control : bool;                    (* [NULL] or [&Control] *)
  msg_controllen : Z;
  msg_flags : Z;
  NextMsg : option nat;
  Address : list Z;
  Control : list Z }.

Definition clear (m : SocketMessage) : SocketMessage :=
  {| msg_name := false; msg_namelen := 0; msg_iov := None; msg_control := false;
     msg_controllen := 0; msg_flags := 0; NextMsg := None; Address := Address m;
     Control := if 0 <? size then replicate (length (Control m)) 0 else Control m |}.
(** The constructor, from what the memory holds. *)
Definition new_SocketMessage (address control : list Z) : SocketMessage :=
  clear {| msg_name := false; msg_namelen := 0; msg_iov := None; msg_control := false;
           msg_controllen := 0; msg_flags := 0; NextMsg := None; Address := address;
           Control := control |}.

Definition getAddress (m : SocketMessage) : option SocketAddress :=
  create_from_sockaddr blank blank_unix 0 (Address m) 128.
Definition setAddress (address : SocketAddress) (family : Z) (m : SocketMessage) : SocketMessage :=
  let '(n, b) := address_getSystemAddress UseIPv6 address (Address m) 128 family in
  {| msg_name := true; msg_namelen := n; msg_iov := msg_iov m; msg_control := msg_control m;
     msg_controllen := msg_controllen m; msg_flags := msg_flags m; NextMsg := NextMsg m;
     Address := b; Control := Control m |}.
Definition setBuffer (buffer : list Z) (buffersize : Z) (m : SocketMessage) : SocketMessage :=
  {| msg_name := msg_name m; msg_namelen := msg_namelen m; msg_iov := Some (buffer, buffersize);
     msg_control := msg_control m; msg_controllen := msg_controllen m; msg_flags := msg_flags m;
     NextMsg := NextMsg m; Address := Address m; Control := Control m |}.
Definition getFlags (m : SocketMessage) : Z := msg_flags m.
Definition setFlags (flags : Z) (m : SocketMessage) : SocketMessage :=
  {| msg_name := msg_name m; msg_namelen := msg_namelen m; msg_iov := msg_iov m;
     msg_control := msg_control m; msg_controllen := msg_controllen m; msg_flags := flags;
     NextMsg := NextMsg m; Address := Address m; Control := Control m |}.

Definition set_control (len : Z) (next : option nat) (control : list Z) (m : SocketMessage)
    : SocketMessage :=
  {| msg_name := msg_name m; msg_namelen := msg_namelen m; msg_iov := msg_iov m;
     msg_control := true; msg_controllen := len; msg_flags := msg_flags m; NextMsg := next;
     Address := Address m; Control := control |}.

(** The members of the header at an offset. *)
Definition write_header (cmsg : nat) (len level type : Z) (control : list Z) : list Z :=
  put (cmsg + 12) 4 type (put (cmsg + 8) 4 level (put cmsg 8 len control)).

(** The offset of the payload; the assertion ends the process. *)
Definition addHeader (payloadLength level type : Z) : M SocketMessage (option nat) := fun m =>
  let m := match NextMsg m with
           | None => set_control 0 (CFirstHeader (Some (Control m)) size) (Control m) m
           | Some _ => m
           end in
  match NextMsg m with
  | None => Stop ProcessAbort
  | Some cmsg =>
      if size <? msg_controllen m then Ret None m
      else
        let len := CLength payloadLength in
        let control := write_header cmsg len level type (Control m) in
        let controllen := msg_controllen m + len in
        Ret (Some (cmsg + 16)%nat)
          (set_control controllen (CNextHeader control controllen cmsg) control m)
  end.
Definition getFirstHeader (m : SocketMessage) : option nat :=
  if 0 <? msg_controllen m then
    CFirstHeader (if msg_control m then Some (Control m) else None) (msg_controllen m)
  else None.
Definition getNextHeader (prev : nat) (m : SocketMessage) : option nat :=
  CNextHeader (Control m) (msg_controllen m) prev.

(** ** Several headers *)

Definition Header : Type := Z * (Z * Z).      (* payload length, level, type *)
Fixpoint addHeaders (l : list Header) : M SocketMessage (list (option nat)) :=
  match l with
  | [] => ret []
  | (n, (level, type)) :: l =>
      let* p := addHeader n level type in let* ps := addHeaders l in ret (p :: ps)
  end.

(** The message holds one header, at the beginning of the control block. *)
Definition holds_header (h : Header) (m : SocketMessage) : Prop :=
  NextMsg m = None /\ getFirstHeader m = Some 0%nat /\ getNextHeader 0 m = None
  /\ msg_controllen m = CLength h.1
  /\ rd cmsg_len (Control m) = CLength h.1 /\ rd cmsg_level (Control m) = h.2.1
  /\ rd cmsg_type (Control m) = h.2.2.

Definition header_ok (h : Header) : Prop :=
  0 <= h.1 < 2 ^ 32 /\ 0 <= h.2.1 < 2 ^ 32 /\ 0 <= h.2.2 < 2 ^ 32.

Lemma align_ge n : n <= CMSG_ALIGN n.
Proof.
  unfold CMSG_ALIGN. pose proof (Z.div_mod (n + 7) 8 ltac:(lia)) as H.
  pose proof (Z.mod_pos_bound (n + 7) 8 ltac:(lia)). lia.
Qed.

Lemma length_write_header len level type c :
  (16 <= length c)%nat -> length (write_header 0 len level type c) = length c.
Proof.
  intros H. pose proof (length_put 0 8 len c ltac:(lia)) as E1.
  pose proof (length_put 8 4 level (put 0 8 len c) ltac:(lia)) as E2.
  unfold write_header. cbn [Nat.add]. rewrite length_put; lia.
Qed.
Lemma read_header len level type c :
  (16 <= length c)%nat ->
  0 <= len < 2 ^ 64 -> 0 <= level < 2 ^ 32 -> 0 <= type < 2 ^ 32 ->
  rd cmsg_len (write_header 0 len level type c) = len
  /\ rd cmsg_level (write_header 0 len level type c) = level
  /\ rd cmsg_type (write_header 0 len level type c) = type.
Proof.
  intros Hc H1 H2 H3. unfold rd, write_header, cmsg_len, cmsg_level, cmsg_type; cbn [f_off f_len Nat.add].
  pose proof (length_put 0 8 len c ltac:(lia)) as E1.
  pose proof (length_put 8 4 level (put 0 8 len c) ltac:(lia)) as E2.
  split; [|split].
  - rewrite !get_put_ne by lia. rewrite get_put_same by lia. by apply Z.mod_small.
  - rewrite get_put_ne by lia. rewrite get_put_same by lia. by apply Z.mod_small.
  - rewrite get_put_same by lia. by apply Z.mod_small.
Qed.

(** After the header of the first message there is no space left in
    [msg_controllen], so that there is no next header. *)
Lemma no_next n level type c :
  (16 <= length c)%nat -> 0 <= n < 2 ^ 32 -> 0 <= level < 2 ^ 32 -> 0 <= type < 2 ^ 32 ->
  CNextHeader (write_header 0 (CLength n) level type c) (CLength n) 0 = None.
Proof.
  intros Hc Hn Hl Ht. unfold CNextHeader. rewrite drop_0.
  destruct (read_header (CLength n) level type c) as (-> & _); try done.
  { change (CLength n) with (16 + n). lia. }
  pose proof (align_ge (CLength n)). case_bool_decide; [done|]. rewrite bool_decide_true; [done|]. unfold sizeof_cmsghdr. lia.
Qed.

Lemma add_one h m :
  16 <= size -> (16 <= length (Control m))%nat -> header_ok h -> NextMsg m = None ->
  exists m', addHeader h.1 h.2.1 h.2.2 m = Ret (Some 16%nat) m' /\ holds_header h m'
    /\ length (Control m') = length (Control m).
Proof using Type.
  destruct h as [n [level type]]. intros Hs Hc (Hn & Hl & Ht) Hm. cbn [fst snd] in *.
  unfold addHeader. rewrite Hm. cbn [set_control NextMsg CFirstHeader].
  rewrite bool_decide_true by done. cbn [msg_controllen Control set_control].
  rewrite (proj2 (Z.ltb_ge _ _)) by lia. rewrite Z.add_0_l, no_next by done.
  eexists. split; [done|]. split; [|by apply length_write_header].
  destruct (read_header (CLength n) level type (Control m)) as (? & ? & ?); try done.
  { change (CLength n) with (16 + n). lia. }
  assert (16 <= CLength n) by (change (CLength n) with (16 + n); lia).
  repeat split; cbn; try done.
  - unfold getFirstHeader; cbn. rewrite (proj2 (Z.ltb_lt _ _)) by lia. by rewrite bool_decide_true.
  - by apply no_next.
Qed.

Lemma last_default {A} (l : list A) : forall x d d', List.last (x :: l) d = List.last (x :: l) d'.
Proof. induction l as [|y l IH]; intros x d d'; [done|]. apply (IH y). Qed.
Lemma add_all l : forall h m,
  16 <= size -> (16 <= length (Control m))%nat -> Forall header_ok (h :: l) -> NextMsg m = None ->
  exists m', addHeaders (h :: l) m = Ret (replicate (S (length l)) (Some 16%nat)) m'
    /\ holds_header (List.last (h :: l) h) m'.
Proof using Type.
  induction l as [|h' l IH]; intros h m Hs Hc Hok Hm; inversion Hok as [|? ? Hh Hrest]; subst;
    destruct (add_one h m Hs Hc Hh Hm) as (m1 & H1 & Hm1 & Hlen); destruct h as [n [level type]];
    cbn [addHeaders fst snd] in *; unfold bind at 1; rewrite H1.
  - by exists m1.
  - destruct (IH h' m1) as (m' & H & Hm'); try done; [by rewrite Hlen|apply Hm1|].
    exists m'. cbn [addHeaders] in H |- *. unfold bind in *. rewrite H. split; [done|].
    change (List.last ((n, (level, type)) :: h' :: l) (n, (level, type)))
      with (List.last (h' :: l) (n, (level, type))). by rewrite (last_default l h' _ h').
Qed.

(** However many headers are added, the message ends up with the last one:
    the length of the control data leaves no space for a next header, so that
    each header overwrites the one before. *)
Lemma last_header_only address control h l :
  16 <= size -> (16 <= length control)%nat -> Forall header_ok (h :: l) ->
  exists m', addHeaders (h :: l) (new_SocketMessage address control)
      = Ret (replicate (S (length l)) (Some 16%nat)) m'
    /\ holds_header (List.last (h :: l) h) m'.
Proof using Type.
  intros Hs Hc Hok. apply add_all; try done.
  cbn. destruct (0 <? size); [by rewrite length_replicate|done].
Qed.
End SocketMessage.
