(* ===== verification/Synchronizable.v ===== *)
(** * The mutex of systems without recursive mutexes: synchronizable.icc

    With [NO_RECURSIVE_MUTEX], as on Darwin, [Synchronizable] builds its
    recursive mutex from a plain one, the member [Owner] and the member
    [RecursionLevel].  These are read and written by threads that run side by
    side: the model is a step relation, with one step for each access to what
    the threads share. *)

From S2P Require Import Prelude.
Local Open Scope Z_scope.

Inductive Operation : Set := Synchronized | SynchronizedTry | Unsynchronized.
(** Where a thread is. *)
Inductive Position : Set :=
| Idle (tried : bool)      (* in no operation; the result of [synchronizedTry] *)
| SyncTest | SyncLock | SyncOwner | SyncCount
| TryTest | TryLock | TryOwner | TryCount
| UnTest | UnOwner | UnCount | UnClear | UnUnlock.

#[export] Instance Position_eq_dec : EqDecision Position.
Proof. solve_decision. Defined.

(** The holder of [Mutex]; [Owner] (0 is [None]); the positions. *)
Record Shared : Type := {
  Mutex : option nat;
  Owner : option nat;
  RecursionLevel : Z;
  position : nat -> Position }.

(** The constructor. *)
Definition new_Synchronizable : Shared :=
  {| Mutex := None; Owner := None; RecursionLevel := 0; position := fun _ => Idle true |}.

(** [resynchronize] replaces the mutex by a new one, whatever its state. *)
Definition resynchronize (s : Shared) : Shared :=
  {| Mutex := None; Owner := None; RecursionLevel := 0; position := position s |}.

(** [MutexName], 64 characters with the terminating one. *)
Definition setName (name : option string) : string :=
  match name with Some name => String.substring 0 63 name | None => "" end.
Definition getName (MutexName : string) : string :=
  if bool_decide (MutexName = ""%string) then "Unnamed Mutex" else MutexName.

(** What a step does: it waits for [Mutex], it aborts the process, or it goes
    on. *)
Inductive Outcome : Type := Waits | Aborts | Goes (s : Shared).

Definition at_position (i : nat) (p : Position) (s : Shared) : Shared :=
  {| Mutex := Mutex s; Owner := Owner s; RecursionLevel := RecursionLevel s;
     position := fun j => if bool_decide (j = i) then p else position s j |}.
Definition set_Mutex (m : option nat) (s : Shared) : Shared :=
  {| Mutex := m; Owner := Owner s; RecursionLevel := RecursionLevel s; position := position s |}.
Definition set_Owner (o : option nat) (s : Shared) : Shared :=
  {| Mutex := Mutex s; Owner := o; RecursionLevel := RecursionLevel s; position := position s |}.
Definition set_RecursionLevel (n : Z) (s : Shared) : Shared :=
  {| Mutex := Mutex s; Owner := Owner s; RecursionLevel := wrap 32 n; position := position s |}.

Section Synchronizable.
Variable Recursive : bool.

(** The next step of thread [i] in its operation. *)
Definition advance (i : nat) (s : Shared) : Outcome :=
  let own := bool_decide (Owner s = Some i) in
  match position s i with
  | Idle _ => Waits
  (* synchronized *)
  | SyncTest =>
      if negb Recursive then Goes (at_position i SyncLock s)
      else Goes (at_position i (if own then SyncCount else SyncLock) s)
  | SyncLock =>
      match Mutex s with
      | Some _ => Waits
      | None => Goes (at_position i (if Recursive then SyncOwner else SyncCount) (set_Mutex (Some i) s))
      end
  | SyncOwner => Goes (at_position i SyncCount (set_Owner (Some i) s))
  | SyncCount => Goes (at_position i (Idle true) (set_RecursionLevel (RecursionLevel s + 1) s))
  (* synchronizedTry *)
  | TryTest =>
      if negb Recursive then Goes (at_position i TryLock s)
      else Goes (at_position i (if own then TryCount else TryLock) s)
  | TryLock =>
      match Mutex s with
      | Some _ => Goes (at_position i (Idle false) s)
      | None => Goes (at_position i TryOwner (set_Mutex (Some i) s))
      end
  | TryOwner => Goes (at_position i TryCount (set_Owner (Some i) s))
  | TryCount => Goes (at_position i (Idle true) (set_RecursionLevel (RecursionLevel s + 1) s))
  (* unsynchronized *)
  | UnTest =>
      if bool_decide (RecursionLevel s = 0) then Aborts
      else Goes (at_position i (if negb Recursive then UnCount else UnOwner) s)
  | UnOwner => if own then Goes (at_position i UnCount s) else Aborts
  | UnCount =>
      let s := set_RecursionLevel (RecursionLevel s - 1) s in
      if negb Recursive then Goes (at_position i UnUnlock s)
      else Goes (at_position i (if bool_decide (RecursionLevel s = 0) then UnClear else Idle true) s)
  | UnClear => Goes (at_position i UnUnlock (set_Owner None s))
  | UnUnlock => Goes (at_position i (Idle true) (set_Mutex None s))
  end.

Definition begin (o : Operation) : Position :=
  match o with Synchronized => SyncTest | SynchronizedTry => TryTest | Unsynchronized => UnTest end.

(** Any thread that is in no operation may begin one, any other may go on. *)
Inductive step (s : Shared) : Shared -> Prop :=
| step_begin i o r : position s i = Idle r -> step s (at_position i (begin o) s)
| step_advance i s' : advance i s = Goes s' -> step s s'.
End Synchronizable.

(** ** The recursive mutex of the system

    The holder and the level; each operation takes effect at one moment
    between its call and its return. *)

Module Spec.
Inductive Phase : Set :=
| Outside (tried : bool)
| Called (o : Operation)
| Returning (tried : bool).
Record State : Type := { holder : option (nat * Z); phase : nat -> Phase }.

Definition initial : State := {| holder := None; phase := fun _ => Outside true |}.
Definition at_phase (i : nat) (p : Phase) (t : State) : State :=
  {| holder := holder t; phase := fun j => if bool_decide (j = i) then p else phase t j |}.
Definition set_holder (h : option (nat * Z)) (t : State) : State :=
  {| holder := h; phase := phase t |}.

(** The effect of an operation: the new holder and the result.  [None]: the
    thread waits, or it unlocks what it does not hold. *)
Definition effect (i : nat) (o : Operation) (h : option (nat * Z)) : option (option (nat * Z) * bool) :=
  match o, h with
  | Synchronized, None | SynchronizedTry, None => Some (Some (i, 1), true)
  | Synchronized, Some (j, n) =>
      if bool_decide (j = i) then Some (Some (i, n + 1), true) else None
  | SynchronizedTry, Some (j, n) =>
      if bool_decide (j = i) then Some (Some (i, n + 1), true) else Some (h, false)
  | Unsynchronized, None => None
  | Unsynchronized, Some (j, n) =>
      if bool_decide (j = i)
      then Some (if bool_decide (n = 1) then None else Some (i, n - 1), true) else None
  end.

Inductive step (t : State) : State -> Prop :=
| call i o r : phase t i = Outside r -> step t (at_phase i (Called o) t)
| effects i o h r : phase t i = Called o -> effect i o (holder t) = Some (h, r) ->
    step t (at_phase i (Returning r) (set_holder h t))
| returns i r : phase t i = Returning r -> step t (at_phase i (Outside r) t).
End Spec.

(** ** The simulation *)

(** The positions of a thread that holds [Mutex] for its operation. *)
Definition holding (p : Position) : bool :=
  match p with
  | SyncOwner | SyncCount | TryOwner | TryCount | UnCount | UnClear | UnUnlock => true
  | _ => false
  end.
Definition waiting (p : Position) : bool :=
  match p with SyncLock | TryLock => true | _ => false end.
(** [Owner] and [RecursionLevel] by the position of the holder. *)
Definition members_ok (i : nat) (p : Position) (owner : option nat) (level : Z) : Prop :=
  match p with
  | SyncOwner | TryOwner | UnUnlock => owner = None /\ level = 0
  | UnClear => owner = Some i /\ level = 0
  | SyncCount | TryCount => owner = Some i /\ 0 <= level
  | _ => owner = Some i /\ 1 <= level
  end.
Record consistent (s : Shared) : Prop := {
  c_holding : forall i, holding (position s i) = true -> Mutex s = Some i;
  c_waiting : forall i, waiting (position s i) = true -> Mutex s <> Some i;
  c_free : Mutex s = None -> Owner s = None /\ RecursionLevel s = 0;
  c_held : forall i, Mutex s = Some i -> members_ok i (position s i) (Owner s) (RecursionLevel s);
  c_range : 0 <= RecursionLevel s < 2 ^ 32 }.

Definition phase_at (level : Z) (p : Position) : Spec.Phase :=
  match p with
  | Idle r => Spec.Outside r
  | SyncTest | SyncLock => Spec.Called Synchronized
  | SyncCount => if bool_decide (level = 0) then Spec.Returning true else Spec.Called Synchronized
  | TryTest | TryLock => Spec.Called SynchronizedTry
  | TryCount => if bool_decide (level = 0) then Spec.Returning true else Spec.Called SynchronizedTry
  | SyncOwner | TryOwner => Spec.Returning true
  | UnTest | UnOwner | UnCount | UnClear | UnUnlock => Spec.Called Unsynchronized
  end.
Definition level_of (s : Shared) : option (nat * Z) :=
  i ← Mutex s; Some (i, Z.max 1 (RecursionLevel s)).
Record simulates (s : Shared) (t : Spec.State) : Prop := {
  sim_ok : consistent s;
  sim_holder : Spec.holder t = level_of s;
  sim_phase : forall i, Spec.phase t i = phase_at (RecursionLevel s) (position s i) }.

Lemma at_same i p s : position (at_position i p s) i = p.
Proof. cbn. by rewrite bool_decide_true. Qed.
Lemma at_other i j p s : j <> i -> position (at_position i p s) j = position s j.
Proof. intros H. cbn. by rewrite bool_decide_false. Qed.

(** A step of thread [i] is consistent if the members fit its new position and
    no other thread is at a position that needs them. *)
Lemma consistent_step i p s s' :
  consistent s -> (forall j, position s' j = position s j) ->
  (holding p = true -> Mutex s' = Some i) -> (waiting p = true -> Mutex s' <> Some i) ->
  (Mutex s' = None -> Owner s' = None /\ RecursionLevel s' = 0) ->
  (Mutex s' = Some i -> members_ok i p (Owner s') (RecursionLevel s')) ->
  0 <= RecursionLevel s' < 2 ^ 32 ->
  (Mutex s' = Mutex s /\ Owner s' = Owner s /\ RecursionLevel s' = RecursionLevel s
   \/ Mutex s = None \/ Mutex s = Some i) ->
  (forall j, j <> i -> Mutex s' = Some j -> Mutex s = Some j) ->
  consistent (at_position i p s').
Proof.
  intros [Hh Hw Hf Hd Hr] Hp Hhold Hwait Hfree Hheld Hrange Hchange Hkeep.
  split; try done; intros j; destruct (decide (j = i)) as [->|Hj];
    rewrite ?at_same, ?at_other, ?Hp by done; try done.
  - intros H. specialize (Hh j H). cbn. destruct Hchange as [(-> & _)|[E|E]]; congruence.
  - intros H. specialize (Hw j H). cbn. auto.
  - cbn. intros H. specialize (Hkeep j Hj H).
    destruct Hchange as [(_ & -> & ->)|[E|E]]; [auto|congruence..].
Qed.

Lemma phase_level l l' p : holding p = false -> phase_at l p = phase_at l' p.
Proof. by destruct p. Qed.

Lemma simulates_step i p s s' t t' :
  simulates s t -> consistent (at_position i p s') -> (forall j, position s' j = position s j) ->
  (RecursionLevel s' = RecursionLevel s \/ Mutex s = Some i) ->
  Spec.holder t' = level_of s' -> Spec.phase t' i = phase_at (RecursionLevel s') p ->
  (forall j, j <> i -> Spec.phase t' j = Spec.phase t j) ->
  simulates (at_position i p s') t'.
Proof.
  intros [Hok Hh Hph] Hc Hp Hl Hh' Hi Hj. split; [done|done|].
  intros j. destruct (decide (j = i)) as [->|Hne]; [by rewrite at_same|].
  rewrite at_other, Hp, Hj, Hph by done. cbn. destruct Hl as [->|Hm]; [done|].
  apply phase_level. destruct (holding (position s j)) eqn:E; [|done].
  pose proof (c_holding s Hok j E). congruence.
Qed.

(** The steps of the specification for a step of thread [i]: none, a call, an
    effect, an effect and the return, a return. *)
Lemma spec_call i o r t :
  Spec.phase t i = Spec.Outside r -> rtc Spec.step t (Spec.at_phase i (Spec.Called o) t).
Proof. intros H. apply rtc_once. by eapply Spec.call. Qed.
Lemma spec_effect i o h r t :
  Spec.phase t i = Spec.Called o -> Spec.effect i o (Spec.holder t) = Some (h, r) ->
  rtc Spec.step t (Spec.at_phase i (Spec.Returning r) (Spec.set_holder h t)).
Proof. intros H He. apply rtc_once. by eapply Spec.effects. Qed.
Lemma spec_return i r t :
  Spec.phase t i = Spec.Returning r -> rtc Spec.step t (Spec.at_phase i (Spec.Outside r) t).
Proof. intros H. apply rtc_once. by apply Spec.returns. Qed.
Lemma phase_same i p t : Spec.phase (Spec.at_phase i p t) i = p.
Proof. cbn. by rewrite bool_decide_true. Qed.
Lemma phase_other i j p t : j <> i -> Spec.phase (Spec.at_phase i p t) j = Spec.phase t j.
Proof. intros H. cbn. by rewrite bool_decide_false. Qed.

Section Simulation.
Variables (s : Shared) (t : Spec.State) (i : nat).
Hypothesis (Hsim : simulates s t) (Hbound : RecursionLevel s < 2 ^ 32 - 1).

Definition simulated (p : Position) (s' : Shared) : Prop :=
  exists t', rtc Spec.step t t' /\ simulates (at_position i p s') t'.

Lemma silent p s' :
  consistent (at_position i p s') -> (forall j, position s' j = position s j) ->
  (RecursionLevel s' = RecursionLevel s \/ Mutex s = Some i) -> level_of s' = level_of s ->
  phase_at (RecursionLevel s') p = phase_at (RecursionLevel s) (position s i) -> simulated p s'.
Proof.
  intros Hc Hp Hl Hh Hph. exists t. split; [done|].
  apply (simulates_step i p s s' t t); try done.
  - by rewrite (sim_holder s t Hsim).
  - by rewrite Hph, (sim_phase s t Hsim).
Qed.

Lemma effective p s' o h r :
  consistent (at_position i p s') -> (forall j, position s' j = position s j) ->
  (RecursionLevel s' = RecursionLevel s \/ Mutex s = Some i) ->
  phase_at (RecursionLevel s) (position s i) = Spec.Called o ->
  Spec.effect i o (level_of s) = Some (h, r) -> level_of s' = h ->
  phase_at (RecursionLevel s') p = Spec.Returning r \/ p = Idle r -> simulated p s'.
Proof.
  intros Hc Hp Hl Hph He Hh Hpos.
  rewrite <- (sim_phase s t Hsim) in Hph. rewrite <- (sim_holder s t Hsim) in He.
  pose proof (spec_effect _ _ _ _ _ Hph He) as H1.
  set (t1 := Spec.at_phase i (Spec.Returning r) (Spec.set_holder h t)) in *.
  destruct Hpos as [Hpos| ->].
  - exists t1. split; [done|]. apply (simulates_step i p s s' t t1); try done.
    + by rewrite Hpos; apply phase_same.
    + intros j Hj. subst t1. by rewrite phase_other.
  - exists (Spec.at_phase i (Spec.Outside r) t1). split.
    + etransitivity; [done|]. apply spec_return, phase_same.
    + apply (simulates_step i (Idle r) s s' t); try done.
      * apply phase_same.
      * intros j Hj. subst t1. by rewrite !phase_other.
Qed.

Lemma returning p s' r :
  consistent (at_position i p s') -> (forall j, position s' j = position s j) ->
  (RecursionLevel s' = RecursionLevel s \/ Mutex s = Some i) -> level_of s' = level_of s ->
  phase_at (RecursionLevel s) (position s i) = Spec.Returning r -> p = Idle r -> simulated p s'.
Proof.
  intros Hc Hp Hl Hh Hph ->. rewrite <- (sim_phase s t Hsim) in Hph.
  exists (Spec.at_phase i (Spec.Outside r) t). split; [by apply spec_return|].
  apply (simulates_step i (Idle r) s s' t); try done.
  - cbn. by rewrite Hh, (sim_holder s t Hsim).
  - apply phase_same.
  - intros j Hj. by apply phase_other.
Qed.

Lemma owner_holds : Owner s = Some i -> Mutex s = Some i.
Proof using Hsim.
  intros H. pose proof (sim_ok s t Hsim) as Hok. destruct (Mutex s) as [k|] eqn:Hm.
  - pose proof (c_held s Hok k Hm) as Hk. unfold members_ok in Hk.
    destruct (position s k); destruct Hk; congruence.
  - destruct (c_free s Hok Hm). congruence.
Qed.

Ltac facts :=
  pose proof (sim_ok s t Hsim) as Hok; pose proof (c_range s Hok) as Hrange;
  pose proof (c_held s Hok i) as Hheld; pose proof (c_holding s Hok i) as Hhold;
  pose proof (c_waiting s Hok i) as Hwait; pose proof (c_free s Hok) as Hfree;
  pose proof owner_holds as Hown.
Ltac split_cases H :=
  repeat match type of H with
  | context [bool_decide ?P] => destruct (bool_decide_reflect P)
  | context [match Mutex s with _ => _ end] => destruct (Mutex s) eqn:Hm
  end; try discriminate; injection H as <-.
Ltac arith :=
  intros; cbn in *; try (rewrite !wrap_small in * by intuition lia); try done;
  try (intuition (congruence || lia)).
Ltac members := apply (consistent_step i _ s); arith.

Ltac phases Hpos :=
  rewrite ?Hpos; cbn; repeat case_bool_decide; try done; exfalso; intuition (congruence || lia).
Ltac levels :=
  unfold level_of; cbn; try (rewrite !wrap_small by intuition lia);
  try (match goal with H : true = true -> Mutex s = _ |- _ => rewrite (H eq_refl) end);
  repeat match goal with H : Mutex s = _ |- _ => rewrite ?H; clear H end; cbn;
  repeat case_bool_decide; repeat first [done | solve [intuition (congruence || lia)] | f_equal].

Lemma simulate_synchronized s' :
  match position s i with SyncTest | SyncLock | SyncOwner | SyncCount => True | _ => False end ->
  advance true i s = Goes s' -> exists t', rtc Spec.step t t' /\ simulates s' t'.
Proof.
  intros Hin H. facts. unfold advance in H.
  destruct (position s i) eqn:Hpos; try done; clear Hin;
    cbn [holding waiting members_ok negb] in *; split_cases H.
  - apply silent; [members|arith|arith|done|phases Hpos].
  - apply silent; [members|arith|arith|done|phases Hpos].
  - apply (effective _ _ Synchronized (Some (i, 1)) true); [members|arith|arith|phases Hpos|levels|levels|by left].
  - apply silent; [members|arith|arith|done|phases Hpos].
  - destruct (decide (RecursionLevel s = 0)).
    + apply (returning _ _ true); [members|arith|arith|levels|phases Hpos|done].
    + apply (effective _ _ Synchronized (Some (i, RecursionLevel s + 1)) true);
        [members|arith|arith|phases Hpos|levels|levels|by right].
Qed.

Lemma simulate_try s' :
  match position s i with TryTest | TryLock | TryOwner | TryCount => True | _ => False end ->
  advance true i s = Goes s' -> exists t', rtc Spec.step t t' /\ simulates s' t'.
Proof.
  intros Hin H. facts. unfold advance in H.
  destruct (position s i) eqn:Hpos; try done; clear Hin;
    cbn [holding waiting members_ok negb] in *; split_cases H.
  - apply silent; [members|arith|arith|done|phases Hpos].
  - apply silent; [members|arith|arith|done|phases Hpos].
  - apply (effective _ _ SynchronizedTry (level_of s) false);
      [members|arith|arith|phases Hpos|levels|levels|by right].
  - apply (effective _ _ SynchronizedTry (Some (i, 1)) true);
      [members|arith|arith|phases Hpos|levels|levels|by left].
  - apply silent; [members|arith|arith|done|phases Hpos].
  - destruct (decide (RecursionLevel s = 0)).
    + apply (returning _ _ true); [members|arith|arith|levels|phases Hpos|done].
    + apply (effective _ _ SynchronizedTry (Some (i, RecursionLevel s + 1)) true);
        [members|arith|arith|phases Hpos|levels|levels|by right].
Qed.

Lemma simulate_unsynchronized s' :
  match position s i with UnTest | UnOwner | UnCount | UnClear | UnUnlock => True | _ => False end ->
  advance true i s = Goes s' -> exists t', rtc Spec.step t t' /\ simulates s' t'.
Proof.
  intros Hin H. facts. unfold advance in H.
  destruct (position s i) eqn:Hpos; try done; clear Hin;
    cbn [holding waiting members_ok negb] in *; split_cases H.
  - apply silent; [members|arith|arith|done|phases Hpos].
  - apply silent; [members|arith|arith|done|phases Hpos].
  - cbn in e; rewrite wrap_small in e by intuition lia.
    apply silent; [members|arith|arith|levels|phases Hpos].
  - cbn in n; rewrite wrap_small in n by intuition lia.
    apply (effective _ _ Unsynchronized (Some (i, RecursionLevel s - 1)) true);
      [members|arith|arith|phases Hpos|levels|levels|by right].
  - apply silent; [members|arith|arith|done|phases Hpos].
  - apply (effective _ _ Unsynchronized None true);
      [members|arith|arith|phases Hpos|levels|levels|by right].
Qed.
End Simulation.

Lemma simulate_begin s t i o r :
  simulates s t -> position s i = Idle r ->
  exists t', rtc Spec.step t t' /\ simulates (at_position i (begin o) s) t'.
Proof.
  intros Hsim Hpos. pose proof (sim_ok s t Hsim) as Hok.
  pose proof (sim_phase s t Hsim i) as Hph. rewrite Hpos in Hph. cbn in Hph.
  exists (Spec.at_phase i (Spec.Called o) t). split; [by eapply spec_call|].
  apply (simulates_step i _ s s t); try done.
  - pose proof (c_held s Hok i) as Hheld. rewrite Hpos in Hheld.
    apply (consistent_step i _ s); try done; try (by destruct o).
    + apply Hok.
    + apply Hok.
    + by left.
  - by left.
  - apply (sim_holder s t Hsim).
  - rewrite phase_same. by destruct o.
  - intros j Hj. by apply phase_other.
Qed.

Lemma simulate_step s t s' :
  simulates s t -> RecursionLevel s < 2 ^ 32 - 1 -> step true s s' ->
  exists t', rtc Spec.step t t' /\ simulates s' t'.
Proof.
  intros Hsim Hb Hstep. destruct Hstep as [i o r Hpos|i s' Ha].
  - by eapply simulate_begin.
  - destruct (position s i) eqn:Hpos;
      first [ apply (simulate_synchronized s t i Hsim Hb); [by rewrite Hpos|done]
            | apply (simulate_try s t i Hsim Hb); [by rewrite Hpos|done]
            | apply (simulate_unsynchronized s t i Hsim Hb); [by rewrite Hpos|done]
            | unfold advance in Ha; by rewrite Hpos in Ha ].
Qed.

(** A run in which the nesting stays below the range of [RecursionLevel]. *)
Definition bounded_step (s s' : Shared) : Prop := step true s s' /\ RecursionLevel s < 2 ^ 32 - 1.

Lemma initially_simulates : simulates new_Synchronizable Spec.initial.
Proof. by split. Qed.
Lemma simulate_run s t s' :
  simulates s t -> rtc bounded_step s s' -> exists t', rtc Spec.step t t' /\ simulates s' t'.
Proof.
  intros Hsim Hrun. revert t Hsim. induction Hrun as [s|s s1 s' [Hstep Hb] _ IH]; intros t Hsim.
  - by exists t.
  - destruct (simulate_step s t s1 Hsim Hb Hstep) as (t1 & Hr & Hs).
    destruct (IH t1 Hs) as (t' & Hr' & Hs'). exists t'. split; [by etransitivity|done].
Qed.

Lemma level_holder s i n : level_of s = Some (i, n) -> Mutex s = Some i.
Proof. unfold level_of. destruct (Mutex s); [|done]. by intros [= -> _]. Qed.
Lemma idle_outside l p r : p = Idle r <-> phase_at l p = Spec.Outside r.
Proof.
  split; [by intros ->|]. destruct p; cbn; repeat case_bool_decide; try done. by intros [= ->].
Qed.
Lemma abort_reason s t i :
  simulates s t -> advance true i s = Aborts ->
  Spec.phase t i = Spec.Called Unsynchronized /\ forall n, Spec.holder t <> Some (i, n).
Proof.
  intros Hsim Ha. rewrite (sim_phase s t Hsim), (sim_holder s t Hsim).
  pose proof (c_held s (sim_ok s t Hsim) i) as Hheld. unfold advance in Ha.
  destruct (position s i); cbn [negb] in Ha; try done;
    repeat case_bool_decide; try done; try (by destruct (Mutex s)).
  all: split; [done|]; intros n Hn%level_holder; specialize (Hheld Hn); cbn in Hheld;
    intuition (congruence || lia).
Qed.
Lemma wait_reason s t i :
  simulates s t -> advance true i s = Waits -> (forall r, position s i <> Idle r) ->
  exists j n, Spec.holder t = Some (j, n) /\ j <> i.
Proof.
  intros Hsim Ha Hi. rewrite (sim_holder s t Hsim).
  pose proof (c_waiting s (sim_ok s t Hsim) i) as Hwait. unfold advance in Ha.
  destruct (position s i) eqn:Hpos; cbn [negb] in Ha; try done; repeat case_bool_decide; try done.
  - by destruct (Hi tried).
  - destruct (Mutex s) as [j|] eqn:Hm; [|done]. unfold level_of. rewrite Hm. cbn.
    eexists j, _. split; [done|]. intros ->. by apply Hwait.
  - by destruct (Mutex s).
Qed.

(** C35. The mutex built from a plain mutex, an owner and a level is a
    recursive mutex.  Whatever the threads do and however their steps
    interleave, every run corresponds to a run of the recursive mutex of the
    system in which each operation takes effect at one moment between its call
    and its return, with the same results; the plain mutex and the level show
    its holder and its level.  A thread that waits waits for another thread,
    never for itself, and the process aborts only if a thread unlocks what it
    does not hold. *)
Theorem recursive_mutex (s : Shared) (H : rtc bounded_step new_Synchronizable s) :
  exists t, rtc Spec.step Spec.initial t
    /\ Spec.holder t = level_of s
    /\ (forall i r, position s i = Idle r <-> Spec.phase t i = Spec.Outside r)
    /\ (forall i, advance true i s = Aborts ->
          Spec.phase t i = Spec.Called Unsynchronized /\ forall n, Spec.holder t <> Some (i, n))
    /\ (forall i, advance true i s = Waits -> (forall r, position s i <> Idle r) ->
          exists j n, Spec.holder t = Some (j, n) /\ j <> i).
Proof.
  destruct (simulate_run _ _ _ initially_simulates H) as (t & Hr & Hs).
  exists t. split; [done|]. split; [apply (sim_holder s t Hs)|].
  split; [intros i r; rewrite (sim_phase s t Hs); apply idle_outside|].
  split; intros i; [by apply abort_reason|by apply wait_reason].
Qed.

(** A run given by the threads that make the steps: each begins an operation
    or goes on. *)
Fixpoint execute (l : list (nat * option Operation)) (s : Shared) : option Shared :=
  match l with
  | [] => Some s
  | (i, o) :: l =>
      if 2 ^ 32 - 1 <=? RecursionLevel s then None
      else match o with
           | Some o => match position s i with
                       | Idle _ => execute l (at_position i (begin o) s)
                       | _ => None
                       end
           | None => match advance true i s with Goes s' => execute l s' | _ => None end
           end
  end.
Lemma execute_run l : forall s s', execute l s = Some s' -> rtc bounded_step s s'.
Proof.
  induction l as [|[i o] l IH]; intros s s' H; cbn in H; [by injection H as ->|].
  destruct (2 ^ 32 - 1 <=? RecursionLevel s) eqn:Hb; [done|]. apply Z.leb_gt in Hb.
  assert (exists s1, step true s s1 /\ execute l s1 = Some s') as (s1 & Hs & He).
  { destruct o as [o|].
    - destruct (position s i) eqn:Hp; try done. eexists. split; [by eapply step_begin|done].
    - destruct (advance true i s) eqn:Ha; try done. eexists. split; [by eapply step_advance|done]. }
  eapply rtc_l; [by split|by apply IH].
Qed.

(** Thread 1 takes the mutex twice; thread 2 tries in vain and then waits. *)
Definition two_threads : list (nat * option Operation) :=
  [(1%nat, Some Synchronized); (2%nat, Some SynchronizedTry); (1%nat, None); (2%nat, None);
   (1%nat, None); (2%nat, None); (1%nat, None); (2%nat, Some Synchronized); (2%nat, None);
   (1%nat, None); (1%nat, Some Synchronized); (1%nat, None); (1%nat, None)].
Definition two_threads_state : Shared :=
  match execute two_threads new_Synchronizable with Some s => s | None => new_Synchronizable end.
Lemma recursive_mutex_witness :
  advance true 2 two_threads_state = Waits /\ level_of two_threads_state = Some (1%nat, 2)
  /\ exists t, rtc Spec.step Spec.initial t
    /\ Spec.holder t = level_of two_threads_state
    /\ (forall i r, position two_threads_state i = Idle r <-> Spec.phase t i = Spec.Outside r)
    /\ (forall i, advance true i two_threads_state = Aborts ->
          Spec.phase t i = Spec.Called Unsynchronized /\ forall n, Spec.holder t <> Some (i, n))
    /\ (forall i, advance true i two_threads_state = Waits ->
          (forall r, position two_threads_state i <> Idle r) ->
          exists j n, Spec.holder t = Some (j, n) /\ j <> i).
Proof.
  split; [reflexivity|]. split; [reflexivity|].
  apply (recursive_mutex two_threads_state). apply (execute_run two_threads). reflexivity.
Defined.
