(* ===== verification/TimerRuns.v ===== *)
(** * Rounds of a timer thread

    What a round of the loop in [MultiTimerThread::run] does for the thread's
    timers when they are on time, and how many calls a call limit allows. *)

From S2P Require Import Prelude State Timer.
Local Open Scope Z_scope.

(** ** The local variables of the thread *)

Definition locals (t : TimerThread) :=
  (parameters t, calls t, next t, now t, clock t, events t).
(** Parameters, next time and number of calls of each timer. *)
Definition timers (t : TimerThread) : list (TimerParameters * (Z * Z)) :=
  zip (parameters t) (zip (next t) (calls t)).
Definition arrays_ok (t : TimerThread) : Prop :=
  length (parameters t) = length (Parameters t) /\ length (next t) = length (Parameters t)
  /\ length (calls t) = length (Parameters t).

(** Code of another thread, or of [timerEvent]: it cannot name the local
    variables of [run], and the arrays keep their length. *)
Definition outside (m : T unit) : Prop := forall t, exists t',
  m t = Ret tt t' /\ locals t' = locals t /\ length (Parameters t') = length (Parameters t).
(** It also leaves the parameters alone. *)
Definition quiet (m : T unit) : Prop := forall t, exists t',
  m t = Ret tt t' /\ locals t' = locals t /\ length (Parameters t') = length (Parameters t)
  /\ ParametersUpdated t' = ParametersUpdated t.

Lemma quiet_outside m : quiet m -> outside m.
Proof. intros H t. destruct (H t) as (t' & ? & ? & ? & ?). by exists t'. Qed.
Lemma outside_setInterval i usec limit : outside (setInterval i usec limit).
Proof.
  intros t. unfold setInterval, valid_timer, gets, when, modify, bind; cbn. case_bool_decide; cbn.
  - eexists. repeat split. cbn. by rewrite length_alter.
  - by eexists.
Qed.
Lemma quiet_leaveCorrectionLoop i : quiet (leaveCorrectionLoop i).
Proof.
  intros t. unfold leaveCorrectionLoop, valid_timer, gets, when, modify, bind; cbn.
  case_bool_decide; by eexists.
Qed.
Lemma quiet_ret : quiet (ret tt).
Proof. intros t. by exists t. Qed.

(** ** One timer *)

Definition due (t0 : Z) (x : TimerParameters * (Z * Z)) : bool := Running x.1 && (x.2.1 <=? t0).
Definition fire (t0 : Z) (x : TimerParameters * (Z * Z)) : TimerParameters * (Z * Z) :=
  let '(p, (n, c)) := x in
  if due t0 x then
    (if (0 <? CallLimit p) && (CallLimit p <=? c) then with_Running false p else p,
     (u64 (n + Interval p), u64 (c + 1)))
  else x.
(** The numbers of the due timers, in order. *)
Fixpoint due_timers (t0 : Z) (k : nat) (l : list (TimerParameters * (Z * Z))) : list nat :=
  match l with
  | [] => []
  | x :: l => if due t0 x then k :: due_timers t0 (S k) l else due_timers t0 (S k) l
  end.

Lemma timers_lookup t i p n c :
  timers t !! i = Some (p, (n, c)) ->
  parameters t !! i = Some p /\ next t !! i = Some n /\ calls t !! i = Some c.
Proof.
  unfold timers. rewrite lookup_zip_Some. intros [Hp H]. cbn in H.
  apply lookup_zip_Some in H as [Hn Hc]. done.
Qed.
Lemma timers_length t : arrays_ok t -> length (timers t) = length (Parameters t).
Proof. intros (H1 & H2 & H3). unfold timers. rewrite !length_zip. lia. Qed.

(** What of a state a step for timer [i] changes. *)
Record stepped (i : nat) (x : TimerParameters * (Z * Z)) (ev : list (nat * Z))
    (t t' : TimerThread) : Prop := {
  st_timers : timers t' = <[i := x]> (timers t);
  st_events : events t' = events t ++ ev;
  st_now : now t' = now t;
  st_clock : clock t' = clock t;
  st_ok : arrays_ok t';
  st_length : length (Parameters t') = length (Parameters t) }.

Lemma alter_at {X} (f : X -> X) (l : list X) i x : l !! i = Some x -> alter f i l = <[i := f x]> l.
Proof.
  intros H. rewrite list_insert_alter. apply list_alter_ext; [|done].
  intros y Hy. congruence.
Qed.
Lemma entry_run {X Y} (l : TimerThread -> list X) i x (k : X -> T Y) t :
  l t !! i = Some x -> bind (entry l i) k t = k x t.
Proof. intros H. unfold entry, bind, gets, of_option. by rewrite H. Qed.

Lemma seq_run {X} (m : T unit) (k : T X) t t' : m t = Ret tt t' -> (m ;; k) t = k t'.
Proof. intros H. unfold bind. by rewrite H. Qed.
Lemma seq_assoc {X} (a b : T unit) (k : T X) t : (a ;; b ;; k) t = ((a ;; b) ;; k) t.
Proof. unfold bind. by destruct (a t). Qed.

Section Round.
Variable timerEvent : nat -> T unit.
Hypothesis timerEvent_outside : forall i, outside (timerEvent i).

(** The assignments around the call of the virtual function. *)
Lemma call_run t i p n c :
  arrays_ok t -> timers t !! i = Some (p, (n, c)) ->
  exists t', (call_event timerEvent i ;; count_call i) t = Ret tt t'
    /\ stepped i (p, (n, u64 (c + 1))) [(i, now t)] t t'.
Proof.
  intros Hok H. destruct (timers_lookup _ _ _ _ _ H) as (Hp & Hn & Hc).
  unfold call_event, count_call, bind, modify.
  set (t1 := set_events (events t ++ [(i, now t)]) t).
  destruct (timerEvent_outside i t1) as (t2 & -> & Hl & Hlen).
  injection Hl as Hp2 Hc2 Hn2 Ht2 Hk2 He2. eexists. split; [done|].
  destruct Hok as (H1 & H2 & H3).
  split; [|done|done|done|..|done]; unfold arrays_ok, timers; cbn; rewrite Hp2, Hc2, Hn2; cbn.
  - rewrite (alter_at _ _ _ c Hc), !insert_zip_with.
    by rewrite (list_insert_id (next t)), (list_insert_id (parameters t)).
  - rewrite length_alter. cbn in Hlen. lia.
Qed.

Lemma invoke_step t i x :
  arrays_ok t -> timers t !! i = Some x ->
  exists t', invoke timerEvent i t = Ret tt t'
    /\ stepped i (fire (now t) x) (if due (now t) x then [(i, now t)] else []) t t'.
Proof.
  destruct x as [p [n c]]. intros Hok H. destruct (timers_lookup _ _ _ _ _ H) as (Hp & Hn & Hc).
  unfold invoke. rewrite (entry_run _ _ p), (entry_run _ _ n) by done.
  unfold gets, bind at 1. cbn [fire].
  change (Running p && (n <=? now t)) with (due (now t) (p, (n, c))).
  destruct (due (now t) (p, (n, c))); cbn [when].
  2: { exists t. split; [done|]. split; rewrite ?app_nil_r; try done. by rewrite list_insert_id. }
  rewrite (entry_run _ _ c) by done.
  set (p' := if (0 <? CallLimit p) && (CallLimit p <=? c) then with_Running false p else p).
  set (t1 := set_next (<[i := u64 (n + Interval p)]> (next t)) (set_parameters (<[i := p']> (parameters t)) t)).
  assert (timers t1 = <[i := (p', (u64 (n + Interval p), c))]> (timers t)) as Ht1.
  { unfold timers; cbn. rewrite !insert_zip_with. by rewrite (list_insert_id (calls t)). }
  assert (arrays_ok t1) as Hok1.
  { unfold arrays_ok in *; cbn. by rewrite !length_insert. }
  assert (i < length (timers t))%nat as Hi by (by eapply lookup_lt_Some).
  destruct (call_run t1 i p' (u64 (n + Interval p)) c Hok1) as (t' & Hr & [Hs1 Hs2 Hs3 Hs4 Hs5 Hs6]).
  { rewrite Ht1. by apply list_lookup_insert_eq. }
  exists t'. split.
  - rewrite <- Hr. subst t1 p'. unfold bind, stop_timer, set_next_at, modify.
    destruct ((0 <? CallLimit p) && (CallLimit p <=? c)); cbn.
    + by rewrite (alter_at _ _ _ _ Hp).
    + rewrite (list_insert_id (parameters t)) by done. by destruct t.
  - split; [|done..]. by rewrite Hs1, Ht1, list_insert_insert_eq.
Qed.

(** The loop over the timers. *)
Lemma invoke_from : forall m k t,
  arrays_ok t -> (k + m)%nat = length (Parameters t) ->
  exists t', for_each (seq k m) (invoke timerEvent) t = Ret tt t'
    /\ timers t' = take k (timers t) ++ (fire (now t) <$> drop k (timers t))
    /\ events t' = events t ++ ((fun i => (i, now t)) <$> due_timers (now t) k (drop k (timers t)))
    /\ now t' = now t /\ clock t' = clock t /\ arrays_ok t'
    /\ length (Parameters t') = length (Parameters t).
Proof.
  induction m as [|m IH]; intros k t Hok Hk.
  - exists t. pose proof (timers_length t Hok). cbn.
    rewrite drop_ge, take_ge by lia. cbn. by rewrite !app_nil_r.
  - assert (k < length (timers t))%nat as Hlt by (rewrite timers_length by done; lia).
    destruct (lookup_lt_is_Some_2 _ _ Hlt) as [x Hx].
    destruct (invoke_step t k x Hok Hx) as (t1 & Hr & [Ht He Hw Hc Hok1 Hl]).
    destruct (IH (S k) t1 Hok1) as (t' & Hr' & Ht' & He' & Hw' & Hc' & Hok' & Hl'); [lia|].
    exists t'. cbn [seq for_each]. unfold bind. rewrite Hr, Hr'. split; [done|].
    rewrite (drop_S _ _ _ Hx). cbn [fmap list_fmap due_timers].
    rewrite Ht', He', Ht, He, Hw, drop_insert_lt by lia.
    repeat split; try congruence; try apply Hok'.
    + rewrite (take_S_r _ _ (fire (now t) x)), take_insert_ge by
        (done || by apply list_lookup_insert_eq). by rewrite <- (assoc_L (++)).
    + rewrite <- (assoc_L (++)). f_equal. by destruct (due (now t) x).
Qed.

Lemma correct_nothing t i x :
  timers t !! i = Some x -> due (now t) x = false -> correct timerEvent i t = Ret tt t.
Proof.
  destruct x as [p [n c]]. intros H Hd. destruct (timers_lookup _ _ _ _ _ H) as (Hp & Hn & Hc).
  unfold correct. rewrite (entry_run _ _ p), (entry_run _ _ n) by done.
  unfold gets, bind at 1. change (Running p && (n <=? now t)) with (due (now t) (p, (n, c))).
  by rewrite Hd.
Qed.
Lemma correct_none t l :
  Forall (fun i => exists x, timers t !! i = Some x /\ due (now t) x = false) l ->
  for_each l (correct timerEvent) t = Ret tt t.
Proof.
  induction 1 as [|i l (x & Hx & Hd) _ IH]; [done|]. cbn [for_each]. unfold bind.
  by rewrite (correct_nothing _ _ _ Hx Hd).
Qed.

(** A timer is on time if its next call is in the future after this one. *)
Definition in_time (t0 : Z) (x : TimerParameters * (Z * Z)) : Prop :=
  due t0 x = true -> t0 < u64 (x.2.1 + Interval x.1).
Lemma fire_not_due t0 x : in_time t0 x -> due t0 (fire t0 x) = false.
Proof.
  destruct x as [p [n c]]. unfold in_time, fire. cbn [fst snd]. intros H.
  destruct (due t0 (p, (n, c))) eqn:E; [|done]. specialize (H eq_refl).
  unfold due; cbn [fst snd]. rewrite (proj2 (Z.leb_gt (u64 (n + Interval p)) t0)) by lia. apply andb_false_r.
Qed.

Lemma outside_run m t a l :
  outside m -> arrays_ok t -> clock t = a :: l ->
  exists t1, (read_clock ;; m) t = Ret tt t1 /\ timers t1 = timers t /\ events t1 = events t
    /\ clock t1 = l /\ arrays_ok t1 /\ length (Parameters t1) = length (Parameters t).
Proof.
  intros Hm Hok Hc. unfold read_clock, bind, getMicroTime, modify. rewrite Hc. cbn.
  destruct (Hm (set_now a (set_clock l t))) as (t1 & -> & Hl & Hlen). injection Hl as Hp Hcl Hn _ Hk He.
  exists t1. unfold timers, arrays_ok in *. cbn in Hlen. rewrite Hp, Hcl, Hn, Hk, He, Hlen. done.
Qed.

Lemma pass_core others t a b rest :
  outside others -> arrays_ok t -> update_parameters t = Ret tt t -> clock t = a :: b :: rest ->
  Forall (in_time b) (timers t) ->
  exists t', pass timerEvent others t = Ret tt t'
    /\ timers t' = fire b <$> timers t
    /\ events t' = events t ++ ((fun i => (i, b)) <$> due_timers b 0 (timers t))
    /\ clock t' = rest /\ arrays_ok t' /\ length (Parameters t') = length (Parameters t).
Proof.
  intros Ho Hok Hu Hc Hon. destruct (outside_run others t a (b :: rest) Ho Hok Hc)
    as (t1 & Hr & Ht1 & He1 & Hc1 & Hok1 & Hl1).
  set (t2 := set_now b (set_clock rest t1)).
  destruct (invoke_from (length (Parameters t2)) 0 t2 Hok1 eq_refl)
    as (t3 & Hr3 & Ht3 & He3 & Hn3 & Hc3 & Hok3 & Hl3).
  change (timers t2) with (timers t1) in *. cbn [now t2 set_now] in *. rewrite Ht1 in *.
  rewrite take_0, drop_0 in *. cbn [app] in *.
  exists t3. repeat split; try apply Hok3; try done.
  - unfold pass. rewrite (seq_run _ _ t t), seq_assoc, (seq_run _ _ t t1) by done.
    rewrite (seq_run read_clock _ t1 t2) by (unfold read_clock, bind, getMicroTime; by rewrite Hc1).
    unfold indices, gets, bind. rewrite Hr3. apply correct_none. rewrite Hn3, Ht3. cbn [now t2].
    apply Forall_forall. intros i Hi. apply elem_of_seq in Hi.
    destruct (lookup_lt_is_Some_2 (timers t) i) as [x Hx].
    { rewrite <- Ht1, timers_length by done. apply Hi. }
    exists (fire b x). rewrite list_lookup_fmap, Hx. split; [done|].
    apply fire_not_due. by apply (Forall_lookup_1 _ _ _ _ Hon Hx).
  - rewrite He3. change (events t2) with (events t1). by rewrite He1.
  - rewrite Hl3. exact Hl1.
Qed.
End Round.

Lemma no_update t : ParametersUpdated t = false -> update_parameters t = Ret tt t.
Proof. intros H. unfold update_parameters, bind, gets. by rewrite H. Qed.

(** A quiet round leaves [ParametersUpdated] as it is. *)
Definition stays_unchanged (s s' : TimerThread) : Prop :=
  ParametersUpdated s = false -> ParametersUpdated s' = false.
#[export] Instance stays_unchanged_pre : PreOrder stays_unchanged.
Proof. split; unfold stays_unchanged; red; auto. Qed.
Lemma quiet_pres m : quiet m -> pres stays_unchanged m.
Proof.
  intros H s. destruct (H s) as (t' & -> & _ & _ & Hp). unfold stays_unchanged. by rewrite Hp.
Qed.

Lemma pres_assignment (f : TimerThread -> TimerThread) :
  (forall t, stays_unchanged t (f t)) -> pres stays_unchanged (modify f).
Proof. intros H s. apply H. Qed.
Lemma pres_clock : pres stays_unchanged getMicroTime.
Proof. intros s. unfold getMicroTime, stays_unchanged. destruct (clock s); [exact I|auto]. Qed.
Ltac unchanged :=
  pres_auto; first [apply pres_clock | apply pres_assignment; intros ? ?; assumption | idtac].

Section Unchanged.
Variable ev : nat -> T unit.
Hypothesis ev_quiet : forall i, pres stays_unchanged (ev i).

Lemma event_unchanged i : pres stays_unchanged (call_event ev i ;; count_call i).
Proof using ev_quiet. unfold call_event, count_call. unchanged. Qed.
Lemma update_unchanged : pres stays_unchanged update_parameters.
Proof.
  intros t. unfold stays_unchanged. destruct (update_parameters t) as [[] t'|] eqn:E; [|done].
  intros H. rewrite no_update in E by done. by injection E as <-.
Qed.
Lemma loop_unchanged fuel i : pres stays_unchanged (correction_loop ev fuel i).
Proof using ev_quiet.
  induction fuel as [|fuel IH]; cbn [correction_loop]; [apply pres_stop|].
  unfold entry, set_next_at, stop_timer, read_clock, call_event, count_call. unchanged.
  all: first [apply ev_quiet | done].
Qed.
Lemma pass_unchanged others : pres stays_unchanged others -> pres stays_unchanged (pass ev others).
Proof using ev_quiet.
  intros Ho. unfold pass. apply pres_bind; [typeclasses eauto|apply update_unchanged|intros _].
  unfold invoke, correct, entry, set_next_at, stop_timer, read_clock, indices, call_event, count_call.
  unchanged. all: first [apply ev_quiet | apply loop_unchanged | done].
Qed.
End Unchanged.

(** ** A round of the loop *)

(** C34. One round of the loop of [run].  If no parameters have changed and
    each due timer is behind by less than its interval, the round calls
    [timerEvent] for exactly the due timers, in the order of their numbers and
    once each, with the time read after the sleep; each of them is set to its
    former time plus its interval - not to the current time -, its calls are
    counted, and it is stopped if it had used up its limit before this call.
    The other timers stay as they are. *)
Theorem round_on_time (timerEvent : nat -> T unit) (others : T unit) (t : TimerThread) (a b : Z)
    (rest : list Z)
    (Hev : forall i, outside (timerEvent i)) (Ho : outside others) (Hok : arrays_ok t)
    (Hu : ParametersUpdated t = false) (Hc : clock t = a :: b :: rest)
    (Hon : Forall (in_time b) (timers t)) :
  exists t', pass timerEvent others t = Ret tt t'
    /\ timers t' = fire b <$> timers t
    /\ events t' = events t ++ ((fun i => (i, b)) <$> due_timers b 0 (timers t))
    /\ clock t' = rest /\ arrays_ok t'.
Proof.
  destruct (pass_core timerEvent Hev others t a b rest Ho Hok (no_update t Hu) Hc Hon)
    as (t' & ? & ? & ? & ? & ? & _). by exists t'.
Qed.

(** Three timers: behind, stopped, at the limit of its calls. *)
Definition three_timers : TimerThread :=
  let timer interval limit running :=
    {| Interval := interval; CallLimit := limit; TimerCorrection := 10; FastStart := true;
       Running := running; Updated := false |} in
  let p := [timer 1000 0 true; timer 1000 0 false; timer 500 2 true] in
  set_ParametersUpdated false (set_parameters p (set_Parameters p (set_next [7000; 0; 7400]
    (set_calls [3; 0; 2] (set_now 7000 (MultiTimerThread 3 [7100; 7400])))))).
Lemma round_on_time_witness :
  exists t', pass (fun i => setInterval 1 (Z.of_nat i + 5) 0) (leaveCorrectionLoop 2) three_timers = Ret tt t'
    /\ timers t' = fire 7400 <$> timers three_timers
    /\ events t' = [] ++ ((fun i => (i, 7400)) <$> [0%nat; 2%nat])
    /\ clock t' = [] /\ arrays_ok t'.
Proof.
  apply (round_on_time (fun i => setInterval 1 (Z.of_nat i + 5) 0) (leaveCorrectionLoop 2)
           three_timers 7100 7400 []).
  - intros i. apply outside_setInterval.
  - apply quiet_outside, quiet_leaveCorrectionLoop.
  - repeat split.
  - reflexivity.
  - reflexivity.
  - repeat constructor; intros H; try discriminate; reflexivity.
Defined.

(** ** The call limit *)

(** A round: what others do meanwhile, and the two readings of the clock. *)
Definition Round : Type := T unit * (Z * Z).
Definition readings (rounds : list Round) : list Z :=
  flat_map (fun r => [r.2.1; r.2.2]) rounds.
Definition rounds_run (timerEvent : nat -> T unit) (rounds : list Round) : T unit :=
  for_each rounds (fun r => pass timerEvent r.1).
(** The times of the calls without a limit, if each is in time. *)
Fixpoint call_times (interval n : Z) (rounds : list Round) : list Z :=
  match rounds with
  | [] => []
  | (_, (_, b)) :: rounds =>
      if n <=? b then b :: call_times interval (n + interval) rounds
      else call_times interval n rounds
  end.
Fixpoint all_in_time (interval n : Z) (rounds : list Round) : Prop :=
  match rounds with
  | [] => True
  | (_, (_, b)) :: rounds =>
      b < 2 ^ 63 /\ if n <=? b then b < n + interval /\ all_in_time interval (n + interval) rounds
      else all_in_time interval n rounds
  end.

Section Limit.
Variables (interval limit : Z).
Hypothesis (interval_range : 0 < interval < 2 ^ 62) (limit_range : 0 < limit < 2 ^ 63).

Record single (running : bool) (n c : Z) (t : TimerThread) : Prop := {
  s_ok : arrays_ok t;
  s_quiet : ParametersUpdated t = false;
  s_timer : exists p, timers t = [(p, (n, c))] /\ Interval p = interval /\ CallLimit p = limit
    /\ Running p = running }.

Variable timerEvent : nat -> T unit.
Hypothesis timerEvent_quiet : forall i, quiet (timerEvent i).

Lemma round_single running n c t others a b rest :
  single running n c t -> quiet others -> clock t = a :: b :: rest ->
  0 <= n -> 0 <= c <= 2 ^ 63 -> (running && (n <=? b) = true -> b < n + interval /\ b < 2 ^ 63) ->
  exists t', pass timerEvent others t = Ret tt t' /\ clock t' = rest
    /\ if running && (n <=? b)
       then single (negb (limit <=? c)) (n + interval) (c + 1) t' /\ events t' = events t ++ [(0%nat, b)]
       else single running n c t' /\ events t' = events t.
Proof using limit_range interval_range timerEvent_quiet.
  intros [Hok Hu (p & Hp & Hi & Hl & Hr)] Ho Hc Hn Hcn Hb.
  assert (running && (n <=? b) = due b (p, (n, c))) as E by (unfold due; cbn; by rewrite Hr).
  rewrite E in Hb |- *.
  assert (due b (p, (n, c)) = true -> n <= b) as Hle.
  { intros Hd. rewrite Hd in E. apply andb_prop in E as [_ E]. by apply Z.leb_le in E. }
  destruct (pass_core timerEvent (fun i => quiet_outside _ (timerEvent_quiet i))
    others t a b rest (quiet_outside _ Ho) Hok (no_update t Hu) Hc)
    as (t' & Hrun & Ht & He & Hk & Hok' & _).
  { rewrite Hp. repeat constructor. unfold in_time; cbn [fst snd]. intros Hd. specialize (Hb Hd). specialize (Hle Hd).
    unfold u64. rewrite Hi, wrap_small; lia. }
  exists t'. split; [done|]. split; [done|]. rewrite Hp in Ht, He. cbn [fmap list_fmap due_timers] in *.
  assert (ParametersUpdated t' = false) as Hu'.
  { apply (pres_run stays_unchanged _ _ _ _
      (pass_unchanged timerEvent (fun i => quiet_pres _ (timerEvent_quiet i)) others (quiet_pres _ Ho)) Hrun Hu). }
  destruct (due b (p, (n, c))) eqn:Hd; (split; [split; [done..|]|]).
  - unfold fire in Ht. rewrite Hd in Ht. specialize (Hb eq_refl). specialize (Hle eq_refl). unfold u64 in Ht.
    rewrite Hl, Hi, !wrap_small, (proj2 (Z.ltb_lt 0 limit)) in Ht by lia.
    eexists; split; [exact Ht|]. destruct (limit <=? c); cbn; auto.
    split; [done|]. split; [done|]. by apply andb_prop in E as [-> _].
  - by rewrite He.
  - unfold fire in Ht. rewrite Hd in Ht. by exists p.
  - by rewrite He, app_nil_r.
Qed.

Lemma rounds_stopped : forall rounds n c t,
  single false n c t -> Forall (fun r => quiet r.1) rounds -> clock t = readings rounds ->
  0 <= n -> 0 <= c <= 2 ^ 63 ->
  exists t', rounds_run timerEvent rounds t = Ret tt t' /\ events t' = events t.
Proof using limit_range interval_range timerEvent_quiet.
  induction rounds as [|[m [a b]] rounds IH]; intros n c t Ht Hq Hk Hn Hc; [by exists t|].
  inversion Hq; subst.
  destruct (round_single false n c t m a b (readings rounds) Ht) as (t1 & Hr & Hk1 & Hs1 & He1); try done.
  destruct (IH n c t1) as (t' & Hr' & He'); try done.
  exists t'. unfold rounds_run in *. cbn [for_each fst]. unfold bind. by rewrite Hr, Hr', He', He1.
Qed.

Lemma rounds_limit : forall rounds n c t,
  single true n c t -> Forall (fun r => quiet r.1) rounds -> clock t = readings rounds ->
  all_in_time interval n rounds -> 0 <= n -> 0 <= c <= limit ->
  exists t', rounds_run timerEvent rounds t = Ret tt t'
    /\ events t' = events t ++ ((fun b => (0%nat, b)) <$>
         take (Z.to_nat (limit + 1 - c)) (call_times interval n rounds)).
Proof using limit_range interval_range timerEvent_quiet.
  induction rounds as [|[m [a b]] rounds IH]; intros n c t Ht Hq Hk Hon Hn Hc.
  { exists t. cbn. by rewrite take_nil, app_nil_r. }
  inversion Hq as [|? ? Hm Hq']; subst. destruct Hon as [Hb Hon].
  destruct (round_single true n c t m a b (readings rounds) Ht) as (t1 & Hr & Hk1 & Hs1); try done.
  { lia. }
  { intros E. cbn in E. rewrite E in Hon. tauto. }
  unfold rounds_run in *. cbn [for_each call_times fst snd]. unfold bind. rewrite Hr. cbn in Hs1.
  destruct (n <=? b) eqn:E; destruct Hs1 as [Hs1 He1]; cbn [andb] in *.
  - destruct (limit <=? c) eqn:El; cbn in Hs1.
    + apply Z.leb_le in El.
      destruct (rounds_stopped rounds (n + interval) (c + 1) t1) as (t' & Hr' & He'); try done; [lia..|].
      exists t'. split; [done|]. rewrite He', He1. replace (Z.to_nat (limit + 1 - c)) with 1%nat by lia.
      cbn. by rewrite take_0.
    + apply Z.leb_gt in El.
      destruct (IH (n + interval) (c + 1) t1) as (t' & Hr' & He'); try done; [tauto|lia..|].
      exists t'. split; [done|]. rewrite He', He1, <- (assoc_L (++)).
      replace (Z.to_nat (limit + 1 - c)) with (S (Z.to_nat (limit + 1 - (c + 1)))) by lia. done.
  - destruct (IH n c t1) as (t' & Hr' & He'); try done. exists t'. by rewrite He', He1.
Qed.
End Limit.

(** The thread after [setNextAction], the start of [run], and the first
    [update_parameters]. *)
Definition started (interval limit t0 : Z) (l : list Z) : TimerThread :=
  let p := {| Interval := interval; CallLimit := limit; TimerCorrection := 10; FastStart := false;
              Running := true; Updated := false |} in
  set_Parameters [p] (set_parameters [with_Updated true p] (set_calls [0] (set_next [t0 + interval]
    (set_now t0 (MultiTimerThread 1 l))))).
Definition unstarted (interval limit t0 : Z) (l : list Z) : TimerThread :=
  let p := {| Interval := interval; CallLimit := limit; TimerCorrection := 10; FastStart := false;
              Running := true; Updated := true |} in
  set_ParametersUpdated true (set_Parameters [p] (set_parameters [p] (set_calls [0] (set_next [0]
    (set_now t0 (MultiTimerThread 1 l)))))).
Lemma start_run interval limit t0 l :
  0 < interval ->
  (setNextAction 0 interval limit ;; run_init) (MultiTimerThread 1 (t0 :: l))
  = Ret tt (unstarted interval limit t0 l).
Proof.
  intros H. unfold setNextAction, setInterval, setFastStart, valid_timer, run_init, read_clock,
    getMicroTime, when, modify, gets, bind. cbn -[Z.ltb].
  by rewrite (proj2 (Z.ltb_lt _ _) H).
Qed.
Lemma first_update interval limit t0 l :
  0 < limit -> 0 <= t0 + interval < 2 ^ 64 ->
  update_parameters (unstarted interval limit t0 l) = Ret tt (started interval limit t0 l).
Proof.
  intros Hl Hi. unfold update_parameters, indices, update_timer, entry, set_next_at, modify, when, bind, gets.
  cbn -[Z.eqb u64]. unfold bind, ret, of_option. cbn -[Z.eqb u64].
  rewrite (proj2 (Z.eqb_neq limit 0)), andb_false_r by lia. cbn. unfold u64.
  by rewrite wrap_small by lia.
Qed.
Lemma pass_updated timerEvent others t t' :
  update_parameters t = Ret tt t' -> ParametersUpdated t' = false ->
  pass timerEvent others t = pass timerEvent others t'.
Proof.
  intros H H'. unfold pass. by rewrite (seq_run _ _ _ _ H), (seq_run _ _ _ _ (no_update _ H')).
Qed.
Lemma started_single interval limit t0 l : single interval limit true (t0 + interval) 0 (started interval limit t0 l).
Proof. split; [repeat split|done|]. by eexists. Qed.

(** A call limit.  A thread with one timer is told to act after [usec]
    microseconds, at most [limit] times, and is then run for any number of
    rounds; the calls are in time, and the implementation of [timerEvent] does
    not change the parameters.  Then [timerEvent] is called [limit + 1] times,
    as far as the rounds reach: the limit is compared with the number of calls
    before the call, so that a single-shot timer fires twice.  The calls are
    made in the rounds in which their time has come. *)
Theorem call_limit (timerEvent : nat -> T unit) (usec limit t0 : Z) (rounds : list Round)
    (Hev : forall i, quiet (timerEvent i)) (Hq : Forall (fun r => quiet r.1) rounds)
    (Hu : 0 < usec < 2 ^ 62) (Hl : 0 < limit < 2 ^ 63) (Ht : 0 <= t0 < 2 ^ 63)
    (Hon : all_in_time usec (t0 + usec) rounds) :
  exists t', (setNextAction 0 usec limit ;; run_init ;; rounds_run timerEvent rounds)
      (MultiTimerThread 1 (t0 :: readings rounds)) = Ret tt t'
    /\ events t' = (fun b => (0%nat, b)) <$>
         take (Z.to_nat (limit + 1)) (call_times usec (t0 + usec) rounds).
Proof.
  rewrite seq_assoc, (seq_run _ _ _ _ (start_run usec limit t0 (readings rounds) ltac:(lia))).
  destruct rounds as [|[m ab] rounds]; [eexists; split; [done|]; cbn [call_times]; by rewrite take_nil|].
  destruct (rounds_limit usec limit Hu Hl timerEvent Hev ((m, ab) :: rounds) (t0 + usec) 0
    (started usec limit t0 (readings ((m, ab) :: rounds)))) as (t' & Hr & He);
    try done; [apply started_single|lia..|].
  exists t'. rewrite Z.sub_0_r in He. split; [|done]. rewrite <- Hr.
  unfold rounds_run. cbn [for_each fst]. unfold bind.
  by erewrite pass_updated by (apply first_update; lia) || reflexivity.
Qed.

(** A timer that is to fire once in 1000 microseconds. *)
Definition four_rounds : list Round :=
  [(ret tt, (100, 900)); (leaveCorrectionLoop 0, (900, 1100)); (ret tt, (1100, 2150));
   (ret tt, (2200, 3300))].
Lemma call_limit_witness :
  exists t', (setNextAction 0 1000 1 ;; run_init ;; rounds_run leaveCorrectionLoop four_rounds)
      (MultiTimerThread 1 (100 :: readings four_rounds)) = Ret tt t'
    /\ events t' = (fun b => (0%nat, b)) <$> [1100; 2150].
Proof.
  apply (call_limit leaveCorrectionLoop 1000 1 100 four_rounds).
  - apply quiet_leaveCorrectionLoop.
  - repeat constructor; try apply quiet_ret. apply quiet_leaveCorrectionLoop.
  - lia.
  - lia.
  - lia.
  - repeat split.
Defined.
