(* ===== verification/Threads.v ===== *)
(** * Threads: thread.cc

    [start] creates the thread and waits until it is there; [go] is the
    function of the new thread; [stop] cancels and joins it.  Two or three
    threads work on the members of the object side by side: the models are
    step functions that list what can happen next, and the theorems follow
    from the list of all states that can be reached.  [delay] is a function of
    what [nanosleep] returns. *)

From S2P Require Import Prelude.
Local Open Scope Z_scope.

(** ** Finite systems of steps *)

Section Explore.
Context {S : Type} `{!EqDecision S}.
Variable next : S -> list S.

Definition steps (s s' : S) : Prop := s' ∈ next s.
(** All states that can be reached from those of [todo], in [fuel] rounds. *)
Fixpoint explore (fuel : nat) (seen todo : list S) : list S :=
  match fuel with
  | O => seen
  | Datatypes.S fuel =>
      let new := remove_dups (filter (fun s => s ∉ seen) todo) in
      match new with [] => seen | _ => explore fuel (new ++ seen) (flat_map next new) end
  end.
(** A list that no step leaves. *)
Definition closed (l : list S) : bool :=
  forallb (fun s => forallb (fun s' => bool_decide (s' ∈ l)) (next s)) l.

Lemma closed_reach l s s' : closed l = true -> s ∈ l -> rtc steps s s' -> s' ∈ l.
Proof.
  intros Hc Hs Hr. induction Hr as [s|s s1 s' H1 _ IH]; [done|]. apply IH.
  apply list_elem_of_In in Hs. apply list_elem_of_In.
  pose proof (proj1 (forallb_forall _ _) Hc s Hs) as H. cbv beta in H.
  apply list_elem_of_In in H1. pose proof (proj1 (forallb_forall _ _) H s1 H1) as H'.
  apply bool_decide_eq_true in H'. by apply list_elem_of_In.
Qed.
(** What holds of the list holds of all that can be reached. *)
Lemma explored (p : S -> bool) l s s' :
  closed l = true -> bool_decide (s ∈ l) = true -> forallb p l = true -> rtc steps s s' -> p s' = true.
Proof.
  intros Hc Hs Hp Hr. apply bool_decide_eq_true in Hs.
  apply (proj1 (forallb_forall _ _) Hp). apply list_elem_of_In. by eapply closed_reach.
Qed.
(** The run that takes the given choices. *)
Fixpoint follow (choices : list nat) (s : S) : option S :=
  match choices with
  | [] => Some s
  | n :: choices => match next s !! n with Some s' => follow choices s' | None => None end
  end.
Lemma follow_reach choices : forall s s', follow choices s = Some s' -> rtc steps s s'.
Proof.
  induction choices as [|n choices IH]; intros s s'; cbn [follow]; [by intros [= ->]|].
  destruct (next s !! n) as [s1|] eqn:E; [|done]. intros H. eapply rtc_l; [|by apply IH].
  by apply list_elem_of_lookup_2 in E.
Qed.
End Explore.

(** ** Starting: [Thread::start] and [Thread::go] *)

Module Startup.
(** The creator, from the initialisation of the mutex and the condition. *)
Inductive Creator : Set :=
| CLock | CCreate | CWait | CWaiting | CRelock | CDestroyCondition | CUnlock | CDestroyMutex | CReturned.
Inductive Child : Set := KNotCreated | KLock | KSignal | KUnlock | KRun.
Inductive Owner : Set := Nobody | ByCreator | ByChild.
#[export] Instance Creator_eq_dec : EqDecision Creator.
Proof. solve_decision. Defined.
#[export] Instance Child_eq_dec : EqDecision Child.
Proof. solve_decision. Defined.
#[export] Instance Owner_eq_dec : EqDecision Owner.
Proof. solve_decision. Defined.

Record State : Set := {
  creator : Creator;
  child : Child;
  StartupMutex : Owner;
  waiting : bool;         (* the creator is in the queue of [StartupCondition] *)
  mutex_alive : bool;
  condition_alive : bool;
  result : bool;          (* of [pthread_create] *)
  fault : bool }.         (* a use of a destroyed or an illegal destruction *)
#[export] Instance State_eq_dec : EqDecision State.
Proof. solve_decision. Defined.

Definition initial : State :=
  {| creator := CLock; child := KNotCreated; StartupMutex := Nobody; waiting := false;
     mutex_alive := true; condition_alive := true; result := false; fault := false |}.

Definition creator_at (c : Creator) (s : State) : State :=
  {| creator := c; child := child s; StartupMutex := StartupMutex s; waiting := waiting s;
     mutex_alive := mutex_alive s; condition_alive := condition_alive s; result := result s; fault := fault s |}.
Definition child_at (k : Child) (s : State) : State :=
  {| creator := creator s; child := k; StartupMutex := StartupMutex s; waiting := waiting s;
     mutex_alive := mutex_alive s; condition_alive := condition_alive s; result := result s; fault := fault s |}.
Definition own (o : Owner) (s : State) : State :=
  {| creator := creator s; child := child s; StartupMutex := o; waiting := waiting s;
     mutex_alive := mutex_alive s; condition_alive := condition_alive s; result := result s;
     fault := fault s || negb (mutex_alive s) |}.
Definition set_waiting (w : bool) (s : State) : State :=
  {| creator := creator s; child := child s; StartupMutex := StartupMutex s; waiting := w;
     mutex_alive := mutex_alive s; condition_alive := condition_alive s; result := result s;
     fault := fault s || negb (condition_alive s) |}.
Definition created (s : State) : State :=
  {| creator := CWait; child := KLock; StartupMutex := StartupMutex s; waiting := waiting s;
     mutex_alive := mutex_alive s; condition_alive := condition_alive s; result := true; fault := fault s |}.
Definition destroy_condition (s : State) : State :=
  {| creator := CUnlock; child := child s; StartupMutex := StartupMutex s; waiting := waiting s;
     mutex_alive := mutex_alive s; condition_alive := false; result := result s;
     fault := fault s || waiting s |}.
Definition destroy_mutex (s : State) : State :=
  {| creator := CReturned; child := child s; StartupMutex := StartupMutex s; waiting := waiting s;
     mutex_alive := false; condition_alive := condition_alive s; result := result s;
     fault := fault s || negb (bool_decide (StartupMutex s = Nobody)) |}.

(** [pthread_mutex_lock] waits for its turn. *)
Definition locks (o : Owner) (s : State) : list State :=
  if bool_decide (StartupMutex s = Nobody) then [own o s] else [].

(** A wait may end without a signal if [spurious]. *)
Definition next_creator (spurious : bool) (s : State) : list State :=
  match creator s with
  | CLock => creator_at CCreate <$> locks ByCreator s
  | CCreate => [created s; creator_at CDestroyCondition s]
  | CWait => [creator_at CWaiting (set_waiting true (own Nobody s))]
  | CWaiting =>
      if negb (waiting s) || spurious then [creator_at CRelock (set_waiting false s)] else []
  | CRelock => creator_at CDestroyCondition <$> locks ByCreator s
  | CDestroyCondition => [destroy_condition s]
  | CUnlock => [creator_at CDestroyMutex (own Nobody s)]
  | CDestroyMutex => [destroy_mutex s]
  | CReturned => []
  end.
Definition next_child (s : State) : list State :=
  match child s with
  | KLock => child_at KSignal <$> locks ByChild s
  | KSignal => [child_at KUnlock (set_waiting false s)]
  | KUnlock => [child_at KRun (own Nobody s)]
  | KNotCreated | KRun => []
  end.
Definition next (spurious : bool) (s : State) : list State := next_creator spurious s ++ next_child s.

(** ** What is reached without spurious wake-ups *)

Definition reached : list State := explore (next false) 30 [] [initial].
Definition final (s : State) : bool :=
  bool_decide (creator s = CReturned) && bool_decide (child s = KNotCreated \/ child s = KRun).
(** No fault; a step is possible, or both are done; when [start] has returned
    the thread exists exactly if it was created, and is past the handshake. *)
Definition good (s : State) : bool :=
  negb (fault s)
  && (final s || negb (bool_decide (next false s = [])))
  && (negb (bool_decide (creator s = CReturned))
      || bool_decide (child s = if result s then KRun else KNotCreated)).
(** Steps still to be taken. *)
Definition left (s : State) : nat :=
  (match creator s with
   | CLock => 9 | CCreate => 8 | CWait => 7 | CWaiting => 6 | CRelock => 5 | CDestroyCondition => 4
   | CUnlock => 3 | CDestroyMutex => 2 | CReturned => 1 end)
  + (match child s with KNotCreated => 4 | KLock => 3 | KSignal => 2 | KUnlock => 1 | KRun => 0 end).

(** C28. Starting a thread.  If no wait ends without a signal, then in every
    interleaving of the creator and the new thread: neither uses a mutex or a
    condition that is destroyed, or destroys one in use; as long as they are
    not done one of them can go on, and each step leaves fewer to take; and
    when [start] has returned, the thread has passed the handshake, or was not
    created. *)
Theorem start_safe (s : State) (Hr : rtc (steps (next false)) initial s) :
  fault s = false
  /\ (next false s = [] -> final s = true)
  /\ (forall s', s' ∈ next false s -> (left s' < left s)%nat)
  /\ (creator s = CReturned -> child s = if result s then KRun else KNotCreated).
Proof.
  assert (Hg : good s = true).
  { eapply (explored (next false) good reached initial); [vm_cast_no_check (eq_refl true)..|exact Hr]. }
  assert (Hd : forallb (fun s' => Nat.ltb (left s') (left s)) (next false s) = true).
  { eapply (explored (next false) (fun s => forallb (fun s' => Nat.ltb (left s') (left s)) (next false s))
      reached initial); [vm_cast_no_check (eq_refl true)..|exact Hr]. }
  unfold good in Hg. apply andb_true_iff in Hg as [Hg H3]. apply andb_true_iff in Hg as [H1 H2].
  split; [by destruct (fault s)|]. split; [|split].
  - intros E. rewrite bool_decide_true in H2 by done. by rewrite orb_false_r in H2.
  - intros s' Hs'. apply list_elem_of_In in Hs'.
    by apply Nat.ltb_lt, (proj1 (forallb_forall _ _) Hd s').
  - intros E. rewrite bool_decide_true in H3 by done. cbn [negb orb] in H3. by apply bool_decide_eq_true in H3.
Qed.

(** The creator returned without a signal, and the thread is at its handshake. *)
Definition torn : State :=
  {| creator := CReturned; child := KSignal; StartupMutex := ByChild; waiting := false;
     mutex_alive := false; condition_alive := false; result := true; fault := true |}.
Definition started : State :=
  {| creator := CReturned; child := KRun; StartupMutex := Nobody; waiting := false;
     mutex_alive := false; condition_alive := false; result := true; fault := false |}.

(** A wait may end by itself, and [start] does not test why it has ended: it
    destroys what the new thread is about to use. *)
Lemma start_spurious : rtc (steps (next true)) initial torn /\ fault torn = true.
Proof.
  split; [|done]. apply (follow_reach (next true) (replicate 9 0%nat)).
  vm_cast_no_check (eq_refl (Some torn)).
Qed.

Lemma started_reachable : rtc (steps (next false)) initial started.
Proof.
  apply (follow_reach (next false) (replicate 11 0%nat)). vm_cast_no_check (eq_refl (Some started)).
Qed.
Lemma start_safe_witness :
  creator started = CReturned /\ fault started = false /\ child started = KRun.
Proof.
  destruct (start_safe started started_reachable) as (Hf & _ & _ & Hc).
  split; [reflexivity|]. split; [exact Hf|exact (Hc eq_refl)].
Defined.
End Startup.

(** ** Stopping: [Thread::stop]

    Any number of threads may call it; the mutex is that of the object. *)

Module Stop.
Inductive Position : Set := Outside | Joining | Clearing | Joined.
Record State : Set := {
  PThread : bool;               (* not 0 *)
  running : bool;               (* the thread itself, until it has ended *)
  cancelled : bool;
  joins : nat;                  (* calls of [pthread_join] that have returned *)
  callers : list Position;
  fault : bool }.               (* a call on a thread that has been joined *)
#[export] Instance Position_eq_dec : EqDecision Position.
Proof. solve_decision. Defined.
#[export] Instance State_eq_dec : EqDecision State.
Proof. solve_decision. Defined.

Definition initial (n : nat) : State :=
  {| PThread := true; running := true; cancelled := false; joins := 0;
     callers := replicate n Outside; fault := false |}.
Definition caller_at (i : nat) (p : Position) (s : State) : State :=
  {| PThread := PThread s; running := running s; cancelled := cancelled s; joins := joins s;
     callers := <[i := p]> (callers s); fault := fault s |}.
(** [synchronized], [pthread_cancel] if it is running, and [unsynchronized]:
    no other call comes between, as all take the mutex. *)
Definition stop_begin (i : nat) (s : State) : State :=
  if PThread s
  then caller_at i Joining
         {| PThread := true; running := running s; cancelled := true; joins := joins s;
            callers := callers s; fault := fault s || negb (bool_decide (joins s = 0%nat)) |}
  else caller_at i Joined s.
(** [pthread_join] when the thread has ended; a second one is an error. *)
Definition stop_join (i : nat) (s : State) : State :=
  caller_at i Clearing
    {| PThread := PThread s; running := running s; cancelled := cancelled s; joins := S (joins s);
       callers := callers s; fault := fault s || negb (bool_decide (joins s = 0%nat)) |}.
(** [PThread = 0], and the mutex is made new. *)
Definition stop_clear (i : nat) (s : State) : State :=
  caller_at i Joined
    {| PThread := false; running := running s; cancelled := cancelled s; joins := joins s;
       callers := callers s; fault := fault s |}.
Definition next_caller (s : State) (i : nat) : list State :=
  match callers s !! i with
  | Some Outside => [stop_begin i s]
  | Some Joining => if running s then [] else [stop_join i s]
  | Some Clearing => [stop_clear i s]
  | Some Joined | None => []
  end.
(** The thread ends by itself or by the cancellation. *)
Definition next_thread (s : State) : list State :=
  if running s
  then [{| PThread := PThread s; running := false; cancelled := cancelled s; joins := joins s;
           callers := callers s; fault := fault s |}]
  else [].
Definition next (s : State) : list State :=
  flat_map (next_caller s) (seq 0 (length (callers s))) ++ next_thread s.

Definition stop_good (s : State) : bool :=
  negb (fault s)
  && (bool_decide (next s <> []) || bool_decide (Forall (fun p => p = Joined) (callers s)))
  && (negb (bool_decide (callers s = [Joined])) || (negb (PThread s) && negb (running s))).
(** One call of [stop]: the thread is joined once and has ended when the call
    returns, and the call is never stuck. *)
Lemma stop_once s (Hr : rtc (steps next) (initial 1) s) :
  fault s = false /\ (next s = [] -> callers s = [Joined])
  /\ (callers s = [Joined] -> PThread s = false /\ running s = false).
Proof.
  assert (Hl : Nat.eqb (length (callers s)) 1 = true).
  { eapply (explored next (fun s => Nat.eqb (length (callers s)) 1)
      (explore next 20 [] [initial 1]) (initial 1)); [vm_cast_no_check (eq_refl true)..|exact Hr]. }
  assert (Hg : stop_good s = true).
  { eapply (explored next stop_good (explore next 20 [] [initial 1]) (initial 1));
      [vm_cast_no_check (eq_refl true)..|exact Hr]. }
  apply Nat.eqb_eq in Hl. unfold stop_good in Hg.
  apply andb_true_iff in Hg as [Hg H3]. apply andb_true_iff in Hg as [H1 H2].
  split; [by destruct (fault s)|]. split.
  - intros E. rewrite bool_decide_false in H2 by (by rewrite E; intros []).
    apply bool_decide_eq_true in H2. destruct (callers s) as [|p [|]]; [done| |done].
    by apply Forall_cons in H2 as [-> _].
  - intros E. rewrite (bool_decide_true (callers s = _)) in H3 by done.
    by destruct (PThread s), (running s).
Qed.
(** Two calls at the same time join the thread twice: [PThread] is reset only
    after the join, which is made without the mutex. *)
Definition joined_twice : State :=
  {| PThread := true; running := false; cancelled := true; joins := 2; callers := [Clearing; Clearing];
     fault := true |}.
Lemma stop_twice : rtc (steps next) (initial 2) joined_twice /\ fault joined_twice = true.
Proof.
  split; [|done]. apply (follow_reach next [0; 0; 0; 0; 1]%nat).
  vm_cast_no_check (eq_refl (Some joined_twice)).
Qed.
End Stop.

(** ** Sleeping: [Thread::delay] *)

(** A [timespec]; what a call of [nanosleep] returns: success, or an
    interruption with the time that remains. *)
Record timespec : Set := { tv_sec : Z; tv_nsec : Z }.
Inductive SleepResult : Set := Slept | Interrupted (remaining : timespec) | SleepFailed.

Definition delay_request (delayTimeout : Z) : timespec :=
  {| tv_sec := delayTimeout / 1000000; tv_nsec := 1000 * (delayTimeout mod 1000000) |}.
(** The requests made and the result; [None] when the results do not reach. *)
Fixpoint delay_loop (request : timespec) (results : list SleepResult) : option (list timespec * Z) :=
  match results with
  | [] => None
  | Interrupted remaining :: results =>
      match delay_loop remaining results with
      | Some (requests, r) => Some (request :: requests, r)
      | None => None
      end
  | _ :: _ => Some ([request], 0)
  end.
Definition delay (delayTimeout : Z) (interruptable : bool) (results : list SleepResult)
    : option (list timespec * Z) :=
  let request := delay_request delayTimeout in
  if negb interruptable then delay_loop request results
  else
    match results with
    | [] => None
    | Interrupted remaining :: _ =>
        Some ([request], wrap 64 (wrap 64 (tv_sec remaining * 1000000) + tv_nsec remaining / 1000))
    | _ :: _ => Some ([request], 0)
    end.

Definition nanoseconds (t : timespec) : Z := tv_sec t * 1000000000 + tv_nsec t.
Definition timespec_ok (t : timespec) : Prop := 0 <= tv_sec t /\ 0 <= tv_nsec t < 1000000000.
(** What was slept in all: of each request what did not remain. *)
Fixpoint slept (requests : list timespec) (results : list SleepResult) : Z :=
  match requests, results with
  | t :: requests, Interrupted r :: results => nanoseconds t - nanoseconds r + slept requests results
  | t :: _, Slept :: _ => nanoseconds t
  | _, _ => 0
  end.

(** A sleep that is not to be interrupted lasts as long as requested, however
    often signals interrupt it, and makes valid requests. *)
Lemma delay_complete delayTimeout interrupts :
  0 <= delayTimeout < 2 ^ 64 ->
  Forall (fun r => exists t, r = Interrupted t /\ timespec_ok t) interrupts ->
  exists requests,
    delay delayTimeout false (interrupts ++ [Slept]) = Some (requests, 0)
    /\ Forall timespec_ok requests
    /\ slept requests (interrupts ++ [Slept]) = 1000 * delayTimeout.
Proof.
  intros Ht Hi. unfold delay. cbn [negb].
  assert (Hr : timespec_ok (delay_request delayTimeout)).
  { unfold timespec_ok, delay_request. cbn. pose proof (Z.mod_pos_bound delayTimeout 1000000).
    pose proof (Z.div_pos delayTimeout 1000000). lia. }
  replace (1000 * delayTimeout) with (nanoseconds (delay_request delayTimeout)).
  2:{ unfold nanoseconds, delay_request. cbn. pose proof (Z.div_mod delayTimeout 1000000). lia. }
  clear Ht. revert Hr. generalize (delay_request delayTimeout) as t.
  induction Hi as [|r rs (u & -> & Hu) Hrs IH]; intros t Ht; cbn [app delay_loop].
  - exists [t]. split; [done|]. split; [by constructor|done].
  - destruct (IH u Hu) as (requests & E & Hok & Hs). exists (t :: requests).
    rewrite E. split; [done|]. split; [by constructor|]. cbn [slept]. lia.
Qed.
