(* ===== verification/Network.v ===== *)
(** * Two programs that exchange messages over an association

    A program is an interaction tree over the calls it makes on its socket.
    Two of them, joined by an association, run side by side; the association
    keeps messages apart and delivers them in order. *)

From stdpp Require Import relations.
From ITree Require Import ITree.
From S2P Require Import Prelude.
Local Open Scope Z_scope.

Notation "'let!' x ':=' m 'in' k" := (ITree.bind m (fun x => k))
  (at level 10, x binder, m at level 100, k at level 200).

Definition message : Type := list Z.

(** The calls of a program: [Socket::send], with its result, and
    [Socket::receive] into a buffer, with the result and the bytes. *)
Variant socketE : Type -> Type :=
| Send (m : message) : socketE Z
| Receive (size : Z) : socketE (Z * list Z).

Definition send (m : message) : itree socketE Z := ITree.trigger (Send m).
Definition receive (size : Z) : itree socketE (Z * list Z) := ITree.trigger (Receive size).

(** What a receive call takes from the first message: a message longer than
    the buffer stays with its rest. *)
Definition take_message (size : Z) (m : message) (q : list message) : list Z * list message :=
  if Z.of_nat (length m) <=? size then (m, q)
  else (take (Z.to_nat size) m, drop (Z.to_nat size) m :: q).

Section Step.
Context {R : Type}.

(** A step of one program on the messages that wait for it: the program after
    the step, the messages left, and those it sends.  [None]: it has ended or
    waits. *)
Definition advance (t : itree socketE R) (q : list message)
    : option (itree socketE R * list message * list message) :=
  match observe t with
  | RetF _ => None
  | TauF t => Some (t, q, [])
  | VisF e k =>
      match e in socketE X return (X -> itree socketE R) -> _ with
      | Send m => fun k => Some (k (Z.of_nat (length m)), q, [m])
      | Receive size => fun k =>
          match q with
          | [] => None
          | m :: q =>
              let '(data, q) := take_message size m q in
              Some (k (Z.of_nat (length data), data), q, [])
          end
      end k
  end.

(** More messages do not disturb a program. *)
Lemma advance_more t q t' q' sent more :
  advance t q = Some (t', q', sent) -> advance t (q ++ more) = Some (t', q' ++ more, sent).
Proof.
  unfold advance. destruct (observe t) as [r|u|X e k]; [done|by intros [= <- <- <-]|].
  destruct e as [m|size]; [by intros [= <- <- <-]|].
  destruct q as [|m q]; [done|]. cbn [app]. unfold take_message.
  destruct (Z.of_nat (length m) <=? size); by intros [= <- <- <-].
Qed.

(** Some steps of one program.  Programs count by what they do next, their
    [observe]. *)
Inductive goes : itree socketE R -> list message -> itree socketE R -> list message -> list message -> Prop :=
| goes_here t t' q : observe t = observe t' -> goes t q t' q []
| goes_on t q t1 q1 sent t' q' sent' :
    advance t q = Some (t1, q1, sent) -> goes t1 q1 t' q' sent' -> goes t q t' q' (sent ++ sent').

Lemma advance_observe t t' q : observe t = observe t' -> advance t q = advance t' q.
Proof. unfold advance. by intros ->. Qed.
Lemma goes_observe t u q t' q' sent : observe t = observe u -> goes u q t' q' sent -> goes t q t' q' sent.
Proof.
  intros E H. destruct H as [|u q t1 q1 s t' q' s' Ha H].
  - apply goes_here. congruence.
  - eapply goes_on; [|exact H]. by rewrite (advance_observe t u q E).
Qed.
Lemma goes_trans t q t1 q1 s1 t2 q2 s2 :
  goes t q t1 q1 s1 -> goes t1 q1 t2 q2 s2 -> goes t q t2 q2 (s1 ++ s2).
Proof.
  induction 1 as [t t' q E|t q t1 q1 s t' q' s' Ha _ IH]; intros H2.
  - by eapply goes_observe.
  - rewrite <- (assoc_L (++)). eapply goes_on; [exact Ha|by apply IH].
Qed.
Lemma goes_once t q t1 q1 s : advance t q = Some (t1, q1, s) -> goes t q t1 q1 s.
Proof. intros H. rewrite <- (app_nil_r s). eapply goes_on; [exact H|by apply goes_here]. Qed.
End Step.

Lemma bind_observe {R X} (t : itree socketE X) (k : X -> itree socketE R) :
  observe (ITree.bind t k)
  = match observe t with
    | RetF x => observe (k x)
    | TauF u => TauF (ITree.bind u k)
    | VisF e h => VisF e (fun x => ITree.bind (h x) k)
    end.
Proof.
  change (observe (ITree.bind t k)) with
    (observe (match observe t with
              | RetF x => k x
              | TauF u => go (TauF (ITree.bind u k))
              | VisF e h => go (VisF e (fun x => ITree.bind (h x) k))
              end)). by destruct (observe t).
Qed.
Lemma advance_bind {R X} (t : itree socketE X) (k : X -> itree socketE R) q t1 q1 s :
  advance t q = Some (t1, q1, s) -> advance (ITree.bind t k) q = Some (ITree.bind t1 k, q1, s).
Proof.
  unfold advance. rewrite bind_observe.
  destruct (observe t) as [r|u|Y e h]; [done|by intros [= <- <- <-]|].
  destruct e as [m|size]; [by intros [= <- <- <-]|]. destruct q as [|m q]; [done|].
  destruct (take_message size m q). by intros [= <- <- <-].
Qed.
Lemma observe_bind {R X} (t t' : itree socketE X) (k : X -> itree socketE R) :
  observe t = observe t' -> observe (ITree.bind t k) = observe (ITree.bind t' k).
Proof. intros E. by rewrite !bind_observe, E. Qed.
Lemma goes_bind {R X} (t : itree socketE X) (k : X -> itree socketE R) q t' q' s :
  goes t q t' q' s -> goes (ITree.bind t k) q (ITree.bind t' k) q' s.
Proof.
  induction 1 as [t t' q E|t q t1 q1 s t' q' s' Ha _ IH].
  - apply goes_here. by apply observe_bind.
  - eapply goes_on; [by apply advance_bind|done].
Qed.

(** The calls, at the beginning of a program. *)
Lemma goes_send {R} m (k : Z -> itree socketE R) q t' q' s :
  goes (k (Z.of_nat (length m))) q t' q' s ->
  goes (ITree.bind (send m) k) q t' q' (m :: s).
Proof.
  intros H. change (m :: s) with ([m] ++ s). eapply goes_on; [reflexivity|].
  eapply goes_observe; [|exact H]. reflexivity.
Qed.
Lemma goes_receive {R} m size (k : Z * list Z -> itree socketE R) q t' q' s :
  Z.of_nat (length m) <= size -> goes (k (Z.of_nat (length m), m)) q t' q' s ->
  goes (ITree.bind (receive size) k) (m :: q) t' q' s.
Proof.
  intros Hs H. change s with ([] ++ s). eapply goes_on.
  - unfold advance; cbn. unfold take_message. rewrite (proj2 (Z.leb_le _ _) Hs). reflexivity.
  - eapply goes_observe; [|exact H]. reflexivity.
Qed.

Section Network.
Context {R1 R2 : Type}.

Record Network : Type := {
  client : itree socketE R1;
  server : itree socketE R2;
  to_server : list message;
  to_client : list message }.

Inductive step (n : Network) : Network -> Prop :=
| step_client t q sent : advance (client n) (to_client n) = Some (t, q, sent) ->
    step n {| client := t; server := server n; to_server := to_server n ++ sent; to_client := q |}
| step_server t q sent : advance (server n) (to_server n) = Some (t, q, sent) ->
    step n {| client := client n; server := t; to_server := q; to_client := to_client n ++ sent |}.

(** Steps of different programs commute; each program is deterministic. *)
Lemma step_diamond n n1 n2 :
  step n n1 -> step n n2 -> n1 = n2 \/ exists n', step n1 n' /\ step n2 n'.
Proof.
  intros [t q sent H|t q sent H] [t2 q2 sent2 H2|t2 q2 sent2 H2].
  - rewrite H in H2. injection H2 as <- <- <-. by left.
  - right. eexists. split; [eapply step_server|eapply step_client]; cbn; by apply advance_more.
  - right. eexists. split; [eapply step_client|eapply step_server]; cbn; by apply advance_more.
  - rewrite H in H2. injection H2 as <- <- <-. by left.
Qed.

(** If one run ends, every run does, in the same state and with the same
    number of steps. *)
Lemma runs_agree k : forall n n1 final,
  step n n1 -> nsteps step k n final -> nf step final ->
  exists k', k = S k' /\ nsteps step k' n1 final.
Proof.
  induction k as [|k IH]; intros n n1 final H1 Hk Hf; inversion Hk as [|? ? n2 ? H2 Hrest]; subst.
  - exfalso. apply Hf. by exists n1.
  - exists k. split; [done|]. destruct (step_diamond n n1 n2 H1 H2) as [->|(n' & Ha & Hb)]; [done|].
    destruct (IH n2 n' final Hb Hrest Hf) as (k' & -> & Hn'). by eapply nsteps_l.
Qed.
Lemma runs_end k n final :
  nsteps step k n final -> nf step final ->
  forall j n', nsteps step j n n' -> (j <= k)%nat /\ nsteps step (k - j) n' final.
Proof.
  intros Hk Hf j. revert k n Hk. induction j as [|j IH]; intros k n Hk n' Hj;
    inversion Hj as [|? ? n1 ? H1 Hrest]; subst.
  - by rewrite Nat.sub_0_r; split; [lia|].
  - destruct (runs_agree k n n1 final H1 Hk Hf) as (k' & -> & Hk').
    destruct (IH k' n1 Hk' n' Hrest) as [Hle Hend]. split; [lia|done].
Qed.

(** Every run ends, and ends in [final]. *)
Definition always_ends (n final : Network) : Prop :=
  nf step final /\ exists k, forall j n', nsteps step j n n' -> (j <= k)%nat /\ nsteps step (k - j) n' final.
Lemma ends_once n final : rtc step n final -> nf step final -> always_ends n final.
Proof.
  intros Hr Hf. split; [done|]. apply rtc_nsteps in Hr as [k Hk]. exists k. by apply runs_end.
Qed.

(** ** Runs of the network from runs of the programs *)

Definition same (n n' : Network) : Prop :=
  observe (client n) = observe (client n') /\ observe (server n) = observe (server n')
  /\ to_server n = to_server n' /\ to_client n = to_client n'.
Definition reaches (n n' : Network) : Prop := exists n'', rtc step n n'' /\ same n'' n'.

Lemma same_step n n' m : same n n' -> step n' m -> exists m', step n m' /\ same m' m.
Proof.
  intros (Hc & Hs & Hts & Htc) [t q sent H|t q sent H].
  - eexists. split; [eapply step_client; rewrite Htc, (advance_observe _ _ _ Hc); exact H|].
    by repeat split; cbn; try congruence.
  - eexists. split; [eapply step_server; rewrite Hts, (advance_observe _ _ _ Hs); exact H|].
    by repeat split; cbn; try congruence.
Qed.
Lemma same_trans n1 n2 n3 : same n1 n2 -> same n2 n3 -> same n1 n3.
Proof. intros (? & ? & ? & ?) (? & ? & ? & ?). repeat split; congruence. Qed.
Lemma same_run n n' m : same n n' -> rtc step n' m -> exists m', rtc step n m' /\ same m' m.
Proof.
  intros Hs Hr. revert n Hs. induction Hr as [n'|n' n1 m H1 _ IH]; intros n Hs; [by exists n|].
  destruct (same_step n n' n1 Hs H1) as (n2 & H2 & Hs2). destruct (IH n2 Hs2) as (m' & Hr & Hm).
  exists m'. split; [by eapply rtc_l|done].
Qed.
Lemma reaches_trans n1 n2 n3 : reaches n1 n2 -> reaches n2 n3 -> reaches n1 n3.
Proof.
  intros (m1 & Hr1 & Hs1) (m2 & Hr2 & Hs2). destruct (same_run m1 n2 m2 Hs1 Hr2) as (m & Hr & Hs).
  exists m. split; [by etransitivity|by eapply same_trans].
Qed.

Lemma client_goes c s ts tc c' tc' sent :
  goes c tc c' tc' sent ->
  reaches {| client := c; server := s; to_server := ts; to_client := tc |}
          {| client := c'; server := s; to_server := ts ++ sent; to_client := tc' |}.
Proof.
  intros H. revert ts. induction H as [t t' q E|t q t1 q1 st t' q' st' Ha _ IH]; intros ts.
  - eexists. split; [apply rtc_refl|]. by repeat split; cbn; rewrite ?app_nil_r.
  - eapply reaches_trans; [|rewrite (assoc_L (++)); apply IH].
    eexists. split; [eapply rtc_once, step_client; exact Ha|done].
Qed.
Lemma server_goes c s ts tc s' ts' sent :
  goes s ts s' ts' sent ->
  reaches {| client := c; server := s; to_server := ts; to_client := tc |}
          {| client := c; server := s'; to_server := ts'; to_client := tc ++ sent |}.
Proof.
  intros H. revert tc. induction H as [t t' q E|t q t1 q1 st t' q' st' Ha _ IH]; intros tc.
  - eexists. split; [apply rtc_refl|]. by repeat split; cbn; rewrite ?app_nil_r.
  - eapply reaches_trans; [|rewrite (assoc_L (++)); apply IH].
    eexists. split; [eapply rtc_once, step_server; exact Ha|done].
Qed.

(** Both programs have ended. *)
Definition ended (n : Network) (r1 : R1) (r2 : R2) : Prop :=
  observe (client n) = RetF r1 /\ observe (server n) = RetF r2.
Lemma ended_nf n r1 r2 : ended n r1 r2 -> nf step n.
Proof.
  intros [Hc Hs] [n' [t q sent H|t q sent H]]; unfold advance in H.
  - by rewrite Hc in H.
  - by rewrite Hs in H.
Qed.
(** What is shown of one run holds of all. *)
Definition surely_ends (n : Network) (r1 : R1) (r2 : R2) : Prop :=
  exists final, always_ends n final /\ ended final r1 r2.
Lemma reaches_ends n n' r1 r2 : reaches n n' -> ended n' r1 r2 -> surely_ends n r1 r2.
Proof.
  intros (m & Hr & (Hc & Hs & _)) [H1 H2]. exists m.
  assert (ended m r1 r2) as He by (split; congruence).
  split; [|done]. apply ends_once; [done|by eapply ended_nf].
Qed.
Lemma reaches_returns n r1 r2 ts tc :
  reaches n {| client := go (RetF r1); server := go (RetF r2); to_server := ts; to_client := tc |} ->
  surely_ends n r1 r2.
Proof. intros H. by eapply reaches_ends. Qed.
End Network.
Arguments Network : clear implicits.

(** ** Loops and ends of programs *)

Section Programs.
Context {R : Type}.

Lemma goes_return {X} (r : X) (k : X -> itree socketE R) q t' q' s :
  goes (k r) q t' q' s -> goes (ITree.bind (go (RetF r)) k) q t' q' s.
Proof. apply goes_observe. by rewrite bind_observe. Qed.

(** A part of a program that returns. *)
Lemma goes_part {X} (t : itree socketE X) (k : X -> itree socketE R) r q q1 s1 t' q' s :
  goes t q (go (RetF r)) q1 s1 -> goes (k r) q1 t' q' s ->
  goes (ITree.bind t k) q t' q' (s1 ++ s).
Proof. intros H1 H2. eapply goes_trans; [by apply goes_bind|by apply goes_return]. Qed.

Context {I : Type} (body : I -> itree socketE (I + R)).
Lemma iter_observe i :
  observe (ITree.iter body i)
  = observe (ITree.bind (body i) (fun lr =>
      match lr with inl j => go (TauF (ITree.iter body j)) | inr r => go (RetF r) end)).
Proof. reflexivity. Qed.
Lemma goes_again i j q q1 s1 t' q' s :
  goes (body i) q (go (RetF (inl j))) q1 s1 -> goes (ITree.iter body j) q1 t' q' s ->
  goes (ITree.iter body i) q t' q' (s1 ++ s).
Proof.
  intros H1 H2. eapply goes_observe; [apply iter_observe|]. eapply goes_part; [exact H1|].
  change s with ([] ++ s). by eapply goes_on.
Qed.
Lemma goes_leave i r q q1 s1 :
  goes (body i) q (go (RetF (inr r))) q1 s1 ->
  goes (ITree.iter body i) q (go (RetF r)) q1 s1.
Proof.
  intros H. eapply goes_observe; [apply iter_observe|]. rewrite <- (app_nil_r s1).
  eapply goes_part; [exact H|by apply goes_here].
Qed.
End Programs.
