(* ===== verification/Tftp.v ===== *)
(** * File transfer over SCTP: sctptftp.h, sctptftp.cc, sctpmultiserver.cc

    The client, [tftpGet] and [tftpPut], and the server,
    [TrivialFileTransferServer], as interaction trees over the calls of their
    sockets.  A host has files and what its program prints; dots and titles
    that report progress are left out.  Characters are bytes. *)

From stdpp Require Import gmap.
From ITree Require Import ITree.
From S2P Require Import Prelude Memory Network.
Local Open Scope Z_scope.

(** ** Packets *)

Definition TFTP_RRQ : Z := 1.
Definition TFTP_WRQ : Z := 2.
Definition TFTP_DAT : Z := 3.
Definition TFTP_ACK : Z := 4.
Definition TFTP_ERR : Z := 5.

(** A [TFTPPacket] is its 2048 bytes: type, code, 2046 bytes of data. *)
Definition sizeof_Data : nat := 2046.
Definition sizeof_TFTPPacket : Z := 2048.
Definition Type_ (packet : list Z) : Z := get 0 1 packet.
Definition Code (packet : list Z) : Z := get 1 1 packet.
Definition Data (packet : list Z) : list Z := drop 2 packet.
Definition set_Type (v : Z) (packet : list Z) : list Z := put 0 1 v packet.
Definition set_Code (v : Z) (packet : list Z) : list Z := put 1 1 v packet.
(** Bytes stored at the beginning of [Data], and of the packet. *)
Definition write_Data (bytes packet : list Z) : list Z := put_bytes 2 bytes packet.
Definition write_packet (bytes packet : list Z) : list Z := put_bytes 0 bytes packet.

Definition text (s : string) : list Z :=
  (fun c => Z.of_nat (Ascii.nat_of_ascii c)) <$> String.list_ascii_of_string s.
(** [snprintf((char* )&packet.Data,sizeof(packet.Data),"%s",text)] *)
Definition print_Data (text packet : list Z) : list Z :=
  write_Data (take (sizeof_Data - 1) text ++ [0]) packet.

(** ** Hosts *)

Notation Files := (gmap (list Z) (list Z)).

Inductive Report : Set :=
| TFTPError (code : Z) (text : list Z)
| CannotCreate
| CannotOpen
| WriteError
| UnexpectedType (type : Z)
| IOError
| TransferOK
| ThreadError (result : Z)
| ThreadShutdown.

Record Host : Type := { files : Files; reports : list Report }.
Definition say (r : Report) (h : Host) : Host := {| files := files h; reports := reports h ++ [r] |}.
Definition set_file (name content : list Z) (h : Host) : Host :=
  {| files := <[name := content]> (files h); reports := reports h |}.

(** A file being read: what is left, and whether its end was hit. *)
Record Stream : Type := { rest : list Z; feof : bool }.
Definition fread (n : nat) (f : Stream) : list Z * Stream :=
  (take n (rest f), {| rest := drop n (rest f); feof := bool_decide (length (rest f) < n)%nat |}).

Section Programs.
(** The rights of the programs, and the number of bytes of a block that still
    fit on the disk after a content. *)
Variables (may_read may_create : list Z -> bool) (disk : list Z -> list Z -> nat).
(** What a packet holds before it is set. *)
Variable garbage : list Z.

Definition fopen_read (name : list Z) (h : Host) : option Stream :=
  if may_read name then
    match files h !! name with Some c => Some {| rest := c; feof := false |} | None => None end
  else None.
(** The file is created, or made empty. *)
Definition fopen_write (name : list Z) (h : Host) : option Host :=
  if may_create name then Some (set_file name [] h) else None.
(** [fwrite(bytes,length,1,out) == 1]; nothing is written of an empty block,
    and the result is then 0. *)
Definition fwrite (name bytes : list Z) (h : Host) : bool * Host :=
  let c := default [] (files h !! name) in
  let n := (disk c bytes `min` length bytes)%nat in
  (bool_decide (bytes <> []) && bool_decide (n = length bytes), set_file name (c ++ take n bytes) h).

(** ** The client *)

Definition printError (packet : list Z) (size : Z) (h : Host) : Host :=
  say (TFTPError (Code packet) (if 3 <=? size then take (Z.to_nat (size - 2)) (Data packet) else [])) h.

Definition finish (result : Z) (h : Host) : Host := if result <? 0 then say IOError h else h.

(** [while(result > 2)] *)
Definition get_body (name : list Z) (s : list Z * Z * Host)
    : itree socketE ((list Z * Z * Host) + (Z * Host)) :=
  let '(packet, result, h) := s in
  if 2 <? result then
    if Type_ packet =? TFTP_DAT then
      let '(ok, h) := fwrite name (take (Z.to_nat (result - 2)) (Data packet)) h in
      if negb ok then go (RetF (inr (result, say WriteError h)))
      else if result <? sizeof_TFTPPacket then go (RetF (inr (result, say TransferOK h)))
      else
        let! '(result, bytes) := receive sizeof_TFTPPacket in
        go (RetF (inl (write_packet bytes packet, result, h)))
    else if Type_ packet =? TFTP_ERR then go (RetF (inr (result, printError packet result h)))
    else go (RetF (inr (result, say (UnexpectedType (Type_ packet)) h)))
  else go (RetF (inr (result, h))).

(** From the first receive call on. *)
Definition get_answer (name packet : list Z) (h : Host) : itree socketE Host :=
  let! '(result, bytes) := receive sizeof_TFTPPacket in
  let packet := write_packet bytes packet in
  if 0 <? result then
    if Type_ packet =? TFTP_ERR then go (RetF (finish result (printError packet result h)))
    else
      match fopen_write name h with
      | None => go (RetF (say CannotCreate h))
      | Some h =>
          let! '(result, h) := ITree.iter (get_body name) (packet, result, h) in
          go (RetF (finish result h))
      end
  else go (RetF (finish result h)).
Definition tftpGet (name : list Z) (h : Host) : itree socketE Host :=
  let packet := print_Data name (set_Code 0 (set_Type TFTP_RRQ garbage)) in
  let! result := send (take (2 + length name) packet) in
  if 0 <=? result then get_answer name packet h else go (RetF (finish result h)).

(** [while(!feof(in))], the same in client and server: the last result. *)
Definition send_body (s : Stream * list Z * Z) : itree socketE ((Stream * list Z * Z) + (list Z * Z)) :=
  let '(f, packet, result) := s in
  if feof f then go (RetF (inr (packet, result)))
  else
    let '(bytes, f) := fread sizeof_Data f in
    let packet := write_Data bytes packet in
    let! result := send (take (2 + length bytes) packet) in
    if result <? 0 then go (RetF (inr (packet, result)))
    else go (RetF (inl (f, set_Code (Code packet + 1) packet, result))).

(** The part of the name after the last slash. *)
Fixpoint after_slash (name : list Z) : option (list Z) :=
  match name with
  | [] => None
  | c :: name =>
      match after_slash name with
      | Some base => Some base
      | None => if c =? 47 then Some name else None
      end
  end.

(** From the receive call after the data on. *)
Definition put_answer (packet : list Z) (h : Host) : itree socketE Host :=
  let! '(result, bytes) := receive sizeof_TFTPPacket in
  let packet := write_packet bytes packet in
  go (RetF (finish result
    (if 0 <? result then
       if Type_ packet =? TFTP_ERR then printError packet result h
       else if Type_ packet =? TFTP_ACK then say TransferOK h
       else say (UnexpectedType (Type_ packet)) h
     else h))).
(** From the first receive call on. *)
Definition put_data (f : Stream) (packet : list Z) (h : Host) : itree socketE Host :=
  let! '(result, bytes) := receive sizeof_TFTPPacket in
  let packet := write_packet bytes packet in
  if 0 <? result then
    if Type_ packet =? TFTP_ERR then go (RetF (finish result (printError packet result h)))
    else if Type_ packet =? TFTP_ACK then
      let packet := set_Code 0 (set_Type TFTP_DAT packet) in
      let! '(packet, _) := ITree.iter send_body (f, packet, result) in
      put_answer packet h
    else go (RetF (finish result (say (UnexpectedType (Type_ packet)) h)))
  else go (RetF (finish result h)).
Definition tftpPut (name : list Z) (h : Host) : itree socketE Host :=
  match fopen_read name h with
  | None => go (RetF (say CannotOpen h))
  | Some f =>
      let base := default name (after_slash name) in
      let packet := print_Data base (set_Code 0 (set_Type TFTP_WRQ garbage)) in
      let! result := send (take (2 + length base) packet) in
      if 0 <=? result then put_data f packet h else go (RetF (finish result h))
  end.

(** ** The server *)

Definition sizeof_FileName : nat := 512.
Definition isprint (c : Z) : bool := (32 <=? c) && (c <? 127).
(** Not one of [: / \ * ?]. *)
Definition name_char (c : Z) : bool :=
  isprint c && negb (bool_decide (c ∈ [58; 47; 92; 42; 63])).

(** [getName]: the name, [None] for a bad one; the fault is the write behind
    the end of [FileName]. *)
Fixpoint copy_name (i : nat) (data : list Z) : Fault + option (list Z) :=
  if bool_decide (sizeof_FileName <= i)%nat then inl OutOfBounds
  else
    match data with
    | [] => inr (Some [])
    | c :: data =>
        if name_char c then
          match copy_name (S i) data with
          | inr (Some name) => inr (Some (c :: name))
          | r => r
          end
        else inr None
    end.
Definition getName (size : Z) (packet : list Z) : Fault + option (list Z) :=
  if 3 <=? size then copy_name 0 (take (Z.to_nat (size - 2)) (Data packet)) else inr None.

(** The packet and the result of the call. *)
Definition sendError (code : Z) (text packet : list Z) : itree socketE (list Z * Z) :=
  let packet := print_Data text (set_Code code (set_Type TFTP_ERR packet)) in
  let! result := send (take (2 + length text) packet) in
  go (RetF (packet, result)).
Definition sendAck (code : Z) (packet : list Z) : itree socketE (list Z * Z) :=
  let packet := set_Code code (set_Type TFTP_ACK packet) in
  let! result := send (take 2 packet) in
  go (RetF (packet, result)).

(** [while(result >= 2)] *)
Definition write_body (name : list Z) (s : list Z * Z * Host)
    : itree socketE ((list Z * Z * Host) + (Z * Host)) :=
  let '(packet, result, h) := s in
  if 2 <=? result then
    if negb (Type_ packet =? TFTP_DAT) then
      let! _ := sendError 0 (text "Bad request!") packet in go (RetF (inr (result, h)))
    else
      let bytes := result - 2 in
      let '(ok, h) := fwrite name (take (Z.to_nat bytes) (Data packet)) h in
      if negb ok then
        let! _ := sendError 4 (text "Write error!") packet in go (RetF (inr (result, h)))
      else if bytes <? Z.of_nat sizeof_Data then
        let! _ := sendAck (Code packet) packet in go (RetF (inr (result, h)))
      else
        let! '(result, bytes) := receive sizeof_TFTPPacket in
        go (RetF (inl (write_packet bytes packet, result, h)))
  else go (RetF (inr (result, h))).

(** The messages at the end of [run]. *)
Definition server_end (result : Z) (h : Host) : Host :=
  if result <? 0 then say (ThreadError (- result)) h else say ThreadShutdown h.

Definition serve_read (packet : list Z) (result : Z) (h : Host) : itree socketE (Fault + Host) :=
  match getName result packet with
  | inl fault => go (RetF (inl fault))
  | inr None =>
      let! _ := sendError 1 (text "Bad file name!") packet in go (RetF (inr (server_end result h)))
  | inr (Some name) =>
      match fopen_read name h with
      | Some f =>
          let packet := set_Code 0 (set_Type TFTP_DAT packet) in
          let! '(_, result) := ITree.iter send_body (f, packet, result) in
          go (RetF (inr (server_end result h)))
      | None =>
          let! _ := sendError 3 (text "Unable to open file!") packet in
          go (RetF (inr (server_end result h)))
      end
  end.
(** From the first receive call after the acknowledgement on. *)
Definition serve_data (name packet : list Z) (h : Host) : itree socketE (Fault + Host) :=
  let! '(result, bytes) := receive sizeof_TFTPPacket in
  let! '(result, h) := ITree.iter (write_body name) (write_packet bytes packet, result, h) in
  go (RetF (inr (server_end result h))).
Definition serve_write (packet : list Z) (result : Z) (h : Host) : itree socketE (Fault + Host) :=
  match getName result packet with
  | inl fault => go (RetF (inl fault))
  | inr None =>
      let! _ := sendError 1 (text "Bad file name!") packet in go (RetF (inr (server_end result h)))
  | inr (Some name) =>
      match fopen_write name h with
      | Some h =>
          let! '(packet, result) := sendAck 0 packet in
          if 0 <? result then serve_data name packet h
          else go (RetF (inr (server_end result h)))
      | None =>
          let! _ := sendError 2 (text "Unable to create file!") packet in
          go (RetF (inr (server_end result h)))
      end
  end.

(** [TrivialFileTransferServer::run]; the result is the state of the host, or
    the fault that ends the process. *)
Definition run (h : Host) : itree socketE (Fault + Host) :=
  let! '(result, bytes) := receive sizeof_TFTPPacket in
  let packet := write_packet bytes garbage in
  if 3 <=? result then
    if Type_ packet =? TFTP_RRQ then serve_read packet result h
    else if Type_ packet =? TFTP_WRQ then serve_write packet result h
    else let! _ := sendError 0 (text "Bad request!") packet in go (RetF (inr (server_end result h)))
  else go (RetF (inr (server_end result h))).
End Programs.
