(* ===== verification/TftpRuns.v ===== *)
(** * File transfers: every run of client and server *)

From stdpp Require Import gmap.
From ITree Require Import ITree.
From S2P Require Import Prelude Memory Notification SocketMaster Network Tftp.
Local Open Scope Z_scope.

(** ** Packets as lists *)

Lemma Type_cons a c d : Type_ (a :: c :: d) = a.
Proof. change (Type_ (a :: c :: d)) with (a + 256 * 0). lia. Qed.
Lemma Code_cons a c d : Code (a :: c :: d) = c.
Proof. change (Code (a :: c :: d)) with (c + 256 * le_combine (take 0 d)). rewrite take_0. cbn [le_combine]. lia. Qed.
Lemma set_Type_cons v a c d : set_Type v (a :: c :: d) = v mod 256 :: c :: d.
Proof. reflexivity. Qed.
Lemma set_Code_cons v a c d : set_Code v (a :: c :: d) = a :: v mod 256 :: d.
Proof. reflexivity. Qed.
Lemma write_Data_cons b a c d : write_Data b (a :: c :: d) = a :: c :: b ++ drop (length b) d.
Proof. reflexivity. Qed.
Lemma write_packet_eq m p : write_packet m p = m ++ drop (length m) p.
Proof. reflexivity. Qed.
Lemma take_packet (a c : Z) b d : take (2 + length b) (a :: c :: b ++ d) = a :: c :: b.
Proof. cbn. by rewrite take_app_length. Qed.
Lemma print_Data_cons t a c d :
  (length t < sizeof_Data)%nat ->
  exists d', print_Data t (a :: c :: d) = a :: c :: t ++ d'.
Proof.
  intros H. unfold print_Data. rewrite take_ge, write_Data_cons by (unfold sizeof_Data in *; lia).
  rewrite <- (assoc_L (++)). by eexists.
Qed.
(** What a program that prints a text into its packet sends. *)
Lemma print_message t a c d :
  (length t < sizeof_Data)%nat ->
  take (2 + length t) (print_Data t (a :: c :: d)) = a :: c :: t.
Proof. intros H. destruct (print_Data_cons t a c d H) as [d' ->]. by rewrite take_packet. Qed.

(** A received packet: type, code, data and what was there before. *)
Lemma received_cons a c b p : exists d, write_packet (a :: c :: b) p = a :: c :: b ++ d.
Proof. rewrite write_packet_eq. by eexists. Qed.

(** ** Blocks of a file *)

(** The data of the packets: full blocks and a last one that is not full,
    maybe empty. *)
Inductive blocks : list Z -> list (list Z) -> Prop :=
| last_block b : (length b < sizeof_Data)%nat -> blocks b [b]
| full_block b f bs : length b = sizeof_Data -> blocks f bs -> blocks (b ++ f) (b :: bs).

Lemma blocks_exist f : exists bs, blocks f bs.
Proof.
  induction f as [f IH] using (induction_ltof1 _ (@length Z)). unfold ltof in IH.
  destruct (decide (length f < sizeof_Data)%nat) as [H|H]; [by exists [f]; apply last_block|].
  unfold sizeof_Data in H.
  destruct (IH (drop sizeof_Data f)) as [bs Hb]; [rewrite length_drop; unfold sizeof_Data; lia|].
  exists (take sizeof_Data f :: bs). rewrite <- (take_drop sizeof_Data f) at 1.
  apply full_block; [rewrite length_take; unfold sizeof_Data; lia|done].
Qed.

(** The packets of a file from a code on. *)
Fixpoint packets (code : Z) (bs : list (list Z)) : list message :=
  match bs with
  | [] => []
  | b :: bs => (TFTP_DAT :: code :: b) :: packets ((code + 1) mod 256) bs
  end.

Lemma message_length a c (b : list Z) : Z.of_nat (length (a :: c :: b)) = Z.of_nat (length b) + 2.
Proof. cbn. lia. Qed.

Section Loops.
Variable disk : list Z -> list Z -> nat.
(** There is space on the disk. *)
Hypothesis disk_space : forall c b, (length b <= disk c b)%nat.

Lemma fwrite_all name b c h :
  files h !! name = Some c ->
  fwrite disk name b h = (bool_decide (b <> []), set_file name (c ++ b) h).
Proof using disk_space.
  intros H. unfold fwrite. rewrite H. cbn. rewrite Nat.min_r, take_ge by done.
  by rewrite (bool_decide_true (length b = length b)), andb_true_r.
Qed.

(** One block. *)
Lemma send_block f c d r q :
  exists d', goes (send_body ({| rest := f; feof := false |}, TFTP_DAT :: c :: d, r)) q
    (go (RetF (inl ({| rest := drop sizeof_Data f; feof := bool_decide (length f < sizeof_Data)%nat |},
       TFTP_DAT :: (c + 1) mod 256 :: d', Z.of_nat (length (take sizeof_Data f)) + 2))))
    q [TFTP_DAT :: c :: take sizeof_Data f].
Proof using Type.
  exists (take sizeof_Data f ++ drop (length (take sizeof_Data f)) d).
  unfold send_body. cbn [feof fread rest].
  rewrite write_Data_cons, take_packet.
  eapply goes_send. rewrite message_length.
  rewrite (proj2 (Z.ltb_ge _ _)) by lia. rewrite Code_cons, set_Code_cons. by apply goes_here.
Qed.

(** The loop over the file sends its packets. *)
Lemma send_loop f bs : blocks f bs -> forall c d r q,
  exists c' d' r', goes (ITree.iter send_body ({| rest := f; feof := false |}, TFTP_DAT :: c :: d, r)) q
    (go (RetF (TFTP_DAT :: c' :: d', r'))) q (packets c bs) /\ 0 <= r'.
Proof using Type.
  induction 1 as [b Hb|b f bs Hb _ IH]; intros c d r q; cbn [packets].
  - destruct (send_block b c d r q) as [d' H].
    rewrite take_ge, drop_ge, bool_decide_true in H by lia.
    exists ((c + 1) mod 256), d', (Z.of_nat (length b) + 2). split; [|lia].
    change [TFTP_DAT :: c :: b] with ([TFTP_DAT :: c :: b] ++ []).
    eapply goes_again; [exact H|]. apply goes_leave. unfold send_body. cbn [feof]. by apply goes_here.
  - destruct (send_block (b ++ f) c d r q) as [d' H].
    rewrite take_app_length', drop_app_length' in H by done.
    rewrite bool_decide_false in H by (rewrite length_app; lia).
    destruct (IH ((c + 1) mod 256) d' (Z.of_nat (length b) + 2) q) as (c2 & d2 & r2 & H2 & Hr).
    exists c2, d2, r2. split; [|done].
    change ((TFTP_DAT :: c :: b) :: packets ((c + 1) mod 256) bs)
      with ([TFTP_DAT :: c :: b] ++ packets ((c + 1) mod 256) bs).
    eapply goes_again; [exact H|exact H2].
Qed.

(** Does a transfer end with a packet without data? *)
Definition ends_empty (bs : list (list Z)) : bool :=
  match last bs with Some [] => true | _ => false end.

Lemma blocks_head f bs : blocks f bs -> exists b bs', bs = b :: bs' /\ (length b <= sizeof_Data)%nat.
Proof using Type. intros [b Hb|b f' bs' Hb _]; eexists _, _; (split; [done|lia]). Qed.
Lemma set_file_same name c h : files h !! name = Some c -> set_file name c h = h.
Proof using Type. intros H. unfold set_file. rewrite insert_id by done. by destruct h. Qed.
Lemma set_file_twice name c c' h : set_file name c (set_file name c' h) = set_file name c h.
Proof using Type. unfold set_file. cbn. by rewrite insert_insert_eq. Qed.
Lemma data_of_packet a c b d :
  take (Z.to_nat (Z.of_nat (length b) + 2 - 2)) (Data (a :: c :: b ++ d)) = b.
Proof using Type.
  replace (Z.to_nat _) with (length b) by lia. change (Data (a :: c :: b ++ d)) with (b ++ d).
  apply take_app_length.
Qed.

(** The client writes a packet to the file. *)
Lemma get_block name b c0 c d h :
  files h !! name = Some c0 ->
  get_body disk name (TFTP_DAT :: c :: b ++ d, Z.of_nat (length b) + 2, h)
  = if bool_decide (b = []) then go (RetF (inr (2, h)))
    else
      let h := set_file name (c0 ++ b) h in
      if Z.of_nat (length b) + 2 <? sizeof_TFTPPacket
      then go (RetF (inr (Z.of_nat (length b) + 2, say TransferOK h)))
      else
        let! '(result, bytes) := receive sizeof_TFTPPacket in
        go (RetF (inl (write_packet bytes (TFTP_DAT :: c :: b ++ d), result, h))).
Proof using disk_space.
  intros Hf. unfold get_body. rewrite Type_cons, data_of_packet, (fwrite_all name b c0) by done.
  destruct b as [|x b]; [done|].
  assert ((2 <? Z.of_nat (length (x :: b)) + 2) = true) as -> by (apply Z.ltb_lt; cbn; lia).
  by rewrite (bool_decide_true (x :: b <> [])), (bool_decide_false (x :: b = [])) by done.
Qed.

(** The loop over the packets; [m] is the packet received last. *)
Lemma get_loop name f bs : blocks f bs -> forall c0 c p h q m ms,
  files h !! name = Some c0 -> packets c bs = m :: ms ->
  exists r, goes (ITree.iter (get_body disk name) (write_packet m p, Z.of_nat (length m), h)) (ms ++ q)
    (go (RetF (r, (if ends_empty bs then id else say TransferOK) (set_file name (c0 ++ f) h)))) q []
    /\ 0 <= r.
Proof using disk_space.
  induction 1 as [b Hb|b f bs Hb Hbs IH]; intros c0 c p h q m ms Hf [= <- Hms];
    rewrite message_length; destruct (received_cons TFTP_DAT c b p) as [d ->].
  - subst ms. unfold ends_empty. cbn [last].
    destruct (decide (b = [])) as [->|Hne].
    + exists 2. split; [|done]. rewrite (app_nil_r c0), (set_file_same name c0) by done.
      apply goes_leave. rewrite (get_block _ _ c0) by done. by apply goes_here.
    + exists (Z.of_nat (length b) + 2). split; [|lia]. destruct b as [|x b]; [done|].
      apply goes_leave. rewrite (get_block _ _ c0), bool_decide_false by done. cbv zeta.
      unfold sizeof_Data, sizeof_TFTPPacket in *. rewrite (proj2 (Z.ltb_lt _ _)) by lia.
      by apply goes_here.
  - destruct (blocks_head f bs Hbs) as (b2 & bs' & -> & Hb2). cbn [packets] in Hms.
    destruct ms as [|m2 ms2]; [done|]. injection Hms as <- Hms.
    destruct (IH (c0 ++ b) ((c + 1) mod 256) (TFTP_DAT :: c :: b ++ d) (set_file name (c0 ++ b) h) q
      (TFTP_DAT :: (c + 1) mod 256 :: b2) ms2) as (r & Hr & H0).
    { cbn. apply lookup_insert_eq. } { cbn [packets]. by rewrite Hms. }
    exists r. split; [|done]. change (@nil message) with (@nil message ++ @nil message).
    eapply goes_again.
    + rewrite (get_block _ _ c0), bool_decide_false by (done || (intros ->; done)). cbv zeta.
      unfold sizeof_Data, sizeof_TFTPPacket in *. rewrite (proj2 (Z.ltb_ge _ _)) by lia.
      cbn [app]. eapply goes_receive; [rewrite message_length; lia|]. by apply goes_here.
    + rewrite set_file_twice, <- (assoc_L (++)) in Hr. exact Hr.
Qed.

(** Answers of the server. *)
Lemma goes_sendError code t a c d q :
  (length t < sizeof_Data)%nat -> 0 <= code < 256 ->
  exists p r, goes (sendError code t (a :: c :: d)) q (go (RetF (p, r))) q [TFTP_ERR :: code :: t].
Proof using Type.
  intros Ht Hc. unfold sendError. cbv zeta. rewrite set_Type_cons, set_Code_cons, (Z.mod_small code) by done.
  rewrite print_message by done. eexists _, _. eapply goes_send. by apply goes_here.
Qed.
Lemma goes_sendAck code a c d q :
  0 <= code < 256 ->
  exists d', goes (sendAck code (a :: c :: d)) q (go (RetF (TFTP_ACK :: code :: d', 2))) q [[TFTP_ACK; code]].
Proof using Type.
  intros Hc. exists d. unfold sendAck. cbv zeta. rewrite set_Type_cons, set_Code_cons, (Z.mod_small code) by done.
  change (take 2 (TFTP_ACK mod 256 :: code :: d)) with (TFTP_ACK :: code :: take 0 d). rewrite take_0.
  eapply goes_send. by apply goes_here.
Qed.

Definition upload_answer (empty : bool) (code : Z) : message :=
  if empty then TFTP_ERR :: 4 :: text "Write error!" else [TFTP_ACK; code].

(** The server writes a packet to the file. *)
Lemma write_block name b c0 c d h :
  files h !! name = Some c0 ->
  write_body disk name (TFTP_DAT :: c :: b ++ d, Z.of_nat (length b) + 2, h)
  = (let h := set_file name (c0 ++ b) h in
     if bool_decide (b = []) then
       let! _ := sendError 4 (text "Write error!") (TFTP_DAT :: c :: b ++ d) in go (RetF (inr (2, h)))
     else if Z.of_nat (length b) <? Z.of_nat sizeof_Data then
       let! _ := sendAck c (TFTP_DAT :: c :: b ++ d) in
       go (RetF (inr (Z.of_nat (length b) + 2, h)))
     else
       let! '(result, bytes) := receive sizeof_TFTPPacket in
       go (RetF (inl (write_packet bytes (TFTP_DAT :: c :: b ++ d), result, h)))).
Proof using disk_space.
  intros Hf. unfold write_body. rewrite Type_cons, Code_cons, data_of_packet, (fwrite_all name b c0) by done.
  rewrite (proj2 (Z.leb_le 2 _)) by lia. replace (Z.of_nat (length b) + 2 - 2) with (Z.of_nat (length b)) by lia.
  cbv zeta. change (negb (TFTP_DAT =? TFTP_DAT)) with false. cbn iota.
  destruct b as [|x b]; [done|].
  by rewrite (bool_decide_true (x :: b <> [])), (bool_decide_false (x :: b = [])) by done.
Qed.

Lemma write_loop name f bs : blocks f bs -> forall c0 c p h q m ms,
  0 <= c < 256 -> files h !! name = Some c0 -> packets c bs = m :: ms ->
  exists r code, goes (ITree.iter (write_body disk name) (write_packet m p, Z.of_nat (length m), h)) (ms ++ q)
    (go (RetF (r, set_file name (c0 ++ f) h))) q [upload_answer (ends_empty bs) code] /\ 0 <= r.
Proof using disk_space.
  induction 1 as [b Hb|b f bs Hb Hbs IH]; intros c0 c p h q m ms Hc Hf [= <- Hms];
    rewrite message_length; destruct (received_cons TFTP_DAT c b p) as [d ->].
  - subst ms. unfold ends_empty. cbn [last]. destruct b as [|x b].
    + destruct (goes_sendError 4 (text "Write error!") TFTP_DAT c d q) as (p' & r & H);
        [unfold sizeof_Data; cbn; lia|done|].
      exists 2, 0. split; [|done]. apply goes_leave. rewrite (write_block _ _ c0) by done.
      cbv zeta. cbn [bool_decide]. rewrite bool_decide_true by done.
      rewrite <- (app_nil_r [upload_answer _ _]). eapply goes_part; [exact H|]. by apply goes_here.
    + destruct (goes_sendAck c TFTP_DAT c ((x :: b) ++ d) q Hc) as (d' & H).
      exists (Z.of_nat (length (x :: b)) + 2), c. split; [|lia].
      apply goes_leave. rewrite (write_block _ _ c0), bool_decide_false by done. cbv zeta.
      rewrite (proj2 (Z.ltb_lt _ _)) by lia.
      rewrite <- (app_nil_r [upload_answer _ _]). eapply goes_part; [exact H|]. by apply goes_here.
  - destruct (blocks_head f bs Hbs) as (b2 & bs' & -> & Hb2). cbn [packets] in Hms.
    destruct ms as [|m2 ms2]; [done|]. injection Hms as <- Hms.
    destruct (IH (c0 ++ b) ((c + 1) mod 256) (TFTP_DAT :: c :: b ++ d) (set_file name (c0 ++ b) h) q
      (TFTP_DAT :: (c + 1) mod 256 :: b2) ms2) as (r & code & Hr & H0).
    { by apply Z.mod_pos_bound. } { cbn. apply lookup_insert_eq. } { cbn [packets]. by rewrite Hms. }
    exists r, code. split; [|done].
    change (ends_empty (b :: b2 :: bs')) with (ends_empty (b2 :: bs')).
    rewrite <- (app_nil_l [upload_answer _ _]).
    eapply goes_again.
    + rewrite (write_block _ _ c0), bool_decide_false by (done || (intros ->; done)). cbv zeta.
      rewrite (proj2 (Z.ltb_ge _ _)) by lia.
      cbn [app]. eapply goes_receive; [rewrite message_length; unfold sizeof_Data, sizeof_TFTPPacket in *; lia|].
      by apply goes_here.
    + rewrite set_file_twice, <- (assoc_L (++)) in Hr. exact Hr.
Qed.
End Loops.

(** ** Names *)

(** What the server takes for a name. *)
Definition transferable (name : list Z) : Prop :=
  name <> [] /\ (length name < sizeof_FileName)%nat /\ Forall (fun c => name_char c = true) name.

Lemma copy_name_ok name : forall i,
  (i + length name < sizeof_FileName)%nat -> Forall (fun c => name_char c = true) name ->
  copy_name i name = inr (Some name).
Proof.
  induction name as [|c name IH]; intros i Hi Hn; cbn [copy_name]; cbn [length] in Hi;
    rewrite bool_decide_false by lia; [done|].
  inversion Hn as [|? ? Hc Hn']; subst. rewrite Hc, IH by (done || lia). done.
Qed.
Lemma getName_ok name a c d :
  transferable name ->
  getName (Z.of_nat (length name) + 2) (a :: c :: name ++ d) = inr (Some name).
Proof.
  intros (Hne & Hl & Hc). unfold getName. rewrite data_of_packet.
  assert (length name <> 0%nat) by (by destruct name).
  rewrite (proj2 (Z.leb_le 3 _)) by lia. by apply copy_name_ok.
Qed.

(** A host with what a program adds. *)
Definition with_file (name f : list Z) (rs : list Report) (h : Host) : Host :=
  {| files := <[name := f]> (files h); reports := reports h ++ rs |}.

Definition full_blocks (f : list Z) : bool := bool_decide (length f mod sizeof_Data = 0)%nat.
Lemma ends_empty_spec f bs : blocks f bs -> ends_empty bs = full_blocks f.
Proof.
  unfold full_blocks. induction 1 as [b Hb|b f bs Hb Hbs IH].
  - unfold ends_empty. cbn [last]. rewrite Nat.mod_small by done. by destruct b.
  - destruct (blocks_head f bs Hbs) as (b2 & bs' & -> & _).
    change (ends_empty (b :: b2 :: bs')) with (ends_empty (b2 :: bs')). rewrite IH.
    apply bool_decide_ext. rewrite length_app, Hb, Nat.add_comm.
    by rewrite <- (Nat.mul_1_l sizeof_Data) at 2; rewrite Nat.Div0.mod_add.
Qed.

Section Transfers.
(** The rights and disks of the two hosts; what their packets held before. *)
Variables (read_c create_c read_s create_s : list Z -> bool) (disk_c disk_s : list Z -> list Z -> nat).
Variables (garbage_c garbage_s : list Z).

Lemma request_cons v base :
  length garbage_c = 2048%nat -> 0 <= v < 256 -> (length base < sizeof_FileName)%nat ->
  exists d, print_Data base (set_Code 0 (set_Type v garbage_c)) = v :: 0 :: base ++ d.
Proof.
  intros Hg Hv Hb. destruct garbage_c as [|a [|c g]]; [done..|].
  rewrite set_Type_cons, set_Code_cons, (Z.mod_small v), (Z.mod_small 0) by done.
  apply print_Data_cons. unfold sizeof_FileName, sizeof_Data in *. lia.
Qed.

(** The server gets a request. *)
Lemma server_request v name h q :
  transferable name -> v = TFTP_RRQ \/ v = TFTP_WRQ ->
  exists d, goes (run read_s create_s disk_s garbage_s h) ((v :: 0 :: name) :: q)
    (if v =? TFTP_RRQ then serve_read read_s (v :: 0 :: name ++ d) (Z.of_nat (length name) + 2) h
     else serve_write create_s disk_s (v :: 0 :: name ++ d) (Z.of_nat (length name) + 2) h) q [].
Proof.
  intros (Hne & Hl & _) Hv. destruct (received_cons v 0 name garbage_s) as [d Hd]. exists d.
  unfold run. cbv zeta. apply goes_receive.
  { rewrite message_length. unfold sizeof_FileName, sizeof_TFTPPacket in *. lia. }
  rewrite message_length, Hd, Type_cons.
  assert (length name <> 0%nat) by (by destruct name).
  rewrite (proj2 (Z.leb_le 3 _)) by lia. destruct Hv as [-> | ->]; by apply goes_here.
Qed.

Lemma serve_read_goes name f bs h q d r :
  transferable name -> blocks f bs -> files h !! name = Some f -> read_s name = true ->
  r = Z.of_nat (length name) + 2 ->
  goes (serve_read read_s (TFTP_RRQ :: 0 :: name ++ d) r h) q
    (go (RetF (inr (say ThreadShutdown h)))) q (packets 0 bs).
Proof.
  intros Hn Hb Hf Hr ->. unfold serve_read. rewrite getName_ok by done. unfold fopen_read.
  rewrite Hr, Hf. cbv zeta. rewrite set_Type_cons, set_Code_cons.
  destruct (send_loop f bs Hb 0 (name ++ d) (Z.of_nat (length name) + 2) q) as (c' & d' & r' & H & H0).
  rewrite <- (app_nil_r (packets 0 bs)). eapply goes_part; [exact H|].
  unfold server_end. rewrite (proj2 (Z.ltb_ge r' 0)) by done. by apply goes_here.
Qed.

(** The client asks for a file, and gets its packets. *)
Lemma get_request name h q :
  length garbage_c = 2048%nat -> (length name < sizeof_FileName)%nat ->
  exists d, goes (tftpGet create_c disk_c garbage_c name h) q
    (get_answer create_c disk_c name (TFTP_RRQ :: 0 :: name ++ d) h) q [TFTP_RRQ :: 0 :: name].
Proof.
  intros Hg Hn. destruct (request_cons TFTP_RRQ name Hg) as [d Hd]; [done|done|]. exists d.
  unfold tftpGet. cbv zeta. rewrite Hd, take_packet. apply goes_send.
  rewrite message_length, (proj2 (Z.leb_le 0 _)) by lia. by apply goes_here.
Qed.
Lemma get_packets name f bs packet h :
  blocks f bs -> create_c name = true -> (forall c b, (length b <= disk_c c b)%nat) ->
  goes (get_answer create_c disk_c name packet h) (packets 0 bs)
    (go (RetF (with_file name f (if ends_empty bs then [] else [TransferOK]) h))) [] [].
Proof.
  intros Hb Hw Hdisk. destruct (blocks_head f bs Hb) as (b & bs' & -> & Hlb).
  cbn [packets]. unfold get_answer. apply goes_receive.
  { rewrite message_length. unfold sizeof_Data, sizeof_TFTPPacket in *. lia. }
  set (m := TFTP_DAT :: 0 :: b). set (ms := packets ((0 + 1) mod 256) bs').
  destruct (get_loop disk_c Hdisk name f (b :: bs') Hb [] 0 packet (set_file name [] h) [] m ms)
    as (r & H & H0); [apply lookup_insert_eq|done|].
  subst m. destruct (received_cons TFTP_DAT 0 b packet) as [d Hd].
  rewrite message_length, Hd in *. rewrite Type_cons, (proj2 (Z.ltb_lt 0 _)) by lia.
  unfold fopen_write. rewrite Hw. change (TFTP_DAT =? TFTP_ERR) with false. cbn iota.
  rewrite (app_nil_r ms) in H. change (@nil message) with (@nil message ++ @nil message) at 2.
  eapply goes_part; [exact H|]. unfold finish. rewrite (proj2 (Z.ltb_ge r 0)) by done.
  apply goes_here. f_equal. f_equal. rewrite set_file_twice. unfold with_file.
  destruct (ends_empty (b :: bs')); [|done]. cbn. by rewrite app_nil_r.
Qed.

(** The client announces a file. *)
Lemma put_request name f h q :
  length garbage_c = 2048%nat -> files h !! name = Some f -> read_c name = true ->
  (length (default name (after_slash name)) < sizeof_FileName)%nat ->
  exists d, goes (tftpPut read_c garbage_c name h) q
    (put_data {| rest := f; feof := false |} (TFTP_WRQ :: 0 :: default name (after_slash name) ++ d) h)
    q [TFTP_WRQ :: 0 :: default name (after_slash name)].
Proof.
  intros Hg Hf Hr Hn. destruct (request_cons TFTP_WRQ (default name (after_slash name)) Hg) as [d Hd]; [done|done|].
  exists d. unfold tftpPut, fopen_read. rewrite Hr, Hf. cbv zeta. rewrite Hd, take_packet.
  apply goes_send. rewrite message_length, (proj2 (Z.leb_le 0 _)) by lia. by apply goes_here.
Qed.
(** The server accepts it. *)
Lemma serve_write_goes name h q d r :
  transferable name -> create_s name = true -> r = Z.of_nat (length name) + 2 ->
  exists p, goes (serve_write create_s disk_s (TFTP_WRQ :: 0 :: name ++ d) r h) q
    (serve_data disk_s name p (set_file name [] h)) q [[TFTP_ACK; 0]].
Proof.
  intros Hn Hw ->. unfold serve_write. rewrite getName_ok by done. unfold fopen_write. rewrite Hw.
  destruct (goes_sendAck 0 TFTP_WRQ 0 (name ++ d) q) as [d' H]; [done|].
  exists (TFTP_ACK :: 0 :: d'). rewrite <- (app_nil_r [[TFTP_ACK; 0]]).
  eapply goes_part; [exact H|]. by apply goes_here.
Qed.
(** The client sends the data. *)
Lemma put_packets f bs packet h :
  blocks f bs ->
  exists p, goes (put_data {| rest := f; feof := false |} packet h) [[TFTP_ACK; 0]]
    (put_answer p h) [] (packets 0 bs).
Proof.
  intros Hb. destruct (received_cons TFTP_ACK 0 [] packet) as [d Hd].
  destruct (send_loop f bs Hb 0 d 2 []) as (c' & d' & r' & H & H0).
  exists (TFTP_DAT :: c' :: d'). unfold put_data. apply goes_receive; [done|].
  rewrite Hd, Type_cons. change (0 <? Z.of_nat (length [TFTP_ACK; 0])) with true.
  change (TFTP_ACK =? TFTP_ERR) with false. change (TFTP_ACK =? TFTP_ACK) with true. cbn iota.
  rewrite set_Type_cons, set_Code_cons. rewrite <- (app_nil_r (packets 0 bs)).
  eapply goes_part; [exact H|]. by apply goes_here.
Qed.
(** The server stores it and answers. *)
Lemma serve_data_goes name f bs p h :
  blocks f bs -> (forall c b, (length b <= disk_s c b)%nat) ->
  exists code, goes (serve_data disk_s name p (set_file name [] h)) (packets 0 bs)
    (go (RetF (inr (with_file name f [ThreadShutdown] h)))) [] [upload_answer (ends_empty bs) code].
Proof.
  intros Hb Hdisk. destruct (blocks_head f bs Hb) as (b & bs' & -> & Hlb).
  set (m := TFTP_DAT :: 0 :: b). set (ms := packets ((0 + 1) mod 256) bs').
  destruct (write_loop disk_s Hdisk name f (b :: bs') Hb [] 0 p (set_file name [] h) [] m ms)
    as (r & code & H & H0); [done|apply lookup_insert_eq|done|].
  exists code. cbn [packets]. unfold serve_data. apply goes_receive.
  { rewrite message_length. unfold sizeof_Data, sizeof_TFTPPacket in *. lia. }
  rewrite (app_nil_r ms) in H. rewrite <- (app_nil_r [upload_answer _ _]).
  eapply goes_part; [exact H|]. unfold server_end. rewrite (proj2 (Z.ltb_ge r 0)) by done.
  apply goes_here. do 3 f_equal. by rewrite set_file_twice.
Qed.
Lemma put_end empty code p h :
  goes (put_answer p h) [upload_answer empty code]
    (go (RetF (say (if empty then TFTPError 4 (text "Write error!") else TransferOK) h))) [] [].
Proof.
  unfold put_answer. apply goes_receive; [by destruct empty|].
  destruct empty; cbn [upload_answer].
  - destruct (received_cons TFTP_ERR 4 (text "Write error!") p) as [d ->]. rewrite Type_cons.
    unfold printError. rewrite Code_cons, message_length, data_of_packet. by apply goes_here.
  - destruct (received_cons TFTP_ACK code [] p) as [d ->]. rewrite Type_cons. by apply goes_here.
Qed.

(** C30. A download.  The server has the file, the client may create it
    and its disk has space.  Then every run of the two programs, however their
    steps interleave, ends, and ends with the file at the client as it is at
    the server, whatever its length; there is no packet left, and neither
    program reports an error. *)
Theorem download (name f : list Z) (hc hs : Host)
    (Hg : length garbage_c = 2048%nat) (Hn : transferable name) (Hf : files hs !! name = Some f)
    (Hr : read_s name = true) (Hw : create_c name = true)
    (Hdisk : forall c b, (length b <= disk_c c b)%nat) :
  surely_ends
    {| client := tftpGet create_c disk_c garbage_c name hc;
       server := run read_s create_s disk_s garbage_s hs; to_server := []; to_client := [] |}
    (with_file name f (if full_blocks f then [] else [TransferOK]) hc)
    (inr (say ThreadShutdown hs)).
Proof.
  destruct (blocks_exist f) as [bs Hb]. rewrite <- (ends_empty_spec f bs Hb).
  destruct (get_request name hc [] Hg) as [d H1]; [apply Hn|].
  eapply reaches_returns.
  eapply reaches_trans; [apply client_goes, H1|]. cbn [app].
  eapply reaches_trans.
  - destruct (server_request TFTP_RRQ name hs []) as [d' H2]; [done|by left|].
    apply server_goes. eapply goes_trans; [exact H2|]. by apply (serve_read_goes name f bs).
  - apply client_goes. by apply (get_packets name f bs).
Qed.

(** C31. An upload.  Every run of the two programs ends with the file at the
    server under the last part of its name.  The server stores a block with a
    call that fails for an empty one, so that it answers with an error, and
    the client reports it, exactly if the length of the file is a multiple of
    the size of a block; otherwise the client reports success. *)
Theorem upload (name f : list Z) (hc hs : Host)
    (Hg : length garbage_c = 2048%nat) (Hn : transferable (default name (after_slash name)))
    (Hf : files hc !! name = Some f)
    (Hr : read_c name = true) (Hw : create_s (default name (after_slash name)) = true)
    (Hdisk : forall c b, (length b <= disk_s c b)%nat) :
  surely_ends
    {| client := tftpPut read_c garbage_c name hc;
       server := run read_s create_s disk_s garbage_s hs; to_server := []; to_client := [] |}
    (say (if full_blocks f then TFTPError 4 (text "Write error!") else TransferOK) hc)
    (inr (with_file (default name (after_slash name)) f [ThreadShutdown] hs)).
Proof.
  destruct (blocks_exist f) as [bs Hb]. rewrite <- (ends_empty_spec f bs Hb).
  set (base := default name (after_slash name)) in *.
  destruct (put_request name f hc [] Hg Hf Hr) as [d H1]; [apply Hn|].
  eapply reaches_returns.
  eapply reaches_trans; [apply client_goes, H1|]. cbn [app].
  destruct (server_request TFTP_WRQ base hs []) as [d' H2]; [done|by right|].
  destruct (serve_write_goes base hs [] d' _ Hn Hw eq_refl) as [p H3].
  eapply reaches_trans; [apply server_goes; eapply goes_trans; [exact H2|exact H3]|]. cbn [app].
  destruct (put_packets f bs (TFTP_WRQ :: 0 :: base ++ d) hc Hb) as [p' H4].
  eapply reaches_trans; [apply client_goes, H4|]. cbn [app].
  destruct (serve_data_goes base f bs p hs Hb Hdisk) as [code H5].
  eapply reaches_trans; [apply server_goes, H5|]. cbn [app]. apply client_goes, put_end.
Qed.
End Transfers.

(** A file of one full block, and one that is not. *)
Definition example_name : list Z := text "a.txt".
Definition example_files : Files :=
  {[example_name := replicate 2046 7; text "d/b.txt" := [1; 2; 3]]}.
Definition example_host : Host := {| files := example_files; reports := [] |}.
Definition room : list Z -> list Z -> nat := fun _ b => length b.
Definition anyone : list Z -> bool := fun _ => true.

Lemma download_witness :
  surely_ends
    {| client := tftpGet anyone room (replicate 2048 0) example_name {| files := ∅; reports := [] |};
       server := run anyone anyone room (replicate 2048 0) example_host;
       to_server := []; to_client := [] |}
    (with_file example_name (replicate 2046 7) [] {| files := ∅; reports := [] |})
    (inr (say ThreadShutdown example_host)).
Proof.
  refine (download _ _ _ _ _ _ _ example_name (replicate 2046 7) _ example_host _ _ _ _ _ _);
    try reflexivity.
  repeat split; [done|unfold sizeof_FileName; cbn; lia|repeat constructor].
Defined.
Lemma upload_witness :
  surely_ends
    {| client := tftpPut anyone (replicate 2048 0) (text "d/b.txt") example_host;
       server := run anyone anyone room (replicate 2048 0) {| files := ∅; reports := [] |};
       to_server := []; to_client := [] |}
    (say TransferOK example_host)
    (inr (with_file (text "b.txt") [1; 2; 3] [ThreadShutdown] {| files := ∅; reports := [] |})).
Proof.
  refine (upload _ _ _ _ _ _ (text "d/b.txt") [1; 2; 3] example_host _ _ _ _ _ _ _);
    try reflexivity.
  repeat split; [done|by apply Nat.ltb_lt|repeat constructor].
Defined.

(** ** A notification before the request *)

(** The bytes a receive call gets for the notification of a new association. *)
Definition comm_up (out in_ assocID : Z) (c : list Z) : message :=
  take (Z.to_nat sizeof_sctp_assoc_change) (assoc_change SCTP_COMM_UP out in_ assocID c).
Lemma comm_up_bytes out in_ assocID c :
  (20 <= length c)%nat ->
  exists d, comm_up out in_ assocID c = TFTP_RRQ :: 0 :: 0 :: d /\ length d = 17%nat.
Proof.
  intros H. do 20 (destruct c as [|? c]; [cbn in H; lia|]).
  eexists. split; reflexivity.
Qed.

Section Notified.
Variables (create_c read_s create_s : list Z -> bool) (disk_c disk_s : list Z -> list Z -> nat).
Variables (garbage_c garbage_s : list Z).

Lemma run_notified out in_ assocID c h q :
  (20 <= length c)%nat ->
  goes (run read_s create_s disk_s garbage_s h) (comm_up out in_ assocID c :: q)
    (go (RetF (inr (say ThreadShutdown h)))) q [TFTP_ERR :: 1 :: text "Bad file name!"].
Proof.
  intros Hc. destruct (comm_up_bytes out in_ assocID c Hc) as (d & -> & Hd).
  unfold run. cbv zeta. apply goes_receive; [rewrite message_length; cbn [length]; unfold sizeof_TFTPPacket; lia|].
  destruct (received_cons TFTP_RRQ 0 (0 :: d) garbage_s) as [d' Hp].
  rewrite message_length, Hp, Type_cons.
  rewrite (proj2 (Z.leb_le 3 _)) by (cbn [length]; lia). change (TFTP_RRQ =? TFTP_RRQ) with true.
  unfold serve_read, getName. cbn iota. rewrite data_of_packet.
  rewrite (proj2 (Z.leb_le 3 _)) by (cbn [length]; lia).
  destruct (goes_sendError 1 (text "Bad file name!") TFTP_RRQ 0 ((0 :: d) ++ d') q) as (p & r & H);
    [unfold sizeof_Data; cbn; lia|done|].
  change (copy_name 0 (0 :: d)) with (@inr Fault (option (list Z)) None). cbn iota.
  rewrite <- (app_nil_r [TFTP_ERR :: 1 :: text "Bad file name!"]).
  eapply goes_part; [exact H|]. unfold server_end.
  rewrite (proj2 (Z.ltb_ge _ 0)) by (cbn [length]; lia). by apply goes_here.
Qed.

Lemma get_refused name packet h q code t :
  (length t < sizeof_Data)%nat -> t <> [] ->
  goes (get_answer create_c disk_c name packet h) ((TFTP_ERR :: code :: t) :: q)
    (go (RetF (say (TFTPError code t) h))) q [].
Proof.
  intros Ht Hne. unfold get_answer. apply goes_receive.
  { rewrite message_length. unfold sizeof_Data, sizeof_TFTPPacket in *. lia. }
  destruct (received_cons TFTP_ERR code t packet) as [d Hd]. rewrite message_length, Hd, Type_cons.
  rewrite (proj2 (Z.ltb_lt 0 _)) by lia. change (TFTP_ERR =? TFTP_ERR) with true. cbn iota.
  unfold printError. rewrite Code_cons, data_of_packet.
  assert (length t <> 0%nat) by (by destruct t). rewrite (proj2 (Z.leb_le 3 _)) by lia.
  unfold finish. rewrite (proj2 (Z.ltb_ge _ 0)) by lia. by apply goes_here.
Qed.

(** A server that gets notifications.  [MultiServer] subscribes to all of them,
    so that the announcement of the new association is the first thing
    [TrivialFileTransferServer::run] receives.  Its first byte is that of a
    read request and the name that follows is a bad one: in every run the
    server refuses, the client reports the error, and the request stays
    unread. *)
Theorem notified_server_refuses (name : list Z) (out in_ assocID : Z) (c : list Z) (hc hs : Host)
    (Hg : length garbage_c = 2048%nat) (Hn : (length name < sizeof_FileName)%nat)
    (Hc : content_ok c) :
  surely_ends
    {| client := tftpGet create_c disk_c garbage_c name hc;
       server := run read_s create_s disk_s garbage_s hs;
       to_server := [comm_up out in_ assocID c]; to_client := [] |}
    (say (TFTPError 1 (text "Bad file name!")) hc) (inr (say ThreadShutdown hs)).
Proof.
  destruct (get_request create_c disk_c garbage_c name hc [] Hg Hn) as [d H1].
  assert (20 <= length c)%nat as Hl.
  { destruct Hc as [-> _]. unfold sizeof_sctp_notification. lia. }
  eapply reaches_returns. eapply reaches_trans; [apply client_goes, H1|]. cbn [app].
  eapply reaches_trans; [by apply server_goes, run_notified|]. cbn [app].
  apply client_goes, get_refused; [unfold sizeof_Data; cbn; lia|done].
Qed.
End Notified.

(** A name longer than [FileName] is written beyond its end. *)
Lemma copy_name_overflow name : forall i,
  (sizeof_FileName <= i + length name)%nat -> Forall (fun c => name_char c = true) name ->
  copy_name i name = inl OutOfBounds.
Proof.
  induction name as [|c name IH]; intros i Hi Hn; cbn [copy_name]; cbn [length] in Hi.
  - by rewrite bool_decide_true by lia.
  - case_bool_decide; [done|]. inversion Hn as [|? ? Hc Hn']; subst. by rewrite Hc, IH by (done || lia).
Qed.
Lemma long_name_overflows read_s create_s disk_s garbage_s name h q :
  (sizeof_FileName <= length name < sizeof_Data)%nat -> Forall (fun c => name_char c = true) name ->
  goes (run read_s create_s disk_s garbage_s h) ((TFTP_RRQ :: 0 :: name) :: q)
    (go (RetF (inl OutOfBounds))) q [].
Proof.
  intros Hl Hn. unfold run. cbv zeta. apply goes_receive.
  { rewrite message_length. unfold sizeof_Data, sizeof_FileName, sizeof_TFTPPacket in *. lia. }
  destruct (received_cons TFTP_RRQ 0 name garbage_s) as [d Hd].
  rewrite message_length, Hd, Type_cons. unfold sizeof_FileName in *.
  rewrite (proj2 (Z.leb_le 3 _)) by lia. change (TFTP_RRQ =? TFTP_RRQ) with true.
  unfold serve_read, getName. cbn iota. rewrite data_of_packet, (proj2 (Z.leb_le 3 _)) by lia.
  rewrite copy_name_overflow by (done || (unfold sizeof_FileName; lia)). by apply goes_here.
Qed.
