(* ===== verification/ServerSet.v ===== *)
(** * The threads of the multi-server: the class ServerSet of sctpmultiserver.cc

    Each association has a server object with a thread of its own.  The object
    enters [Servers] when it is constructed; its thread moves it to
    [DeletedServers] at the end ([killMe]); the main program deletes what is
    there, and at the end everything.  The sets are guarded by
    [ServersSynchronizable].  The model is a step relation: one step for each
    access to what the threads share, or for each section under the mutex that
    nobody can see the middle of. *)

From stdpp Require Import gmap.
From S2P Require Import Prelude.

(** Where the thread of a server is. *)
Inductive Position : Set :=
| NotCreated
| Constructed     (* in [Servers], [start] is not called yet *)
| Serving         (* [run] up to [killMe] *)
| Delay           (* [Thread::delay(250000)] *)
| Waiting         (* [ServersSynchronizable.synchronized()] *)
| Moving          (* holds the mutex *)
| Moved           (* has moved, still holds the mutex *)
| Ended.
#[export] Instance Position_eq_dec : EqDecision Position.
Proof. solve_decision. Defined.

(** The set a garbage collection works on. *)
Inductive Which : Set := GServers | GDeleted.

(** Where the main program is. *)
Inductive Main : Set :=
| Looping                              (* [while(!breakDetected())] *)
| Locking (w : Which) (last : bool)    (* at the mutex; [last]: nothing follows *)
| Collecting (w : Which) (last : bool) (* at the loop over the set *)
| Joining (w : Which) (last : bool) (i : nat)   (* [stop]: waits for the thread *)
| Deleting (w : Which) (last : bool) (i : nat)  (* the thread has ended *)
| Done.

Inductive Holder : Set := ByMain | ByThread (i : nat).

Record Servers : Type := {
  lock : option Holder;                (* [ServersSynchronizable] *)
  servers : gset nat;                  (* [Servers] *)
  deleted : gset nat;                  (* [DeletedServers] *)
  freed : gset nat;                    (* the objects that are no more *)
  thread : nat -> Position;
  cancelled : gset nat;                (* [pthread_cancel] *)
  main : Main;
  shutting_down : bool;                (* the main program is in [shutdown] *)
  fault : bool }.                      (* an object was used after its deletion *)

Definition initial : Servers :=
  {| lock := None; servers := ∅; deleted := ∅; freed := ∅; thread := fun _ => NotCreated;
     cancelled := ∅; main := Looping; shutting_down := false; fault := false |}.

Definition set_lock (l : option Holder) (s : Servers) : Servers :=
  {| lock := l; servers := servers s; deleted := deleted s; freed := freed s; thread := thread s;
     cancelled := cancelled s; main := main s; shutting_down := shutting_down s; fault := fault s |}.
Definition set_sets (a b : gset nat) (s : Servers) : Servers :=
  {| lock := lock s; servers := a; deleted := b; freed := freed s; thread := thread s;
     cancelled := cancelled s; main := main s; shutting_down := shutting_down s; fault := fault s |}.
Definition free (i : nat) (s : Servers) : Servers :=
  {| lock := lock s; servers := servers s; deleted := deleted s; freed := {[i]} ∪ freed s;
     thread := thread s; cancelled := cancelled s; main := main s;
     shutting_down := shutting_down s; fault := fault s |}.
Definition set_thread (i : nat) (p : Position) (s : Servers) : Servers :=
  {| lock := lock s; servers := servers s; deleted := deleted s; freed := freed s;
     thread := fun j => if bool_decide (j = i) then p else thread s j;
     cancelled := cancelled s; main := main s; shutting_down := shutting_down s; fault := fault s |}.
Definition cancel (i : nat) (s : Servers) : Servers :=
  {| lock := lock s; servers := servers s; deleted := deleted s; freed := freed s;
     thread := thread s; cancelled := {[i]} ∪ cancelled s; main := main s;
     shutting_down := shutting_down s; fault := fault s |}.
Definition set_main (m : Main) (s : Servers) : Servers :=
  {| lock := lock s; servers := servers s; deleted := deleted s; freed := freed s;
     thread := thread s; cancelled := cancelled s; main := m;
     shutting_down := shutting_down s; fault := fault s |}.
Definition set_shutting_down (s : Servers) : Servers :=
  {| lock := lock s; servers := servers s; deleted := deleted s; freed := freed s;
     thread := thread s; cancelled := cancelled s; main := main s;
     shutting_down := true; fault := fault s |}.
Definition use (i : nat) (s : Servers) : Servers :=
  {| lock := lock s; servers := servers s; deleted := deleted s; freed := freed s;
     thread := thread s; cancelled := cancelled s; main := main s;
     shutting_down := shutting_down s; fault := fault s || bool_decide (i ∈ freed s) |}.

(** The set of a garbage collection. *)
Definition gcSet (w : Which) (s : Servers) : gset nat :=
  match w with GServers => servers s | GDeleted => deleted s end.
Definition erase (w : Which) (i : nat) (s : Servers) : Servers :=
  match w with
  | GServers => set_sets (servers s ∖ {[i]}) (deleted s) s
  | GDeleted => set_sets (servers s) (deleted s ∖ {[i]}) s
  end.

(** What follows a garbage collection: the second one of [shutdown]. *)
Definition after_collection (last : bool) (s : Servers) : Servers :=
  set_lock None (set_main
    (if last then (if shutting_down s then Done else Looping) else Locking GServers true) s).

Inductive step (s : Servers) : Servers -> Prop :=
(* the constructor *)
| construct i : thread s i = NotCreated -> lock s = None ->
    step s (set_thread i Constructed (set_sets ({[i]} ∪ servers s) (deleted s) s))
(* [start], by the thread that called the constructor *)
| start i : thread s i = Constructed -> step s (set_thread i Serving (use i s))
(* the thread, up to [killMe] and in it *)
| serve i : thread s i = Serving -> step s (set_thread i Delay s)
| delayed i : thread s i = Delay -> step s (set_thread i Waiting s)
| synchronized i : thread s i = Waiting -> lock s = None ->
    step s (set_thread i Moving (set_lock (Some (ByThread i)) s))
| move i : thread s i = Moving ->
    step s (set_thread i Moved (set_sets (servers s ∖ {[i]}) ({[i]} ∪ deleted s) s))
| unsynchronized i : thread s i = Moved -> step s (set_thread i Ended (set_lock None s))
(* a cancelled thread ends where it waits or sleeps, but not at a mutex *)
| cancels i : thread s i = Serving \/ thread s i = Delay -> i ∈ cancelled s ->
    step s (set_thread i Ended s)
(* [ServerSet::garbageCollection()] and [ServerSet::shutdown()] *)
| collect : main s = Looping -> step s (set_main (Locking GDeleted true) s)
| shutdown : main s = Looping -> step s (set_main (Locking GDeleted false) (set_shutting_down s))
(* [garbageCollection(gcSet)] *)
| locks w last : main s = Locking w last -> lock s = None ->
    step s (set_main (Collecting w last) (set_lock (Some ByMain) s))
| collected w last : main s = Collecting w last -> gcSet w s = ∅ -> step s (after_collection last s)
| stops w last i : main s = Collecting w last -> i ∈ gcSet w s -> thread s i <> Constructed ->
    step s (set_main (Joining w last i) (cancel i s))
| stops_nothing w last i : main s = Collecting w last -> i ∈ gcSet w s -> thread s i = Constructed ->
    step s (set_main (Deleting w last i) s)
| joins w last i : main s = Joining w last i -> thread s i = Ended ->
    step s (set_main (Deleting w last i) s)
| deletes w last i : main s = Deleting w last i ->
    step s (set_main (Collecting w last) (erase w i (free i s))).

(** ** While the program runs *)

Definition position_ok (s : Servers) (i : nat) : Prop :=
  match thread s i with
  | NotCreated => (i ∉ servers s) /\ (i ∉ deleted s) /\ (i ∉ freed s)
  | Constructed | Serving | Delay | Waiting | Moving =>
      i ∈ servers s /\ (i ∉ deleted s) /\ (i ∉ freed s)
  | Moved => (i ∉ servers s) /\ i ∈ deleted s /\ (i ∉ freed s)
  | Ended => (i ∉ servers s) /\ (i ∈ deleted s /\ (i ∉ freed s) \/ (i ∉ deleted s) /\ i ∈ freed s)
  end.
Definition main_ok (s : Servers) : Prop :=
  match main s with
  | Looping => lock s <> Some ByMain
  | Locking w last => w = GDeleted /\ last = true /\ lock s <> Some ByMain
  | Collecting w last => w = GDeleted /\ last = true /\ lock s = Some ByMain
  | Joining w last i | Deleting w last i =>
      w = GDeleted /\ last = true /\ lock s = Some ByMain /\ i ∈ deleted s
  | Done => False
  end.
(** What holds until [shutdown] is called. *)
Record running_ok (s : Servers) : Prop := {
  r_running : shutting_down s = false;
  r_fault : fault s = false;
  r_position : forall i, position_ok s i;
  r_holder : forall i, lock s = Some (ByThread i) <-> thread s i = Moving \/ thread s i = Moved;
  r_cancelled : forall i, i ∈ cancelled s -> i ∈ deleted s \/ i ∈ freed s;
  r_main : main_ok s }.

Lemma initially_ok : running_ok initial.
Proof.
  split; try done; cbn. intros i. split; [done|by intros []].
Qed.

(** What is to be deleted has ended when the main program holds the mutex. *)
Lemma deleted_ended s i : running_ok s -> lock s = Some ByMain -> i ∈ deleted s -> thread s i = Ended.
Proof.
  intros [_ _ Hp Hh _ _] Hl Hi. specialize (Hp i). specialize (Hh i). unfold position_ok in Hp.
  destruct (thread s i) eqn:E; try tauto.
  assert (lock s = Some (ByThread i)) by tauto. congruence.
Qed.
(** Nobody cancels a thread at work. *)
Lemma working_not_cancelled s i :
  running_ok s -> thread s i = Serving \/ thread s i = Delay -> i ∈ cancelled s -> False.
Proof.
  intros [_ _ Hp _ Hc _] Ht Hi. specialize (Hp i). specialize (Hc i Hi). unfold position_ok in Hp.
  destruct Ht as [E|E]; rewrite E in Hp; tauto.
Qed.

Lemma step_position s s' j :
  running_ok s -> step s s' -> shutting_down s' = false -> position_ok s' j.
Proof.
  intros Hok H Hs'. pose proof (r_position s Hok j) as Hj. pose proof (r_main s Hok) as Hm.
  destruct H; cbn in Hs'; try congruence; unfold position_ok in *; cbn; try exact Hj;
    unfold main_ok in Hm.
  8: by destruct (working_not_cancelled s i Hok).
  8: { rewrite H in Hm. destruct Hm as (-> & -> & Hl & Hi). cbn.
       pose proof (deleted_ended s i Hok Hl Hi) as E.
       destruct (decide (j = i)) as [->|Hn]; [rewrite E in *; set_solver|].
       destruct (thread s j); set_solver. }
  all: case_bool_decide as Hji; [subst j; rewrite H in Hj|]; [set_solver|].
  all: destruct (thread s j); set_solver.
Qed.
Lemma step_holder s s' j :
  running_ok s -> step s s' -> shutting_down s' = false ->
  lock s' = Some (ByThread j) <-> thread s' j = Moving \/ thread s' j = Moved.
Proof.
  intros Hok H Hs'. pose proof (r_holder s Hok j) as Hj. pose proof (r_main s Hok) as Hm.
  destruct H; cbn in Hs'; try congruence; try (by destruct w); cbn; try exact Hj; unfold main_ok in Hm.
  all: try (pose proof (r_holder s Hok i) as Hi).
  all: try rewrite H in Hm.
  all: try (case_bool_decide as Hji; [subst j|]).
  all: intuition congruence.
Qed.
Lemma step_ok s s' : running_ok s -> step s s' -> shutting_down s' = false -> running_ok s'.
Proof.
  intros Hok H Hs'. split; [done| |by eauto using step_position|by eauto using step_holder| |];
    pose proof (r_position s Hok) as Hp; destruct Hok as [_ Hf _ Hh Hc Hm].
  - destruct H; cbn in *; try congruence; try (by destruct w).
    rewrite Hf, bool_decide_false; [done|]. specialize (Hp i). unfold position_ok in Hp.
    rewrite H in Hp. tauto.
  - intros j Hj. specialize (Hc j).
    destruct H; cbn in Hj, Hs' |- *; try congruence; try (by apply Hc).
    + rewrite elem_of_union. specialize (Hc Hj). tauto.
    + unfold main_ok in Hm. rewrite H in Hm. destruct Hm as (-> & _). cbn in H0.
      apply elem_of_union in Hj as [Hj|Hj]; [|by apply Hc]. apply elem_of_singleton in Hj as ->. by left.
    + clear - Hc Hj. destruct (decide (j = i)), w; cbn in *; set_solver.
  - unfold main_ok in *. destruct H; cbn in *; try congruence; try (by rewrite ?Hs').
    + destruct (main s); intuition congruence.
    + destruct (main s); set_solver.
    + assert (lock s = Some (ByThread i)) by (apply Hh; auto). destruct (main s); intuition congruence.
    + by rewrite H in Hm.
    + rewrite H in Hm. tauto.
    + rewrite H in Hm. destruct Hm as (-> & -> & _). by rewrite Hs'.
    + rewrite H in Hm. destruct Hm as (-> & -> & Hl). done.
    + rewrite H in Hm. destruct Hm as (-> & -> & Hl). done.
    + rewrite H in Hm. tauto.
    + rewrite H in Hm. destruct Hm as (-> & -> & Hl & _). done.
Qed.

(** What the program reaches before [shutdown]. *)
Lemma shutting_down_stays s s' : rtc step s s' -> shutting_down s' = false -> shutting_down s = false.
Proof.
  induction 1 as [s|s s1 s' H _ IH]; [done|]. intros Hs'. specialize (IH Hs').
  destruct H; cbn in *; try congruence. by destruct w.
Qed.
Lemma reachable_ok s : rtc step initial s -> shutting_down s = false -> running_ok s.
Proof.
  revert s. apply (rtc_ind_r (fun s => shutting_down s = false -> running_ok s));
    [intros _; apply initially_ok|].
  intros s1 s2 _ H IH Hs. eapply step_ok; [|exact H|done]. apply IH.
  by eapply shutting_down_stays; [apply rtc_once|].
Qed.

(** No object is used after its deletion, and every object is in one set or
    deleted, which only those whose thread has ended are. *)
Lemma objects_deleted_once s :
  rtc step initial s -> shutting_down s = false ->
  fault s = false
  /\ forall i,
       (i ∈ freed s -> thread s i = Ended)
       /\ (thread s i = Ended -> i ∈ deleted s ∪ freed s)
       /\ (thread s i <> NotCreated -> i ∈ servers s ∪ deleted s ∪ freed s)
       /\ servers s ## deleted s /\ servers s ## freed s /\ deleted s ## freed s.
Proof.
  intros Hr Hs. destruct (reachable_ok s Hr Hs) as [_ Hf Hp _ _ _]. split; [done|]. intros i.
  unfold position_ok in Hp. pose proof (Hp i) as Hi.
  repeat split; try (destruct (thread s i); set_solver).
  all: intros j H1 H2; specialize (Hp j); destruct (thread s j); tauto.
Qed.

Lemma size_positive (i : nat) (X : gset nat) : i ∈ X -> 0 < size X.
Proof. intros H. destruct (size X) eqn:E; [|lia]. apply size_empty_inv in E. set_solver. Qed.
Lemma size_erase (i : nat) (X : gset nat) : i ∈ X -> size (X ∖ {[i]}) = size X - 1.
Proof. intros H. rewrite size_difference, size_singleton by set_solver. done. Qed.

(** Steps that are left to the main program in a garbage collection. *)
Definition left (s : Servers) : nat :=
  match main s with
  | Collecting _ _ => 3 * size (deleted s) + 1
  | Joining _ _ _ => 3 * size (deleted s)
  | Deleting _ _ _ => 3 * size (deleted s) - 1
  | _ => 0
  end.

(** At each moment of a garbage collection the main program can go on, and
    whatever step is taken the number of its steps that are left decreases or,
    if the step is a thread's, stays the same. *)
Lemma collection_ends s :
  rtc step initial s -> shutting_down s = false -> lock s = Some ByMain ->
  (exists s', step s s' /\ left s' < left s)
  /\ forall s', step s s' -> left s' < left s \/ left s' = left s /\ main s' = main s.
Proof.
  intros Hr Hs Hl. pose proof (reachable_ok s Hr Hs) as Hok. pose proof (r_main s Hok) as Hm.
  unfold main_ok in Hm.
  assert (forall i, main s <> Looping /\ thread s i <> Moving /\ thread s i <> Moved) as Ht.
  { intros i. pose proof (r_holder s Hok i). destruct (main s); intuition congruence. }
  split.
  - destruct (main s) as [|w last|w last|w last i|w last i|] eqn:E; try tauto.
    + destruct Hm as (-> & -> & _). destruct (set_choose_or_empty (deleted s)) as [[i Hi]|He].
      * eexists. split; [eapply (stops s GDeleted true i); [done|done|]|].
        { by rewrite (deleted_ended s i Hok Hl Hi). }
        unfold left. rewrite E. cbn. lia.
      * eexists. split; [eapply (collected s GDeleted true); [done|set_solver]|].
        unfold left. rewrite E. cbn. rewrite Hs. lia.
    + destruct Hm as (-> & -> & _ & Hi). eexists. split; [eapply joins; [done|by apply deleted_ended]|].
      unfold left. rewrite E. cbn. pose proof (size_positive i (deleted s) Hi). lia.
    + destruct Hm as (-> & -> & _ & Hi). eexists. split; [by eapply deletes|].
      unfold left. rewrite E. cbn. rewrite size_erase by done. pose proof (size_positive i (deleted s) Hi). lia.
  - intros s' H. unfold left in *.
    destruct H; try (destruct (Ht i) as (? & ? & ?)); try congruence;
      try (by right); try (rewrite H in * ); cbn in *; try lia.
    + tauto.
    + tauto.
    + destruct Hm as (-> & -> & _). rewrite Hs. lia.
    + destruct Hm as (-> & -> & _ & Hi). pose proof (size_positive i (deleted s) Hi). lia.
    + destruct Hm as (-> & -> & _ & Hi). cbn. rewrite size_erase by done.
      pose proof (size_positive i (deleted s) Hi). lia.
Qed.

(** C32. Before [shutdown], however the threads interleave: no object is used after
    its deletion; every object is in [Servers], in [DeletedServers] or
    deleted, and in one of them only, and a deleted one's thread has ended.  A garbage
    collection never waits for a thread, and ends: at each moment the main
    program can go on, and every step leaves it fewer steps or, if it is a
    thread's, as many as before. *)
Theorem collection_safe s (Hr : rtc step initial s) (Hs : shutting_down s = false) :
  fault s = false
  /\ (forall i,
        (i ∈ freed s -> thread s i = Ended)
        /\ (thread s i = Ended -> i ∈ deleted s ∪ freed s)
        /\ (thread s i <> NotCreated -> i ∈ servers s ∪ deleted s ∪ freed s)
        /\ servers s ## deleted s /\ servers s ## freed s /\ deleted s ## freed s)
  /\ (lock s = Some ByMain ->
       (exists s', step s s' /\ left s' < left s)
       /\ forall s', step s s' -> left s' < left s \/ left s' = left s /\ main s' = main s).
Proof.
  destruct (objects_deleted_once s Hr Hs) as [Hf Ho]. split; [done|]. split; [exact Ho|].
  by apply collection_ends.
Qed.

(** Server 0 is created and started, and has come to [killMe]; it has ended and
    the main program has locked the mutex. *)
Definition waiting : Servers :=
  let s := set_sets ({[0]} ∪ servers initial) (deleted initial) initial in
  set_thread 0 Waiting (set_thread 0 Delay (set_thread 0 Serving (use 0 (set_thread 0 Constructed s)))).
Definition collecting : Servers :=
  let s := set_thread 0 Moving (set_lock (Some (ByThread 0)) waiting) in
  let s := set_thread 0 Moved (set_sets (servers s ∖ {[0]}) ({[0]} ∪ deleted s) s) in
  set_main (Collecting GDeleted true) (set_lock (Some ByMain)
    (set_main (Locking GDeleted true) (set_thread 0 Ended (set_lock None s)))).
Lemma waiting_reachable : rtc step initial waiting.
Proof.
  eapply rtc_l; [by apply (construct initial 0)|]. eapply rtc_l; [by apply (start _ 0)|].
  eapply rtc_l; [by apply (serve _ 0)|]. apply rtc_once. by apply (delayed _ 0).
Qed.
Lemma collecting_reachable : rtc step initial collecting.
Proof.
  etransitivity; [apply waiting_reachable|].
  eapply rtc_l; [by apply (synchronized _ 0)|]. eapply rtc_l; [by apply (move _ 0)|].
  eapply rtc_l; [by apply (unsynchronized _ 0)|]. eapply rtc_l; [by apply collect|].
  apply rtc_once. by apply (locks _ GDeleted true).
Qed.
Lemma collection_safe_witness :
  0 ∈ deleted collecting /\ fault collecting = false
  /\ exists s', step collecting s' /\ left s' < left collecting.
Proof.
  destruct (collection_safe collecting collecting_reachable eq_refl) as (Hf & Ho & Hc).
  split; [by vm_compute|]. split; [exact Hf|]. by apply Hc.
Defined.

(** ** Shutdown *)

(** The main program waits, with the mutex, for a thread that waits for the
    mutex. *)
Definition hung (s : Servers) (i : nat) : Prop :=
  main s = Joining GServers true i /\ lock s = Some ByMain /\ thread s i = Waiting
  /\ forall j, thread s j <> Moving /\ thread s j <> Moved.
Lemma hung_step s s' i : hung s i -> step s s' -> hung s' i.
Proof.
  intros (Hm & Hl & Ht & Hn) H. unfold hung.
  destruct H as [j Hj|j Hj|j Hj|j Hj|j Hj|j Hj|j Hj|j [Hj|Hj]| | | | | | | |]; try congruence; cbn;
    try (by destruct (Hn j)).
  all: assert (i <> j) by congruence; rewrite (bool_decide_false (i = j)) by done.
  all: repeat split; try done; try (by apply Hn); case_bool_decide; try done; by apply Hn.
Qed.
Lemma hung_forever s s' i : hung s i -> rtc step s s' -> hung s' i.
Proof. intros H Hr. revert H. induction Hr; eauto using hung_step. Qed.

(** [shutdown], when server 0 waits for the mutex. *)
Definition hanging : Servers :=
  set_main (Joining GServers true 0) (cancel 0
    (set_main (Collecting GServers true) (set_lock (Some ByMain)
      (after_collection false (set_main (Collecting GDeleted false) (set_lock (Some ByMain)
        (set_main (Locking GDeleted false) (set_shutting_down waiting)))))))).
Lemma hanging_reachable : rtc step initial hanging.
Proof.
  etransitivity; [apply waiting_reachable|].
  eapply rtc_l; [by apply shutdown|]. eapply rtc_l; [by apply (locks _ GDeleted false)|].
  eapply rtc_l; [by apply (collected _ GDeleted false)|].
  eapply rtc_l; [by apply (locks _ GServers true)|]. apply rtc_once.
  apply (stops _ GServers true 0); [done| |done]. cbn. set_solver.
Qed.

(** C33. [shutdown] can hang: it deletes the objects of [Servers] with the mutex
    locked, and a thread that waits in [killMe] for the mutex does not end,
    cancelled or not. *)
Theorem shutdown_hangs :
  exists s, rtc step initial s /\ shutting_down s = true
    /\ forall s', rtc step s s' -> main s' = Joining GServers true 0 /\ thread s' 0 = Waiting.
Proof.
  exists hanging. split; [apply hanging_reachable|]. split; [done|]. intros s' Hr.
  assert (hung s' 0) as (? & _ & ? & _); [|done]. eapply hung_forever; [|exact Hr].
  repeat split; try done; intros E; cbn in E; by case_bool_decide.
Qed.

(** [shutdown] can delete an object before [start] is called on it. *)
Lemma shutdown_use_after_free : exists s, rtc step initial s /\ fault s = true.
Proof.
  eexists. split.
  - eapply rtc_l; [by apply (construct initial 0)|]. eapply rtc_l; [by apply shutdown|].
    eapply rtc_l; [by apply (locks _ GDeleted false)|].
    eapply rtc_l; [by apply (collected _ GDeleted false)|].
    eapply rtc_l; [by apply (locks _ GServers true)|].
    eapply rtc_l; [apply (stops_nothing _ GServers true 0); [done|cbn; set_solver|done]|].
    eapply rtc_l; [by apply (deletes _ GServers true 0)|]. apply rtc_once. by apply (start _ 0).
  - cbn. rewrite bool_decide_true; [done|set_solver].
Qed.
