(* ===== verification/Servers.v ===== *)
(** * The servers of the multi-server: sctpmultiserver.cc

    The echo and discard server and the character generator, as functions of
    what their sockets return; [MultiServer], which accepts associations and
    chooses the server.  The file transfer is in [Tftp], the threads are in
    [ServerSet].  What is printed on the console is left out, but for the text
    computed from the received data. *)

From S2P Require Import Prelude Memory Notification State Strings Descriptors WrapperIO InternetAddress SocketMessage.
Local Open Scope Z_scope.

(** The control data of the messages has space for an [sctp_sndrcvinfo]. *)
Notation size := sizeof_sctp_sndrcvinfo.

(** A message handed to [sendMsg]: the data and the control data. *)
Record Sent : Set := { sent_data : list Z; sent_control : list Z }.
Definition sent_info (s : Sent) : sctp_sndrcvinfo := read_sndrcvinfo (drop 16 (sent_control s)).

(** The message a server sends: [assocID], stream, PPID and flags are stored
    into the payload of its header, in this order. *)
Definition fill_info (p : nat) (stream ppid flags : Z) (control : list Z) : list Z :=
  put (p + 16) 4 0 (put (p + 4) 4 flags (put (p + 8) 4 ppid
    (put p 2 stream (put (p + 28) 4 0 control)))).
Definition unreliable_flags (Unreliable stream : Z) : Z :=
  if (0 <? Unreliable) && (stream <=? Unreliable - 1) then MSG_PR_SCTP_TTL else 0.
Definition info_message (Unreliable stream ppid : Z) (data : list Z) : M SocketMessage Sent :=
  modify (clear size) ;;
  modify (setBuffer data (Z.of_nat (length data))) ;;
  let* p := addHeader size 32 IPPROTO_SCTP SCTP_SNDRCV in
  match p with
  | None => stop NullDereference
  | Some p =>
      let* m := gets (fun m => m) in
      ret {| sent_data := data;
             sent_control := take (Z.to_nat (msg_controllen m))
               (fill_info p stream ppid (unreliable_flags Unreliable stream) (Control m)) |}
  end.

(** ** [EchoServer] *)

(** What [receiveMsg] returns: the length or an error, the bytes, the flags. *)
Record Receipt : Set := { dataLength : Z; dataBuffer : list Z; receivedFlags : Z }.

(** The message a receipt comes in: no control buffer is set, so that none
    comes back. *)
Definition sizeof_dataBuffer : Z := 16384 + 1.
Definition receipt_message (r : Receipt) : SocketMessage :=
  setFlags (receivedFlags r)
    (setBuffer (dataBuffer r) sizeof_dataBuffer (new_SocketMessage size [] (replicate 48 0))).
(** Association, stream and PPID of the last [SCTP_SNDRCV] header. *)
Fixpoint control_ids (fuel : nat) (m : SocketMessage) (cmsg : option nat) (ids : Z * Z * Z)
    : option (Z * Z * Z) :=
  match cmsg, fuel with
  | None, _ => Some ids
  | Some _, O => None
  | Some c, S fuel =>
      let header := drop c (Control m) in
      let info := read_sndrcvinfo (CData (Control m) c) in
      control_ids fuel m (getNextHeader c m)
        (if bool_decide (rd cmsg_level header = IPPROTO_SCTP)
            && bool_decide (rd cmsg_type header = SCTP_SNDRCV)
         then (sinfo_assoc_id info, sinfo_stream info, ntohl (sinfo_ppid info)) else ids)
  end.

(** The text printed for a message: its last byte is made the end, bytes that
    are no printable characters become dots, those at the end are cut off. *)
Definition s8 (c : Z) : Z := if c <? 128 then c else c - 256.
Fixpoint trailing (l : list Z) : nat :=
  match l with [] => 0 | c :: l => if s8 c <? 32 then S (trailing l) else 0 end.
Definition outputDataBuffer (data : list Z) : list Z :=
  let n := (length data - 1)%nat in
  let out := (fun c => if 32 <=? s8 c then c else 46) <$> take n data in
  let cut := trailing (0 :: reverse (take n data)) in
  take (S n - cut) out ++ replicate cut 0.

Record Echo : Set := { outStreams : Z; shutdown : bool }.
Record Console : Set := { sent : list Sent; printed : list (Z * Z * Z * list Z) }.
Definition add_sent (s : Sent) (c : Console) : Console :=
  {| sent := sent c ++ [s]; printed := printed c |}.
Definition add_printed (t : Z * Z * Z * list Z) (c : Console) : Console :=
  {| sent := sent c; printed := printed c ++ [t] |}.

(** One iteration: [None] when the thread ends with an error.  [sendResult] is
    what [sendMsg] returns, if it is called. *)
Definition echo_round (Unreliable : Z) (DiscardMode : bool) (r : Receipt) (sendResult : Z) (e : Echo)
    : M Console (option Echo) :=
  let m := receipt_message r in
  if dataLength r <=? 0 then ret None
  else
    let* '(assocID, streamID, protoID) := of_option OutOfFuel (control_ids 3 m (getFirstHeader m) (0, 0, 0)) in
    if negb (has_flag (getFlags m) MSG_NOTIFICATION) then
      let data := take (Z.to_nat (dataLength r)) (dataBuffer r) in
      let* failed :=
        if DiscardMode then ret false
        else if bool_decide (outStreams e = 0) then stop ProcessAbort
        else
          match info_message Unreliable (streamID mod outStreams e) (htonl protoID) data m with
          | Stop f => stop f
          | Ret s _ => modify (add_sent s) ;; ret (sendResult <? 0)
          end in
      if (failed : bool) then ret None
      else modify (add_printed (assocID, streamID, protoID, outputDataBuffer data)) ;; ret (Some e)
    else
      let n := dataBuffer r in
      ret (Some
        (if rd sn_type n =? SCTP_ASSOC_CHANGE
         then {| outStreams := rd sac_outbound_streams n; shutdown := shutdown e |}
         else if rd sn_type n =? SCTP_SHUTDOWN_EVENT then {| outStreams := outStreams e; shutdown := true |}
         else e)).

(** [while(!shutdown)]: the thread calls [killMe] at the end, or waits. *)
Fixpoint echo_loop (Unreliable : Z) (DiscardMode : bool) (l : list (Receipt * Z)) (e : Echo) : M Console bool :=
  if shutdown e then ret true
  else
    match l with
    | [] => ret false
    | (r, sendResult) :: l =>
        let* e := echo_round Unreliable DiscardMode r sendResult e in
        match e with Some e => echo_loop Unreliable DiscardMode l e | None => ret true end
    end.
Definition echo_run (Unreliable : Z) (DiscardMode : bool) (l : list (Receipt * Z)) : M Console bool :=
  echo_loop Unreliable DiscardMode l {| outStreams := 1; shutdown := false |}.

(** ** [CharGenServer] *)

(** ["%08llu"] *)
Definition print_line_number (line : Z) : string :=
  let s := print_unsigned 10 line in
  String.append (String.concat "" (replicate (8 - String.length s) "0"%string)) s.
Definition characters (s : string) : list Z :=
  (fun c => Z.of_nat (Ascii.nat_of_ascii c)) <$> String.list_ascii_of_string s.
Definition chargen_line (line : Z) : list Z :=
  characters (String.append "#" (String.append (print_line_number line) ": "))
  ++ (Z.of_nat <$> seq 30 98) ++ [10].
(** The lines until a send fails; [line] is a 64-bit number. *)
Fixpoint chargen_loop (Unreliable line : Z) (results : list Z) : M SocketMessage (list Sent) :=
  match results with
  | [] => ret []
  | result :: results =>
      let* s := info_message Unreliable 0 0 (chargen_line line) in
      if result <? 0 then ret [s]
      else let* rest := chargen_loop Unreliable (wrap 64 (line + 1)) results in ret (s :: rest)
  end.
Definition chargen_run (Unreliable : Z) (results : list Z) : M SocketMessage (list Sent) :=
  chargen_loop Unreliable 1 results.

(** ** [MultiServer] *)

Inductive MultiServerType : Set := MST_Echo | MST_Discard | MST_Daytime | MST_CharGen | MST_TFTP | MST_Test.
(** The server for a new association; [None]: its socket is deleted. *)
Inductive ServerChoice : Set :=
| RunEcho (Unreliable : Z) (DiscardMode : bool)
| RunCharGen (Unreliable : Z)
| RunTFTP
| RunDaytime.
Definition choose_server (Type_ : MultiServerType) (Unreliable : Z) : option ServerChoice :=
  match Type_ with
  | MST_Echo => Some (RunEcho Unreliable false)
  | MST_Discard => Some (RunEcho 0 true)
  | MST_CharGen => Some (RunCharGen Unreliable)
  | MST_TFTP => Some RunTFTP
  | MST_Test => None
  | MST_Daytime => Some RunDaytime
  end.

(** ** What the servers do *)

Lemma length_characters s : length (characters s) = String.length s.
Proof. unfold characters. rewrite length_fmap. induction s; simpl; congruence. Qed.

(** The control data of a reply to stream 0 with PPID 0. *)
Lemma info_message_sent Unreliable data m :
  length (Control m) = 48%nat ->
  exists s m', info_message Unreliable 0 0 data m = Ret s m' /\ length (Control m') = 48%nat
    /\ sent_data s = data
    /\ sent_info s = {| sinfo_stream := 0; sinfo_ssn := 0;
         sinfo_flags := if 0 <? Unreliable then MSG_PR_SCTP_TTL else 0; sinfo_ppid := 0;
         sinfo_context := 0; sinfo_timetolive := 0; sinfo_tsn := 0; sinfo_cumtsn := 0;
         sinfo_assoc_id := 0 |}.
Proof.
  intros Hm. unfold info_message, bind, modify, gets, ret.
  set (m1 := setBuffer data _ (clear size m)).
  assert (Hc : Control m1 = replicate 48 0) by (cbn; by rewrite Hm).
  assert (E : addHeader size 32 IPPROTO_SCTP SCTP_SNDRCV m1
    = Ret (Some 16%nat) (set_control 48 None (write_header 0 48 IPPROTO_SCTP SCTP_SNDRCV (replicate 48 0)) m1)).
  { unfold addHeader. change (NextMsg m1) with (@None nat). cbn [set_control NextMsg CFirstHeader].
    rewrite Hc. reflexivity. }
  rewrite E. eexists _, _. split; [reflexivity|]. split; [reflexivity|]. split; [reflexivity|].
  unfold unreliable_flags. destruct (0 <? Unreliable) eqn:Hu.
  - rewrite (proj2 (Z.leb_le 0 (Unreliable - 1))) by (apply Z.ltb_lt in Hu; lia). reflexivity.
  - reflexivity.
Qed.

(** The reply of the echo server. *)
Definition echo_info (Unreliable : Z) : sctp_sndrcvinfo :=
  {| sinfo_stream := 0; sinfo_ssn := 0; sinfo_flags := if 0 <? Unreliable then MSG_PR_SCTP_TTL else 0;
     sinfo_ppid := 0; sinfo_context := 0; sinfo_timetolive := 0; sinfo_tsn := 0; sinfo_cumtsn := 0;
     sinfo_assoc_id := 0 |}.

(** Receipts: data, an announcement of an association with streams, and others
    that are no shutdown. *)
Definition is_data (r : Receipt) : bool := negb (has_flag (receivedFlags r) MSG_NOTIFICATION).
Definition receipt_ok (r : Receipt) : Prop :=
  0 < dataLength r
  /\ (is_data r = false -> rd sn_type (dataBuffer r) <> SCTP_SHUTDOWN_EVENT
      /\ (rd sn_type (dataBuffer r) = SCTP_ASSOC_CHANGE -> rd sac_outbound_streams (dataBuffer r) <> 0)).
Definition received_data (r : Receipt) : list Z := take (Z.to_nat (dataLength r)) (dataBuffer r).

Lemma echo_round_ok U d r result e c :
  receipt_ok r -> outStreams e <> 0 -> shutdown e = false -> 0 <= result ->
  exists e' c', echo_round U d r result e c = Ret (Some e') c'
    /\ outStreams e' <> 0 /\ shutdown e' = false
    /\ (sent_data <$> sent c') = (sent_data <$> sent c) ++ (if is_data r && negb d then [received_data r] else [])
    /\ (Forall (fun s => sent_info s = echo_info U) (sent c) -> Forall (fun s => sent_info s = echo_info U) (sent c')).
Proof.
  intros [Hl Hn] Ho Hs Hr. unfold echo_round. rewrite (proj2 (Z.leb_gt _ _)) by done.
  change (control_ids 3 (receipt_message r) (getFirstHeader (receipt_message r)) (0, 0, 0))
    with (Some (0, 0, 0)). cbn [of_option]. unfold bind at 1, ret at 1.
  change (getFlags (receipt_message r)) with (receivedFlags r). fold (is_data r).
  destruct (is_data r) eqn:Hd; cbn [andb].
  - destruct d; cbn [negb].
    + eexists _, _. split; [reflexivity|]. cbn. by rewrite app_nil_r.
    + rewrite bool_decide_false by done. rewrite Z.mod_0_l by done. change (htonl 0) with 0.
      destruct (info_message_sent U (received_data r) (receipt_message r) eq_refl)
        as (s & m' & E & _ & Es & Ei). unfold received_data in *. rewrite E.
      unfold bind, modify, ret. rewrite (proj2 (Z.ltb_ge _ _)) by done.
      eexists _, _. split; [reflexivity|]. cbn [sent add_printed add_sent].
      rewrite fmap_app. cbn [fmap list_fmap]. rewrite Es. repeat split; [done|done|].
      intros Hf. apply Forall_app. split; [done|]. by constructor.
  - destruct (Hn eq_refl) as [Hn1 Hn2]. eexists _, c. split; [reflexivity|].
    rewrite app_nil_r. destruct (Z.eqb_spec (rd sn_type (dataBuffer r)) SCTP_ASSOC_CHANGE); [by auto|].
    rewrite (proj2 (Z.eqb_neq _ _)) by done. by auto.
Qed.

Definition echoed (d : bool) (l : list (Receipt * Z)) : list (list Z) :=
  if d then [] else received_data <$> filter (fun r => is_data r = true) l.*1.
(** The end of an association. *)
Definition is_shutdown (r : Receipt) : Prop :=
  0 < dataLength r /\ is_data r = false /\ rd sn_type (dataBuffer r) = SCTP_SHUTDOWN_EVENT.

Lemma echo_loop_ok U d l : forall r result e c,
  Forall (fun x => receipt_ok x.1 /\ 0 <= x.2) l -> is_shutdown r ->
  outStreams e <> 0 -> shutdown e = false ->
  exists c', echo_loop U d (l ++ [(r, result)]) e c = Ret true c'
    /\ (sent_data <$> sent c') = (sent_data <$> sent c) ++ echoed d l
    /\ (Forall (fun s => sent_info s = echo_info U) (sent c) -> Forall (fun s => sent_info s = echo_info U) (sent c')).
Proof.
  induction l as [|[r1 r1'] l IH]; intros r result e c Hl Hs Ho He; cbn [app echo_loop]; rewrite He.
  - destruct Hs as (H1 & H2 & H3). unfold echo_round, bind. rewrite (proj2 (Z.leb_gt _ _)) by done.
    change (control_ids 3 (receipt_message r) (getFirstHeader (receipt_message r)) (0, 0, 0))
      with (Some (0, 0, 0)). cbn [of_option]. unfold ret at 1.
    change (getFlags (receipt_message r)) with (receivedFlags r). fold (is_data r). rewrite H2, H3.
    change (SCTP_SHUTDOWN_EVENT =? SCTP_ASSOC_CHANGE) with false.
    change (SCTP_SHUTDOWN_EVENT =? SCTP_SHUTDOWN_EVENT) with true. cbn [echo_loop shutdown].
    exists c. split; [reflexivity|]. unfold echoed. by destruct d; rewrite app_nil_r.
  - apply Forall_cons in Hl as [[Hr1 Hr2] Hl]. cbn [fst snd] in *.
    destruct (echo_round_ok U d r1 r1' e c Hr1 Ho He Hr2) as (e1 & c1 & E & Ho1 & He1 & Hd1 & Hi1).
    destruct (IH r result e1 c1 Hl Hs Ho1 He1) as (c' & E' & Hd & Hi).
    exists c'. unfold bind. rewrite E. split; [exact E'|]. split; [|by auto].
    rewrite Hd, Hd1, <- (assoc_L (++)). f_equal. unfold echoed. rewrite fmap_cons. cbn [fst].
    rewrite filter_cons. destruct d; [by rewrite andb_false_r|]. rewrite andb_true_r.
    by destruct (is_data r1).
Qed.

(** The echo server.  As long as messages arrive and can be sent, and until
    the association is shut down, it sends back exactly the data messages, in
    order and unchanged; the discard server sends nothing.  All replies go to
    stream 0 with PPID 0, whatever the stream and the PPID of the message, as
    no control data is received. *)
Theorem echo_spec (U : Z) (d : bool) (l : list (Receipt * Z)) (r : Receipt) (result : Z)
    (Hl : Forall (fun x => receipt_ok x.1 /\ 0 <= x.2) l) (Hr : is_shutdown r) :
  exists c, echo_run U d (l ++ [(r, result)]) {| sent := []; printed := [] |} = Ret true c
    /\ (sent_data <$> sent c) = echoed d l
    /\ Forall (fun s => sent_info s = echo_info U) (sent c).
Proof.
  destruct (echo_loop_ok U d l r result {| outStreams := 1; shutdown := false |} {| sent := []; printed := [] |} Hl Hr)
    as (c & E & Hd & Hi); [done|done|]. exists c. split; [exact E|]. split; [exact Hd|]. by apply Hi.
Qed.

Lemma receipt_example data : 0 < Z.of_nat (length data) ->
  receipt_ok {| dataLength := Z.of_nat (length data); dataBuffer := data; receivedFlags := 0 |}.
Proof. by split. Qed.
Lemma echo_spec_witness :
  exists c, echo_run 0 false
      [({| dataLength := 2; dataBuffer := [104; 105]; receivedFlags := 0 |}, 2);
       ({| dataLength := 12; dataBuffer := [5; 0; 0; 0; 12; 0; 0; 0; 1; 0; 0; 0];
           receivedFlags := MSG_NOTIFICATION |}, 0)] {| sent := []; printed := [] |} = Ret true c
    /\ (sent_data <$> sent c) = [[104; 105]].
Proof.
  destruct (echo_spec 0 false [({| dataLength := 2; dataBuffer := [104; 105]; receivedFlags := 0 |}, 2)]
    {| dataLength := 12; dataBuffer := [5; 0; 0; 0; 12; 0; 0; 0; 1; 0; 0; 0]; receivedFlags := MSG_NOTIFICATION |} 0)
    as (c & E & Hd & _).
  - by constructor; [split; [apply (receipt_example [104; 105])|]|].
  - by repeat split.
  - by exists c.
Defined.

(** The text printed for a message ends inside its buffer: the bytes behind
    it are not read. *)
Lemma trailing_le l : (trailing l <= length l)%nat.
Proof. induction l as [|c l IH]; cbn [trailing length]; [lia|]. case_match; lia. Qed.
Lemma output_terminated (data : list Z) :
  data <> [] ->
  length (outputDataBuffer data) = length data /\ List.last (outputDataBuffer data) 1 = 0.
Proof.
  intros Hd. assert (length data <> 0)%nat by (by destruct data). unfold outputDataBuffer.
  set (n := (length data - 1)%nat). set (cut := trailing (0 :: reverse (take n data))).
  assert (Hc : (1 <= cut <= S n)%nat).
  { split; [cbn; lia|]. etransitivity; [apply trailing_le|]. cbn [length]. rewrite length_reverse, length_take. lia. }
  split.
  - rewrite length_app, length_take, length_fmap, length_take, length_replicate. lia.
  - destruct cut as [|cut]; [lia|]. rewrite replicate_S_end, (assoc_L (++)). apply last_last.
Qed.

(** A line of the character generator: the number is within the 256 bytes
    [snprintf] may fill, and the line within the buffer of 512. *)
Example chargen_first :
  take 14 (chargen_line 1) = characters "#00000001: " ++ [30; 31; 32] /\ length (chargen_line 1) = 110%nat.
Proof. by vm_compute. Qed.
