(* ===== verification/ApiDemo.v ===== *)
(** * A small instance of the kernel, and a process with open descriptors

    The examples and witnesses about the socket API run on it: descriptor 4 is
    a one-to-many socket of SCTP, descriptor 5 an association of it (both of
    [Demo.demo_up]), descriptors 0 to 2 belong to the system. *)

From S2P Require Import Prelude MultiMap Memory Notification State SocketOps SocketMaster.
From S2P Require Import Descriptors WrapperSockets Demo.
Local Open Scope Z_scope.

#[export] Instance demo_kernel : @Kernel demo := {|
  k_errno w := EBADF;
  k_getdtablesize w := 1024;
  k_socket domain type protocol w := (7, w);
  k_open name flags mode w := (7, w);
  k_creat name mode w := (7, w);
  k_pipe w := (0, (7, 8), w);
  k_close fd w := (0, w);
  k_bind fd addr w := (0, w);
  k_listen fd backlog w := (0, w);
  k_accept fd w := (9, [2; 0; 0; 7], w);
  k_getsockname fd w := (0, [], w);
  k_getpeername fd w := (-1, [], w);
  k_fcntl fd cmd arg w := (0, w);
  k_ioctl fd request w := (0, w);
  k_getsockopt fd level name w := (0, [], w);
  k_setsockopt fd level name val w := (0, w);
  k_shutdown fd how w := (0, w);
  k_connect fd addr w := (0, w);
  k_read fd n w := (2, [104; 105], w);
  k_write fd b w := (Z.of_nat (length b), w);
  k_recv fd n flags w := (2, [104; 105], w);
  k_recvfrom fd n flags w := (2, ([104; 105], []), w);
  k_recvmsg fd n flags w := (2, ([104; 105], []), w);
  k_send fd b flags w := (Z.of_nat (length b), w);
  k_sendto fd b flags to w := (Z.of_nat (length b), w);
  k_sendmsg fd b flags name control w := (Z.of_nat (length b), w);
  k_select n sets timeout w := (0, ((∅, ∅, ∅), timeout), w) |}.

Definition demo_deliver : list Callback -> @P demo unit := dispatch 3.
Definition demo_memory : SCTPSocket := demo_socket 0.
Definition demo_blank : ExtSocketDescriptor :=
  {| ed_Type := ESDT_Invalid; SystemSocketID := 0; ed_SocketType := 0; SCTPSocketPtr := None;
     SCTPAssociationPtr := None; ed_Flags := 0; InitMsg := default_initmsg;
     Linger := {| l_onoff := 0; l_linger := 0 |}; ConnectionOriented := false |}.
Definition demo_stack : list Z := replicate 1024 0.
Definition demo_path : SCTP_Path_Status :=
  {| destinationAddress := "10.0.0.1"; heartbeatIntervall := 30000; ps_state := 0; cwnd := 1500;
     srtt := 10; rto := 1000; mtu := 1500 |}.
Definition demo_timeout : StreamDefaultTimeout := {| sdt_Valid := false; sdt_Timeout := 0 |}.

Definition boot_table : list ExtSocketDescriptor := initial_table (replicate MaxSockets demo_blank).
Definition udp_descriptor : ExtSocketDescriptor := sctp_descriptor 2 SOCK_DGRAM false 0.
Definition tcp_descriptor : ExtSocketDescriptor :=
  association_descriptor (sctp_descriptor 2 SOCK_STREAM true 0) 1.
Definition demo_table : list ExtSocketDescriptor :=
  <[5%nat := tcp_descriptor]> (<[4%nat := udp_descriptor]> boot_table).
Definition demo_api (table : list ExtSocketDescriptor) : @Api demo :=
  {| sys := demo_up; Sockets := table; errno := 0 |}.

(** The state a call ends in, and its result. *)
Definition api_final {X} (m : @A demo X) (s : @Api demo) : @Api demo :=
  match m s with Ret _ s' => s' | Stop _ => s end.
Definition api_result {X} (m : @A demo X) (s : @Api demo) : option X :=
  match m s with Ret x _ => Some x | Stop _ => None end.
Lemma api_run {X} (m : @A demo X) s x :
  api_result m s = Some x -> m s = Ret x (api_final m s).
Proof. unfold api_result, api_final. destruct (m s); congruence. Qed.
