(* ===== verification/MasterLife.v ===== *)
(** * The life of the socket master: sctpsocketmaster.cc

    The singleton [MasterInstance]: its constructor, which initialises sctplib
    and the break pipe, the event thread ([run]), the library parameters and
    the destructor, which ends what is still closing. *)

From S2P Require Import Prelude MultiMap Memory State Socket SocketOps SocketMaster Descriptors.
From S2P Require Import WrapperSockets WrapperSelect Runs Demo ApiDemo.
Local Open Scope Z_scope.

(** [SCTP_Library_Parameters]: the members that are set, and the rest. *)
Record Library_Parameters (X : Type) : Type := {
  sendOotbAborts : Z;
  checksumAlgorithm : Z;
  lp_rest : X }.
Arguments sendOotbAborts {X}.
Arguments checksumAlgorithm {X}.
Arguments lp_rest {X}.

(** What the socket master needs of sctplib and of the threads of the system
    beyond [Platform]. *)
Class Master `{!Platform} : Type := {
  lp_Rest : Type;
  SCTP_CHECKSUM_ALGORITHM_CRC32C : Z;
  SCTP_CHECKSUM_ALGORITHM_ADLER32 : Z;
  sctpVersion : Z;                        (* of the header file *)
  SCTP_OVER_UDP : bool;                   (* of the configuration *)
  sctp_getLibraryVersion : W -> Z;
  sctp_initLibrary : W -> Z * W;
  sctp_getLibraryParameters : W -> option (Library_Parameters lp_Rest);
  sctp_setLibraryParameters : Library_Parameters lp_Rest -> W -> Z * W;
  sctp_startTimer : Z -> Z -> W -> Z * W;
  sctp_stopTimer : Z -> W -> Z * W;
  sctp_events : W -> W * list Callback;   (* what the event loop finds to do *)
  pthread_cancel : W -> W;
  pthread_join : W -> W;
  BreakNotification : nat }.              (* the address of the static object *)

Section MasterLife.
Context `{!Platform} `{!Kernel} `{!Master}.
Variable deliver : list Callback -> P unit.

(** The static members before the constructor. *)
Definition GarbageCollectionInterval : Z := 1000000.
Definition static_members (y : Sys) : Sys :=
  set_UserNotifications (<[BreakNotification :=
      {| un_FileDescriptor := 0; un_EventMask := 0; un_Events := 0 |}]> (UserNotifications y))
    (set_BreakPipe (0, 0) (set_GarbageCollectionTimerID (-1)
      (set_InitializationResult (-1000) (set_LockLevel 0 y)))).

Definition versionCheck : P bool :=
  let* linked := ask sctp_getLibraryVersion in ret (bool_decide (linked = sctpVersion)).

(** [enableOOTBHandling] and [enableCRC32] *)
Definition change_parameters
    (f : Library_Parameters lp_Rest -> Library_Parameters lp_Rest) : P bool :=
  lock ;;
  let* parameters := ask sctp_getLibraryParameters in
  let* result :=
    match parameters with
    | Some p => let* r := call (sctp_setLibraryParameters (f p)) in ret (bool_decide (r = 0))
    | None => ret false
    end in
  unlock ;; ret result.
Definition enableOOTBHandling (enable : bool) : P bool :=
  change_parameters (fun p =>
    {| sendOotbAborts := if enable then 1 else 0; checksumAlgorithm := checksumAlgorithm p;
       lp_rest := lp_rest p |}).
Definition enableCRC32 (enable : bool) : P bool :=
  change_parameters (fun p =>
    {| sendOotbAborts := sendOotbAborts p;
       checksumAlgorithm := if enable then SCTP_CHECKSUM_ALGORITHM_CRC32C
                            else SCTP_CHECKSUM_ALGORITHM_ADLER32;
       lp_rest := lp_rest p |}).

(** The calls of the API; [errno] is not set. *)
Definition sctp_enableOOTBHandling (enable : Z) : A Z :=
  let* ok := lift (enableOOTBHandling (bool_decide (enable <> 0))) in
  ret (if ok then 0 else - EIO).
Definition sctp_enableCRC32 (enable : Z) : A Z :=
  let* ok := lift (enableCRC32 (bool_decide (enable <> 0))) in
  ret (if ok then 0 else - EIO).

(** ** The constructor *)

Definition close_BreakPipe : A unit :=
  let* pipe := lift (gets BreakPipe) in
  syscall (k_close pipe.1) ;;
  syscall (k_close pipe.2) ;;
  lift (modify (set_BreakPipe (-1, -1))).

Definition open_BreakPipe : A unit :=
  let* '(r, pipe) := syscall_with k_pipe in
  if bool_decide (r = 0) then
    lift (modify (set_BreakPipe pipe)) ;;
    let* flags := syscall (k_fcntl pipe.1 F_GETFL 0) in
    if bool_decide (flags <> -1) then
      let* r := syscall (k_fcntl pipe.1 F_SETFL (set_flag flags O_NONBLOCK)) in
      if bool_decide (r = 0) then
        lift (modify (fun y => set_UserNotifications (<[BreakNotification :=
          {| un_FileDescriptor := pipe.1; un_EventMask := set_flag POLLIN POLLPRI;
             un_Events := 0 |}]> (UserNotifications y)) y)) ;;
        addUserSocketNotification BreakNotification
      else close_BreakPipe
    else close_BreakPipe
  else lift (modify (set_BreakPipe (-1, -1))).

Definition new_SCTPSocketMaster : A unit :=
  let* initialised := lift (gets InitializationResult) in
  if bool_decide (initialised = -1000) then
    let* same := lift versionCheck in
    if negb same then ret tt
    else
      let* sd := syscall (k_socket AF_INET SOCK_SEQPACKET IPPROTO_SCTP) in
      if (0 <=? sd) && negb SCTP_OVER_UDP then syscall (k_close sd) ;; stop ProcessAbort
      else
        let* r := lift (call sctp_initLibrary) in
        lift (modify (set_InitializationResult r)) ;;
        if bool_decide (r = 0) then
          lift (enableOOTBHandling false) ;;
          lift (enableCRC32 true) ;;
          let* now := lift (call getMicroTime_) in
          lift (modify (set_LastGarbageCollection now)) ;;
          open_BreakPipe
        else lift (modify (set_BreakPipe (-1, -1)))
  else ret tt.

(** ** The thread *)

(** One round of the loop of [run].  [others] is what other threads do while
    [sctp_extendedEventLoop] waits; it takes the lock to make its callbacks. *)
Definition run_round (others : P unit) : P unit :=
  let* now := call getMicroTime_ in
  let* last := gets LastGarbageCollection in
  let usecs := if now <? wrap 64 (last + GarbageCollectionInterval)
               then wrap 64 (last + GarbageCollectionInterval - now) else 0 in
  lock ;;
  let* id := call (sctp_startTimer (u32 (usecs / 1000000)) (u32 (usecs mod 1000000))) in
  modify (set_GarbageCollectionTimerID id) ;;
  unlock ;;
  others ;;
  lock ;;
  let* callbacks := (fun y =>
    let '(w, cbs) := sctp_events (world y) in Ret cbs (set_world w y)) in
  deliver callbacks ;;
  unlock ;;
  lock ;;
  let* id := gets GarbageCollectionTimerID in
  call (sctp_stopTimer id) ;;
  modify (set_GarbageCollectionTimerID (-1)) ;;
  unlock ;;
  let* now := call getMicroTime_ in
  let* last := gets LastGarbageCollection in
  if GarbageCollectionInterval <=? wrap 64 (now - last) then socketGarbageCollection deliver
  else ret tt.
Definition run (rounds : list (P unit)) : P unit := for_each rounds run_round.

(** [userCallback]: with [reads], the results of reading from the break pipe,
    until it is empty. *)
Fixpoint drain (reads : nat) : A unit :=
  let* pipe := lift (gets BreakPipe) in
  let* '(received, _) := syscall_with (fun w => k_read pipe.1 256 w) in
  if 0 <? received then match reads with O => stop OutOfFuel | S reads => drain reads end
  else ret tt.
Definition userCallback_any (reads : nat) (eventMask registeredEvents : Z) (u : option nat) : A Z :=
  match u with
  | None => ret registeredEvents
  | Some u =>
      let* n := lift (user_notification u) in
      let* pipe := lift (gets BreakPipe) in
      if bool_decide (un_FileDescriptor n <> pipe.1)
      then lift (userCallback eventMask registeredEvents u)
      else drain reads ;; lift (fired (BreakNotification, UserUpdate)) ;; ret registeredEvents
  end.

(** ** The destructor *)

(** The loop over [ClosingAssociations]: [sctp_abort] calls
    [communicationLostNotif], which removes the entry. *)
Fixpoint abort_associations (fuel : nat) : P unit :=
  let* closing := gets ClosingAssociations in
  match closing, fuel with
  | [], _ => ret tt
  | _ :: _, O => stop OutOfFuel
  | it :: _, S fuel => raw_abort deliver it.1 ;; abort_associations fuel
  end.

(** [Thread::cancel], under the lock, which is the thread's own. *)
Definition cancel : P unit :=
  let* running := gets ThreadRunning in
  when running (modify (fun y => set_world (pthread_cancel (world y)) y)).
(** [Thread::join] *)
Definition join : P unit :=
  let* running := gets ThreadRunning in
  when running (modify (fun y => set_world (pthread_join (world y)) y) ;;
                modify (set_ThreadRunning false)).

Definition stop_timer : P unit :=
  let* id := gets GarbageCollectionTimerID in
  when (bool_decide (id <> -1)) (
    call (sctp_stopTimer id) ;;
    modify (set_GarbageCollectionTimerID (-1))).
Definition stop_collecting : P unit :=
  lock ;;
  cancel ;;
  modify (set_ThreadRunning false) ;;
  unlock ;;
  lock ;;
  stop_timer ;;
  let* closing := gets ClosingAssociations in
  abort_associations (length closing) ;;
  unlock ;;
  socketGarbageCollection deliver ;;
  join.
Definition delete_SCTPSocketMaster : A unit :=
  lift stop_collecting ;;
  let* pipe := lift (gets BreakPipe) in
  if bool_decide (pipe.1 <> -1) then
    lift (deleteUserSocketNotification BreakNotification) ;;
    close_BreakPipe
  else ret tt.
End MasterLife.

Section Members.
Context `{!Platform}.
Lemma runs_assign l (g : Sys -> Sys) y :
  (forall v z, g (set_LockLevel v z) = set_LockLevel v (g z)) ->
  (forall v z, g (set_CancelEnabled v z) = set_CancelEnabled v (g z)) ->
  (forall v z, g (set_OldCancelState v z) = set_OldCancelState v (g z)) ->
  runs l (modify g) y tt l (g y).
Proof. intros. apply runs_modify. intros. by apply relock_set. Qed.
Lemma relock_self (y : Sys) : LockLevel y = 0 -> y = relock 0 (CancelEnabled y) (OldCancelState y) y.
Proof. intros E. destruct y. cbn in E. by subst. Qed.
Lemma lift_runs {X} (m : P X) (s : Api) r y :
  LockLevel (sys s) = 0 -> runs 0 m (sys s) r 0 y ->
  exists ce old, lift m s = Ret r (set_sys (relock 0 ce old y) s).
Proof.
  intros Hl Hr. destruct (Hr (CancelEnabled (sys s)) (OldCancelState (sys s))) as [old E].
  exists (CancelEnabled (sys s)), old. unfold lift. by rewrite (relock_self (sys s) Hl), E.
Qed.
Lemma syscall_with_keeps `{!Kernel} {X} (f : W -> Z * X * W) (s : Api) :
  exists s' w, syscall_with f s = Ret (f (world (sys s))).1 s' /\ sys s' = set_world w (sys s).
Proof.
  unfold syscall_with. destruct (f (world (sys s))) as [[r x] w].
  eexists. exists w. split; [reflexivity|]. by case_bool_decide.
Qed.
Lemma syscall_run `{!Kernel} (f : W -> Z * W) (s : Api) :
  exists s', syscall f s = Ret (f (world (sys s))).1 s' /\ sys s' = set_world (f (world (sys s))).2 (sys s).
Proof.
  unfold syscall, bind, syscall_with, ret. destruct (f (world (sys s))) as [r w].
  eexists. split; [reflexivity|]. by case_bool_decide.
Qed.
Lemma syscall_keeps `{!Kernel} (f : W -> Z * W) (s : Api) :
  exists s' w, syscall f s = Ret (f (world (sys s))).1 s' /\ sys s' = set_world w (sys s).
Proof. destruct (syscall_run f s) as (s' & ? & ?). by exists s', (f (world (sys s))).2. Qed.
End Members.

(** ** The beginning *)

Section Constructor.
Context `{!Platform} `{!Kernel} `{!Master}.

(** The pipe is closed, or its reading end is registered at sctplib. *)
Definition pipe_ok (y : Sys) : Prop :=
  (BreakPipe y).1 = -1
  \/ UserNotifications y !! BreakNotification
     = Some {| un_FileDescriptor := (BreakPipe y).1; un_EventMask := set_flag POLLIN POLLPRI;
               un_Events := 0 |}.

Lemma lift_at {X} l ce old (m : P X) (s : Api) y r l' y' :
  sys s = relock l ce old y -> runs l m y r l' y' ->
  exists old', lift m s = Ret r (set_sys (relock l' ce old' y') s).
Proof. intros E Hr. destruct (Hr ce old) as [old' E']. exists old'. unfold lift. by rewrite E, E'. Qed.

Lemma change_parameters_runs l f y :
  level_ok l -> exists r w, runs l (change_parameters f) y r l (set_world w y).
Proof.
  intros Hl. unfold change_parameters. destruct (sctp_getLibraryParameters (world y)) as [p|] eqn:E.
  - eexists _, _. rstep. eapply runs_bind; [apply runs_ask|]. cbv beta. rewrite E.
    eapply runs_bind; [eapply runs_bind; [apply runs_call|apply runs_ret]|]. cbv beta.
    eapply runs_bind; [by apply runs_unlock, Hl|apply runs_ret].
  - exists false, (world y). rstep. eapply runs_bind; [apply runs_ask|]. cbv beta. rewrite E.
    eapply runs_bind; [apply runs_ret|]. cbv beta.
    eapply runs_bind; [by apply runs_unlock, Hl|]. eapply runs_eq; [apply runs_ret|done|done|]. by destruct y.
Qed.

Lemma user_notification_runs l u n y :
  UserNotifications y !! u = Some n -> runs l (user_notification u) y n l y.
Proof.
  intros Hn ce old. exists old. unfold user_notification.
  by rewrite (relock_proj UserNotifications), Hn.
Qed.
Lemma set_Events_runs l e u n y :
  UserNotifications y !! u = Some n ->
  runs l (set_Events e u) y tt l (set_UserNotifications (<[u :=
    {| un_FileDescriptor := un_FileDescriptor n; un_EventMask := un_EventMask n; un_Events := e |}]>
    (UserNotifications y)) y).
Proof.
  intros Hn. eapply runs_bind; [by apply user_notification_runs|]. intros ce old. exists old.
  unfold modify. rewrite (relock_proj UserNotifications) by done. f_equal.
  by apply (relock_set (set_UserNotifications _)).
Qed.

Lemma register_runs s n :
  LockLevel (sys s) = 0 -> UserNotifications (sys s) !! BreakNotification = Some n ->
  un_FileDescriptor n = (BreakPipe (sys s)).1 ->
  exists s' ce old w, addUserSocketNotification BreakNotification s = Ret tt s'
    /\ sys s' = relock 0 ce old (set_world w (set_UserNotifications (<[BreakNotification :=
         {| un_FileDescriptor := un_FileDescriptor n; un_EventMask := un_EventMask n; un_Events := 0 |}]>
         (UserNotifications (sys s))) (sys s))).
Proof.
  intros Hl Hn Hp. set (y := sys s). set (ce := CancelEnabled y).
  set (n' := {| un_FileDescriptor := un_FileDescriptor n; un_EventMask := un_EventMask n; un_Events := 0 |}).
  set (y' := set_UserNotifications (<[BreakNotification := n']> (UserNotifications y)) y).
  unfold addUserSocketNotification.
  destruct (lift_at 0 ce (OldCancelState y) lock s y tt (0 + 1) y) as [o1 E1];
    [by apply relock_self|by apply runs_lock|]. unfold bind at 1. rewrite E1. clear E1.
  set (s1 := set_sys _ s). destruct (lift_at (0 + 1) ce o1 (set_Events 0 BreakNotification) s1 y tt (0 + 1) y')
    as [o2 E2]; [done|by apply set_Events_runs|]. unfold bind at 1. rewrite E2. clear E2.
  set (s2 := set_sys _ s1).
  destruct (lift_at (0 + 1) ce o2 (user_notification BreakNotification) s2 y' n' (0 + 1) y') as [o3 E3];
    [done|by apply user_notification_runs, lookup_insert_eq|]. unfold bind at 1. rewrite E3. clear E3.
  set (s3 := set_sys _ s2).
  destruct (lift_at (0 + 1) ce o3
    (call (sctp_registerUserCallback (un_FileDescriptor n') BreakNotification (un_EventMask n'))) s3 y' _ (0 + 1) _
    eq_refl (runs_call _ _ _)) as [o4 E4]. unfold bind at 1. rewrite E4. clear E4.
  set (s4 := set_sys _ s3). unfold bind at 1, lift at 1, gets at 1.
  rewrite bool_decide_true by done. cbn [negb andb]. unfold bind at 1, ret at 1.
  destruct (lift_at (0 + 1) ce o4 unlock (set_sys (sys s4) s4) _ tt 0 _ eq_refl (runs_unlock 0 _ (Z.le_refl 0)))
    as [o5 E5]. rewrite E5. eexists _, ce, o5, _. split; [reflexivity|]. reflexivity.
Qed.

(** [lift] of an assignment and of a read. *)
Lemma close_pipe_world s :
  exists s', close_BreakPipe s = Ret tt s' /\ sys s' = set_BreakPipe (-1, -1) (set_world
    (k_close (BreakPipe (sys s)).2 (k_close (BreakPipe (sys s)).1 (world (sys s))).2).2 (sys s)).
Proof.
  unfold close_BreakPipe, bind, lift at 1, gets at 1.
  destruct (syscall_run (k_close (BreakPipe (sys s)).1) (set_sys (sys s) s)) as (s1 & -> & E1).
  destruct (syscall_run (k_close (BreakPipe (sys s)).2) s1) as (s2 & -> & E2).
  eexists _. split; [reflexivity|]. cbn. by rewrite E2, E1.
Qed.
Lemma close_pipe s :
  exists s' w, close_BreakPipe s = Ret tt s' /\ sys s' = set_BreakPipe (-1, -1) (set_world w (sys s)).
Proof. destruct (close_pipe_world s) as (s' & E & S). by eexists _, _. Qed.

(** A program that surely returns [r], in a state that satisfies [Q]. *)
Definition ends {X} (m : A X) (s : Api) (r : X) (Q : Api -> Prop) : Prop :=
  exists s', m s = Ret r s' /\ Q s'.
Lemma ends_bind {X Y} (m : A X) (k : X -> A Y) s a s1 r Q :
  m s = Ret a s1 -> ends (k a) s1 r Q -> ends (bind m k) s r Q.
Proof. intros E (s' & E' & HQ). exists s'. split; [|done]. unfold bind. by rewrite E. Qed.
Lemma ends_first {X Y} (m : A X) (k : X -> A Y) s a r Q Q1 :
  ends m s a Q1 -> (forall s1, Q1 s1 -> ends (k a) s1 r Q) -> ends (bind m k) s r Q.
Proof. intros (s1 & E & HQ1) Hk. eapply ends_bind; [exact E|by apply Hk]. Qed.
Lemma ends_exact {X} (m : A X) s r s1 (Q : Api -> Prop) : m s = Ret r s1 -> Q s1 -> ends m s r Q.
Proof. intros E HQ. by exists s1. Qed.

(** The state of the library at the lock level 0, with the two members the
    constructor is about. *)
Definition at_start (init : Z) (pipe : Z * Z) (s : Api) : Prop :=
  LockLevel (sys s) = 0 /\ InitializationResult (sys s) = init /\ BreakPipe (sys s) = pipe.
Definition constructed (init : Z) (s : Api) : Prop :=
  LockLevel (sys s) = 0 /\ pipe_ok (sys s) /\ InitializationResult (sys s) = init.

Lemma at_start_syscall i p (f : W -> Z * W) s :
  at_start i p s -> ends (syscall f) s (f (world (sys s))).1 (at_start i p).
Proof.
  intros Hs. destruct (syscall_keeps f s) as (s' & w & E & HS). exists s'. split; [exact E|].
  unfold at_start in *. by rewrite HS.
Qed.
Lemma at_start_runs {X} i p (m : P X) s r y :
  at_start i p s -> runs 0 m (sys s) r 0 y -> InitializationResult y = i -> BreakPipe y = p ->
  ends (lift m) s r (at_start i p).
Proof.
  intros (Hl & Hi & Hp) Hr Hi' Hp'. destruct (lift_runs m s r y Hl Hr) as (ce & old & E).
  eexists. split; [exact E|]. split; [done|]. rewrite <- Hi', <- Hp'. by split;
    [apply (relock_proj InitializationResult)|apply (relock_proj BreakPipe)].
Qed.

Lemma close_ends_start i p s : at_start i p s -> ends close_BreakPipe s tt (constructed i).
Proof.
  intros (Hl & Hi & Hp). destruct (close_pipe s) as (s' & w & E & S). exists s'. split; [exact E|].
  unfold constructed, pipe_ok. rewrite S. by repeat split; [|left|].
Qed.
Lemma register_ends i pipe s :
  at_start i pipe s ->
  UserNotifications (sys s) !! BreakNotification
    = Some {| un_FileDescriptor := pipe.1; un_EventMask := set_flag POLLIN POLLPRI; un_Events := 0 |} ->
  ends (addUserSocketNotification BreakNotification) s tt (constructed i).
Proof.
  intros (Hl & Hi & Hp) Hn. destruct (register_runs s _ Hl Hn) as (s' & ce & old & w & E & S); [by rewrite Hp|].
  exists s'. split; [exact E|]. unfold constructed, pipe_ok. rewrite S.
  rewrite (relock_proj BreakPipe), (relock_proj UserNotifications), (relock_proj InitializationResult) by done.
  repeat split; [|done]. right. cbn [UserNotifications BreakPipe set_UserNotifications set_world eta_Sys].
  by rewrite lookup_insert_eq, Hp.
Qed.

Lemma open_pipe i p s : at_start i p s -> ends open_BreakPipe s tt (constructed i).
Proof.
  intros Hs. unfold open_BreakPipe.
  destruct (syscall_with_keeps k_pipe s) as (s1 & w1 & E1 & S1).
  assert (Hs1 : at_start i p s1) by (unfold at_start in *; by rewrite S1). clear S1.
  eapply ends_bind; [exact E1|]. destruct (k_pipe (world (sys s))).1 as [r pipe]. clear E1.
  case_bool_decide; cycle 1.
  { destruct Hs1 as (? & ? & ?). eapply ends_exact; [reflexivity|]. by repeat split; [|left|]. }
  eapply ends_bind; [reflexivity|]. set (s2 := set_sys _ s1).
  assert (Hs2 : at_start i pipe s2) by (by destruct Hs1 as (? & ? & ?)). clearbody s2. clear Hs1.
  eapply ends_first; [by apply at_start_syscall|]. intros s3 Hs3. cbv beta.
  case_bool_decide; [|by eapply close_ends_start].
  eapply ends_first; [by apply at_start_syscall|]. intros s4 Hs4. cbv beta.
  case_bool_decide; [|by eapply close_ends_start].
  eapply ends_bind; [reflexivity|]. eapply register_ends.
  - by destruct Hs4 as (? & ? & ?).
  - apply lookup_insert_eq.
Qed.

Lemma parameters_end i p f s :
  at_start i p s -> exists r, ends (lift (change_parameters f)) s r (at_start i p).
Proof.
  intros Hs. destruct (change_parameters_runs 0 f (sys s)) as (r & w & R); [done|]. exists r.
  destruct Hs as (? & ? & ?). by eapply at_start_runs; [|exact R|..].
Qed.

(** The constructor ends with the lock free, the result of [sctp_initLibrary]
    noted, and the break pipe closed or registered; it does not end for
    another implementation of SCTP in the kernel. *)
Lemma master_constructed p s :
  at_start (-1000) p s -> sctp_getLibraryVersion (world (sys s)) = sctpVersion ->
  (k_socket AF_INET SOCK_SEQPACKET IPPROTO_SCTP (world (sys s))).1 < 0 \/ SCTP_OVER_UDP = true ->
  ends new_SCTPSocketMaster s tt
    (constructed (sctp_initLibrary (k_socket AF_INET SOCK_SEQPACKET IPPROTO_SCTP (world (sys s))).2).1).
Proof.
  intros Hs Hv Hk. unfold new_SCTPSocketMaster.
  eapply ends_bind; [reflexivity|]. cbv beta.
  rewrite bool_decide_true by (by destruct Hs as (_ & -> & _)).
  eapply ends_bind.
  { unfold versionCheck, lift, ask, bind, gets, ret. reflexivity. }
  cbn [world sys set_sys]. rewrite bool_decide_true by done. cbn [negb].
  set (s0 := set_sys _ _). assert (Hs0 : at_start (-1000) p s0) by done.
  change (world (sys s)) with (world (sys s0)) in *. clearbody s0. clear Hs Hv s.
  destruct (syscall_run (k_socket AF_INET SOCK_SEQPACKET IPPROTO_SCTP) s0) as (s1 & E1 & S1).
  eapply ends_bind; [exact E1|]. clear E1.
  destruct (k_socket AF_INET SOCK_SEQPACKET IPPROTO_SCTP (world (sys s0))) as [sd w1].
  cbn [fst snd] in *. replace ((0 <=? sd) && negb SCTP_OVER_UDP) with false; cycle 1.
  { destruct Hk as [Hk| ->]; [by rewrite (proj2 (Z.leb_gt 0 sd))|by rewrite andb_false_r]. }
  assert (Hs1 : at_start (-1000) p s1) by (unfold at_start in *; by rewrite S1).
  assert (W1 : world (sys s1) = w1) by by rewrite S1. clear S1 Hs0 Hk. subst w1.
  eapply ends_first.
  { eapply at_start_runs; [exact Hs1|apply runs_call|..]; by destruct Hs1 as (? & ? & ?). }
  intros s2 (Hl2 & _ & Hp2). cbv beta. set (r := (sctp_initLibrary _).1).
  eapply (ends_first _ _ _ tt _ _ (at_start r p)).
  { eapply ends_exact; [reflexivity|]. by repeat split. }
  intros s3 Hs3. case_bool_decide; cycle 1.
  { destruct Hs3 as (? & ? & ?). eapply ends_exact; [reflexivity|]. by repeat split; [|left|]. }
  destruct (parameters_end r p (fun p => {| sendOotbAborts := 0;
    checksumAlgorithm := checksumAlgorithm p; lp_rest := lp_rest p |}) s3 Hs3) as [b3 E3].
  eapply ends_first; [exact E3|]. intros s4 Hs4.
  destruct (parameters_end r p (fun p => {| sendOotbAborts := sendOotbAborts p;
    checksumAlgorithm := SCTP_CHECKSUM_ALGORITHM_CRC32C; lp_rest := lp_rest p |}) s4 Hs4) as [b4 E4].
  eapply ends_first; [exact E4|]. intros s5 Hs5.
  eapply ends_first.
  { eapply at_start_runs; [exact Hs5|apply runs_call|..]; by destruct Hs5 as (? & ? & ?). }
  intros s6 Hs6. cbv beta. eapply (ends_first _ _ _ tt _ _ (at_start r p)).
  { destruct Hs6 as (? & ? & ?). eapply ends_exact; [reflexivity|]. by repeat split. }
  intros s7 Hs7. by eapply open_pipe.
Qed.

(** With another version of sctplib the constructor returns before it sets the
    break pipe, so that the destructor closes descriptor 0, twice. *)
Lemma version_mismatch s :
  at_start (-1000) (0, 0) s -> sctp_getLibraryVersion (world (sys s)) <> sctpVersion ->
  ends new_SCTPSocketMaster s tt (at_start (-1000) (0, 0)).
Proof.
  intros Hs Hv. unfold new_SCTPSocketMaster. eapply ends_bind; [reflexivity|]. cbv beta.
  rewrite bool_decide_true by (by destruct Hs as (_ & -> & _)).
  eapply ends_bind.
  { unfold versionCheck, lift, ask, bind, gets, ret. reflexivity. }
  cbn [world sys set_sys]. rewrite bool_decide_false by done. by eapply ends_exact.
Qed.
End Constructor.

(** ** The end of the process *)

Lemma filter_all {X} (P : X -> Prop) `{!forall x, Decision (P x)} (l : list X) :
  Forall P l -> filter P l = l.
Proof. induction 1 as [|x l Hx Hl IH]; [done|]. by rewrite filter_cons_True, IH. Qed.
Lemma filter_none {X} (P : X -> Prop) `{!forall x, Decision (P x)} (l : list X) :
  Forall (fun x => ~ P x) l -> filter P l = [].
Proof. induction 1 as [|x l Hx Hl IH]; [done|]. by rewrite filter_cons_False. Qed.

Section Calls.
Context `{!Platform} `{!Kernel} `{!Master}.

(** What the destructor asks of sctplib and of the system. *)
Inductive Call : Type :=
  | CancelThread
  | StopTimer (timerID : Z)
  | AbortAssociation (assocID : Z)
  | DeleteAssociation (assocID : Z)
  | ReadClock
  | UnregisterInstance (instanceID : Z)
  | UnregisterUserCallback (fd : Z)
  | CloseDescriptor (fd : Z).
Definition perform (w : W) (c : Call) : W :=
  match c with
  | CancelThread => pthread_cancel w
  | StopTimer id => (sctp_stopTimer id w).2
  | AbortAssociation a => (sctp_abort a w).1
  | DeleteAssociation a => (sctp_deleteAssociation a w).2
  | ReadClock => (getMicroTime_ w).2
  | UnregisterInstance k => (sctp_unregisterInstance k w).2
  | UnregisterUserCallback fd => (sctp_unregisterUserCallback fd w).2
  | CloseDescriptor fd => (k_close fd w).2
  end.
(** The world after the calls, in this order. *)
Definition performed (calls : list Call) (w : W) : W := foldl perform w calls.
Lemma performed_app c1 c2 w : performed (c1 ++ c2) w = performed c2 (performed c1 w).
Proof. apply foldl_app. Qed.

(** The calls of a garbage collection, and the others. *)
Definition collecting (c : Call) : bool :=
  match c with ReadClock | UnregisterInstance _ => true | _ => false end.
Definition other_calls (calls : list Call) : list Call := filter (fun c => collecting c = false) calls.
Definition returned (calls : list Call) : list Z :=
  omap (fun c => match c with UnregisterInstance k => Some k | _ => None end) calls.
Lemma other_calls_app c1 c2 : other_calls (c1 ++ c2) = other_calls c1 ++ other_calls c2.
Proof. apply filter_app. Qed.
Lemma returned_app c1 c2 : returned (c1 ++ c2) = returned c1 ++ returned c2.
Proof. apply omap_app. Qed.
Lemma other_calls_id calls : Forall (fun c => collecting c = false) calls -> other_calls calls = calls.
Proof. apply filter_all. Qed.
Lemma returned_other calls : Forall (fun c => collecting c = false) calls -> returned calls = [].
Proof. induction 1 as [|c l Hc Hl IH]; [done|]. by destruct c. Qed.

(** What a garbage collection does to the instances [ks], when [closing] are
    the associations that are still closing. *)
Definition used (closing : list (@entry Z)) (k : Z) : Prop := instance_used k closing = true.
#[local] Instance used_dec closing k : Decision (used closing k) := decide (instance_used k closing = true).
Definition collect_calls (closing : list (@entry Z)) (ks : list Z) : list Call :=
  UnregisterInstance <$> filter (fun k => ~ used closing k) ks.
Definition left_over (closing : list (@entry Z)) (ks : list Z) : list Z := filter (used closing) ks.

Fixpoint abort_calls (closing : list (@entry Z)) (ks : list Z) : list Call :=
  match closing with
  | [] => []
  | it :: closing => [AbortAssociation it.1; DeleteAssociation it.1; ReadClock]
      ++ collect_calls closing ks ++ abort_calls closing (left_over closing ks)
  end.
Fixpoint kept_instances (closing : list (@entry Z)) (ks : list Z) : list Z :=
  match closing with
  | [] => ks
  | _ :: closing => kept_instances closing (left_over closing ks)
  end.
Definition aborted (closing : list (@entry Z)) : list Call :=
  mjoin ((fun e => [AbortAssociation e.1; DeleteAssociation e.1]) <$> closing).

Lemma other_collect closing ks : other_calls (collect_calls closing ks) = [].
Proof. unfold collect_calls. induction (filter _ ks) as [|k l IH]; [done|]. exact IH. Qed.
Lemma returned_collect closing ks : returned (collect_calls closing ks) = filter (fun k => ~ used closing k) ks.
Proof. unfold collect_calls. induction (filter _ ks) as [|k l IH]; [done|]. cbn. by f_equal. Qed.
Lemma left_over_split closing (ks : list Z) :
  filter (fun k => ~ used closing k) ks ++ left_over closing ks ≡ₚ ks.
Proof.
  unfold left_over. induction ks as [|k ks IH]; [done|]. rewrite !filter_cons.
  destruct (decide (used closing k)) as [Hk|Hk]; repeat case_decide; try done.
  - by rewrite <- Permutation_middle, IH.
  - simpl. by rewrite IH.
Qed.
Lemma left_over_nil ks : left_over [] ks = [].
Proof. apply filter_none. by apply Forall_forall. Qed.
Lemma left_over_ok closing ks : closing_ok ks -> closing_ok (left_over closing ks).
Proof.
  assert (Hf : forall Q : Z -> Prop, Forall Q ks -> Forall Q (left_over closing ks)).
  { intros Q Hl. apply Forall_forall. intros x [_ Hx]%list_elem_of_filter.
    by apply (proj1 (Forall_forall _ _) Hl). }
  intros [Hs Hr]. split; [|by apply Hf]. clear Hr Hf. unfold left_over.
  induction Hs as [|x l Hs IH Hx]; [constructor|].
  rewrite filter_cons. case_decide; [|exact IH]. constructor; [exact IH|].
  apply Forall_forall. intros z [_ Hz]%list_elem_of_filter. by apply (proj1 (Forall_forall _ _) Hx).
Qed.

Lemma other_aborts closing : forall ks, other_calls (abort_calls closing ks) = aborted closing.
Proof.
  induction closing as [|it closing IH]; intros ks; [done|].
  cbn [abort_calls]. rewrite !other_calls_app, other_collect, IH. done.
Qed.
Lemma returned_aborts closing : forall ks,
  returned (abort_calls closing ks) ++ kept_instances closing ks ≡ₚ ks.
Proof.
  induction closing as [|it closing IH]; intros ks; [done|].
  cbn [abort_calls kept_instances]. rewrite !returned_app, returned_collect. cbn [returned omap list_omap app].
  by rewrite <- app_assoc, IH, left_over_split.
Qed.
Lemma kept_ok closing : forall ks, closing_ok ks -> closing_ok (kept_instances closing ks).
Proof. induction closing; intros ks Hk; cbn [kept_instances]; [done|]. auto using left_over_ok. Qed.

(** No instance is returned before its associations are deleted. *)
Definition in_order (closing : list (@entry Z)) (calls : list Call) : Prop :=
  forall before k after, calls = before ++ UnregisterInstance k :: after ->
  forall e, e ∈ closing -> e.2 = k -> DeleteAssociation e.1 ∈ before.

Lemma in_order_skip closing calls calls' : in_order closing calls' ->
  (forall k, UnregisterInstance k ∈ calls -> ~ used closing k) -> in_order closing (calls ++ calls').
Proof.
  intros Ho Hc before k after E e He Hk.
  assert (Hu : used closing k).
  { apply existsb_exists. exists e. split; [by apply list_elem_of_In|]. by apply bool_decide_eq_true. }
  apply app_eq_inv in E as [(l & E1 & E2)|(l & E1 & E2)].
  - destruct l as [|c l]; cbn in E2.
    + rewrite app_nil_r in E1. subst calls calls'.
      pose proof (Ho [] k after eq_refl e He Hk) as Hin. by apply not_elem_of_nil in Hin.
    + injection E2 as <- E2. destruct (Hc k); [|done]. rewrite E1. apply elem_of_app. right. left.
  - rewrite E1. apply elem_of_app. right. eapply Ho; eauto.
Qed.
Lemma in_order_done e closing calls calls' : DeleteAssociation e.1 ∈ calls ->
  returned calls = [] -> in_order closing calls' -> in_order (e :: closing) (calls ++ calls').
Proof.
  intros Hd Hr Ho before k after E x Hx Hk.
  apply app_eq_inv in E as [(l & E1 & E2)|(l & E1 & E2)].
  - destruct l as [|c l]; cbn in E2.
    + rewrite app_nil_r in E1. subst calls'. subst calls.
      apply elem_of_cons in Hx as [->|Hx]; [done|].
      pose proof (Ho [] k after eq_refl x Hx Hk) as Hin. by apply not_elem_of_nil in Hin.
    + injection E2 as <- E2. rewrite E1, returned_app in Hr. cbn in Hr.
      by apply app_eq_nil in Hr as [_ ?].
  - rewrite E1. apply elem_of_app. apply elem_of_cons in Hx as [->|Hx]; [by left|].
    right. eapply Ho; eauto.
Qed.
Lemma in_order_aborts closing : forall ks calls, in_order [] calls ->
  in_order closing (abort_calls closing ks ++ calls).
Proof.
  induction closing as [|it closing IH]; intros ks calls Hc; [exact Hc|].
  cbn [abort_calls]. rewrite <- !app_assoc. apply in_order_done; [set_solver|done|].
  apply in_order_skip; [by apply IH|]. intros k Hk. unfold collect_calls in Hk.
  apply list_elem_of_fmap in Hk as (j & [= <-] & Hj). by apply list_elem_of_filter in Hj as [? _].
Qed.
End Calls.

(** ** The end of the process *)

Section Destructor.
Context `{!Platform} `{!Kernel} `{!Master}.
(** "sctp_abort() directly calls communicationLostNotification()". *)
Hypothesis abort_calls_back : forall a w, (sctp_abort a w).2 = [CommunicationLost a].
Hypothesis delete_succeeds : forall a w, (sctp_deleteAssociation a w).1 = 0.
Hypothesis unregister_succeeds : forall i w, (sctp_unregisterInstance i w).1 = 0.
Variable depth : nat.
Notation deliver := (dispatch (S depth)).

(** [y], with what the collections change. *)
Definition collected (w : W) (now : Z) (instances : list Z) (closing : list (@entry Z)) (y : Sys) : Sys :=
  set_world w (set_LastGarbageCollection now
    (set_ClosingSockets instances (set_ClosingAssociations closing y))).
Ltac collected_members := cbn [ClosingAssociations ClosingSockets SocketList collected set_world
  set_ClosingAssociations set_ClosingSockets set_LastGarbageCollection eta_Sys].
Ltac runs_member :=
  eapply runs_bind; [apply runs_gets; intros; first [by apply (relock_proj ClosingAssociations)
    | by apply (relock_proj ClosingSockets) | by apply (relock_proj SocketList)]|];
  cbv beta; collected_members.

Lemma collect_instance_runs l k y :
  runs l (collect_instance k) y tt l
    (if instance_used k (ClosingAssociations y) then y
     else set_world (sctp_unregisterInstance k (world y)).2
       (set_ClosingSockets (set_erase k (ClosingSockets y)) y)).
Proof.
  intros ce old. exists old. unfold collect_instance, bind, gets.
  rewrite (relock_proj ClosingAssociations) by done.
  destruct (instance_used k (ClosingAssociations y)); [done|]. cbn [negb when].
  unfold modify, call. rewrite (relock_proj ClosingSockets) by done. cbn [world set_ClosingSockets eta_Sys].
  rewrite (relock_proj world) by done.
  pose proof (unregister_succeeds k (world y)) as Hr.
  destruct (sctp_unregisterInstance k (world y)) as [r w]. cbn in Hr. subst r.
  cbn. f_equal.
  by rewrite (relock_set (set_ClosingSockets (set_erase k (ClosingSockets y)))),
    (relock_set (set_world w)).
Qed.

Lemma closing_split pre k ks : closing_ok (pre ++ k :: ks) ->
  set_next k (pre ++ k :: ks) = Some (head ks) /\ set_erase k (pre ++ k :: ks) = pre ++ ks /\ u16 k = k.
Proof.
  intros Hok. split_and!; [| |apply (closing_u16 _ _ Hok); set_solver].
  - destruct Hok as [Hs _]. induction pre as [|x pre IH]; cbn; [by rewrite decide_True|].
    apply StronglySorted_inv in Hs as [Hs Hx]. rewrite decide_False; [by apply IH|].
    intros ->. apply (proj1 (Forall_forall _ _)) with (x := k) in Hx; [lia|set_solver].
  - destruct Hok as [Hs _]. apply StronglySorted_app in Hs as (Hpre & _ & Hs).
    apply StronglySorted_inv in Hs as [_ Hks]. unfold set_erase. rewrite filter_app, filter_cons_False by tauto.
    f_equal; apply filter_all, Forall_forall; intros x Hx Ex; subst x.
    + specialize (Hpre k k Hx). assert (k < k); [apply Hpre; left|lia].
    + apply (proj1 (Forall_forall _ _) Hks k) in Hx. lia.
Qed.

(** The loop over the closing instances, of which those before the iterator
    were left over. *)
Lemma collect_runs l closing y now ks : forall pre fuel w,
  closing_ok (pre ++ ks) -> (length ks <= fuel)%nat ->
  runs l (collect_instances fuel (head ks)) (collected w now (pre ++ ks) closing y) tt l
    (collected (performed (collect_calls closing ks) w) now (pre ++ left_over closing ks) closing y).
Proof.
  induction ks as [|k ks IH]; intros pre fuel w Hok Hf.
  - unfold left_over. rewrite filter_nil, app_nil_r. destruct fuel; apply runs_ret.
  - destruct fuel as [|fuel]; cbn [length] in Hf; [lia|]. cbn [head collect_instances].
    destruct (closing_split pre k ks Hok) as (Hn & He & Hu). rewrite Hu.
    runs_member. rewrite Hn. eapply runs_bind; [apply runs_ret|]. cbv beta.
    eapply runs_bind; [apply collect_instance_runs|]. collected_members. cbn [world set_world eta_Sys].
    unfold collect_calls, left_over. rewrite !filter_cons.
    destruct (instance_used k closing) eqn:Ek.
    + rewrite decide_False by (unfold used; tauto). rewrite decide_True by done.
      specialize (IH (pre ++ [k]) fuel w). rewrite <- !app_assoc in IH. apply IH; [done|lia].
    + rewrite decide_True by (unfold used; congruence). rewrite decide_False by (unfold used; congruence).
      rewrite He. apply (IH pre fuel (sctp_unregisterInstance k w).2); [|lia].
      rewrite <- He. by apply set_erase_ok.
Qed.

(** A garbage collection without sockets. *)
Lemma socketGarbageCollection_runs d l w now instances closing y :
  level_ok (l + 1) -> level_ok l -> SocketList y = [] -> closing_ok instances ->
  runs l (socketGarbageCollection (dispatch d)) (collected w now instances closing y) tt l
    (collected (performed (ReadClock :: collect_calls closing instances) w) (getMicroTime_ w).1
       (left_over closing instances) closing y).
Proof.
  intros Hl1 Hl Hs Hi. unfold socketGarbageCollection.
  rstep. rstep. eapply runs_bind; [by apply runs_assign|]. cbv beta. collected_members.
  runs_member. rewrite Hs. cbn [length head autoclose_sockets].
  eapply runs_bind; [apply runs_ret|]. runs_member.
  eapply runs_bind; [|apply runs_unlock, Hl].
  apply (collect_runs (l + 1) closing y (getMicroTime_ w).1 instances [] (length instances)
           (getMicroTime_ w).2 Hi (le_n _)).
Qed.

(** An abort takes the association off the list. *)
Lemma raw_abort_runs l w now instances it closing y :
  level_ok (l + 1) -> level_ok l -> SocketList y = [] -> closing_ok instances ->
  exists now',
    runs l (raw_abort deliver it.1) (collected w now instances (it :: closing) y) tt l
      (collected (performed ([AbortAssociation it.1; DeleteAssociation it.1; ReadClock]
                    ++ collect_calls closing instances) w) now' (left_over closing instances) closing y).
Proof.
  intros Hl1 Hl Hs Hi. set (w1 := (sctp_abort it.1 w).1). set (w2 := (sctp_deleteAssociation it.1 w1).2).
  pose proof (socketGarbageCollection_runs depth l w2 now instances closing y Hl1 Hl Hs Hi) as Hr.
  eexists. unfold raw_abort.
  assert (instance_lost : mm_find it.1 (it :: closing) = Some it) by (cbn; by rewrite decide_True).
  eapply (runs_bind _ _ _ _ [CommunicationLost it.1] l
            (set_world w1 (collected w now instances (it :: closing) y))).
  { intros ce old. exists old. rewrite (relock_proj world) by done.
    rewrite (surjective_pairing (sctp_abort it.1 _)). cbn [world collected set_world eta_Sys].
    rewrite abort_calls_back. f_equal. by apply (relock_set (set_world w1)). }
  cbn [dispatch for_each handle]. eapply runs_bind; [|apply runs_ret].
  unfold communicationLostNotif. eapply (runs_bind _ _ _ _ true); [|apply runs_ret].
  unfold associationGarbageCollection. runs_member. rewrite instance_lost.
  cbn [when]. eapply runs_bind; [apply runs_ret|].
  eapply (runs_bind _ _ _ _ tt l (set_world w2 (collected w now instances (it :: closing) y))).
  { unfold raw_delete. eapply runs_bind; [apply runs_call|]. cbv beta.
    cbn [world collected set_world eta_Sys]. rewrite delete_succeeds. apply runs_ret. }
  runs_member. unfold mm_erase_at. rewrite decide_True by left. cbn [mm_erase]. rewrite decide_True by done.
  eapply runs_bind; [apply runs_ret|]. cbv beta.
  eapply (runs_bind _ _ _ _ tt l (collected w2 now instances closing y)).
  { by eapply runs_eq; [by apply runs_assign|..]. }
  eapply runs_bind; [exact Hr|apply runs_ret].
Qed.

Lemma abort_all_runs l closing : forall w now instances y,
  level_ok (l + 1) -> level_ok l -> SocketList y = [] -> closing_ok instances ->
  exists now',
    runs l (abort_associations deliver (length closing)) (collected w now instances closing y) tt l
      (collected (performed (abort_calls closing instances) w) now' (kept_instances closing instances) [] y).
Proof.
  induction closing as [|it closing IH]; intros w now instances y Hl1 Hl Hs Hi.
  - exists now. cbn [length abort_associations]. runs_member. apply runs_ret.
  - destruct (raw_abort_runs l w now instances it closing y Hl1 Hl Hs Hi) as (n1 & Hr1).
    destruct (IH (performed ([AbortAssociation it.1; DeleteAssociation it.1; ReadClock]
       ++ collect_calls closing instances) w) n1 (left_over closing instances) y Hl1 Hl Hs)
      as (n2 & Hr2); [by apply left_over_ok|].
    exists n2. cbn [length abort_associations]. runs_member.
    eapply runs_bind; [exact Hr1|]. cbn [abort_calls].
    rewrite (app_assoc _ (collect_calls _ _)), (performed_app (_ ++ collect_calls _ _)). exact Hr2.
Qed.

Definition cancel_calls (y : Sys) : list Call := if ThreadRunning y then [CancelThread] else [].
Definition timer_calls (y : Sys) : list Call :=
  if bool_decide (GarbageCollectionTimerID y = -1) then [] else [StopTimer (GarbageCollectionTimerID y)].

Lemma cancel_runs l y : runs l cancel y tt l (set_world (performed (cancel_calls y) (world y)) y).
Proof.
  unfold cancel, cancel_calls.
  eapply runs_bind; [apply runs_gets; intros; by apply (relock_proj ThreadRunning)|].
  destruct (ThreadRunning y) eqn:E.
  - intros ce old. exists old. cbn [when]. unfold modify. rewrite (relock_proj world) by done.
    f_equal. by apply (relock_set (set_world _)).
  - eapply runs_eq; [apply runs_ret|done|done|]. by destruct y.
Qed.
Lemma stop_timer_runs l y :
  runs l stop_timer y tt l
    (set_world (performed (timer_calls y) (world y)) (set_GarbageCollectionTimerID (-1) y)).
Proof.
  unfold stop_timer, timer_calls.
  eapply runs_bind; [apply runs_gets; intros; by apply (relock_proj GarbageCollectionTimerID)|].
  case_bool_decide as E; case_bool_decide as E'; try tauto; cbn [when].
  - eapply runs_bind; [apply runs_call|]. cbv beta. by eapply runs_eq; [by apply runs_assign|..].
  - eapply runs_eq; [apply runs_ret|done|done|]. destruct y; cbn in *; by subst.
Qed.

(** The calls of the destructor before the pipe. *)
Definition ending_calls (y : Sys) : list Call :=
  let closing := ClosingAssociations y in
  let kept := kept_instances closing (ClosingSockets y) in
  cancel_calls y ++ timer_calls y ++ abort_calls closing (ClosingSockets y)
    ++ ReadClock :: collect_calls [] kept.

Lemma stop_collecting_runs l y :
  level_ok (l + 1) -> level_ok l -> level_ok (l + 1 + 1) -> SocketList y = [] ->
  closing_ok (ClosingSockets y) ->
  exists now,
    runs l (stop_collecting deliver) y tt l
      (collected (performed (ending_calls y) (world y)) now [] []
         (set_GarbageCollectionTimerID (-1) (set_ThreadRunning false y))).
Proof.
  intros Hl1 Hl Hl2 Hs Hi.
  set (y1 := set_GarbageCollectionTimerID (-1) (set_ThreadRunning false y)).
  pose proof (cancel_runs (l + 1) y) as Hc. set (w1 := performed (cancel_calls y) (world y)) in *.
  pose proof (stop_timer_runs (l + 1) (set_ThreadRunning false (set_world w1 y))) as Ht.
  set (w2 := performed (timer_calls y) w1).
  destruct (abort_all_runs (l + 1) (ClosingAssociations y) w2 (LastGarbageCollection y)
              (ClosingSockets y) y1 Hl2 Hl1 Hs Hi) as (n3 & Ha).
  pose proof (socketGarbageCollection_runs (S depth) l
    (performed (abort_calls (ClosingAssociations y) (ClosingSockets y)) w2) n3
    (kept_instances (ClosingAssociations y) (ClosingSockets y)) [] y1 Hl1 Hl Hs (kept_ok _ _ Hi)) as Hg.
  rewrite left_over_nil in Hg. eexists. unfold ending_calls. rewrite !performed_app. unfold stop_collecting.
  rstep. eapply runs_bind; [exact Hc|]. eapply runs_bind; [by apply runs_assign|]. cbv beta.
  eapply runs_bind; [apply runs_unlock, Hl|]. rstep. eapply runs_bind; [exact Ht|]. cbv beta.
  eapply runs_bind; [apply runs_gets; intros; by apply (relock_proj ClosingAssociations)|]. cbv beta.
  eapply runs_bind; [exact Ha|]. eapply runs_bind; [apply runs_unlock, Hl|].
  eapply runs_bind; [exact Hg|]. unfold join.
  eapply runs_bind; [apply runs_gets; intros; by apply (relock_proj ThreadRunning)|]. apply runs_ret.
Qed.

Lemma deleteUserSocketNotification_runs y n :
  UserNotifications y !! BreakNotification = Some n ->
  runs 0 (deleteUserSocketNotification BreakNotification) y tt 0
    (set_world (perform (world y) (UnregisterUserCallback (un_FileDescriptor n))) y).
Proof.
  intros Hn. unfold deleteUserSocketNotification.
  eapply runs_bind; [by apply runs_lock|]. cbv beta.
  eapply (runs_bind _ _ _ _ n (0 + 1) y).
  { intros ce old. exists old. unfold user_notification. by rewrite (relock_proj UserNotifications), Hn. }
  eapply runs_bind; [apply runs_call|]. by apply runs_unlock.
Qed.

(** The break pipe: both of its ends are closed. *)
Definition pipe_calls (n : UserSocketNotification) (pipe : Z * Z) : list Call :=
  if bool_decide (pipe.1 = -1) then []
  else [UnregisterUserCallback (un_FileDescriptor n); CloseDescriptor pipe.1; CloseDescriptor pipe.2].

(** What is left of the library. *)
Record ended (y : Sys) : Prop := {
  no_associations : ClosingAssociations y = [];
  no_instances : ClosingSockets y = [];
  no_timer : GarbageCollectionTimerID y = -1;
  no_thread : ThreadRunning y = false;
  lock_free : LockLevel y = 0 }.

Lemma remove_pipe s n :
  ended (sys s) -> UserNotifications (sys s) !! BreakNotification = Some n ->
  exists s', (let* pipe := lift (gets BreakPipe) in
     if bool_decide (pipe.1 <> -1) then
       lift (deleteUserSocketNotification BreakNotification) ;; close_BreakPipe
     else ret tt) s = Ret tt s'
    /\ ended (sys s') /\ (BreakPipe (sys s')).1 = -1
    /\ world (sys s') = performed (pipe_calls n (BreakPipe (sys s))) (world (sys s)).
Proof.
  intros He Hn. unfold bind at 1, lift at 1, gets at 1, pipe_calls.
  case_bool_decide as Hp; case_bool_decide as Hq; try tauto.
  - pose proof (deleteUserSocketNotification_runs (sys s) n Hn) as Hd.
    destruct (lift_runs _ (set_sys (sys s) s) tt _ (lock_free _ He) Hd) as (ce & old & E1).
    unfold bind. rewrite E1. destruct (close_pipe_world (set_sys (relock 0 ce old (set_world
      (perform (world (sys s)) (UnregisterUserCallback (un_FileDescriptor n))) (sys s)))
      (set_sys (sys s) s))) as (s' & E & HS).
    exists s'. split; [exact E|]. rewrite HS. destruct He as [? ? ? ? ?]. split; [split; [done|done|done|done|done]|]. split; [done|]. done.
  - eexists. split; [reflexivity|]. by split.
Qed.

(** C29. The end of the process.  When all sockets are deleted, the
    destructor of the socket master ends, and what it has asked of sctplib and
    of the system meanwhile is this, apart from the clock: it cancels the event
    thread if it runs, stops the timer if there is one, aborts and deletes each
    association that is still closing, in their order, and takes the break pipe
    from sctplib and closes both of its ends.  Every closing instance is
    returned to sctplib once, and not before all of its associations are
    deleted.  No closing association or instance is left, and the lock is free.
    This is for a sctplib whose [sctp_abort] reports the loss of the association
    before it returns, as the code's comment says, and whose deletions of
    associations and instances succeed: where one fails, the code aborts the
    process. *)
Theorem master_destroyed (s : Api) (n : UserSocketNotification)
    (Hl : LockLevel (sys s) = 0) (Hs : SocketList (sys s) = [])
    (Hi : closing_ok (ClosingSockets (sys s)))
    (Hn : UserNotifications (sys s) !! BreakNotification = Some n) :
  exists s' calls, delete_SCTPSocketMaster (dispatch (S depth)) s = Ret tt s'
    /\ world (sys s') = performed calls (world (sys s))
    /\ other_calls calls =
         (if ThreadRunning (sys s) then [CancelThread] else [])
         ++ (if bool_decide (GarbageCollectionTimerID (sys s) = -1) then []
             else [StopTimer (GarbageCollectionTimerID (sys s))])
         ++ mjoin ((fun e => [AbortAssociation e.1; DeleteAssociation e.1]) <$> ClosingAssociations (sys s))
         ++ (if bool_decide ((BreakPipe (sys s)).1 = -1) then []
             else [UnregisterUserCallback (un_FileDescriptor n); CloseDescriptor (BreakPipe (sys s)).1;
                   CloseDescriptor (BreakPipe (sys s)).2])
    /\ returned calls ≡ₚ ClosingSockets (sys s)
    /\ (forall before k after, calls = before ++ UnregisterInstance k :: after ->
        forall e, e ∈ ClosingAssociations (sys s) -> e.2 = k -> DeleteAssociation e.1 ∈ before)
    /\ ended (sys s') /\ (BreakPipe (sys s')).1 = -1.
Proof.
  destruct (stop_collecting_runs 0 (sys s)) as (now & Hr); [unfold level_ok; lia..|done|done|].
  set (y1 := collected _ now [] [] _) in Hr.
  destruct (lift_runs _ s tt _ Hl Hr) as (ce & old & E).
  destruct (remove_pipe (set_sys (relock 0 ce old y1) s) n) as (s' & E' & He & Hp & Hw);
    [by repeat split|done|].
  exists s', (ending_calls (sys s) ++ pipe_calls n (BreakPipe (sys s))).
  split; [unfold delete_SCTPSocketMaster, bind at 1; by rewrite E|].
  split; [by rewrite performed_app, Hw|].
  assert (Hpipe : Forall (fun c => collecting c = false) (pipe_calls n (BreakPipe (sys s))))
    by (unfold pipe_calls; case_bool_decide; repeat constructor).
  assert (Hcancel : Forall (fun c => collecting c = false) (cancel_calls (sys s)))
    by (unfold cancel_calls; case_match; repeat constructor).
  assert (Htimer : Forall (fun c => collecting c = false) (timer_calls (sys s)))
    by (unfold timer_calls; case_bool_decide; repeat constructor).
  unfold ending_calls. rewrite <- !app_assoc. cbn [app]. split_and!; try done.
  - rewrite !other_calls_app. cbn [other_calls]. rewrite other_aborts, !other_calls_id by done.
    change (other_calls (ReadClock :: ?l)) with (other_calls l).
    rewrite other_calls_app, other_collect, other_calls_id by done. done.
  - rewrite !returned_app, !returned_other by done. cbn [app].
    change (returned (ReadClock :: ?l)) with (returned l).
    rewrite returned_app, returned_collect, (returned_other (pipe_calls _ _)), app_nil_r by done.
    rewrite (filter_all _ (kept_instances _ _)) by (by apply Forall_forall).
    apply returned_aborts.
  - apply in_order_skip; [|by intros k Hk; apply (proj1 (Forall_forall _ _) Hcancel) in Hk].
    apply in_order_skip; [|by intros k Hk; apply (proj1 (Forall_forall _ _) Htimer) in Hk].
    apply in_order_aborts. intros ? ? ? _ e He'. by apply not_elem_of_nil in He'.
Qed.
End Destructor.

(** ** A concrete end: two associations and their instance are closing *)

#[export] Instance demo_master : @Master demo := {|
  lp_Rest := unit; SCTP_CHECKSUM_ALGORITHM_CRC32C := 1; SCTP_CHECKSUM_ALGORITHM_ADLER32 := 2;
  sctpVersion := 65539; SCTP_OVER_UDP := true;
  sctp_getLibraryVersion w := 65539; sctp_initLibrary w := (0, w);
  sctp_getLibraryParameters w := Some {| sendOotbAborts := 1; checksumAlgorithm := 2; lp_rest := tt |};
  sctp_setLibraryParameters p w := (0, w);
  sctp_startTimer sec usec w := (1, w); sctp_stopTimer id w := (0, w);
  sctp_events w := (w, []); pthread_cancel w := w; pthread_join w := w;
  BreakNotification := 9 |}.

Definition demo_closing : @Api demo := {|
  sys := set_ClosingAssociations [(5, 1); (6, 1)] (set_ClosingSockets [1]
    (set_SocketList [] (set_BreakPipe (3, 4) (set_GarbageCollectionTimerID 1
      (set_UserNotifications {[ 9%nat := {| un_FileDescriptor := 3; un_EventMask := 3; un_Events := 0 |} ]}
        (demo_boot udp_flags))))));
  Sockets := []; errno := 0 |}.

Lemma master_destroyed_witness :
  LockLevel (sys demo_closing) = 0
  /\ exists s' calls, delete_SCTPSocketMaster (dispatch 1) demo_closing = Ret tt s'
    /\ other_calls calls =
         [CancelThread; StopTimer 1; AbortAssociation 5; DeleteAssociation 5; AbortAssociation 6; DeleteAssociation 6;
          UnregisterUserCallback 3; CloseDescriptor 3; CloseDescriptor 4]
    /\ returned calls ≡ₚ [1] /\ ended (sys s').
Proof.
  split; [reflexivity|].
  destruct (@master_destroyed demo demo_kernel demo_master (fun a w => eq_refl) (fun a w => eq_refl)
              (fun i w => eq_refl) 0 demo_closing
              {| un_FileDescriptor := 3; un_EventMask := 3; un_Events := 0 |})
    as (s' & calls & E & _ & Ho & Hr & _ & He & _).
  - reflexivity.
  - reflexivity.
  - split; vm_compute; repeat constructor; discriminate.
  - reflexivity.
  - exists s', calls. split; [exact E|]. split; [rewrite Ho; vm_compute; reflexivity|].
    split; [exact Hr|exact He].
Defined.
(** The constructor on the static members, and the destructor. *)
Example demo_life :
  match (new_SCTPSocketMaster ;; delete_SCTPSocketMaster (dispatch 1))
          {| sys := static_members (sys demo_closing); Sockets := []; errno := 0 |} with
  | Ret _ s => InitializationResult (sys s) = 0 /\ BreakPipe (sys s) = (-1, -1) /\ LockLevel (sys s) = 0
      /\ ClosingAssociations (sys s) = []
  | Stop _ => False
  end.
Proof. vm_compute. repeat split. Qed.
