(* ===== verification/StreamTimeouts.v ===== *)
(** * The default stream time-outs of an association

    Correctness of the array operations behind
    [SCTPAssociation::setDefaultStreamTimeouts] and [getDefaultStreamTimeout]
    ([Association.set_stream_timeouts], [Association.get_stream_timeout]). *)

From S2P Require Import Prelude State Association.
Local Open Scope Z_scope.

(** A step of a loop over an array that changes element [i] only. *)
Definition pointwise (f : nat -> list StreamDefaultTimeout -> list StreamDefaultTimeout)
    (h : nat -> StreamDefaultTimeout -> StreamDefaultTimeout) : Prop :=
  forall i arr j, f i arr !! j = if decide (i = j) then h i <$> arr !! j else arr !! j.

Lemma pointwise_insert v : pointwise (fun i arr => <[i := v i]> arr) (fun i _ => v i).
Proof.
  intros i arr j. case_decide as Hij; [subst j|by rewrite list_lookup_insert_ne].
  destruct (decide (i < length arr)%nat) as [Hl|Hl].
  - rewrite list_lookup_insert_eq by done. apply lookup_lt_is_Some in Hl as [x ->]. done.
  - rewrite list_insert_ge by lia. rewrite lookup_ge_None_2 by lia. done.
Qed.

Lemma pointwise_alter h : pointwise (fun i arr => alter (h i) i arr) h.
Proof.
  intros i arr j. case_decide as Hij; [subst j; apply list_lookup_alter_eq|].
  by rewrite list_lookup_alter_ne.
Qed.

Lemma for_range_lookup f h lo hi arr j :
  pointwise f h ->
  for_range lo hi f arr !! j
  = if decide (lo <= j < hi)%nat then h j <$> arr !! j else arr !! j.
Proof.
  intros Hf. unfold for_range.
  destruct (decide (hi <= lo)%nat) as [Hle|Hle].
  { replace (hi - lo)%nat with 0%nat by lia. simpl. rewrite decide_False by lia. done. }
  replace hi with (lo + (hi - lo))%nat by lia.
  replace (lo + (hi - lo) - lo)%nat with (hi - lo)%nat by lia.
  generalize (hi - lo)%nat as n. clear Hle. intros n. revert lo arr.
  induction n as [|n IH]; intros lo arr; simpl.
  { rewrite decide_False by lia. done. }
  rewrite IH, Hf. repeat case_decide; try lia; subst; try done.
Qed.

(** The array and the counter belong together. *)
Definition timeouts_ok (array : option (list StreamDefaultTimeout)) (count : Z) : Prop :=
  match array with
  | Some l => Z.of_nat (length l) = count
  | None => count = 0
  end.

(** The time-out of a stream, as the abstract function the array implements. *)
Definition timeout_of (array : option (list StreamDefaultTimeout)) (i : nat) : option Z :=
  match array ≫= (fun l => l !! i) with
  | Some t => if sdt_Valid t then Some (sdt_Timeout t) else None
  | None => None
  end.

Lemma get_stream_timeout_spec array count i :
  timeouts_ok array count -> 0 <= i ->
  get_stream_timeout i array count = Ret (timeout_of array (Z.to_nat i)) tt.
Proof.
  intros Hok Hi. unfold get_stream_timeout, timeout_of.
  destruct array as [l|]; simpl in *; subst count.
  - case_bool_decide as Hlt.
    + destruct (lookup_lt_is_Some_2 l (Z.to_nat i)) as [t Ht]; [lia|]. by rewrite Ht.
    + rewrite lookup_ge_None_2 by lia. done.
  - rewrite bool_decide_false by lia. done.
Qed.

Lemma length_pointwise f h arr i : pointwise f h -> length (f i arr) = length arr.
Proof.
  intros Hf. assert (Hsame : forall j, is_Some (f i arr !! j) <-> is_Some (arr !! j)).
  { intros j. rewrite Hf. case_decide; [apply fmap_is_Some|done]. }
  apply Nat.le_antisymm; apply Nat.nlt_ge; intros Hlt;
    [ destruct (proj1 (Hsame (length arr))) as [x Hx]
    | destruct (proj2 (Hsame (length (f i arr)))) as [x Hx] ];
    try (by apply lookup_lt_is_Some_2); apply lookup_lt_Some in Hx; lia.
Qed.

Lemma length_for_range f h lo hi arr :
  pointwise f h -> length (for_range lo hi f arr) = length arr.
Proof.
  intros Hf. unfold for_range. generalize (seq lo (hi - lo)) as idx. intros idx.
  revert arr. induction idx as [|i idx IH]; intros arr; simpl; [done|].
  rewrite IH. by eapply length_pointwise.
Qed.

Section Set_.
Variables (past_end fill : StreamDefaultTimeout) (timeout : Z).

Lemma set_timeout_pointwise :
  pointwise (set_timeout timeout) (fun _ _ => {| sdt_Valid := true; sdt_Timeout := timeout |}).
Proof. apply pointwise_insert. Qed.
Lemma set_invalid_pointwise :
  pointwise set_invalid (fun _ t => {| sdt_Valid := false; sdt_Timeout := sdt_Timeout t |}).
Proof. apply (pointwise_alter (fun _ t => _)). Qed.
Lemma copy_timeout_pointwise old :
  pointwise (copy_timeout past_end old) (fun i _ => default past_end (old !! i)).
Proof. apply (pointwise_insert (fun i => default past_end (old !! i))). Qed.

(** The array after the branch that allocates a new one. *)
Lemma grown_array_lookup start end_ array count j :
  timeouts_ok array count -> 0 <= start <= end_ -> count < end_ + 1 ->
  let new := replicate (Z.to_nat (end_ + 1)) fill in
  let copied := match array with
                | Some old => for_range 0 (Z.to_nat (count + 1)) (copy_timeout past_end old) new
                | None => new
                end in
  let arr := for_range (Z.to_nat start) (Z.to_nat (end_ + 1)) (set_timeout timeout)
               (for_range (Z.to_nat count) (Z.to_nat start) set_invalid copied) in
  length arr = Z.to_nat (end_ + 1)
  /\ timeout_of (Some arr) j
     = if decide (start <= Z.of_nat j <= end_) then Some timeout else timeout_of array j.
Proof.
  intros Hok Hr Hc. simpl.
  pose proof set_timeout_pointwise as Pt. pose proof set_invalid_pointwise as Pi.
  assert (Hcount : 0 <= count) by (destruct array; simpl in Hok; lia).
  split.
  { rewrite !(length_for_range _ _ _ _ _ Pt), !(length_for_range _ _ _ _ _ Pi).
    destruct array as [old|]; [rewrite (length_for_range _ _ _ _ _ (copy_timeout_pointwise old))|];
      apply length_replicate. }
  unfold timeout_of at 1. simpl.
  rewrite (for_range_lookup _ _ _ _ _ _ Pt), (for_range_lookup _ _ _ _ _ _ Pi).
  destruct array as [old|]; simpl in Hok.
  - rewrite (for_range_lookup _ _ _ _ _ _ (copy_timeout_pointwise old)).
    unfold timeout_of. simpl.
    destruct (decide (Z.of_nat j <= end_)) as [Hj|Hj].
    + rewrite lookup_replicate_2 by lia.
      destruct (decide (j < length old)%nat) as [Hl|Hl].
      * destruct (lookup_lt_is_Some_2 old j Hl) as [t Ht]. rewrite Ht.
        repeat case_decide; simpl; done || lia.
      * rewrite lookup_ge_None_2 by lia. repeat case_decide; simpl; done || lia.
    + rewrite (lookup_ge_None_2 (replicate _ _)) by (rewrite length_replicate; lia).
      rewrite (lookup_ge_None_2 old) by lia. repeat case_decide; simpl; done || lia.
  - subst count. unfold timeout_of. simpl.
    destruct (decide (Z.of_nat j <= end_)) as [Hj|Hj].
    + rewrite lookup_replicate_2 by lia. repeat case_decide; simpl; done || lia.
    + rewrite lookup_ge_None_2 by (rewrite length_replicate; lia).
      repeat case_decide; simpl; done || lia.
Qed.
End Set_.

(** C4. [setDefaultStreamTimeouts(timeout, start, end)] on a consistent array
    gives a consistent array in which exactly the streams from [start] to [end]
    have the new time-out and every other stream keeps what it had: the streams
    between the old array and [start] have none.  This holds whatever the
    element behind the old array, which the copying loop reads, and the new
    storage contain. *)
Theorem set_stream_timeouts_lookup (past_end fill : StreamDefaultTimeout)
    (timeout start end_ : Z) array count
    (Hok : timeouts_ok array count) (Hrange : 0 <= start <= end_) :
  exists array' count',
    set_stream_timeouts past_end fill timeout start end_ array count = Some (array', count')
    /\ timeouts_ok array' count'
    /\ forall i, 0 <= i ->
         get_stream_timeout i array' count'
         = if decide (start <= i <= end_) then Ret (Some timeout) tt
           else get_stream_timeout i array count.
Proof.
  unfold set_stream_timeouts. rewrite (bool_decide_false (end_ < start)) by lia.
  case_bool_decide as Hfit.
  - destruct array as [l|]; simpl in Hok; [|lia]. simpl.
    pose proof (set_timeout_pointwise timeout) as Pt.
    eexists _, _. split; [reflexivity|]. split.
    { simpl. by rewrite (length_for_range _ _ _ _ _ Pt). }
    intros i Hi. rewrite !get_stream_timeout_spec; try done.
    2: { simpl. by rewrite (length_for_range _ _ _ _ _ Pt). }
    unfold timeout_of. simpl. rewrite (for_range_lookup _ _ _ _ _ _ Pt).
    repeat case_decide; try lia; [|done].
    destruct (lookup_lt_is_Some_2 l (Z.to_nat i)) as [t Ht]; [lia|]. by rewrite Ht.
  - eexists _, _. split; [reflexivity|].
    pose proof (fun j => grown_array_lookup past_end fill timeout start end_ array count j
                  Hok Hrange ltac:(lia)) as Hgrown. simpl in Hgrown.
    destruct (Hgrown 0%nat) as [Hlen _]. split; [simpl; rewrite Hlen; lia|].
    intros i Hi. rewrite !get_stream_timeout_spec; try done; [|simpl; rewrite Hlen; lia].
    destruct (Hgrown (Z.to_nat i)) as [_ ->]. rewrite Z2Nat.id by done. by case_decide.
Qed.

Lemma set_stream_timeouts_lookup_witness :
  timeouts_ok (Some [{| sdt_Valid := true; sdt_Timeout := 7 |}]) 1
  /\ exists array' count',
       set_stream_timeouts {| sdt_Valid := true; sdt_Timeout := 99 |}
         {| sdt_Valid := true; sdt_Timeout := 98 |} 50 3 4
         (Some [{| sdt_Valid := true; sdt_Timeout := 7 |}]) 1 = Some (array', count')
       /\ get_stream_timeout 0 array' count' = Ret (Some 7) tt
       /\ get_stream_timeout 2 array' count' = Ret None tt
       /\ get_stream_timeout 4 array' count' = Ret (Some 50) tt.
Proof.
  split; [reflexivity|].
  destruct (set_stream_timeouts_lookup {| sdt_Valid := true; sdt_Timeout := 99 |}
              {| sdt_Valid := true; sdt_Timeout := 98 |} 50 3 4
              (Some [{| sdt_Valid := true; sdt_Timeout := 7 |}]) 1
              eq_refl ltac:(lia)) as (array' & count' & Hset & _ & Hget).
  exists array', count'. split; [exact Hset|].
  rewrite !Hget by lia. by vm_compute.
Defined.
