(* ===== verification/LockDiscipline.v ===== *)
(** * The lock discipline of the library

    All operations run under the recursive mutex of [SCTPSocketMaster].
    [shifts I d m]: started in a state of [I], an [m] that returns [a] has
    changed the level of the mutex by [d a] and is again in [I]; levels are
    32-bit counters.  An operation is balanced when it shifts the level by 0. *)

From S2P Require Import Prelude MultiMap Memory Notification NotificationQueue State.
From S2P Require Import Association Socket SocketIO SocketOps SocketAssoc SocketMaster Demo.
From S2P Require Condition.
Local Open Scope Z_scope.

Create HintDb locks discriminated.

Section Shifts.
Context `{!Platform}.

Definition any_state (y : Sys) : Prop := True.

Definition shifts (I : Sys -> Prop) {A} (d : A -> Z) (m : P A) : Prop :=
  forall y, I y -> 0 <= LockLevel y < 2 ^ 32 ->
  match m y with
  | Ret a y' => I y' /\ LockLevel y' = u32 (LockLevel y + d a)
  | Stop _ => True
  end.

Definition balanced {A} (m : P A) : Prop := shifts any_state (fun _ => 0) m.

Lemma shifts_ext I {A} (d d' : A -> Z) (m : P A) :
  shifts I d' m -> (forall a, d' a = d a) -> shifts I d m.
Proof.
  intros Hm Hd y HI Hl. specialize (Hm y HI Hl). destruct (m y); [|done].
  by rewrite <- Hd.
Qed.

(** What an operation returns, started in a state of [I]. *)
Definition returns (I : Sys -> Prop) {A} (Q : A -> Prop) (m : P A) : Prop :=
  forall y, I y -> match m y with Ret a _ => Q a | Stop _ => True end.

Lemma shifts_bind_returns I {A B} (Q : A -> Prop) (d : B -> Z) (d1 : A -> Z)
    (m : P A) (k : A -> P B) :
  shifts I d1 m -> returns I Q m -> (forall a, Q a -> shifts I (fun b => d b - d1 a) (k a)) ->
  shifts I d (bind m k).
Proof.
  intros Hm HQ Hk y HI Hl. unfold bind. specialize (Hm y HI Hl). specialize (HQ y HI).
  destruct (m y) as [a y1|]; [|done]. destruct Hm as [HI1 Hl1].
  specialize (Hk a HQ y1 HI1). rewrite Hl1 in Hk. specialize (Hk (wrap_range 32 _ ltac:(lia))).
  destruct (k a y1) as [b y2|]; [|done]. destruct Hk as [HI2 Hl2]. split; [done|].
  rewrite Hl2. unfold wrap. rewrite Zplus_mod_idemp_l. f_equal. lia.
Qed.

Lemma shifts_bind I {A B} (d : B -> Z) (d1 : A -> Z) (m : P A) (k : A -> P B) :
  shifts I d1 m -> (forall a, shifts I (fun b => d b - d1 a) (k a)) -> shifts I d (bind m k).
Proof.
  intros Hm Hk. eapply (shifts_bind_returns I (fun _ => True)); [exact Hm| |auto].
  intros y _. by destruct (m y).
Qed.

Lemma returns_bind I {A B} (Q : A -> Prop) (Q' : B -> Prop) (m : P A) (k : A -> P B) :
  returns any_state Q m -> (forall a, Q a -> returns any_state Q' (k a)) ->
  returns I Q' (bind m k).
Proof.
  intros Hm Hk y _. unfold bind. specialize (Hm y Logic.I). destruct (m y) as [a y1|]; [|done].
  exact (Hk a Hm y1 Logic.I).
Qed.

Lemma returns_any I {A} (m : P A) : returns I (fun _ => True) m.
Proof. intros y _. by destruct (m y). Qed.

Lemma shifts_ret I {A} (d : A -> Z) (a : A) : d a = 0 -> shifts I d (ret a).
Proof.
  intros Hd y HI Hl. simpl. rewrite Hd, Z.add_0_r. by rewrite wrap_small.
Qed.

Lemma shifts_stop I {A} (d : A -> Z) f : shifts I d (stop f).
Proof. by intros y HI Hl. Qed.

(** A step that leaves the level alone. *)
Lemma shifts_keep I {A} (m : P A) :
  pres (fun y y' => LockLevel y' = LockLevel y /\ (I y -> I y')) m ->
  shifts I (fun _ => 0) m.
Proof.
  intros Hm y HI Hl. specialize (Hm y). destruct (m y) as [a y'|]; [|done].
  destruct Hm as [Hl' HI']. split; [auto|]. by rewrite Hl', Z.add_0_r, wrap_small.
Qed.

Lemma shifts_lock I : (forall y l ce old, I y -> I (set_LockLevel l (set_CancelEnabled ce
    (set_OldCancelState old y)))) -> shifts I (fun _ => 1) lock.
Proof.
  intros HI y Hy Hl. unfold lock. case_bool_decide; (split; [|done]).
  - apply (HI y (u32 (LockLevel y + 1)) false (CancelEnabled y) Hy).
  - apply (HI y (u32 (LockLevel y + 1)) false (OldCancelState y) Hy).
Qed.

Lemma shifts_unlock I : (forall y l ce old, I y -> I (set_LockLevel l (set_CancelEnabled ce
    (set_OldCancelState old y)))) -> shifts I (fun _ => -1) unlock.
Proof.
  intros HI y Hy Hl. unfold unlock. case_bool_decide as Hz; [done|].
  assert (Hw : LockLevel y - 1 = u32 (LockLevel y + -1)) by (rewrite wrap_small; lia).
  case_bool_decide; (split; [|exact Hw]).
  - apply (HI y (LockLevel y - 1) (OldCancelState y) (OldCancelState y) Hy).
  - apply (HI y (LockLevel y - 1) (CancelEnabled y) (OldCancelState y) Hy).
Qed.

Lemma shifts_when I (d : unit -> Z) (b : bool) (m : P unit) :
  d tt = 0 -> shifts I d m -> shifts I d (when b m).
Proof. intros Hd Hm. destruct b; [done|]. by apply shifts_ret. Qed.

Lemma shifts_of_option I {A} (d : A -> Z) f (o : option A) :
  (forall a, d a = 0) -> shifts I d (of_option f o).
Proof. destruct o; intros Hd; [by apply shifts_ret | apply shifts_stop]. Qed.

Lemma shifts_for_each I {A} (d : unit -> Z) (l : list A) (body : A -> P unit) :
  d tt = 0 -> (forall x, shifts I d (body x)) -> shifts I d (for_each l body).
Proof.
  intros Hd Hb. induction l as [|x l IH]; simpl; [by apply shifts_ret|].
  eapply shifts_bind; [apply Hb|]. intros []. eapply shifts_ext; [exact IH|].
  intros []. lia.
Qed.

Lemma shifts_balanced {A} (d : A -> Z) (m : P A) :
  balanced m -> (forall a, d a = 0) -> shifts any_state d m.
Proof. intros Hm Hd. eapply shifts_ext; [exact Hm|]. intros a. by rewrite Hd. Qed.

(** Primitive steps are balanced. *)
Lemma balanced_gets {A} (f : Sys -> A) : balanced (gets f).
Proof. apply shifts_keep. by intros y. Qed.
Lemma balanced_ask {A} (f : W -> A) : balanced (ask f).
Proof. apply balanced_gets. Qed.
Lemma balanced_call {A} (f : W -> A * W) : balanced (call f).
Proof. apply shifts_keep. intros y. unfold call. by destruct (f (world y)). Qed.
Lemma balanced_modify (f : Sys -> Sys) :
  (forall y, LockLevel (f y) = LockLevel y) -> balanced (modify f).
Proof. intros Hf. apply shifts_keep. intros y. simpl. by rewrite Hf. Qed.
Lemma balanced_assoc a : balanced (assoc a).
Proof. apply shifts_keep. intros y. unfold assoc. by destruct (assocs y !! a). Qed.
Lemma balanced_sock p : balanced (sock p).
Proof. apply shifts_keep. intros y. unfold sock. by destruct (sockets y !! p). Qed.
Lemma balanced_upd_assoc a f : balanced (upd_assoc a f).
Proof.
  apply shifts_keep. intros y. unfold upd_assoc, bind, assoc. by destruct (assocs y !! a).
Qed.
Lemma balanced_upd_sock p f : balanced (upd_sock p f).
Proof.
  apply shifts_keep. intros y. unfold upd_sock, bind, sock. by destruct (sockets y !! p).
Qed.
Lemma balanced_on_conditions {A} (m : Condition.C (K := cid) A) : balanced (on_conditions m).
Proof. apply shifts_keep. intros y. unfold on_conditions. by destruct (m (conditions y)). Qed.
Lemma balanced_lambda {A} (f : W -> W * A) :
  balanced (fun y => let '(w, cbs) := f (world y) in Ret cbs (set_world w y)).
Proof. apply shifts_keep. intros y. by destruct (f (world y)). Qed.
End Shifts.

#[export] Hint Resolve balanced_gets balanced_ask balanced_call balanced_assoc balanced_sock
  balanced_upd_assoc balanced_upd_sock balanced_on_conditions balanced_lambda : locks.
#[export] Hint Extern 1 (balanced (modify _)) =>
  (apply balanced_modify; intros; reflexivity) : locks.
#[export] Hint Extern 1 (balanced (broadcast _)) => apply balanced_on_conditions : locks.
#[export] Hint Extern 1 (balanced (new_Condition _)) => apply balanced_on_conditions : locks.
#[export] Hint Extern 1 (balanced (addParent _ _)) => apply balanced_on_conditions : locks.
#[export] Hint Extern 1 (balanced (fired _)) => apply balanced_on_conditions : locks.

(** Walk through an operation: [lock] counts 1, [unlock] -1, any other call 0;
    the leaves are closed with the database. *)
Ltac shifts_arith := intros; cbv beta; try lia.
Ltac shifts_leaf :=
  first
    [ apply shifts_balanced; [solve [assumption | eauto 3 with locks nocore] | shifts_arith]
    | eapply shifts_ext;
        [ solve [apply shifts_lock; done | apply shifts_unlock; done] | shifts_arith ] ].
Ltac shifts_step :=
  lazymatch goal with
  | |- forall _, _ => intro
  | |- balanced _ => unfold balanced
  | |- shifts _ ?d (bind lock _) =>
      eapply (shifts_bind _ d (fun _ => 1)); [apply shifts_lock; done | intro]
  | |- shifts _ ?d (bind unlock _) =>
      eapply (shifts_bind _ d (fun _ => -1)); [apply shifts_unlock; done | intro]
  | |- shifts _ ?d (bind _ _) => eapply (shifts_bind _ d (fun _ => 0)); [| intro]
  | |- shifts _ _ (ret _) => apply shifts_ret; shifts_arith
  | |- shifts _ _ (stop _) => apply shifts_stop
  | |- shifts _ _ (when _ _) => apply shifts_when; [shifts_arith |]
  | |- shifts _ _ (of_option _ _) => apply shifts_of_option; shifts_arith
  | |- shifts _ _ (for_each _ _) => apply shifts_for_each; [shifts_arith | intro]
  | |- shifts _ _ (match ?x with _ => _ end) => destruct x
  | |- shifts _ _ (let _ := _ in _) => cbv zeta
  | |- _ => shifts_leaf
  end.
Ltac shifts_auto := repeat shifts_step.

(** ** The operations that do not make sctplib call back *)

Section Balanced.
Context `{!Platform}.

Lemma balanced_delayedDeleteAssociation i a : balanced (delayedDeleteAssociation i a).
Proof. unfold delayedDeleteAssociation. shifts_auto. Qed.
Lemma balanced_new_SCTPAssociation p i f u : balanced (new_SCTPAssociation p i f u).
Proof. unfold new_SCTPAssociation. shifts_auto. Qed.
Lemma balanced_assoc_hasData a : balanced (assoc_hasData a).
Proof. unfold assoc_hasData. shifts_auto. Qed.
Lemma balanced_assoc_getID a : balanced (assoc_getID a).
Proof. unfold assoc_getID. shifts_auto. Qed.
Lemma balanced_assoc_getUpdateCondition a t : balanced (assoc_getUpdateCondition a t).
Proof. unfold assoc_getUpdateCondition. shifts_auto. Qed.
Lemma balanced_setDefaultStreamTimeouts pe fi a t s e :
  balanced (setDefaultStreamTimeouts pe fi a t s e).
Proof. unfold setDefaultStreamTimeouts. shifts_auto. Qed.
Lemma balanced_getDefaultStreamTimeout a i : balanced (getDefaultStreamTimeout a i).
Proof. unfold getDefaultStreamTimeout. shifts_auto. Qed.
Lemma balanced_assoc_getAssocIODefaults a : balanced (assoc_getAssocIODefaults a).
Proof. unfold assoc_getAssocIODefaults. shifts_auto. Qed.
Lemma balanced_assoc_setAssocIODefaults a d : balanced (assoc_setAssocIODefaults a d).
Proof. unfold assoc_setAssocIODefaults. shifts_auto. Qed.
Lemma balanced_status_member a f : balanced (status_member a f).
Proof. unfold status_member. shifts_auto. Qed.
Lemma balanced_set_status_member a f : balanced (set_status_member a f).
Proof. unfold set_status_member. shifts_auto. Qed.
Lemma balanced_assoc_setTrafficClass a t i : balanced (assoc_setTrafficClass a t i).
Proof. unfold assoc_setTrafficClass. shifts_auto. Qed.

Lemma balanced_getAssociationForAssociationID p i b :
  balanced (getAssociationForAssociationID p i b).
Proof. unfold getAssociationForAssociationID. shifts_auto. Qed.
Hint Resolve balanced_getAssociationForAssociationID : locks.
Lemma balanced_getErrorCode p i : balanced (getErrorCode p i).
Proof. unfold getErrorCode. shifts_auto. Qed.
Lemma balanced_sock_getAssocDefaults p : balanced (sock_getAssocDefaults p).
Proof. unfold sock_getAssocDefaults. shifts_auto. Qed.
Lemma balanced_sock_setAssocDefaults p d : balanced (sock_setAssocDefaults p d).
Proof. unfold sock_setAssocDefaults. shifts_auto. Qed.
Lemma balanced_sock_getAssocStatus i : balanced (sock_getAssocStatus i).
Proof. unfold sock_getAssocStatus. shifts_auto. Qed.
Lemma balanced_sock_setAssocStatus i st : balanced (sock_setAssocStatus i st).
Proof. unfold sock_setAssocStatus. shifts_auto. Qed.
Hint Resolve balanced_sock_getAssocStatus balanced_sock_setAssocStatus : locks.
Lemma balanced_assoc_getAssocStatus a : balanced (assoc_getAssocStatus a).
Proof. unfold assoc_getAssocStatus. shifts_auto. Qed.
Lemma balanced_assoc_setAssocStatus a st : balanced (assoc_setAssocStatus a st).
Proof. unfold assoc_setAssocStatus. shifts_auto. Qed.
Lemma balanced_getPathIndexForAddress i o : balanced (getPathIndexForAddress i o).
Proof.
  apply shifts_keep. intros y. unfold getPathIndexForAddress. by repeat case_match; simplify_eq.
Qed.
Hint Resolve balanced_getPathIndexForAddress : locks.
Lemma balanced_getPathParameters i o : balanced (getPathParameters i o).
Proof. unfold getPathParameters. shifts_auto. Qed.
Lemma balanced_setPathParameters i o p : balanced (setPathParameters i o p).
Proof. unfold setPathParameters. shifts_auto. Qed.
Lemma balanced_getPrimaryAddress i : balanced (getPrimaryAddress i).
Proof. unfold getPrimaryAddress. shifts_auto. Qed.
Lemma balanced_setPrimary i p : balanced (setPrimary i p).
Proof. unfold setPrimary. shifts_auto. Qed.
Lemma balanced_setPeerPrimary i p : balanced (setPeerPrimary i p).
Proof. unfold setPeerPrimary. shifts_auto. Qed.
Lemma balanced_sock_hasData p : balanced (sock_hasData p).
Proof. unfold sock_hasData. shifts_auto. Qed.
Hint Resolve balanced_sock_hasData : locks.
Lemma balanced_update_ReadReady p : balanced (update_ReadReady p).
Proof. unfold update_ReadReady. shifts_auto. Qed.
Lemma balanced_listen p b : balanced (listen p b).
Proof. unfold listen. shifts_auto. Qed.
End Balanced.

#[export] Hint Resolve balanced_delayedDeleteAssociation balanced_new_SCTPAssociation
  balanced_assoc_hasData balanced_assoc_getID balanced_assoc_getUpdateCondition
  balanced_setDefaultStreamTimeouts balanced_getDefaultStreamTimeout
  balanced_assoc_getAssocIODefaults balanced_assoc_setAssocIODefaults balanced_status_member
  balanced_set_status_member balanced_assoc_setTrafficClass
  balanced_getAssociationForAssociationID balanced_getErrorCode balanced_sock_getAssocDefaults
  balanced_sock_setAssocDefaults balanced_sock_getAssocStatus balanced_sock_setAssocStatus
  balanced_assoc_getAssocStatus balanced_assoc_setAssocStatus balanced_getPathIndexForAddress
  balanced_getPathParameters balanced_setPathParameters balanced_getPrimaryAddress
  balanced_setPrimary balanced_setPeerPrimary balanced_sock_hasData balanced_update_ReadReady
  balanced_listen : locks.

(** ** Waiting and accepting *)

Section Waiting.
Context `{!Platform}.

(** The other threads leave the mutex as they found it. *)
Definition schedule_ok (sched : schedule) : Prop := Forall balanced sched.

Lemma returns_ret I {A} (Q : A -> Prop) (a : A) : Q a -> returns I Q (ret a).
Proof. intros HQ y _. exact HQ. Qed.
Lemma returns_stop I {A} (Q : A -> Prop) f : returns I Q (stop f).
Proof. by intros y _. Qed.

Lemma poll_condition_returns ac c fuel : forall sched,
  schedule_ok sched -> returns any_state schedule_ok (poll_condition ac c fuel sched).
Proof.
  induction fuel as [|fuel IH]; intros sched Hs; simpl; [apply returns_stop|].
  eapply returns_bind; [apply returns_any|]. intros f _. destruct f; [by apply returns_ret|].
  destruct sched as [|others sched]; [apply returns_stop|].
  apply Forall_cons in Hs as [Ho Hs].
  eapply returns_bind; [apply returns_any|]. intros _ _.
  eapply returns_bind; [apply returns_any|]. intros f _. destruct f; [by apply returns_ret|].
  eapply returns_bind; [apply returns_any|]. intros _ _. by apply IH.
Qed.

Lemma balanced_poll_condition ac c fuel : forall sched,
  balanced ac -> schedule_ok sched -> balanced (poll_condition ac c fuel sched).
Proof.
  induction fuel as [|fuel IH]; intros sched Hac Hs; simpl; [shifts_auto|].
  destruct sched as [|others sched]; [|apply Forall_cons in Hs as [Ho Hs]; specialize (IH sched Hac Hs)];
    shifts_auto.
Qed.

Lemma balanced_wait_condition ac c sched :
  balanced ac -> schedule_ok sched -> balanced (wait_condition ac c sched).
Proof. apply balanced_poll_condition. Qed.

(** The loop of [accept] keeps the lock exactly when a request is there. *)
Lemma accept_loop_shifts ac this wait fuel : forall sched,
  balanced ac -> schedule_ok sched ->
  shifts any_state (fun b : bool => if b then 0 else -1) (accept_loop ac this wait fuel sched).
Proof.
  induction fuel as [|fuel IH]; intros sched Hac Hs; simpl.
  - shifts_step; [shifts_step|]. destruct (s_ConnectionRequests _); shifts_auto.
  - shifts_step; [shifts_step|]. destruct (s_ConnectionRequests _); [|shifts_auto].
    shifts_step. destruct wait; simpl; [|shifts_auto].
    eapply (shifts_bind_returns _ schedule_ok _ (fun _ => 0)).
    + by apply balanced_wait_condition.
    + by apply poll_condition_returns.
    + intros sched' Hs'. shifts_step. eapply shifts_ext; [by apply IH|].
      intros []; lia.
Qed.

(** [accept] behind the test of the flag. *)
Lemma accept_rest_shifts ac this addresses wait sched :
  balanced ac -> schedule_ok sched ->
  shifts any_state (fun _ => -1)
    (let* got := accept_loop ac this wait (accept_fuel sched) sched in
     if negb got then ret (None, None) else accept_request this addresses).
Proof.
  intros Hac Hs. unfold accept_request. eapply shifts_bind; [by apply accept_loop_shifts|].
  intros []; simpl; shifts_auto.
Qed.

(** The listening flag of a socket. *)
Definition listening (this : nat) (y : Sys) : Prop :=
  exists s, sockets y !! this = Some s /\ has_flag (s_Flags s) SSF_Listening = true.

Lemma accept_with_level ac this addresses wait sched y r y' :
  balanced ac -> schedule_ok sched -> 0 <= LockLevel y < 2 ^ 32 ->
  accept_with ac this addresses wait sched y = Ret r y' ->
  (listening this y -> LockLevel y' = LockLevel y)
  /\ (~ listening this y -> LockLevel y' = u32 (LockLevel y + 1) /\ r = (None, None)).
Proof.
  intros Hac Hs Hl. unfold accept_with.
  pose proof (shifts_lock any_state ltac:(done) y Logic.I Hl) as Hlock.
  assert (Hsame : forall y1, lock y = Ret tt y1 -> sockets y1 = sockets y).
  { intros y1. unfold lock. case_bool_decide; by intros [= <-]. }
  unfold bind at 1. destruct (lock y) as [[] y1|] eqn:E1; [|done].
  destruct Hlock as [_ Hl1]. specialize (Hsame y1 eq_refl).
  unfold bind at 1, sock. rewrite Hsame. destruct (sockets y !! this) as [s|] eqn:Es; [|done].
  destruct (has_flag (s_Flags s) SSF_Listening) eqn:Ef;
    [change (negb true) with false | change (negb false) with true]; cbv iota.
  - pose proof (accept_rest_shifts ac this addresses wait sched Hac Hs y1 Logic.I) as Hrest.
    rewrite Hl1 in Hrest. specialize (Hrest (wrap_range 32 _ ltac:(lia))).
    intros Hrun. rewrite Hrun in Hrest. destruct Hrest as [_ Hl']. split.
    + intros _. rewrite Hl'. unfold wrap in *. rewrite Zplus_mod_idemp_l.
      rewrite Z.mod_small; lia.
    + intros Hn. exfalso. apply Hn. exists s. done.
  - intros [= <- <-]. split; [|done]. intros (s' & Hs' & Hf). congruence.
Qed.
End Waiting.
#[export] Hint Resolve balanced_wait_condition : locks.

(** ** Auto-connect *)

Section AutoConnect.
Context `{!Platform}.
Variable this : nat.

Definition keeps_listening (y y' : Sys) : Prop := listening this y -> listening this y'.
#[local] Instance keeps_listening_preorder : PreOrder keeps_listening.
Proof. split; unfold keeps_listening; [by intros y|intros x y z; auto]. Qed.

Lemma keeps_listening_sockets y y' : sockets y' = sockets y -> keeps_listening y y'.
Proof. unfold keeps_listening, listening. by intros ->. Qed.

Lemma keeps_listening_lock : pres keeps_listening lock.
Proof. intros y. unfold lock. case_bool_decide; by apply keeps_listening_sockets. Qed.
Lemma keeps_listening_unlock : pres keeps_listening unlock.
Proof. intros y. unfold unlock. repeat case_bool_decide; [done| |]; by apply keeps_listening_sockets. Qed.
Lemma keeps_listening_sock p : pres keeps_listening (sock p).
Proof. intros y. unfold sock. destruct (sockets y !! p); [|done]. by apply keeps_listening_sockets. Qed.
Lemma keeps_listening_upd_sock p f :
  (forall s, s_Flags (f s) = s_Flags s) -> pres keeps_listening (upd_sock p f).
Proof.
  intros Hf y. unfold upd_sock, bind, sock. destruct (sockets y !! p) as [s|] eqn:E; [|done].
  intros (s' & Hs' & Hl). unfold listening. simpl. destruct (decide (p = this)) as [->|Hne].
  - exists (f s). rewrite lookup_insert_eq, Hf. split; [done|]. congruence.
  - exists s'. by rewrite lookup_insert_ne.
Qed.
Hint Resolve keeps_listening_lock keeps_listening_unlock keeps_listening_sock : pres.
Hint Extern 1 (pres keeps_listening (upd_sock _ _)) =>
  (apply keeps_listening_upd_sock; done) : pres.

Lemma accept_nowait_keeps_listening : pres keeps_listening (accept_nowait this).
Proof.
  unfold accept_nowait, accept_with, accept_request, update_ReadReady, sock_hasData, accept_fuel.
  simpl. pres_auto.
Qed.

Lemma accept_nowait_shifts : shifts (listening this) (fun _ => 0) (accept_nowait this).
Proof.
  intros y Hl Hr. unfold accept_nowait. pose proof (accept_nowait_keeps_listening y) as Hk.
  unfold accept_nowait, bind in *.
  destruct (accept_with _ this false false [] y) as [[r l] y1|] eqn:E; [|done].
  split; [by apply Hk|].
  destruct (accept_with_level _ _ _ _ _ _ _ _ (shifts_stop _ _ _) (Forall_nil_2 _) Hr E)
    as [Hlev _].
  rewrite (Hlev Hl), Z.add_0_r, wrap_small; done.
Qed.

Lemma autoconnect_loop_shifts fuel :
  shifts (listening this) (fun _ => 0) (autoconnect_loop this fuel).
Proof.
  induction fuel as [|fuel IH]; simpl;
    (eapply (shifts_bind _ _ (fun _ => 0)); [apply accept_nowait_shifts|]; intros [a|]);
    try (apply shifts_ret; shifts_arith); [apply shifts_stop|].
  eapply (shifts_bind _ _ (fun _ => 0)).
  { apply shifts_keep. intros y. unfold assoc. by destruct (assocs y !! a). }
  intros o. eapply (shifts_bind _ _ (fun _ => 0)).
  { apply shifts_keep. intros y. pose proof (keeps_listening_upd_sock this (fun s =>
      set_s_ConnectionlessAssociationList
        (mm_insert (a_AssociationID o) a (s_ConnectionlessAssociationList s)) s)
      ltac:(done) y) as Hk.
    unfold upd_sock, bind, sock in *. destruct (sockets y !! this); [|done].
    split; [done|]. exact Hk. }
  intros []. eapply shifts_ext; [exact IH|]. shifts_arith.
Qed.

Lemma balanced_checkAutoConnect : balanced (checkAutoConnect this).
Proof.
  unfold balanced, checkAutoConnect. shifts_step; [shifts_step|]. shifts_step. shifts_step.
  shifts_step; [shifts_step|]. cbv zeta.
  (* from the assignment of the flags on, the socket is listening *)
  pose proof (autoconnect_loop_shifts (length (s_ConnectionRequests a1))) as Hrest.
  intros y _ Hr. unfold upd_sock at 1. unfold bind at 1 2, sock at 1.
  destruct (sockets y !! this) as [s|] eqn:Es; [|done].
  cbv beta iota delta [modify]. unfold bind at 1.
  match goal with |- context [autoconnect_loop this ?n ?y1] =>
    specialize (Hrest y1); destruct (autoconnect_loop this n y1) as [[] y2|]; [|done] end.
  destruct Hrest as [_ Hl2]; [| done |].
  { exists (set_s_Flags (set_flag (s_Flags a1) SSF_Listening) s). split.
    - apply lookup_insert_eq.
    - apply has_set_flag. lia. }
  simpl in Hl2. rewrite Z.add_0_r, wrap_small in Hl2 by done.
  match goal with |- match ?m y2 with _ => _ end =>
    assert (Hm : shifts any_state (fun _ => -1) m) by shifts_auto;
    specialize (Hm y2 Logic.I); rewrite Hl2 in Hm; specialize (Hm Hr);
    destruct (m y2); [|done] end.
  destruct Hm as [_ ->]. split; [done|]. f_equal.
Qed.
End AutoConnect.
#[export] Hint Resolve balanced_checkAutoConnect : locks.

(** ** Receiving and sending *)

Section InputOutput.
Context `{!Platform}.

Lemma balanced_get_queue q : balanced (get_queue q).
Proof. unfold get_queue. destruct q; shifts_auto. Qed.
Lemma balanced_set_queue q l : balanced (set_queue q l).
Proof. unfold set_queue. destruct q; shifts_auto. Qed.
Hint Resolve balanced_get_queue balanced_set_queue : locks.
Lemma balanced_queue_getNotification q : balanced (queue_getNotification q).
Proof. unfold queue_getNotification. shifts_auto. Qed.
Lemma balanced_queue_updateNotification q n : balanced (queue_updateNotification q n).
Proof. unfold queue_updateNotification. shifts_auto. Qed.
Lemma balanced_queue_dropNotification q : balanced (queue_dropNotification q).
Proof. unfold queue_dropNotification. shifts_auto. Qed.
Lemma balanced_queue_hasData q f : balanced (queue_hasData q f).
Proof. unfold queue_hasData. shifts_auto. Qed.
Hint Resolve balanced_queue_getNotification balanced_queue_updateNotification
  balanced_queue_dropNotification balanced_queue_hasData : locks.

(** The loop keeps the lock exactly when it has a notification. *)
Lemma receive_loop_shifts this q flags r fuel : forall sched,
  schedule_ok sched ->
  shifts any_state (fun got : SCTPNotification + Z * RecvArgs =>
      match got with inl _ => 0 | inr _ => -1 end)
    (receive_loop this q flags r fuel sched).
Proof.
  induction fuel as [|fuel IH]; intros sched Hs; simpl.
  - shifts_step; [shifts_step|]. destruct a; shifts_auto.
  - shifts_step; [shifts_step|]. destruct a; [shifts_auto|].
    shifts_step; [shifts_step|]. shifts_step.
    destruct (bool_decide (a <> 0)); [shifts_auto|].
    destruct (has_flag (ra_flags r) MSG_DONTWAIT); [shifts_auto|].
    eapply (shifts_bind_returns _ schedule_ok _ (fun _ => 0)).
    + apply balanced_wait_condition; [apply balanced_checkAutoConnect|done].
    + by apply poll_condition_returns.
    + intros sched' Hs'. shifts_step. eapply shifts_ext; [by apply IH|].
      intros []; lia.
Qed.

Lemma balanced_sender_address i w r : balanced (sender_address i w r).
Proof. unfold sender_address. shifts_auto. Qed.
Hint Resolve balanced_sender_address : locks.
Lemma balanced_receive_data q n w r : balanced (receive_data q n w r).
Proof. unfold receive_data. shifts_auto. Qed.
Lemma balanced_receive_notification p q n f b r : balanced (receive_notification p q n f b r).
Proof. unfold receive_notification. shifts_auto. Qed.
Lemma balanced_finish_receive p q i : balanced (finish_receive p q i).
Proof. unfold finish_receive. shifts_auto. Qed.
Hint Resolve balanced_receive_data balanced_receive_notification balanced_finish_receive : locks.

Lemma balanced_internalReceive this q flags w r sched :
  schedule_ok sched -> balanced (internalReceive this q flags w r sched).
Proof.
  intros Hs. unfold balanced, internalReceive. shifts_step; [shifts_auto|].
  shifts_step. eapply shifts_bind; [by apply receive_loop_shifts|]. shifts_auto.
Qed.
Hint Resolve balanced_internalReceive : locks.
Lemma balanced_receiveFrom this w r sched :
  schedule_ok sched -> balanced (receiveFrom this w r sched).
Proof. intros Hs. unfold receiveFrom. shifts_auto. Qed.
Lemma balanced_assoc_receiveFrom this w r sched :
  schedule_ok sched -> balanced (assoc_receiveFrom this w r sched).
Proof. intros Hs. unfold assoc_receiveFrom. shifts_auto. Qed.

Lemma balanced_send_loop a i c d fuel : forall sched,
  schedule_ok sched -> balanced (send_loop a i c d fuel sched).
Proof.
  induction fuel as [|fuel IH]; intros sched Hs; simpl; [shifts_auto|].
  pose proof (IH sched Hs) as IHs.
  assert (Hret : forall f, returns any_state schedule_ok (
    if f : bool then ret sched
    else match sched with
         | [] => stop WouldBlock
         | others :: sched => others ;; fired c ;; ret sched
         end)).
  { intros [|]; [by apply returns_ret|]. destruct sched as [|o sched]; [apply returns_stop|].
    apply Forall_cons in Hs as [_ Hs].
    eapply returns_bind; [apply returns_any|]. intros _ _.
    eapply returns_bind; [apply returns_any|]. intros _ _. by apply returns_ret. }
  unfold balanced. shifts_step. shifts_step; [shifts_step|].
  shifts_step; [shifts_auto|]. shifts_step; [shifts_step|].
  match goal with |- context [if ?b then _ else _] => destruct b end; [|shifts_auto].
  shifts_step. shifts_step; [shifts_step|].
  eapply (shifts_bind_returns _ schedule_ok _ (fun _ => 0)); [| apply Hret |].
  - match goal with |- context [if ?b then _ else _] => destruct b end; [shifts_auto|].
    destruct sched as [|o sched]; [shifts_auto|]. apply Forall_cons in Hs as [Ho Hs].
    shifts_auto.
  - intros sched' Hs'. specialize (IH sched' Hs'). shifts_auto.
Qed.
Hint Resolve balanced_send_loop : locks.
Lemma balanced_internalSend p a i c d sched :
  schedule_ok sched -> balanced (internalSend p a i c d sched).
Proof. intros Hs. unfold internalSend. shifts_auto. Qed.
Hint Resolve balanced_internalSend : locks.
Lemma balanced_assoc_sendTo this b f s i t u d sched :
  schedule_ok sched -> balanced (assoc_sendTo this b f s i t u d sched).
Proof. intros Hs. unfold assoc_sendTo. shifts_auto. Qed.
Hint Resolve balanced_assoc_sendTo : locks.

Lemma schedule_ok_nil : schedule_ok [].
Proof. constructor. Qed.
Hint Resolve schedule_ok_nil : locks.
Lemma balanced_send_packets this fuel : balanced (send_packets this fuel).
Proof. induction fuel; simpl; shifts_auto. Qed.
Hint Resolve balanced_send_packets : locks.
Lemma balanced_sendPreEstablishmentPackets this : balanced (sendPreEstablishmentPackets this).
Proof. unfold sendPreEstablishmentPackets. shifts_auto. Qed.
End InputOutput.
#[export] Hint Resolve balanced_internalReceive balanced_receiveFrom balanced_assoc_receiveFrom
  balanced_internalSend balanced_assoc_sendTo schedule_ok_nil
  balanced_sendPreEstablishmentPackets : locks.

(** ** The operations that make sctplib call back *)

Section Callbacks.
Context `{!Platform}.
Variable deliver : list Callback -> P unit.
Hypothesis deliver_balanced : forall cbs, balanced (deliver cbs).
Hint Resolve deliver_balanced : locks.

Lemma balanced_assoc_shutdown a : balanced (assoc_shutdown deliver a).
Proof. unfold assoc_shutdown. shifts_auto. Qed.
Lemma balanced_assoc_abort a : balanced (assoc_abort deliver a).
Proof. unfold assoc_abort. shifts_auto. Qed.
Hint Resolve balanced_assoc_shutdown balanced_assoc_abort : locks.
Lemma balanced_delete_SCTPAssociation a : balanced (delete_SCTPAssociation deliver a).
Proof. unfold delete_SCTPAssociation. shifts_auto. Qed.
Hint Resolve balanced_delete_SCTPAssociation : locks.

Lemma balanced_autoclose_pass this now fuel : forall it,
  balanced (autoclose_pass deliver this now fuel it).
Proof. induction fuel; intros [it|]; simpl; shifts_auto. Qed.
Hint Resolve balanced_autoclose_pass : locks.
Lemma balanced_autoclose_loop this passes : balanced (autoclose_loop deliver this passes).
Proof. induction passes; simpl; shifts_auto. Qed.
Hint Resolve balanced_autoclose_loop : locks.
Lemma balanced_checkAutoClose this : balanced (checkAutoClose deliver this).
Proof. unfold checkAutoClose. shifts_auto. Qed.
Hint Resolve balanced_checkAutoClose : locks.
Lemma balanced_collect_instance i : balanced (collect_instance i).
Proof. unfold collect_instance. shifts_auto. Qed.
Hint Resolve balanced_collect_instance : locks.
Lemma balanced_autoclose_sockets fuel : forall it, balanced (autoclose_sockets deliver fuel it).
Proof. induction fuel; intros [it|]; simpl; shifts_auto. Qed.
Lemma balanced_collect_instances fuel : forall k, balanced (collect_instances fuel k).
Proof. induction fuel; intros [k|]; simpl; shifts_auto. Qed.
Hint Resolve balanced_autoclose_sockets balanced_collect_instances : locks.
Lemma balanced_socketGarbageCollection : balanced (socketGarbageCollection deliver).
Proof. unfold socketGarbageCollection. shifts_auto. Qed.
Hint Resolve balanced_socketGarbageCollection : locks.

Lemma balanced_unbind_associations this c a fuel :
  balanced (unbind_associations deliver this c a fuel).
Proof. induction fuel; simpl; shifts_auto. Qed.
Lemma balanced_unbind_requests this fuel : balanced (unbind_requests deliver this fuel).
Proof. induction fuel; simpl; shifts_auto. Qed.
Hint Resolve balanced_unbind_associations balanced_unbind_requests : locks.
Lemma balanced_delayedDeleteSocket i : balanced (delayedDeleteSocket i).
Proof. unfold delayedDeleteSocket. shifts_auto. Qed.
Hint Resolve balanced_delayedDeleteSocket : locks.
Lemma balanced_unbind this b : balanced (unbind deliver this b).
Proof. unfold unbind. shifts_auto. Qed.
Lemma balanced_random32 : balanced random32.
Proof. unfold random32. shifts_auto. Qed.
Hint Resolve balanced_unbind balanced_random32 : locks.
Lemma balanced_bind_any tries i o c l : forall inst, balanced (bind_any tries i o c l inst).
Proof. induction tries; intros inst; simpl; shifts_auto. Qed.
Lemma balanced_bind_specific p i o c l : balanced (bind_specific deliver p i o c l).
Proof. unfold bind_specific. shifts_auto. Qed.
Hint Resolve balanced_bind_any balanced_bind_specific : locks.
Lemma balanced_sock_bind this p i o l : balanced (sock_bind deliver this p i o l).
Proof.
  unfold sock_bind. generalize (Z.to_nat bind_tries) as tries. intros tries. shifts_auto.
Qed.

Lemma balanced_associate_start this o m t l : balanced (associate_start this o m t l).
Proof. unfold associate_start. shifts_auto. Qed.
Hint Resolve balanced_associate_start : locks.
Lemma balanced_associate this o m t l b sched :
  schedule_ok sched -> balanced (associate deliver this o m t l b sched).
Proof.
  intros Hs. pose proof (balanced_checkAutoConnect this). unfold associate. shifts_auto.
Qed.
Hint Resolve balanced_associate : locks.

Lemma balanced_match_established o st l : balanced (match_established o st l).
Proof. induction l; simpl; shifts_auto. Qed.
Hint Resolve balanced_match_established : locks.
Lemma balanced_findAssociationForDestinationAddress l ds :
  balanced (findAssociationForDestinationAddress l ds).
Proof. induction l; simpl; shifts_auto. Qed.
Hint Resolve balanced_findAssociationForDestinationAddress : locks.
Lemma balanced_sendTo_lookup this i ds : balanced (sendTo_lookup this i ds).
Proof. unfold sendTo_lookup. shifts_auto. Qed.
Hint Resolve balanced_sendTo_lookup : locks.
Lemma balanced_sendTo_begin this b f i ds : balanced (sendTo_begin deliver this b f i ds).
Proof. unfold sendTo_begin. shifts_auto. Qed.
Lemma balanced_sendTo_connect this f m t ds n sched a :
  schedule_ok sched -> balanced (sendTo_connect deliver this f m t ds n sched a).
Proof. intros Hs. unfold sendTo_connect. shifts_auto. Qed.
Lemma balanced_sendTo_shutdown this f a : balanced (sendTo_shutdown deliver this f a).
Proof. unfold sendTo_shutdown. shifts_auto. Qed.
Lemma balanced_sendTo_end a : balanced (sendTo_end a).
Proof. unfold sendTo_end. shifts_auto. Qed.
Lemma balanced_sendTo_all l b f s i t u sched :
  schedule_ok sched -> balanced (sendTo_all l b f s i t u sched).
Proof. intros Hs. induction l; simpl; shifts_auto. Qed.
Hint Resolve balanced_sendTo_begin balanced_sendTo_connect balanced_sendTo_shutdown
  balanced_sendTo_end balanced_sendTo_all : locks.
Lemma balanced_sock_sendTo this b f i s p t m mt u ds n cs ss :
  schedule_ok cs -> schedule_ok ss ->
  balanced (sock_sendTo deliver this b f i s p t m mt u ds n cs ss).
Proof. intros Hc Hs. unfold sock_sendTo. shifts_auto. Qed.

Lemma balanced_peelOff this i : balanced (peelOff this i).
Proof. unfold peelOff. shifts_auto. Qed.
Lemma balanced_find_peelOff l d : balanced (find_peelOff l d).
Proof. induction l; simpl; shifts_auto. Qed.
Hint Resolve balanced_find_peelOff : locks.
Lemma balanced_peelOff_address this d : balanced (peelOff_address this d).
Proof. unfold peelOff_address. shifts_auto. Qed.

(** ** The callbacks of sctplib *)

Lemma balanced_initNotification i : balanced (initNotification i).
Proof.
  apply shifts_keep. intros y. unfold initNotification. by destruct (sctp_getAssocStatus _ _).
Qed.
Lemma balanced_getSocketForAssociationID i : balanced (getSocketForAssociationID i).
Proof. unfold getSocketForAssociationID. shifts_auto. Qed.
Lemma balanced_addNotification p i n : balanced (addNotification p i n).
Proof. unfold addNotification. shifts_auto. Qed.
Hint Resolve balanced_initNotification balanced_getSocketForAssociationID
  balanced_addNotification : locks.
Lemma balanced_raw_abort i : balanced (raw_abort deliver i).
Proof. unfold raw_abort. shifts_auto. Qed.
Lemma balanced_raw_delete i : balanced (raw_delete i).
Proof. unfold raw_delete. shifts_auto. Qed.
Hint Resolve balanced_raw_abort balanced_raw_delete : locks.
Lemma balanced_associationGarbageCollection i b :
  balanced (associationGarbageCollection deliver i b).
Proof. unfold associationGarbageCollection. shifts_auto. Qed.
Lemma balanced_correct_RTOMax a i : balanced (correct_RTOMax a i).
Proof. unfold correct_RTOMax. shifts_auto. Qed.
Hint Resolve balanced_associationGarbageCollection balanced_correct_RTOMax : locks.
Lemma balanced_established a i : balanced (established a i).
Proof. unfold established. shifts_auto. Qed.
Lemma balanced_incoming p i n : balanced (incoming p i n).
Proof. unfold incoming. shifts_auto. Qed.
Hint Resolve balanced_established balanced_incoming : locks.
Lemma balanced_handle cb : balanced (handle deliver cb).
Proof.
  destruct cb; simpl;
    unfold dataArriveNotif, sendFailureNotif, networkStatusChangeNotif, communicationUpNotif,
      communicationLostNotif, communicationErrorNotif, restartNotif, shutdownReceivedNotif,
      shutdownCompleteNotif, queueStatusChangeNotif; shifts_auto.
Qed.
End Callbacks.

Lemma balanced_dispatch `{!Platform} depth : forall cbs, balanced (dispatch depth cbs).
Proof.
  induction depth as [|depth IH]; intros cbs; destruct cbs; simpl; try solve [shifts_auto].
  unfold balanced. eapply (shifts_bind _ _ (fun _ => 0)).
  - by apply balanced_handle.
  - intros _. apply shifts_for_each; [done|]. intros cb.
    eapply shifts_ext; [by apply balanced_handle|]. shifts_arith.
Qed.

(** ** The operations of the library *)

(** The operations that are meant to be balanced and are: the callbacks, and
    the operations of [SCTPSocket] and [SCTPAssociation] the wrapper calls. *)
Inductive operation `{!Platform} (deliver : list Callback -> P unit)
  : forall {A : Type}, P A -> Prop :=
| op_callbacks cbs : operation deliver (deliver cbs)
| op_bind this port ins outs l : operation deliver (sock_bind deliver this port ins outs l)
| op_unbind this b : operation deliver (unbind deliver this b)
| op_listen this b : operation deliver (listen this b)
| op_associate this o m t l b sched :
    schedule_ok sched -> operation deliver (associate deliver this o m t l b sched)
| op_receiveFrom this w r sched :
    schedule_ok sched -> operation deliver (receiveFrom this w r sched)
| op_assoc_receiveFrom a w r sched :
    schedule_ok sched -> operation deliver (assoc_receiveFrom a w r sched)
| op_sendTo this b f i s p t m mt u ds n cs ss :
    schedule_ok cs -> schedule_ok ss ->
    operation deliver (sock_sendTo deliver this b f i s p t m mt u ds n cs ss)
| op_assoc_sendTo a b f s i t u d sched :
    schedule_ok sched -> operation deliver (assoc_sendTo a b f s i t u d sched)
| op_peelOff this i : operation deliver (peelOff this i)
| op_peelOff_address this d : operation deliver (peelOff_address this d)
| op_shutdown a : operation deliver (assoc_shutdown deliver a)
| op_abort a : operation deliver (assoc_abort deliver a)
| op_delete a : operation deliver (delete_SCTPAssociation deliver a)
| op_garbageCollection : operation deliver (socketGarbageCollection deliver)
| op_checkAutoConnect this : operation deliver (checkAutoConnect this)
| op_checkAutoClose this : operation deliver (checkAutoClose deliver this)
| op_getPathParameters i d : operation deliver (getPathParameters i d)
| op_setPathParameters i d p : operation deliver (setPathParameters i d p)
| op_setPrimary i d : operation deliver (setPrimary i d)
| op_setPeerPrimary i d : operation deliver (setPeerPrimary i d)
| op_getErrorCode this i : operation deliver (getErrorCode this i)
| op_setDefaultStreamTimeouts pe fi a t s e :
    operation deliver (setDefaultStreamTimeouts pe fi a t s e)
| op_getDefaultStreamTimeout a i : operation deliver (getDefaultStreamTimeout a i).

(** C5. The lock discipline: every callback of sctplib, at any depth of nesting,
    and every listed operation of sockets and associations, on every path
    through it that returns (error returns and waits included), leaves the
    level of the library's recursive mutex exactly as it was. *)
Theorem lock_discipline `{!Platform} (depth : nat) (A : Type) (m : P A) (y y' : Sys) (r : A)
    (Hop : operation (dispatch depth) m)
    (Hlevel : 0 <= LockLevel y < 2 ^ 32)
    (Hrun : m y = Ret r y') :
  LockLevel y' = LockLevel y.
Proof.
  assert (Hb : balanced m).
  { pose proof (balanced_dispatch depth) as Hd.
    destruct Hop; eauto using balanced_sock_bind, balanced_unbind, balanced_listen,
      balanced_associate, balanced_receiveFrom, balanced_assoc_receiveFrom, balanced_sock_sendTo,
      balanced_assoc_sendTo, balanced_peelOff, balanced_peelOff_address,
      balanced_assoc_shutdown, balanced_assoc_abort, balanced_delete_SCTPAssociation,
      balanced_socketGarbageCollection, balanced_checkAutoConnect, balanced_checkAutoClose,
      balanced_getPathParameters, balanced_setPathParameters, balanced_setPrimary,
      balanced_setPeerPrimary, balanced_getErrorCode, balanced_setDefaultStreamTimeouts,
      balanced_getDefaultStreamTimeout. }
  specialize (Hb y Logic.I Hlevel). rewrite Hrun in Hb. destruct Hb as [_ ->].
  by rewrite Z.add_0_r, wrap_small.
Qed.

(** C6. The lock leaks: [accept] on a socket that does not listen, and
    [getAssocIODefaults], [setAssocIODefaults], [setDefaultStreamTimeouts] and
    [getDefaultStreamTimeout] of [SCTPSocket], return with the mutex held once
    more than before; [accept] on a listening socket is balanced. *)
Theorem lock_leaks `{!Platform} (this : nat) (addresses wait : bool) (sched : schedule)
    (assocID timeout start end_ streamID : Z) (defaults : AssocIODefaults)
    (past_end fill : StreamDefaultTimeout) (y : Sys)
    (Hsched : schedule_ok sched)
    (Hlevel : 0 <= LockLevel y < 2 ^ 32 - 1) :
  (forall r y', accept this addresses wait sched y = Ret r y' ->
     (listening this y -> LockLevel y' = LockLevel y)
     /\ (~ listening this y -> LockLevel y' = LockLevel y + 1))
  /\ (forall r y', sock_getAssocIODefaults this assocID y = Ret r y' ->
        LockLevel y' = LockLevel y + 1)
  /\ (forall r y', sock_setAssocIODefaults this assocID defaults y = Ret r y' ->
        LockLevel y' = LockLevel y + 1)
  /\ (forall r y', sock_setDefaultStreamTimeouts past_end fill this assocID timeout start end_ y
                   = Ret r y' -> LockLevel y' = LockLevel y + 1)
  /\ (forall r y', sock_getDefaultStreamTimeout this assocID streamID y = Ret r y' ->
        LockLevel y' = LockLevel y + 1).
Proof.
  assert (Hr : 0 <= LockLevel y < 2 ^ 32) by lia.
  assert (Hleak : forall A (m : P A), shifts any_state (fun _ => 1) m ->
    forall r y', m y = Ret r y' -> LockLevel y' = LockLevel y + 1).
  { intros A m Hm r y' Hrun. specialize (Hm y Logic.I Hr). rewrite Hrun in Hm.
    destruct Hm as [_ ->]. apply wrap_small. lia. }
  split; [|repeat split; apply Hleak; unfold sock_getAssocIODefaults, sock_setAssocIODefaults,
             sock_setDefaultStreamTimeouts, sock_getDefaultStreamTimeout, first_association;
           shifts_auto].
  intros r y' Hrun.
  destruct (accept_with_level _ _ _ _ _ _ _ _ (balanced_checkAutoConnect this) Hsched Hr Hrun)
    as [Hyes Hno].
  split; [exact Hyes|]. intros Hn. destruct (Hno Hn) as [-> _]. apply wrap_small. lia.
Qed.

(** ** Witnesses *)

Lemma lock_discipline_witness :
  exists y', dispatch 3 [@CommunicationUp 5 1 1; DataArrive 5 0 5 0 0 0 0; @ShutdownComplete 5]
               (demo_boot udp_flags) = Ret tt y'
    /\ 0 <= LockLevel (demo_boot udp_flags) < 2 ^ 32
    /\ LockLevel y' = LockLevel (demo_boot udp_flags).
Proof.
  eexists. split; [apply run_final; vm_compute; reflexivity|]. split; [by vm_compute|].
  eapply (lock_discipline 3); [apply op_callbacks | by vm_compute |].
  apply run_final. vm_compute. reflexivity.
Defined.

Lemma lock_leaks_witness :
  schedule_ok (H := demo) []
  /\ 0 <= LockLevel (demo_boot 0) < 2 ^ 32 - 1
  /\ exists r y', accept 0 false true [] (demo_boot 0) = Ret r y' /\ LockLevel y' = 1.
Proof.
  pose proof (lock_leaks 0%nat false true [] 0 0 0 0 0
    {| d_StreamID := 0; d_ProtoID := 0; d_TimeToLive := 0; d_Context := 0 |}
    {| sdt_Valid := false; sdt_Timeout := 0 |} {| sdt_Valid := false; sdt_Timeout := 0 |}
    (demo_boot 0) (Forall_nil_2 _) ltac:(by vm_compute)) as [Haccept _].
  assert (Hrun : accept 0 false true [] (demo_boot 0)
                 = Ret (None, None) (final (accept 0 false true []) (demo_boot 0)))
    by (apply run_final; vm_compute; reflexivity).
  split; [constructor|]. split; [by vm_compute|].
  exists (None, None), (final (accept 0 false true []) (demo_boot 0)).
  split; [exact Hrun|].
  destruct (Haccept _ _ Hrun) as [_ Hno].
  rewrite Hno; [reflexivity|]. intros (s & Hs & Hf). vm_compute in Hs. by simplify_eq.
Defined.
