(* ===== verification/AutoClose.v ===== *)
(** * Auto-close: safety of the iteration over the connectionless associations

    [SCTPSocket::checkAutoClose] walks over a multimap while it deletes,
    shuts down and aborts associations; each of these makes sctplib call back,
    and the callbacks end in [checkAutoClose] of the same socket again.  The
    recursion flag is what keeps the outer iterators valid. *)

From S2P Require Import Prelude MultiMap Memory Notification NotificationQueue State.
From S2P Require Import Association Socket SocketIO SocketOps SocketMaster Demo.
From S2P Require Condition.
Local Open Scope Z_scope.

(** ** What the callbacks have in common

    [R] relates the states before and after, [G] is the faults that may stop an
    operation.  Every callback obeys an [R] that looks at the list of sockets,
    the recursion flag and the connectionless list of the sockets and the closing
    instances only, and a [G] that excludes no more than dangling iterators,
    provided that the operations that follow iterators do. *)

Ltac obeys_step :=
  lazymatch goal with
  | |- obeys ?R ?G (bind _ _) => apply (obeys_bind R G); [assumption | | intro]
  | |- obeys ?R ?G (ret _) => apply (obeys_ret R G)
  | |- obeys ?R ?G (stop _) => apply (obeys_stop R G); auto
  | |- obeys ?R ?G (gets _) => apply (obeys_gets R G)
  | |- obeys ?R ?G (when _ _) => apply (obeys_when R G)
  | |- obeys ?R ?G (for_each _ _) => apply (obeys_for_each R G); [assumption | intro]
  | |- obeys _ _ (match ?x with _ => _ end) => destruct x
  | |- forall _, _ => intro
  | |- _ => solve [eauto with frame]
  end.
Ltac obeys_auto := repeat obeys_step.
Create HintDb frame discriminated.

(** The faults of the conditions. *)
Section ConditionFaults.
Context `{!Platform}.

Definition condition_fault (f : Fault) : Prop := f = UseAfterFree \/ f = OutOfFuel.

Definition cond_faults {A : Type} (m : Condition.C (K := cid) A) : Prop :=
  obeys (fun _ _ => True) (fun _ => condition_fault) m.

#[local] Instance always_preorder : PreOrder (fun _ _ : Condition.CState cid => True).
Proof. by split. Qed.

Lemma cond_faults_bind {A B : Type} (m : Condition.C (K := cid) A) (k : A -> Condition.C (K := cid) B) :
  cond_faults m -> (forall a, cond_faults (k a)) -> cond_faults (bind m k).
Proof. apply (obeys_bind (fun _ _ => True) (fun _ => condition_fault)). auto. Qed.
Lemma cond_faults_load c : cond_faults (Condition.load_cond c).
Proof. intros s. unfold Condition.load_cond. destruct (_ !! c); [done|by left]. Qed.
Lemma cond_faults_modify f : cond_faults (modify f).
Proof. by intros s. Qed.
Lemma cond_faults_ret {A : Type} (a : A) : cond_faults (ret a).
Proof. by intros s. Qed.
Lemma cond_faults_set_Fired b c : cond_faults (Condition.set_Fired b c).
Proof. apply cond_faults_bind; [apply cond_faults_load|]. intros o. apply cond_faults_modify. Qed.
Lemma cond_faults_set_ParentSet b c : cond_faults (Condition.set_ParentSet b c).
Proof. apply cond_faults_bind; [apply cond_faults_load|]. intros o. apply cond_faults_modify. Qed.
Lemma cond_faults_broadcast fuel : forall c, cond_faults (Condition.broadcast fuel c).
Proof.
  induction fuel as [|fuel IH]; intros c; simpl; [intros s; by right|].
  apply cond_faults_bind; [apply cond_faults_set_Fired|]. intros _.
  apply cond_faults_bind; [apply cond_faults_modify|]. intros _.
  apply cond_faults_bind; [apply cond_faults_load|]. intros o.
  by apply (obeys_for_each (fun _ _ => True) (fun _ => condition_fault)).
Qed.
Lemma cond_faults_addParent fuel c p : cond_faults (Condition.addParent fuel c p).
Proof.
  destruct p as [p|]; simpl; [|apply cond_faults_ret].
  apply cond_faults_bind; [apply cond_faults_load|]. intros o.
  apply cond_faults_bind; [apply cond_faults_set_ParentSet|]. intros _.
  apply cond_faults_bind; [apply cond_faults_load|]. intros o'.
  destruct (Condition.Fired o'); [apply cond_faults_broadcast|apply cond_faults_ret].
Qed.
Lemma cond_faults_new fuel c : cond_faults (Condition.new_Condition indeterminate_Fired fuel c None).
Proof.
  apply cond_faults_bind; [apply cond_faults_modify|]. intros _.
  apply cond_faults_bind; [apply cond_faults_addParent|]. intros _. apply cond_faults_set_Fired.
Qed.
Lemma cond_faults_fired c : cond_faults (Condition.fired c).
Proof.
  apply cond_faults_bind; [apply cond_faults_load|]. intros o.
  apply cond_faults_bind; [apply cond_faults_set_Fired|]. intros _. apply cond_faults_ret.
Qed.
End ConditionFaults.

(** The members the relations look at. *)
Definition same_registry `{!Platform} (y y' : Sys) : Prop :=
  sockets y' = sockets y /\ SocketList y' = SocketList y /\ ClosingSockets y' = ClosingSockets y.

Section Frame.
Context `{!Platform}.
Variables (R : Sys -> Sys -> Prop) (G : Sys -> Fault -> Prop).
Context `{!PreOrder R}.
Hypothesis G_mono : forall y y' f, R y y' -> G y' f -> G y f.
Hypothesis G_other : forall y f, f <> DanglingIterator -> G y f.
Hypothesis R_sockets : forall y y', same_registry y y' -> R y y'.
(** An assignment to members other than the flag and the list. *)
Definition harmless (f : SCTPSocket -> SCTPSocket) : Prop := forall s,
  s_AutoCloseRecursion (f s) = s_AutoCloseRecursion s
  /\ s_ConnectionlessAssociationList (f s) = s_ConnectionlessAssociationList s.
Hypothesis R_upd : forall q f s y, harmless f -> sockets y !! q = Some s ->
  R y (set_sockets (<[q := f s]> (sockets y)) y).

Notation "'fr' m" := (obeys R G m) (at level 10, m at level 9).
Hint Extern 1 (G _ _) => (apply G_other; congruence) : core.

Lemma frame_modify f : (forall y, same_registry y (f y)) -> fr (modify f).
Proof. intros Hf y. apply R_sockets, Hf. Qed.
Lemma frame_lock : fr lock.
Proof. intros y. unfold lock. case_bool_decide; by apply R_sockets. Qed.
Lemma frame_unlock : fr unlock.
Proof. intros y. unfold unlock. repeat case_bool_decide; [auto| |]; by apply R_sockets. Qed.
Lemma frame_sock q : fr (sock q).
Proof. intros y. unfold sock. destruct (sockets y !! q); [|auto]. by apply R_sockets. Qed.
Lemma frame_assoc a : fr (assoc a).
Proof. intros y. unfold assoc. destruct (assocs y !! a); [|auto]. by apply R_sockets. Qed.
Lemma frame_upd_assoc a f : fr (upd_assoc a f).
Proof.
  intros y. unfold upd_assoc, bind, assoc. destruct (assocs y !! a); [|auto]. by apply R_sockets.
Qed.
Lemma frame_call {A} (f : W -> A * W) : fr (call f).
Proof. intros y. unfold call. destruct (f (world y)). by apply R_sockets. Qed.
Lemma frame_ask {A} (f : W -> A) : fr (ask f).
Proof. intros y. by apply R_sockets. Qed.
Lemma frame_lambda (f : W -> W * list Callback) :
  fr (fun y => let '(w, cbs) := f (world y) in Ret cbs (set_world w y)).
Proof. intros y. destruct (f (world y)). by apply R_sockets. Qed.
Lemma frame_on_conditions {A : Type} (m : Condition.C (K := cid) A) :
  cond_faults m -> fr (on_conditions m).
Proof.
  intros Hm y. unfold on_conditions. specialize (Hm (conditions y)).
  destruct (m _); [by apply R_sockets|]. apply G_other. destruct Hm as [->| ->]; done.
Qed.
Lemma frame_broadcast c : fr (broadcast c).
Proof. apply frame_on_conditions, cond_faults_broadcast. Qed.
Lemma frame_new_Condition c : fr (new_Condition c).
Proof. apply frame_on_conditions, cond_faults_new. Qed.
Lemma frame_addParent c d : fr (addParent c d).
Proof. apply frame_on_conditions, cond_faults_addParent. Qed.
Lemma frame_fired c : fr (fired c).
Proof. apply frame_on_conditions, cond_faults_fired. Qed.
Lemma frame_upd_sock q f : harmless f -> fr (upd_sock q f).
Proof.
  intros Hf y. unfold upd_sock, bind, sock. destruct (sockets y !! q) as [s|] eqn:E; [|auto].
  by apply R_upd.
Qed.
Hint Resolve frame_lock frame_unlock frame_sock frame_assoc frame_upd_assoc frame_call frame_ask
  frame_lambda frame_broadcast frame_new_Condition frame_addParent frame_fired : frame.
Hint Extern 1 (obeys _ _ (modify _)) => (apply frame_modify; intros; repeat split; reflexivity) : frame.
Hint Extern 1 (obeys _ _ (upd_sock _ _)) =>
  (apply frame_upd_sock; intros ?; split; reflexivity) : frame.

Lemma frame_new_SCTPAssociation q i f u : fr (new_SCTPAssociation q i f u).
Proof. unfold new_SCTPAssociation. obeys_auto. Qed.
Lemma frame_assoc_hasData a : fr (assoc_hasData a).
Proof. unfold assoc_hasData. obeys_auto. Qed.
Lemma frame_getAssociationForAssociationID q i b : fr (getAssociationForAssociationID q i b).
Proof. unfold getAssociationForAssociationID. obeys_auto. Qed.
Hint Resolve frame_new_SCTPAssociation frame_assoc_hasData
  frame_getAssociationForAssociationID : frame.
Lemma frame_getErrorCode q i : fr (getErrorCode q i).
Proof. unfold getErrorCode. obeys_auto. Qed.
Lemma frame_sock_hasData q : fr (sock_hasData q).
Proof. unfold sock_hasData. obeys_auto. Qed.
Lemma frame_sock_getAssocStatus i : fr (sock_getAssocStatus i).
Proof. unfold sock_getAssocStatus. obeys_auto. Qed.
Lemma frame_sock_setAssocStatus i st : fr (sock_setAssocStatus i st).
Proof. unfold sock_setAssocStatus. obeys_auto. Qed.
Hint Resolve frame_getErrorCode frame_sock_hasData frame_sock_getAssocStatus
  frame_sock_setAssocStatus : frame.
Lemma frame_update_ReadReady q : fr (update_ReadReady q).
Proof. unfold update_ReadReady. obeys_auto. Qed.
Lemma frame_find_path i str ids w last f :
  find_path i str ids w last = Stop f -> f = OutOfBounds.
Proof. revert last. induction ids; simpl; intros; repeat case_match; simplify_eq; eauto. Qed.
Lemma frame_getPathIndexForAddress i o : fr (getPathIndexForAddress i o).
Proof.
  intros y. unfold getPathIndexForAddress. destruct o; [|reflexivity].
  destruct (sctp_getAssocStatus _ _); [|reflexivity].
  destruct (find_path _ _ _ _ _) eqn:E; [reflexivity|]. apply frame_find_path in E. auto.
Qed.
Lemma frame_getDefaultStreamTimeout a i : fr (getDefaultStreamTimeout a i).
Proof.
  unfold getDefaultStreamTimeout. obeys_step; [obeys_auto|]. obeys_step; [obeys_auto|].
  destruct (get_stream_timeout _ _ _) eqn:E; [obeys_auto|].
  apply (obeys_stop R G). intros y. apply G_other. unfold get_stream_timeout in E.
  repeat case_match; simplify_eq; done.
Qed.
Hint Resolve frame_update_ReadReady frame_getPathIndexForAddress
  frame_getDefaultStreamTimeout : frame.

(** Callbacks do not wait: their sends run without a schedule. *)
Lemma frame_send_loop a i c d fuel : fr (send_loop a i c d fuel []).
Proof.
  induction fuel; cbn [send_loop]; [obeys_auto|].
  obeys_step; [obeys_auto|]. obeys_step; [obeys_auto|]. obeys_step; [obeys_auto|].
  obeys_step; [obeys_auto|]. destruct (bool_decide _ && _); [|obeys_auto].
  obeys_step; [obeys_auto|]. obeys_step; [obeys_auto|].
  match goal with |- context [if ?f then ret [] else _] => destruct f end.
  - intros y. change (bind (ret ?x) ?k y) with (k x y).
    match goal with |- match ?m y with _ => _ end => assert (Hm : fr m) by obeys_auto end.
    exact (Hm y).
  - intros y. simpl. auto.
Qed.
Hint Resolve frame_send_loop : frame.
Lemma frame_assoc_sendTo a b f s i t u d : fr (assoc_sendTo a b f s i t u d []).
Proof. unfold assoc_sendTo, internalSend. obeys_auto. Qed.
Hint Resolve frame_assoc_sendTo : frame.
Lemma frame_send_packets a fuel : fr (send_packets a fuel).
Proof. induction fuel; simpl; obeys_auto. Qed.
Hint Resolve frame_send_packets : frame.
Lemma frame_sendPreEstablishmentPackets a : fr (sendPreEstablishmentPackets a).
Proof. unfold sendPreEstablishmentPackets. obeys_auto. Qed.
Hint Resolve frame_sendPreEstablishmentPackets : frame.

Lemma frame_initNotification i : fr (initNotification i).
Proof. intros y. unfold initNotification. destruct (sctp_getAssocStatus _ _); reflexivity. Qed.
Lemma frame_getSocketForAssociationID i : fr (getSocketForAssociationID i).
Proof. unfold getSocketForAssociationID. obeys_auto. Qed.
Lemma frame_addNotification q i n : fr (addNotification q i n).
Proof. unfold addNotification. obeys_auto. Qed.
Lemma frame_raw_delete i : fr (raw_delete i).
Proof. unfold raw_delete. obeys_auto. Qed.
Lemma frame_correct_RTOMax a i : fr (correct_RTOMax a i).
Proof. unfold correct_RTOMax. obeys_auto. Qed.
Hint Resolve frame_initNotification frame_getSocketForAssociationID frame_addNotification
  frame_raw_delete frame_correct_RTOMax : frame.

Section Deliver.
Variable deliver : list Callback -> P unit.
Hypothesis deliver_obeys : forall cbs, fr (deliver cbs).
Hint Resolve deliver_obeys : frame.

Lemma frame_assoc_shutdown a : fr (assoc_shutdown deliver a).
Proof. unfold assoc_shutdown. obeys_auto. Qed.
Lemma frame_assoc_abort a : fr (assoc_abort deliver a).
Proof. unfold assoc_abort. obeys_auto. Qed.
Hint Resolve frame_assoc_shutdown frame_assoc_abort : frame.
Lemma frame_delete_SCTPAssociation a : fr (delete_SCTPAssociation deliver a).
Proof. unfold delete_SCTPAssociation, delayedDeleteAssociation. obeys_auto. Qed.

(** The operations that follow iterators. *)
Hypothesis close_obeys : forall q, fr (checkAutoClose deliver q).
Hypothesis collect_obeys : forall i, fr (associationGarbageCollection deliver i false).
Hint Resolve close_obeys collect_obeys : frame.
Lemma frame_handle cb : fr (handle deliver cb).
Proof.
  destruct cb; simpl;
    unfold dataArriveNotif, sendFailureNotif, networkStatusChangeNotif, communicationUpNotif,
      communicationLostNotif, communicationErrorNotif, restartNotif, shutdownReceivedNotif,
      shutdownCompleteNotif, queueStatusChangeNotif, raw_abort, established, incoming; obeys_auto.
Qed.
End Deliver.

Lemma frame_dispatch :
  (forall deliver, (forall cbs, fr (deliver cbs)) ->
     (forall q, fr (checkAutoClose deliver q))
     /\ forall i, fr (associationGarbageCollection deliver i false)) ->
  forall depth cbs, fr (dispatch depth cbs).
Proof.
  intros Hclose. induction depth as [|depth IH]; intros [|cb cbs]; cbn [dispatch].
  - obeys_auto.
  - obeys_auto.
  - obeys_auto.
  - destruct (Hclose _ IH) as [Hc Hg].
    apply (obeys_for_each R G); [assumption|]. intros x. by apply frame_handle.
Qed.
End Frame.

(** ** The callbacks leave the list alone while the flag is set *)

Definition no_fault `{!Platform} (y : Sys) (f : Fault) : Prop := True.

Section Frozen.
Context `{!Platform}.
Variable p : nat.

Definition frozen (y y' : Sys) : Prop :=
  forall s, sockets y !! p = Some s -> s_AutoCloseRecursion s = true ->
  exists s', sockets y' !! p = Some s' /\ s_AutoCloseRecursion s' = true
    /\ s_ConnectionlessAssociationList s' = s_ConnectionlessAssociationList s.

#[export] Instance frozen_preorder : PreOrder frozen.
Proof.
  split; unfold frozen; [by intros y s Hs; exists s|].
  intros x y z Hxy Hyz s Hs Hr. destruct (Hxy s Hs Hr) as (s' & Hs' & Hr' & Hl').
  destruct (Hyz s' Hs' Hr') as (s2 & Hs2 & Hr2 & Hl2). exists s2.
  repeat split; try done. by transitivity (s_ConnectionlessAssociationList s').
Qed.

Lemma no_fault_mono y y' f : frozen y y' -> no_fault y' f -> no_fault y f.
Proof. done. Qed.
Lemma no_fault_other y f : f <> DanglingIterator -> no_fault y f.
Proof. done. Qed.
Lemma frozen_sockets y y' : sockets y' = sockets y -> frozen y y'.
Proof. intros E s Hs Hr. exists s. by rewrite E. Qed.
Lemma frozen_registry y y' : same_registry y y' -> frozen y y'.
Proof. intros [E _]. by apply frozen_sockets. Qed.
Lemma frozen_modify f : (forall y, sockets (f y) = sockets y) -> obeys frozen no_fault (modify f).
Proof. intros Hf y. by apply frozen_sockets. Qed.
Lemma frozen_upd q f s y : harmless f -> sockets y !! q = Some s ->
  frozen y (set_sockets (<[q := f s]> (sockets y)) y).
Proof.
  intros Hf E s1 Hs Hr. simpl. destruct (decide (q = p)) as [->|Hne].
  - assert (s1 = s) as -> by congruence. exists (f s). rewrite lookup_insert_eq.
    destruct (Hf s) as [-> ->]. done.
  - exists s1. by rewrite lookup_insert_ne.
Qed.
Lemma frozen_upd_ne q f : q <> p -> obeys frozen no_fault (upd_sock q f).
Proof.
  intros Hne y. unfold upd_sock, bind, sock. destruct (sockets y !! q) as [s0|]; [|done].
  intros s Hs Hr. exists s. simpl. by rewrite lookup_insert_ne.
Qed.

Section FrozenClose.
Variable deliver : list Callback -> P unit.
Hypothesis deliver_frozen : forall cbs, obeys frozen no_fault (deliver cbs).

Lemma frozen_shutdown a : obeys frozen no_fault (assoc_shutdown deliver a).
Proof. apply frame_assoc_shutdown; auto using frozen_preorder, no_fault_other, frozen_registry, frozen_upd. Qed.
Lemma frozen_abort a : obeys frozen no_fault (assoc_abort deliver a).
Proof. apply frame_assoc_abort; auto using frozen_preorder, no_fault_other, frozen_registry, frozen_upd. Qed.
Lemma frozen_delete a : obeys frozen no_fault (delete_SCTPAssociation deliver a).
Proof. apply frame_delete_SCTPAssociation; auto using frozen_preorder, no_fault_other, frozen_registry, frozen_upd. Qed.
Lemma frozen_sock q : obeys frozen no_fault (sock q).
Proof. apply frame_sock; auto using frozen_preorder, no_fault_other, frozen_registry. Qed.
Lemma frozen_assoc a : obeys frozen no_fault (assoc a).
Proof. apply frame_assoc; auto using frozen_preorder, no_fault_other, frozen_registry. Qed.
Lemma frozen_call {A} (f : W -> A * W) : obeys frozen no_fault (call f).
Proof. apply frame_call; auto using frozen_preorder, no_fault_other, frozen_registry. Qed.
Hint Resolve frozen_shutdown frozen_abort frozen_delete frozen_sock frozen_assoc
  frozen_call frozen_upd_ne : frame.
Hint Extern 1 (no_fault _ _) => exact I : core.

Lemma frozen_autoclose_pass q now fuel : q <> p ->
  forall it, obeys frozen no_fault (autoclose_pass deliver q now fuel it).
Proof.
  intros Hne. pose proof no_fault_mono as Hmono.
  induction fuel; intros [it|]; simpl; [obeys_auto|obeys_auto| |obeys_auto].
  obeys_step; [obeys_auto|]. obeys_step; [unfold of_option; obeys_auto|]. obeys_auto.
Qed.
Lemma frozen_autoclose_loop q passes :
  q <> p -> obeys frozen no_fault (autoclose_loop deliver q passes).
Proof.
  intros Hne. pose proof no_fault_mono as Hmono.
  pose proof (fun n f => frozen_autoclose_pass q n f Hne) as Hpass.
  induction passes; simpl; obeys_auto.
Qed.

(** On the socket itself, the flag cuts the recursion off. *)
Lemma frozen_checkAutoClose q : obeys frozen no_fault (checkAutoClose deliver q).
Proof.
  pose proof no_fault_mono as Hmono. destruct (decide (q = p)) as [->|Hne].
  - intros y. unfold checkAutoClose, bind at 1, sock.
    destruct (sockets y !! p) as [s|] eqn:E; [|done].
    destruct (s_AutoCloseRecursion s) eqn:Hrec.
    + apply (frame_upd_sock frozen no_fault no_fault_other frozen_upd). by intros ?.
    + match goal with |- match ?r with _ => _ end => destruct r; [|done] end.
      intros s' Hs' Hrec'. congruence.
  - pose proof (fun n => frozen_autoclose_loop q n Hne) as Hloop.
    unfold checkAutoClose. obeys_auto.
Qed.

Lemma frozen_lock : obeys frozen no_fault lock.
Proof. apply frame_lock; auto using frozen_registry. Qed.
Lemma frozen_unlock : obeys frozen no_fault unlock.
Proof. apply frame_unlock; auto using frozen_registry. Qed.
Hint Resolve frozen_lock frozen_unlock frozen_checkAutoClose : frame.
Hint Extern 1 (obeys _ _ (modify _)) => (apply frozen_modify; intros; reflexivity) : frame.
Lemma frozen_of_option {A} f (o : option A) : obeys frozen no_fault (of_option f o).
Proof. unfold of_option. obeys_auto. Qed.
Hint Resolve frozen_of_option : frame.
Lemma frozen_autoclose_sockets fuel : forall it, obeys frozen no_fault (autoclose_sockets deliver fuel it).
Proof. pose proof no_fault_mono as Hmono. induction fuel; intros [it|]; simpl; obeys_auto. Qed.
Lemma frozen_collect_instances fuel : forall k, obeys frozen no_fault (collect_instances fuel k).
Proof.
  pose proof no_fault_mono as Hmono.
  induction fuel; intros [k|]; simpl; unfold collect_instance; obeys_auto.
Qed.
Hint Resolve frozen_autoclose_sockets frozen_collect_instances : frame.
Lemma frozen_socketGarbageCollection : obeys frozen no_fault (socketGarbageCollection deliver).
Proof. pose proof no_fault_mono as Hmono. unfold socketGarbageCollection. obeys_auto. Qed.
Hint Resolve frozen_socketGarbageCollection : frame.
Lemma frozen_associationGarbageCollection i :
  obeys frozen no_fault (associationGarbageCollection deliver i false).
Proof.
  pose proof no_fault_mono as Hmono. unfold associationGarbageCollection, raw_delete. cbn [when].
  obeys_step; [obeys_auto|]. destruct (mm_find _ _); obeys_auto.
Qed.
End FrozenClose.

Lemma frozen_dispatch depth cbs : obeys frozen no_fault (dispatch depth cbs).
Proof.
  apply frame_dispatch; auto using frozen_preorder, no_fault_other, frozen_registry, frozen_upd.
  intros deliver Hd. split; intros; [by apply frozen_checkAutoClose|by apply frozen_associationGarbageCollection].
Qed.
End Frozen.

(** ** No dangling iterator *)

Section Safe.
Context `{!Platform}.

(** No association is in a connectionless list twice, and the closing
    instances are a set of instance IDs. *)
Record distinct (y : Sys) : Prop := {
  distinct_lists : forall q s, sockets y !! q = Some s -> NoDup (s_ConnectionlessAssociationList s);
  distinct_closing : closing_ok (ClosingSockets y) }.
(** The list of sockets is not touched, and the lists stay distinct. *)
Definition keeps_distinct (y y' : Sys) : Prop :=
  distinct y -> distinct y' /\ SocketList y' = SocketList y.
Definition no_dangling (y : Sys) (f : Fault) : Prop := distinct y -> f <> DanglingIterator.

#[export] Instance keeps_distinct_preorder : PreOrder keeps_distinct.
Proof.
  split; unfold keeps_distinct; [by intros y|]. intros x y z H1 H2 Hx.
  destruct (H1 Hx) as [Hy E1]. destruct (H2 Hy) as [Hz E2]. split; [done|congruence].
Qed.
Lemma no_dangling_mono y y' f : keeps_distinct y y' -> no_dangling y' f -> no_dangling y f.
Proof. unfold keeps_distinct, no_dangling. tauto. Qed.
Lemma no_dangling_other y f : f <> DanglingIterator -> no_dangling y f.
Proof. by intros Hf _. Qed.
Lemma distinct_registry y y' : same_registry y y' -> keeps_distinct y y'.
Proof. intros (E1 & E2 & E3) [H1 H2]. split; [|done]. split; [by rewrite E1|by rewrite E3]. Qed.
Lemma distinct_upd q f s y :
  (forall s, NoDup (s_ConnectionlessAssociationList s) ->
             NoDup (s_ConnectionlessAssociationList (f s))) ->
  sockets y !! q = Some s ->
  keeps_distinct y (set_sockets (<[q := f s]> (sockets y)) y).
Proof.
  intros Hf E [Hd Hc]. split; [|done]. split; [|done]. intros q' s'. simpl.
  destruct (decide (q = q')) as [->|Hne].
  - rewrite lookup_insert_eq. intros [= <-]. apply Hf. by eapply Hd.
  - rewrite lookup_insert_ne by done. apply Hd.
Qed.
Lemma distinct_upd_harmless q f s y : harmless f -> sockets y !! q = Some s ->
  keeps_distinct y (set_sockets (<[q := f s]> (sockets y)) y).
Proof. intros Hf. apply distinct_upd. intros s0. by destruct (Hf s0) as [_ ->]. Qed.

Section SafeClose.
Variable deliver : list Callback -> P unit.
Hypothesis deliver_safe : forall cbs, obeys keeps_distinct no_dangling (deliver cbs).
Hypothesis deliver_frozen : forall p cbs, obeys (frozen p) no_fault (deliver cbs).
Variables (this : nat) (L : list (@entry nat)).

(** The state between two steps of the loop: the flag is set, and the list is
    [l]. *)
Definition iterating (l : list (@entry nat)) (y : Sys) : Prop :=
  (distinct y /\ SocketList y = L) /\ exists s, sockets y !! this = Some s /\ s_AutoCloseRecursion s = true
    /\ s_ConnectionlessAssociationList s = l.

Lemma iterating_step {A} (m : P A) l y :
  obeys keeps_distinct no_dangling m -> obeys (frozen this) no_fault m -> iterating l y ->
  wp (fun f => f <> DanglingIterator) m (fun _ => iterating l) y.
Proof.
  intros Hs Hf [[Hd HL] (s & Es & Hr & Hl)]. unfold wp. specialize (Hs y). specialize (Hf y).
  destruct (m y) as [a y'|f]; [|by apply Hs]. split; [by destruct (Hs Hd) as [? ->]|].
  destruct (Hf s Es Hr) as (s' & Es' & Hr' & Hl'). exists s'. by rewrite Hl'.
Qed.

Lemma iterating_sock l y :
  iterating l y ->
  wp (fun f => f <> DanglingIterator) (sock this)
     (fun s y' => iterating l y' /\ s_ConnectionlessAssociationList s = l) y.
Proof. intros Hi. destruct Hi as [Hd (s & Es & Hr & Hl)]. unfold wp, sock. rewrite Es.
  split; [split|]; eauto. Qed.

Lemma iterating_assoc l a y :
  iterating l y -> wp (fun f => f <> DanglingIterator) (assoc a) (fun _ => iterating l) y.
Proof. intros Hi. unfold wp, assoc. by destruct (assocs y !! a). Qed.

Lemma iterating_erase l it y :
  iterating l y ->
  wp (fun f => f <> DanglingIterator)
     (upd_sock this (fun s => set_s_ConnectionlessAssociationList
        (mm_erase it (s_ConnectionlessAssociationList s)) s))
     (fun _ => iterating (mm_erase it l)) y.
Proof.
  intros [[Hd HL] (s & Es & Hr & Hl)]. unfold wp, upd_sock, bind, sock. rewrite Es. simpl. split; [split; [|done]|].
  - apply (distinct_upd this (fun s => set_s_ConnectionlessAssociationList
      (mm_erase it (s_ConnectionlessAssociationList s)) s)); [|done|done].
    intros s0. apply mm_erase_NoDup.
  - eexists. simpl. rewrite lookup_insert_eq. split; [done|]. simpl. by subst.
Qed.

Lemma safe_shutdown a : obeys keeps_distinct no_dangling (assoc_shutdown deliver a).
Proof.
  apply frame_assoc_shutdown; eauto using keeps_distinct_preorder, no_dangling_mono,
    no_dangling_other, distinct_registry, distinct_upd_harmless.
Qed.
Lemma safe_abort a : obeys keeps_distinct no_dangling (assoc_abort deliver a).
Proof.
  apply frame_assoc_abort; eauto using keeps_distinct_preorder, no_dangling_mono,
    no_dangling_other, distinct_registry, distinct_upd_harmless.
Qed.
Lemma safe_delete a : obeys keeps_distinct no_dangling (delete_SCTPAssociation deliver a).
Proof.
  apply frame_delete_SCTPAssociation; eauto using keeps_distinct_preorder, no_dangling_mono,
    no_dangling_other, distinct_registry, distinct_upd_harmless.
Qed.

(** One pass visits live iterators only. *)
Lemma safe_autoclose_pass now fuel : forall it l y,
  iterating l y -> (forall e, it = Some e -> e ∈ l) ->
  wp (fun f => f <> DanglingIterator) (autoclose_pass deliver this now fuel it)
     (fun _ y' => exists l', iterating l' y') y.
Proof.
  induction fuel as [|fuel IH]; intros [e|] l y Hi He; cbn [autoclose_pass];
    try (apply wp_ret; by exists l); [done|].
  eapply wp_seq; [by apply iterating_sock|]. intros s y1 [Hi1 Hl1]. rewrite Hl1.
  assert (Hnd : NoDup l) by (destruct Hi as [[Hd _] (s' & Es' & _ & <-)]; by eapply distinct_lists).
  destruct (proj1 (mm_next_elem e l) (He e eq_refl)) as [next Hnext]. rewrite Hnext. simpl.
  apply wp_bind, wp_ret.
  eapply wp_seq; [by apply iterating_assoc|]. intros o y2 Hi2; cbv beta in Hi2.
  apply (wp_seq _ _ _ (fun _ y' => exists l', iterating l' y' /\ (l' = l \/ l' = mm_erase e l))).
  2: { intros _ y' (l' & Hi' & Hl'). apply (IH _ l' _ Hi'). intros n ->.
       pose proof (mm_next_survives e l n Hnd Hnext) as Hin.
       destruct Hl' as [->| ->]; [by apply (mm_erase_incl e)|done]. }
  destruct (bool_decide (a_UseCount o = 0)); [|apply wp_ret; eauto].
  destruct (a_ShutdownCompleteNotification o || a_CommunicationLostNotification o).
  - eapply wp_seq; [by apply iterating_erase|]. intros [] y3 Hi3; cbv beta in Hi3.
    eapply wp_weaken; [eapply iterating_step; [apply safe_delete|by apply frozen_delete|done]|].
    simpl; eauto.
  - destruct (bool_decide _ && bool_decide _).
    { eapply wp_weaken; [eapply iterating_step; [apply safe_abort|by apply frozen_abort|done]|].
      simpl; eauto. }
    destruct (bool_decide _ && bool_decide _ && negb _); [|apply wp_ret; eauto].
    eapply wp_weaken; [eapply iterating_step; [apply safe_shutdown|by apply frozen_shutdown|done]|].
    simpl; eauto.
Qed.

Lemma iterating_any_upd f l y :
  (forall s, s_AutoCloseRecursion (f s) = s_AutoCloseRecursion s
     /\ s_ConnectionlessAssociationList (f s) = s_ConnectionlessAssociationList s) ->
  iterating l y ->
  wp (fun f => f <> DanglingIterator) (upd_sock this f) (fun _ => iterating l) y.
Proof.
  intros Hf [[Hd HL] (s & Es & Hr & Hl)]. unfold wp, upd_sock, bind, sock. rewrite Es. simpl.
  split; [split; [|done]|].
  - by apply (distinct_upd_harmless this f).
  - exists (f s). simpl. rewrite lookup_insert_eq. destruct (Hf s) as [-> ->]. done.
Qed.

Lemma safe_autoclose_loop passes : forall l y,
  iterating l y ->
  wp (fun f => f <> DanglingIterator) (autoclose_loop deliver this passes)
     (fun _ y' => exists l', iterating l' y') y.
Proof.
  induction passes as [|passes IH]; intros l y Hi; cbn [autoclose_loop]; [done|].
  eapply wp_seq; [apply iterating_any_upd; [by intros ?|done]|]. intros [] y1 Hi1; cbv beta in Hi1.
  eapply wp_seq; [eapply iterating_step; [| |exact Hi1]|].
  - apply frame_call; auto using distinct_registry.
  - apply frame_call; auto using frozen_registry.
  - intros now y2 Hi2; cbv beta in Hi2. eapply wp_seq; [by apply iterating_sock|]. intros s y3 [Hi3 Hl].
    rewrite Hl. eapply wp_seq; [apply (safe_autoclose_pass _ _ _ l); [done|]|].
    { intros e He. apply head_Some in He as [l' ->]. by left. }
    intros [] y4 (l4 & Hi4).
    eapply wp_seq; [by apply iterating_sock|]. intros s4 y5 [Hi5 _].
    destruct (s_AutoCloseNewCheckRequired s4); [by eapply IH|]. apply wp_ret. eauto.
Qed.

End SafeClose.

Lemma safe_checkAutoClose deliver this :
  (forall cbs, obeys keeps_distinct no_dangling (deliver cbs)) ->
  (forall p cbs, obeys (frozen p) no_fault (deliver cbs)) ->
  obeys keeps_distinct no_dangling (checkAutoClose deliver this).
Proof.
  intros Hds Hdf y. unfold checkAutoClose, bind at 1, sock.
  destruct (sockets y !! this) as [s|] eqn:Es; [|by intros _].
  destruct (s_AutoCloseRecursion s).
  { apply frame_upd_sock; eauto using no_dangling_other, distinct_upd_harmless. by intros ?. }
  unfold bind at 1, upd_sock at 1, bind at 1, sock at 1. rewrite Es. simpl.
  set (y1' := set_sockets (<[this:=set_s_AutoCloseRecursion true s]> (sockets y)) y).
  assert (Hi : distinct y -> iterating this (SocketList y) (s_ConnectionlessAssociationList s) y1').
  { intros Hd. split; [split; [|done]|].
    - apply (distinct_upd this (set_s_AutoCloseRecursion true) s y); done.
    - eexists. unfold y1'. simpl. by rewrite lookup_insert_eq. }
  pose proof (fun Hd => safe_autoclose_loop deliver Hds Hdf this (SocketList y)
    (2 * length (s_ConnectionlessAssociationList s) + 2) _ _ (Hi Hd)) as Hloop.
  unfold wp in Hloop. unfold bind.
  replace (length (s_ConnectionlessAssociationList s)
    + (length (s_ConnectionlessAssociationList s) + 0) + 2)%nat
    with (2 * length (s_ConnectionlessAssociationList s) + 2)%nat by lia.
  destruct (autoclose_loop _ _ _ y1') as [[] y2|f]; [|exact Hloop].
  unfold upd_sock, bind, sock. destruct (sockets y2 !! this) as [s2|] eqn:E2; [|by intros _].
  simpl. intros Hd. destruct (Hloop Hd) as (l' & [Hd2 HL] & _).
  split; [|done]. by apply (distinct_upd this (set_s_AutoCloseRecursion false) s2 y2).
Qed.

(** The collection: the loop over the sockets advances an iterator of a list
    that the callbacks leave alone, the loop over the closing instances erases
    the instances it has passed only. *)
Section SafeCollect.
Variable deliver : list Callback -> P unit.
Hypothesis close_safe : forall q, obeys keeps_distinct no_dangling (checkAutoClose deliver q).

(** The operation behaves in this state. *)
Definition safe_at {A : Type} (m : P A) (y : Sys) : Prop :=
  match m y with Ret _ y' => keeps_distinct y y' | Stop f => no_dangling y f end.
Lemma safe_seq {A B : Type} (m : P A) (k : A -> P B) y :
  safe_at m y -> (forall a y', m y = Ret a y' -> safe_at (k a) y') -> safe_at (bind m k) y.
Proof.
  unfold safe_at, bind. intros Hm Hk. destruct (m y) as [a y'|f] eqn:E; [|done].
  specialize (Hk a y' eq_refl). destruct (k a y'); [by transitivity y'|by eapply no_dangling_mono].
Qed.
Lemma safe_gets {A B : Type} (f : Sys -> A) (k : A -> P B) y :
  safe_at (k (f y)) y -> safe_at (bind (gets f) k) y.
Proof. done. Qed.
Lemma safe_always {A : Type} (m : P A) y : obeys keeps_distinct no_dangling m -> safe_at m y.
Proof. intros Hm. apply Hm. Qed.

Lemma safe_given {A : Type} (m : P A) y : (distinct y -> safe_at m y) -> safe_at m y.
Proof. unfold safe_at. destruct (m y); intros Hm Hd; by apply Hm. Qed.

Lemma safe_autoclose_sockets fuel : forall it y, distinct y ->
  (forall e, it = Some e -> e ∈ SocketList y) ->
  safe_at (autoclose_sockets deliver fuel it) y.
Proof.
  induction fuel as [|fuel IH]; intros [e|] y Hd He; cbn [autoclose_sockets];
    try (by apply safe_always, (obeys_ret keeps_distinct)); [by intros _|].
  apply safe_seq; [by apply safe_always|]. intros [] y1 E.
  pose proof (close_safe e.2 y) as Hs. rewrite E in Hs. destruct (Hs Hd) as [Hd1 El].
  apply safe_gets. destruct (proj1 (mm_next_elem e (SocketList y1))) as [next Hnext].
  { rewrite El. auto. }
  rewrite Hnext. apply IH; [done|]. intros e' ->. by eapply mm_next_incl.
Qed.

Lemma safe_collect_instance k y : safe_at (collect_instance k) y.
Proof.
  unfold collect_instance, safe_at, gets, bind at 1. destruct (negb _); simpl; [|done].
  unfold bind, modify, call. destruct (sctp_unregisterInstance k _) as [r w].
  assert (Hk : keeps_distinct y
    (set_world w (set_ClosingSockets (set_erase k (ClosingSockets y)) y))).
  { intros [H1 H2]. split; [|done]. split; [done|]. by apply set_erase_ok. }
  simpl. case_bool_decide; simpl; [by intros _|done].
Qed.
Lemma collect_instance_closing k y u y' : collect_instance k y = Ret u y' ->
  ClosingSockets y' = ClosingSockets y \/ ClosingSockets y' = set_erase k (ClosingSockets y).
Proof.
  unfold collect_instance, gets, bind at 1. destruct (negb _); simpl; [|by intros [= _ <-]; auto].
  unfold bind, modify, call. destruct (sctp_unregisterInstance k _) as [r w]. simpl.
  case_bool_decide; simpl; [done|]. intros [= _ <-]. auto.
Qed.
Lemma raw_delete_closing i y u y' : raw_delete i y = Ret u y' ->
  ClosingAssociations y' = ClosingAssociations y.
Proof.
  unfold raw_delete, bind, call. destruct (sctp_deleteAssociation i _) as [r w].
  case_bool_decide; simpl; [done|]. by intros [= _ <-].
Qed.
Lemma safe_collect_instances fuel : forall it y, distinct y ->
  (forall k, it = Some k -> k ∈ ClosingSockets y) -> safe_at (collect_instances fuel it) y.
Proof.
  induction fuel as [|fuel IH]; intros [k|] y Hd Hk; cbn [collect_instances];
    try (by apply safe_always, (obeys_ret keeps_distinct)); [by intros _|].
  apply safe_gets. destruct (proj1 (set_next_elem k (ClosingSockets y)) (Hk k eq_refl)) as [next Hnext].
  rewrite Hnext. change (safe_at (collect_instance (u16 k) ;; collect_instances fuel next) y).
  apply safe_seq; [apply safe_collect_instance|]. intros [] y1 E.
  apply IH.
  - pose proof (safe_collect_instance (u16 k) y) as Hs. unfold safe_at in Hs. rewrite E in Hs. by apply Hs.
  - intros k' ->. destruct (set_next_later _ _ _ (distinct_closing _ Hd) Hnext) as [Hlt Hin].
    destruct (collect_instance_closing _ _ _ _ E) as [-> | ->]; [done|].
    rewrite (closing_u16 k (ClosingSockets y)) by (auto using distinct_closing).
    apply elem_of_set_erase. split; [done|lia].
Qed.

Lemma safe_socketGarbageCollection : obeys keeps_distinct no_dangling (socketGarbageCollection deliver).
Proof.
  intros y. change (safe_at (socketGarbageCollection deliver) y). unfold socketGarbageCollection.
  apply safe_seq; [apply safe_always, frame_lock; auto using no_dangling_other, distinct_registry|].
  intros [] y1 _. apply safe_seq; [apply safe_always, frame_call; auto using distinct_registry|].
  intros now y2 _. apply safe_seq; [by apply safe_always, frame_modify; auto using distinct_registry|].
  intros [] y3 _. apply safe_gets. apply safe_seq.
  { apply safe_given. intros Hd. apply safe_autoclose_sockets; [done|].
    intros e He. apply head_Some in He as [l' ->]. by left. }
  intros [] y4 _. apply safe_gets.
  apply safe_seq; [|intros; apply safe_always, frame_unlock; auto using no_dangling_other, distinct_registry].
  apply safe_given. intros Hd. apply safe_collect_instances; [done|].
  intros k Hk. apply head_Some in Hk as [l' ->]. by left.
Qed.

Lemma safe_associationGarbageCollection i :
  obeys keeps_distinct no_dangling (associationGarbageCollection deliver i false).
Proof.
  intros y. change (safe_at (associationGarbageCollection deliver i false) y).
  unfold associationGarbageCollection. apply safe_gets. cbn [when].
  destruct (mm_find i (ClosingAssociations y)) as [it|] eqn:Ef; [|by apply safe_always, (obeys_ret keeps_distinct)].
  apply mm_find_elem in Ef as [Hin _].
  apply safe_seq; [by apply safe_always, (obeys_ret keeps_distinct)|]. intros ? y0 [= <- <-].
  apply safe_seq; [apply safe_always, (frame_raw_delete keeps_distinct no_dangling); eauto using keeps_distinct_preorder, no_dangling_mono,
    no_dangling_other, distinct_registry|].
  intros [] y1 E. apply safe_gets. rewrite (raw_delete_closing _ _ _ _ E).
  unfold mm_erase_at. rewrite decide_True by done.
  apply safe_seq; [by apply safe_always, (obeys_ret keeps_distinct)|]. intros ? y0 [= <- <-].
  apply safe_seq; [by apply safe_always, (frame_modify keeps_distinct no_dangling); auto using distinct_registry|]. intros [] y2 _.
  apply safe_seq; [apply safe_always, safe_socketGarbageCollection|]. intros [] y3 _.
  apply safe_always, (obeys_ret keeps_distinct).
Qed.
End SafeCollect.

Lemma safe_dispatch depth : forall cbs, obeys keeps_distinct no_dangling (dispatch depth cbs).
Proof.
  induction depth as [|depth IH]; intros [|cb cbs]; cbn [dispatch].
  - apply (obeys_ret keeps_distinct).
  - apply (obeys_stop keeps_distinct). by intros y _.
  - apply (obeys_ret keeps_distinct).
  - apply (obeys_for_each keeps_distinct no_dangling); [exact no_dangling_mono|]. intros x.
    apply frame_handle; eauto using keeps_distinct_preorder, no_dangling_mono, no_dangling_other, distinct_registry,
      distinct_upd_harmless.
    2: intros i; apply safe_associationGarbageCollection.
    all: intros q; apply safe_checkAutoClose; [exact IH|]; intros p; apply frozen_dispatch.
Qed.
End Safe.

(** C7. No dangling iterator: if no association is in a connectionless list
    twice and the closing instances are an ascending set of instance IDs, then neither [checkAutoClose], nor the garbage collection, nor any
    callback at any depth of nesting ever advances an iterator whose element
    has been erased; the lists stay duplicate-free. *)
Theorem no_dangling_iterator `{!Platform} (depth : nat) (cbs : list Callback) (this : nat)
    (y : Sys) (Hdistinct : distinct y) :
  wp (fun f => f <> DanglingIterator) (dispatch depth cbs) (fun _ y' => distinct y') y
  /\ wp (fun f => f <> DanglingIterator) (checkAutoClose (dispatch depth) this)
       (fun _ y' => distinct y') y
  /\ wp (fun f => f <> DanglingIterator) (socketGarbageCollection (dispatch depth))
       (fun _ y' => distinct y') y.
Proof.
  assert (Hclose : forall q,
    obeys keeps_distinct no_dangling (checkAutoClose (dispatch depth) q)).
  { intros q. apply safe_checkAutoClose; [apply safe_dispatch|].
    intros p. apply frozen_dispatch. }
  assert (Hwp : forall A (m : P A), obeys keeps_distinct no_dangling m ->
    wp (fun f => f <> DanglingIterator) m (fun _ y' => distinct y') y).
  { intros A m Hm. unfold wp. specialize (Hm y). destruct (m y); by apply Hm. }
  repeat split; apply Hwp; [apply safe_dispatch | apply Hclose |].
  by apply safe_socketGarbageCollection.
Qed.

(** The associations an auto-connect socket has created or taken over. *)
Definition connectionless `{!Platform} (y : Sys) (p : nat) : option (list (@entry nat)) :=
  s_ConnectionlessAssociationList <$> sockets y !! p.

(** The recursion guard of [checkAutoClose]: while it is running on a
    socket, callbacks at any depth leave the socket's list of connectionless
    associations as it is, and the guard set. *)
Theorem autoclose_guard `{!Platform} (depth : nat) (cbs : list Callback) (this : nat)
    (y y' : Sys) (s : SCTPSocket)
    (Hs : sockets y !! this = Some s) (Hguard : s_AutoCloseRecursion s = true)
    (Hrun : dispatch depth cbs y = Ret tt y') :
  s_AutoCloseRecursion <$> sockets y' !! this = Some true
  /\ connectionless y' this = connectionless y this.
Proof.
  pose proof (frozen_dispatch this depth cbs y) as Hf. rewrite Hrun in Hf.
  destruct (Hf s Hs Hguard) as (s' & Hs' & Hg & Hl).
  unfold connectionless. rewrite Hs', Hs. simpl. by rewrite Hg, Hl.
Qed.

(** A socket with two associations, one of them shut down by its peer. *)
Definition demo_autoclose : @Sys demo :=
  final (dispatch 3 [CommunicationUp 5 1 1; CommunicationUp 6 1 1] ;;
         checkAutoConnect 0) (demo_boot udp_flags).

Lemma no_dangling_iterator_witness :
  distinct demo_autoclose
  /\ wp (fun f => f <> DanglingIterator) (dispatch 3 [ShutdownComplete 5; ShutdownComplete 6])
       (fun _ y' => distinct y') demo_autoclose.
Proof.
  assert (Hd : distinct demo_autoclose).
  { split; [|by split; vm_compute; repeat constructor].
    change (map_Forall (fun _ s => NoDup (s_ConnectionlessAssociationList s))
              (sockets demo_autoclose)).
    apply (bool_decide_unpack _). by vm_compute. }
  split; [exact Hd|].
  exact (proj1 (no_dangling_iterator 3 [ShutdownComplete 5; ShutdownComplete 6] 0 _ Hd)).
Defined.

(** Both associations are deleted. *)
Example demo_autoclose_deletes :
  s_ConnectionlessAssociationList <$> sockets demo_autoclose !! 0%nat = Some [(5, 1%nat); (6, 2%nat)]
  /\ s_ConnectionlessAssociationList <$>
       sockets (final (dispatch 3 [ShutdownComplete 5; ShutdownComplete 6]) demo_autoclose) !! 0%nat
     = Some [].
Proof. vm_compute. done. Qed.

Definition demo_guarded : @Sys demo :=
  final (upd_sock 0 (set_s_AutoCloseRecursion true)) demo_autoclose.

Definition demo_guarded_socket : SCTPSocket :=
  default (demo_socket 0) (sockets demo_guarded !! 0%nat).

Lemma autoclose_guard_witness :
  exists s y', sockets demo_guarded !! 0%nat = Some s /\ s_AutoCloseRecursion s = true
    /\ dispatch 3 [ShutdownComplete 5] demo_guarded = Ret tt y'
    /\ connectionless y' 0 = connectionless demo_guarded 0.
Proof.
  assert (Hrun : dispatch 3 [ShutdownComplete 5] demo_guarded
                 = Ret tt (final (dispatch 3 [ShutdownComplete 5]) demo_guarded))
    by (apply run_final; vm_compute; reflexivity).
  assert (Hs : sockets demo_guarded !! 0%nat = Some demo_guarded_socket)
    by (vm_compute; reflexivity).
  assert (Hg : s_AutoCloseRecursion demo_guarded_socket = true) by (vm_compute; reflexivity).
  exists demo_guarded_socket, (final (dispatch 3 [ShutdownComplete 5]) demo_guarded).
  exact (conj Hs (conj Hg (conj Hrun (proj2 (autoclose_guard 3 _ 0%nat _ _ _ Hs Hg Hrun))))).
Defined.
