(* ===== verification/Callbacks.v ===== *)
(** * The notifications the callbacks of [SCTPSocketMaster] queue

    What the callbacks write into a notification and what the receiving side
    reads back; where a notification goes and whom it wakes up. *)

From S2P Require Import Prelude MultiMap Memory Notification NotificationQueue State.
From S2P Require Import Association Socket SocketIO SocketOps SocketMaster Runs Demo.
From S2P Require Condition.
Local Open Scope Z_scope.

(** ** Contents *)

Definition u32_range (x : Z) : Prop := 0 <= x < 2 ^ 32.
Definition u16_range (x : Z) : Prop := 0 <= x < 2 ^ 16.

Lemma content_length c : content_ok c -> length c = sizeof_sctp_notification.
Proof. by intros []. Qed.
#[export] Hint Resolve content_length : sockapi.

(** Values that fit into their field are read back as they are. *)
Ltac small_fields :=
  repeat (rewrite Z.mod_small by (unfold u32_range, u16_range in *; simpl; lia)).

(** Writing the address of an address change leaves the other members. *)
Lemma rd_put_address f bs c :
  (length bs <= 128)%nat -> length c = sizeof_sctp_notification ->
  f_disjoint f spc_aaddr = true -> rd f (put_bytes (f_off spc_aaddr) bs c) = rd f c.
Proof.
  intros Hbs Hl Hd%bool_decide_eq_true_1. unfold rd, f_end in *. simpl in Hd |- *.
  unfold sizeof_sctp_notification in Hl. apply get_put_bytes_ne; lia.
Qed.

Lemma put_address_ok bs c :
  (length bs <= 128)%nat -> bytes_ok bs -> content_ok c ->
  content_ok (put_bytes (f_off spc_aaddr) bs c).
Proof.
  intros Hbs Hb [Hl Hc]. split; [|by apply put_bytes_ok].
  rewrite length_put_bytes; [done|]. unfold sizeof_sctp_notification in Hl. simpl. lia.
Qed.

(** The receiving side, evaluated on a type. *)
Lemma notification_assoc_id_spec c :
  (rd sn_type c = SCTP_ASSOC_CHANGE -> notification_assoc_id c = Some (rd sac_assoc_id c))
  /\ (rd sn_type c = SCTP_REMOTE_ERROR -> notification_assoc_id c = Some (rd sre_assoc_id c))
  /\ (rd sn_type c = SCTP_SHUTDOWN_EVENT -> notification_assoc_id c = Some (rd sse_assoc_id c))
  /\ (rd sn_type c = SCTP_PEER_ADDR_CHANGE -> notification_assoc_id c = Some (rd spc_assoc_id c)).
Proof. unfold notification_assoc_id. by repeat split; intros ->. Qed.

Section Contents.
Context `{!Platform}.

(** The fields of a data notification: the association, stream, protocol ID,
    number of bytes and the order flag. *)
Lemma data_arrive_read_back (assocID streamID length protoID unordered : Z) (c : list Z)
    (Hc : content_ok c) (Ha : u32_range assocID) (Hs : u16_range streamID)
    (Hl : u32_range length) (Hp : u32_range protoID) :
  let c' := data_arrive assocID streamID length protoID unordered c in
  content_ok c' /\ rd sn_type c' = SCTP_DATA_ARRIVE
  /\ rd sda_assoc_id c' = assocID /\ rd sda_stream c' = streamID
  /\ rd sda_ppid c' = protoID /\ rd sda_bytes_arrived c' = length
  /\ has_flag (rd sn_flags c') SCTP_ARRIVE_UNORDERED = bool_decide (unordered = 1)
  /\ rd sn_length c' = sizeof_sctp_data_arrive.
Proof.
  simpl. unfold data_arrive. split; [eauto 20 with sockapi|]. rd_wr.
  unfold u32_range, u16_range in *. simpl f_len.
  repeat (rewrite Z.mod_small by (unfold SCTP_DATA_ARRIVE, sizeof_sctp_data_arrive; simpl; lia)).
  repeat split; try done. by case_bool_decide.
Qed.

Lemma path_sockaddr_ok (destination : Addr) :
  (length (path_sockaddr destination) <= 128)%nat /\ bytes_ok (path_sockaddr destination).
Proof. unfold path_sockaddr. repeat case_bool_decide; done || apply getSystemAddress_ok. Qed.

(** Association changes, remote errors, shutdown events and address changes
    carry the association ID to where [internalReceive] looks for it, with the
    right type and a length that fits the buffer of the notification. *)
Theorem event_read_back (assocID state out in_ newState : Z) (destination : Addr) (c : list Z)
    (Hc : content_ok c) (Ha : u32_range assocID) :
  let change := assoc_change state out in_ assocID c in
  let error := remote_error assocID c in
  let shutdown := shutdown_event assocID c in
  let address := paddr_change assocID newState destination c in
  (content_ok change /\ rd sn_type change = SCTP_ASSOC_CHANGE
     /\ notification_assoc_id change = Some assocID
     /\ rd sn_length change = sizeof_sctp_assoc_change)
  /\ (content_ok error /\ rd sn_type error = SCTP_REMOTE_ERROR
     /\ notification_assoc_id error = Some assocID
     /\ rd sn_length error = sizeof_sctp_remote_error)
  /\ (content_ok shutdown /\ rd sn_type shutdown = SCTP_SHUTDOWN_EVENT
     /\ notification_assoc_id shutdown = Some assocID)
  /\ (content_ok address /\ rd sn_type address = SCTP_PEER_ADDR_CHANGE
     /\ notification_assoc_id address = Some assocID
     /\ rd sn_length address = sizeof_sctp_paddr_change
     /\ rd spc_state address = (path_state newState).1 mod 2 ^ 32
     /\ rd spc_error address = (path_state newState).2 mod 2 ^ 32).
Proof.
  simpl. destruct (notification_assoc_id_spec (assoc_change state out in_ assocID c)) as [H1 _].
  destruct (notification_assoc_id_spec (remote_error assocID c)) as (_ & H2 & _).
  destruct (notification_assoc_id_spec (shutdown_event assocID c)) as (_ & _ & H3 & _).
  destruct (notification_assoc_id_spec (paddr_change assocID newState destination c))
    as (_ & _ & _ & H4).
  destruct (path_sockaddr_ok destination) as [Hbl Hbo].
  unfold assoc_change, remote_error, shutdown_event, paddr_change in *.
  rewrite !rd_put_address in * by eauto 20 with sockapi.
  split_and!; eauto 20 using put_address_ok with sockapi;
    rewrite ?H1, ?H2, ?H3, ?H4; rd_wr; simpl f_len; small_fields; done.
Qed.

(** A send failure, in contrast, is queued as a remote error, and the
    association ID the receiving side reads from it is 0, whatever the
    association was, although [ssf_assoc_id] holds the right one. *)
Theorem send_failure_misread (assocID : Z) (c : list Z) (Hc : content_ok c)
    (Ha : u32_range assocID) :
  let c' := send_failed assocID c in
  content_ok c' /\ rd sn_type c' = SCTP_REMOTE_ERROR /\ notification_assoc_id c' = Some 0
  /\ rd ssf_assoc_id c' = assocID.
Proof.
  simpl. destruct (notification_assoc_id_spec (send_failed assocID c)) as (_ & Hid & _).
  unfold send_failed in *. split; [eauto 20 with sockapi|].
  assert (Hty : rd sn_type (send_failed assocID c) = SCTP_REMOTE_ERROR)
    by (unfold send_failed; rd_wr; done).
  unfold send_failed in Hty. split; [exact Hty|]. split; [|by rd_wr; small_fields].
  rewrite (Hid Hty). apply (f_equal Some). set (c' := wr _ _ _).
  assert (Hl : length c' = sizeof_sctp_notification) by (unfold c'; eauto 20 with sockapi).
  unfold sizeof_sctp_notification in Hl.
  assert (Hsplit : rd sre_assoc_id c' = rd ssf_info_sinfo_stream c'
                     + 2 ^ 16 * rd ssf_info_sinfo_ssn c')
    by (apply (get_split 12 2 2); lia).
  rewrite Hsplit. unfold c'. by rd_wr.
Qed.
End Contents.

(** ** Delivery *)

Section Delivery.
Context `{!Platform}.

(** An association of a socket, with the conditions the delivery uses. *)
Record registered (y : Sys) (p : nat) (i : Z) (a : nat) (s : SCTPSocket) (o : SCTPAssociation)
    : Prop := {
  reg_socket : sockets y !! p = Some s;
  reg_list : mm_find i (s_AssociationList s) = Some (i, a);
  reg_assoc : assocs y !! a = Some o;
  reg_conditions : conditions_ok y;
  reg_socket_live : live_condition y (p, InQueueUpdate);
  reg_assoc_live : live_condition y (a, InQueueUpdate) }.

Lemma runs_addNotification (l : Z) (p : nat) (assocID : Z) (n : SCTPNotification)
    (y : Sys) (a : nat) (s : SCTPSocket) (o : SCTPAssociation) :
  level_ok l -> registered y p assocID a s o ->
  readable (a_NotificationFlags o) (n_type n) = true -> 0 <= a_UseCount o < 2 ^ 32 - 1 ->
  exists y' s' o',
    runs l (addNotification p assocID n) y tt l y'
    /\ sockets y' !! p = Some s' /\ assocs y' !! a = Some o'
    /\ a_UseCount o' = a_UseCount o + 1
    /\ (world y' = world y /\ s_AssociationList s' = s_AssociationList s
        /\ a_AssociationID o' = a_AssociationID o)
    /\ (if to_global_queue s o then
          s_GlobalQueue s' = s_GlobalQueue s ++ [n] /\ a_InQueue o' = a_InQueue o
          /\ is_fired y' (p, InQueueUpdate)
        else
          s_GlobalQueue s' = s_GlobalQueue s /\ a_InQueue o' = a_InQueue o ++ [n]
          /\ is_fired y' (a, InQueueUpdate) /\ a_ReadReady o' = true).
Proof.
  intros Hl Hreg Hwanted Huse.
  destruct Hreg as [Hs Hlist Ho Hok Hps Hpa].
  assert (Hu : u32 (a_UseCount o + 1) = a_UseCount o + 1) by (apply wrap_small; lia).
  set (o1 := set_a_UseCount (u32 (a_UseCount o + 1)) o).
  destruct (to_global_queue s o) eqn:Hq.
  - set (s1 := set_s_GlobalQueue (Spec.addNotification n (s_GlobalQueue s)) s).
    destruct (runs_broadcast l (p, InQueueUpdate) (put_sock p s1 (put_assoc a o1 y)))
      as (cs & Hb & Hf); [done..|].
    assert (Hs2 : sockets (set_conditions cs (put_sock p s1 (put_assoc a o1 y))) !! p = Some s1)
      by apply lookup_insert_eq.
    eexists _, _, o1. split.
    { unfold addNotification. eapply runs_bind; [by eapply runs_getAssociation|]. cbv beta.
      rewrite andb_false_r. simpl. rstep. rewrite Hwanted. rstep. rstep. rewrite Hq. rstep.
      eapply runs_bind; [exact Hb|]. cbv beta. by apply runs_update_ReadReady. }
    split; [apply lookup_put_sock|]. split; [apply lookup_insert_eq|].
    split; [exact Hu|]. split; [done|]. split; [done|]. split; [done|].
    eapply (broadcast_is_fired (p, InQueueUpdate) _ _ _ Hps); [exact Hf | reflexivity].
  - set (o2 := set_a_InQueue (Spec.addNotification n (a_InQueue o)) o1).
    destruct (runs_broadcast l (a, InQueueUpdate) (put_assoc a o2 (put_assoc a o1 y)))
      as (cs & Hb & Hf); [done..|].
    assert (Ha2 : assocs (set_conditions cs (put_assoc a o2 (put_assoc a o1 y))) !! a = Some o2)
      by apply lookup_insert_eq.
    eexists _, s, _. split.
    { unfold addNotification. eapply runs_bind; [by eapply runs_getAssociation|]. cbv beta.
      rewrite andb_false_r. simpl. rstep. rewrite Hwanted. rstep. rstep. rewrite Hq. rstep.
      eapply runs_bind; [exact Hb|]. cbv beta.
      eapply runs_bind; [by eapply runs_assoc_hasData|]. cbv beta. by apply runs_upd_assoc. }
    split; [exact Hs|]. split; [apply lookup_put_assoc|]. split; [exact Hu|].
    split; [done|]. split; [done|]. split; [done|]. split.
    + eapply (broadcast_is_fired (a, InQueueUpdate) _ _ _ Hpa); [exact Hf | reflexivity].
    + simpl. unfold Spec.addNotification. rewrite Spec.hasData_app.
      unfold Spec.hasData at 2. simpl. rewrite Hwanted. by rewrite orb_true_r.
Qed.

(** C9. Delivery of a notification the association subscribed to.  If the
    socket has the global queue and the association is not peeled off, it is
    appended to the socket's queue, otherwise to the association's; nothing is
    reordered or lost, the other queue is unchanged, the queue's condition is
    fired, so that a waiting reader wakes up, and the use count pins the
    association until the notification is read. *)
Theorem addNotification_delivers (l : Z) (p : nat) (assocID : Z) (n : SCTPNotification)
    (y : Sys) (a : nat) (s : SCTPSocket) (o : SCTPAssociation)
    (Hl : level_ok l) (Hreg : registered y p assocID a s o)
    (Hwanted : readable (a_NotificationFlags o) (n_type n) = true)
    (Huse : 0 <= a_UseCount o < 2 ^ 32 - 1) :
  exists y' s' o',
    runs l (addNotification p assocID n) y tt l y'
    /\ sockets y' !! p = Some s' /\ assocs y' !! a = Some o'
    /\ a_UseCount o' = a_UseCount o + 1
    /\ (if has_flag (s_Flags s) SSF_GlobalQueue && negb (a_PeeledOff o) then
          s_GlobalQueue s' = s_GlobalQueue s ++ [n] /\ a_InQueue o' = a_InQueue o
          /\ is_fired y' (p, InQueueUpdate)
        else
          s_GlobalQueue s' = s_GlobalQueue s /\ a_InQueue o' = a_InQueue o ++ [n]
          /\ is_fired y' (a, InQueueUpdate) /\ a_ReadReady o' = true).
Proof.
  destruct (runs_addNotification l p assocID n y a s o)
    as (y' & s' & o' & Hrun & Hs & Ho & Hu & _ & Hif); [done..|].
  exists y', s', o'. done.
Qed.
End Delivery.

(** ** Witnesses *)

Lemma demo_content_ok : content_ok (Content demo_notification).
Proof. apply (indeterminate_ok (Platform := demo)). Qed.

Lemma event_read_back_witness :
  content_ok (Content demo_notification)
  /\ notification_assoc_id (shutdown_event 77 (Content demo_notification)) = Some 77.
Proof.
  split; [exact demo_content_ok|].
  by destruct (event_read_back (H := demo) 77 SCTP_COMM_UP 1 1 0 ("10.0.0.1"%string, 7)
    (Content demo_notification) demo_content_ok ltac:(by split)) as (_ & _ & (_ & _ & Hid) & _).
Defined.

Lemma send_failure_misread_witness :
  content_ok (Content demo_notification)
  /\ notification_assoc_id (send_failed 77 (Content demo_notification)) = Some 0.
Proof.
  split; [exact demo_content_ok|].
  by destruct (send_failure_misread 77 (Content demo_notification) demo_content_ok)
    as (_ & _ & Hid & _).
Defined.

Definition demo_data : SCTPNotification :=
  with_Content demo_notification (data_arrive 5 0 5 0 0 (Content demo_notification)).

Lemma demo_up_registered : registered demo_up 0 5 1 demo_up_socket demo_up_assoc.
Proof.
  split; [reflexivity.. | exact demo_up_conditions_ok | |];
    apply (bool_decide_unpack _); by vm_compute.
Qed.

Lemma addNotification_delivers_witness :
  exists y' s', registered demo_up 0 5 1 demo_up_socket demo_up_assoc
    /\ runs 0 (addNotification 0 5 demo_data) demo_up tt 0 y'
    /\ sockets y' !! 0%nat = Some s' /\ s_GlobalQueue s' = [demo_data].
Proof.
  destruct (addNotification_delivers 0 0 5 demo_data demo_up 1 demo_up_socket demo_up_assoc
              ltac:(by split) demo_up_registered ltac:(by vm_compute) ltac:(by split))
    as (y' & s' & o' & Hrun & Hs' & _ & _ & Hg & _ & _).
  exists y', s'. exact (conj demo_up_registered (conj Hrun (conj Hs' Hg))).
Defined.
