(* ===== verification/Receiving.v ===== *)
(** * Receiving: [SCTPSocket::internalReceive]

    Reading notifications piece by piece, reading user data, the results for
    an empty queue, and waking up from a wait. *)

From S2P Require Import Prelude MultiMap Memory Notification NotificationQueue State.
From S2P Require Import Association Socket SocketIO SocketOps SocketMaster Runs Demo Callbacks.
From S2P Require Condition.
Local Open Scope Z_scope.

(** ** The queue a call reads from *)

Section Queues.
Context `{!Platform}.

Definition queue_of (q : QueueRef) (y : Sys) : option Spec.queue :=
  match q with
  | GlobalQueueOf p => s_GlobalQueue <$> sockets y !! p
  | InQueueOf a => a_InQueue <$> assocs y !! a
  end.
Definition put_queue (q : QueueRef) (l : Spec.queue) (y : Sys) : Sys :=
  match q with
  | GlobalQueueOf p =>
      match sockets y !! p with Some s => put_sock p (set_s_GlobalQueue l s) y | None => y end
  | InQueueOf a =>
      match assocs y !! a with Some o => put_assoc a (set_a_InQueue l o) y | None => y end
  end.

Lemma queue_of_put q l y : is_Some (queue_of q y) -> queue_of q (put_queue q l y) = Some l.
Proof.
  destruct q as [p|a]; simpl; intros [? (o & Ho & _)%fmap_Some]; rewrite Ho; simpl;
    by rewrite lookup_insert_eq.
Qed.

Lemma put_queue_put q l1 l2 y : put_queue q l2 (put_queue q l1 y) = put_queue q l2 y.
Proof.
  destruct q as [p|a]; simpl; [destruct (sockets y !! p) eqn:E | destruct (assocs y !! a) eqn:E];
    simpl; rewrite ?lookup_insert_eq, ?E; try done.
  - unfold put_sock, set_sockets. simpl. by rewrite insert_insert_eq.
  - unfold put_assoc, set_assocs. simpl. by rewrite insert_insert_eq.
Qed.

Lemma runs_get_queue l q y ns : queue_of q y = Some ns -> runs l (get_queue q) y ns l y.
Proof. destruct q as [p|a]; simpl; intros (o & Ho & ->)%fmap_Some; rsteps. Qed.

Lemma runs_set_queue l q ns y :
  is_Some (queue_of q y) -> runs l (set_queue q ns) y tt l (put_queue q ns y).
Proof. destruct q as [p|a]; simpl; intros [? (o & Ho & _)%fmap_Some]; rewrite Ho; rsteps. Qed.

Lemma runs_queue_get l q y ns :
  queue_of q y = Some ns -> runs l (queue_getNotification q) y (head ns) l y.
Proof. intros Hq. eapply runs_bind; [by apply runs_get_queue|]. apply runs_ret. Qed.

Lemma runs_queue_update l q n y n0 ns :
  queue_of q y = Some (n0 :: ns) ->
  runs l (queue_updateNotification q n) y tt l (put_queue q (n :: ns) y).
Proof.
  intros Hq. eapply runs_bind; [by apply runs_get_queue|]. apply runs_set_queue. by rewrite Hq.
Qed.

Lemma runs_queue_drop l q y ns :
  queue_of q y = Some ns ->
  runs l (queue_dropNotification q) y tt l (put_queue q (tail ns) y).
Proof.
  intros Hq. eapply runs_bind; [by apply runs_get_queue|]. apply runs_set_queue. by rewrite Hq.
Qed.

(** What [put_queue] leaves alone: everything but the queue. *)
Definition same_queues_apart (q : QueueRef) (y y' : Sys) : Prop :=
  (forall p s, sockets y !! p = Some s -> exists s', sockets y' !! p = Some s'
     /\ s_AssociationList s' = s_AssociationList s /\ s_Flags s' = s_Flags s)
  /\ (forall a o, assocs y !! a = Some o -> exists o', assocs y' !! a = Some o'
     /\ a_UseCount o' = a_UseCount o /\ a_AssociationID o' = a_AssociationID o
     /\ a_ShutdownCompleteNotification o' = a_ShutdownCompleteNotification o
     /\ a_CommunicationLostNotification o' = a_CommunicationLostNotification o).
Lemma put_queue_apart q ns y : same_queues_apart q y (put_queue q ns y).
Proof.
  split.
  - intros p s Hs. destruct q as [p'|a]; simpl.
    + destruct (decide (p' = p)) as [->|Hne].
      * rewrite Hs. simpl. rewrite lookup_insert_eq. by eexists.
      * destruct (sockets y !! p') eqn:E; [|by exists s]. simpl.
        rewrite lookup_insert_ne by done. by exists s.
    + destruct (assocs y !! a); by exists s.
  - intros a o Ho. destruct q as [p|a']; simpl.
    + destruct (sockets y !! p); by exists o.
    + destruct (decide (a' = a)) as [->|Hne].
      * rewrite Ho. simpl. rewrite lookup_insert_eq. by eexists.
      * destruct (assocs y !! a') eqn:E; [|by exists o]. simpl.
        rewrite lookup_insert_ne by done. by exists o.
Qed.
End Queues.

(** ** Dropping a notification *)

Section Finish.
Context `{!Platform}.

Lemma put_assoc_put a o1 o2 y : put_assoc a o2 (put_assoc a o1 y) = put_assoc a o2 y.
Proof. unfold put_assoc, set_assocs. simpl. by rewrite insert_insert_eq. Qed.

(** The association a notification belongs to. *)
Record owner (y : Sys) (this : nat) (i : Z) (a : nat) (o : SCTPAssociation) : Prop := {
  owner_socket : exists s, sockets y !! this = Some s
                   /\ mm_find i (s_AssociationList s) = Some (i, a);
  owner_assoc : assocs y !! a = Some o;
  owner_id : a_AssociationID o = i }.

Lemma queue_of_put_assoc q a o o' y ns :
  assocs y !! a = Some o -> a_InQueue o' = a_InQueue o ->
  queue_of q y = Some ns -> queue_of q (put_assoc a o' y) = Some ns.
Proof.
  intros Ho Hf. destruct q as [p|b]; [done|]. simpl. destruct (decide (a = b)) as [->|Hne].
  - rewrite lookup_insert_eq, Ho. simpl. by rewrite Hf.
  - by rewrite lookup_insert_ne.
Qed.

Lemma queue_of_put_sock q p s s' y ns :
  sockets y !! p = Some s -> s_GlobalQueue s' = s_GlobalQueue s ->
  queue_of q y = Some ns -> queue_of q (put_sock p s' y) = Some ns.
Proof.
  intros Hs Hf. destruct q as [p'|b]; [|done]. simpl. destruct (decide (p = p')) as [->|Hne].
  - rewrite lookup_insert_eq, Hs. simpl. by rewrite Hf.
  - by rewrite lookup_insert_ne.
Qed.

(** The ready state of an association after a notification was dropped. *)
Lemma runs_set_ready l this i a s o y :
  level_ok l -> sockets y !! this = Some s -> mm_find i (s_AssociationList s) = Some (i, a) ->
  assocs y !! a = Some o ->
  exists o',
    runs l (let* d := assoc_hasData a in
            let* ready :=
              if d then ret true
              else let* e := getErrorCode this i in ret (bool_decide (e < 0)) in
            upd_assoc a (set_a_ReadReady ready)) y tt l (put_assoc a o' y)
    /\ a_InQueue o' = a_InQueue o /\ a_UseCount o' = a_UseCount o.
Proof.
  intros Hl Hs Hf Ho.
  destruct (Spec.hasData (a_NotificationFlags o) (a_InQueue o)) eqn:Hd.
  - exists (set_a_ReadReady true o). split; [|done].
    eapply runs_bind; [by eapply runs_assoc_hasData|]. cbv beta. rewrite Hd. rsteps.
  - set (o1 := if bool_decide (error_code o = 0) then o else set_a_HasException true o).
    exists (set_a_ReadReady (bool_decide (error_code o < 0)) o1).
    split; [|by unfold o1; destruct (bool_decide (error_code o = 0))].
    eapply runs_bind; [by eapply runs_assoc_hasData|]. cbv beta. rewrite Hd.
    eapply runs_bind.
    { eapply runs_bind; [by eapply runs_getErrorCode|]. apply runs_ret. }
    cbv beta. simpl. unfold o1. destruct (bool_decide (error_code o = 0)).
    + by apply runs_upd_assoc.
    + eapply runs_eq; [by apply runs_upd_assoc, lookup_put_assoc|done..|].
      apply put_assoc_put.
Qed.

Lemma runs_finish_receive l this q i a o y ns :
  level_ok l -> queue_of q y = Some ns -> owner y this i a o -> 0 < a_UseCount o ->
  exists y' o', runs l (finish_receive this q i) y tt l y'
    /\ queue_of q y' = Some (tail ns)
    /\ assocs y' !! a = Some o' /\ a_UseCount o' = a_UseCount o - 1.
Proof.
  intros Hl Hq [(s & Hs & Hf) Ho Hi] Hu.
  set (y0 := put_queue q (tail ns) y).
  destruct (put_queue_apart q (tail ns) y) as [Hsame Hsamea]. fold y0 in Hsame, Hsamea.
  destruct (Hsame _ _ Hs) as (s0 & Hs0 & Hl0 & _).
  destruct (Hsamea _ _ Ho) as (o0 & Ho0 & Hu0 & Hi0 & _). rewrite Hi in Hi0.
  rewrite <- Hl0 in Hf.
  assert (Hq0 : queue_of q y0 = Some (tail ns)) by (apply queue_of_put; by rewrite Hq).
  set (y1 := set_world (getMicroTime_ (world y0)).2 y0).
  set (o1 := set_a_LastUsage (getMicroTime_ (world y0)).1 o0).
  set (o2 := set_a_UseCount (a_UseCount o1 - 1) o1).
  destruct (runs_set_ready l this i a s0 o2 (put_assoc a o2 y1)) as (o3 & Hready & Hin & Huse);
    [done | exact Hs0 | done | apply lookup_put_assoc |].
  eexists _, o3. split.
  { unfold finish_receive. eapply runs_bind; [by apply runs_queue_drop|]. cbv beta. fold y0.
    eapply runs_bind; [by eapply runs_getAssociation|]. cbv beta. rewrite andb_false_r. simpl.
    eapply runs_bind.
    - rstep. rstep. rstep. fold y1 o1.
      eapply runs_bind.
      { rewrite bool_decide_true by (change (0 < a_UseCount o0); lia). rsteps. }
      cbv beta. fold o2. rewrite put_assoc_put. change (a_AssociationID o1) with (a_AssociationID o0).
      rewrite Hi0. exact Hready.
    - cbv beta. apply runs_update_ReadReady; [done|exact Hs0]. }
  split; [|split; [apply lookup_put_assoc|]].
  - apply (queue_of_put_sock q this s0); [exact Hs0|done|]. rewrite put_assoc_put.
    apply (queue_of_put_assoc q a o0); [exact Ho0|by rewrite Hin|exact Hq0].
  - rewrite Huse. simpl. lia.
Qed.
End Finish.

(** ** Reading a notification piece by piece *)

Section Pieces.
Context `{!Platform}.

(** A notification the reader subscribed to. *)
Record event (notificationFlags i : Z) (n : SCTPNotification) : Prop := {
  event_type : n_type n <> SCTP_DATA_ARRIVE;
  event_id : notification_assoc_id (Content n) = Some i;
  event_subscribed : event_wanted notificationFlags (rd sn_type (Content n)) = true;
  event_length : rd sn_length (Content n) <= Z.of_nat (length (Content n));
  event_size : (length (Content n) <= sizeof_sctp_notification)%nat }.

Lemma event_position flags i n p :
  event flags i n -> event flags i (with_ContentPosition n p).
Proof. by intros [? ? ? ? ?]. Qed.

(** The bytes from a position on. *)
Definition slice (from len : Z) (c : list Z) : list Z :=
  take (Z.to_nat len) (drop (Z.to_nat from) c).

Lemma runs_receive_loop_found l this q flags r sched y n ns :
  queue_of q y = Some (n :: ns) ->
  runs l (receive_loop this q flags r (receive_fuel sched) sched) y (inl n) l y.
Proof.
  intros Hq. unfold receive_fuel. rewrite Nat.add_comm. cbn [receive_loop plus].
  eapply runs_bind; [by eapply runs_queue_get|]. apply runs_ret.
Qed.

(** What one call reads of the notification, and the flags it returns. *)
Definition piece (n : SCTPNotification) (size : Z) : Z :=
  Z.min (rd sn_length (Content n) - ContentPosition n) size.
Definition complete (n : SCTPNotification) (size : Z) : bool :=
  bool_decide (rd sn_length (Content n) <= ContentPosition n + size).

Lemma runs_receive_notification l this q flags i r y n ns :
  queue_of q y = Some (n :: ns) -> event flags i n ->
  has_flag (ra_flags r) MSG_PEEK = false ->
  0 <= ContentPosition n < rd sn_length (Content n) -> 0 < ra_bufferSize r < 2 ^ 32 ->
  exists r',
    runs l (receive_notification this q n flags true r) y
      (piece n (ra_bufferSize r), negb (complete n (ra_bufferSize r)), r') l
      (if complete n (ra_bufferSize r) then y
       else put_queue q (with_ContentPosition n (ContentPosition n + ra_bufferSize r) :: ns) y)
    /\ ra_buffer r' = slice (ContentPosition n) (piece n (ra_bufferSize r)) (Content n)
    /\ ra_assocID r' = i
    /\ has_flag (ra_flags r') MSG_NOTIFICATION = true
    /\ has_flag (ra_flags r') MSG_EOR
       = complete n (ra_bufferSize r) || has_flag (ra_flags r) MSG_EOR.
Proof.
  intros Hq [Hty Hid Hsub Hlen Hsz] Hpeek Hpos Hsize.
  unfold sizeof_sctp_notification in Hsz.
  set (len := rd sn_length (Content n)) in *. set (pos := ContentPosition n) in *.
  set (size := ra_bufferSize r) in *.
  assert (Hmin : Z.min (u32 (len - pos)) (u32 size) = piece n size).
  { unfold piece. fold len pos. rewrite !wrap_small by lia. done. }
  assert (Hp : 0 < piece n size <= len - pos) by (unfold piece; fold len pos; lia).
  unfold receive_notification. cbv zeta. rewrite Hid, Hsub. cbn [andb]. fold len pos.
  change (ra_bufferSize (set_ra_assocID i r)) with size. rewrite Hmin.
  change (ra_flags (set_ra_buffer _ _ (set_ra_assocID i r))) with (ra_flags r). rewrite Hpeek.
  rewrite (wrap_small 32 (pos + piece n size)) by lia. rewrite (s32_small (piece n size)) by lia.
  unfold complete. fold len pos.
  destruct (bool_decide_reflect (len <= pos + size)) as [Hc|Hc]; cbn [negb orb].
  - assert (Hpe : piece n size = len - pos) by (unfold piece; fold len pos; lia).
    rewrite (bool_decide_false (pos + piece n size < len)) by lia.
    eexists. split.
    { eapply runs_bind; [rsteps; apply runs_ret|]. cbv beta iota. apply runs_ret. }
    simpl. split; [done|]. split; [done|]. split; [apply has_set_flag; lia|].
    rewrite (has_set_flag_ne _ 7 0) by lia. apply (has_set_flag _ 7). lia.
  - assert (Hpe : piece n size = size) by (unfold piece; fold len pos; lia).
    rewrite Hpe. rewrite (bool_decide_true (pos + size < len)) by lia.
    eexists. split.
    { eapply runs_bind.
      - eapply runs_bind; [by eapply runs_queue_update|]. cbv beta. apply runs_ret.
      - cbv beta iota. apply runs_ret. }
    simpl. split; [done|]. split; [done|]. split; [apply has_set_flag; lia|].
    apply (has_set_flag_ne _ 7 0); lia.
Qed.

Lemma owner_put_queue y this i a o q ns :
  owner y this i a o ->
  exists o', owner (put_queue q ns y) this i a o' /\ a_UseCount o' = a_UseCount o.
Proof.
  intros [(s & Hs & Hf) Ho Hi]. destruct (put_queue_apart q ns y) as [Hss Hsa].
  destruct (Hss _ _ Hs) as (s' & Hs' & Hl' & _). destruct (Hsa _ _ Ho) as (o' & Ho' & Hu' & Hi' & _).
  exists o'. split; [|done]. split; [|done|congruence]. exists s'. by rewrite Hl'.
Qed.

Lemma runs_internalReceive_event l this q flags w i a r sched y o n ns :
  0 <= l < 2 ^ 31 - 1 -> queue_of q y = Some (n :: ns) -> event flags i n ->
  owner y this i a o -> 0 < a_UseCount o ->
  has_flag (ra_flags r) MSG_NOTIFICATION = true -> has_flag (ra_flags r) MSG_PEEK = false ->
  0 <= ContentPosition n < rd sn_length (Content n) -> 0 < ra_bufferSize r < 2 ^ 32 ->
  exists r' y',
    runs l (internalReceive this q flags w r sched) y (piece n (ra_bufferSize r), r') l y'
    /\ ra_buffer r' = slice (ContentPosition n) (piece n (ra_bufferSize r)) (Content n)
    /\ has_flag (ra_flags r') MSG_EOR
       = complete n (ra_bufferSize r) || has_flag (ra_flags r) MSG_EOR
    /\ if complete n (ra_bufferSize r)
       then queue_of q y' = Some ns
            /\ exists o', assocs y' !! a = Some o' /\ a_UseCount o' = a_UseCount o - 1
       else y' = put_queue q (with_ContentPosition n (ContentPosition n + ra_bufferSize r) :: ns) y.
Proof.
  intros Hl Hq He Ho Hu Hn Hp Hpos Hsize.
  destruct (runs_receive_notification (l + 1) this q flags i r y n ns)
    as (r' & Hr & Hb & Hi & _ & Heor); try done.
  assert (Hgoal : exists y', runs (l + 1)
    (when (negb (negb (complete n (ra_bufferSize r)))) (finish_receive this q (ra_assocID r')))
    (if complete n (ra_bufferSize r) then y
     else put_queue q (with_ContentPosition n (ContentPosition n + ra_bufferSize r) :: ns) y)
    tt (l + 1) y'
    /\ if complete n (ra_bufferSize r)
       then queue_of q y' = Some ns
            /\ exists o', assocs y' !! a = Some o' /\ a_UseCount o' = a_UseCount o - 1
       else y' = put_queue q (with_ContentPosition n (ContentPosition n + ra_bufferSize r) :: ns) y).
  { rewrite negb_involutive, Hi. destruct (complete n (ra_bufferSize r)); simpl.
    - destruct (runs_finish_receive (l + 1) this q i a o y (n :: ns))
        as (y' & o' & Hf & Hq' & Ha & Hu'); [unfold level_ok; lia|done..|]. eauto 10.
    - eexists. split; [apply runs_ret|done]. }
  destruct Hgoal as (y' & Hf & Hend). exists r', y'.
  split; [|by repeat split].
  unfold internalReceive. rewrite bool_decide_false by lia.
  rstep. eapply runs_bind; [by eapply runs_receive_loop_found|]. cbv beta iota.
  eapply runs_bind.
  { rewrite (bool_decide_false (n_type n = SCTP_DATA_ARRIVE)) by (by destruct He).
    rewrite Hn. exact Hr. }
  cbv beta iota. eapply runs_bind; [exact Hf|]. cbv beta. rsteps.
Qed.

(** A client that reads with one buffer after the other until the end of the
    record. *)
Fixpoint read_record (this : nat) (q : QueueRef) (flags : Z) (r : RecvArgs) (sizes : list Z)
  : P (list Z * bool) :=
  match sizes with
  | [] => ret ([], false)
  | size :: sizes =>
      let* '(result, r') := internalReceive this q flags false (set_ra_buffer [] size r) [] in
      if has_flag (ra_flags r') MSG_EOR then ret (ra_buffer r', true)
      else
        let* '(bytes, eor) := read_record this q flags r sizes in
        ret (ra_buffer r' ++ bytes, eor)
  end.

Lemma slice_split from n m c :
  0 <= from -> 0 <= n -> 0 <= m -> slice from n c ++ slice (from + n) m c = slice from (n + m) c.
Proof.
  intros. unfold slice. rewrite !Z2Nat.inj_add by lia. rewrite <- drop_drop, take_take_drop.
  done.
Qed.

Lemma runs_read_record l this q flags i a r sizes : forall y o n ns,
  0 <= l < 2 ^ 31 - 1 -> queue_of q y = Some (n :: ns) -> event flags i n ->
  owner y this i a o -> 0 < a_UseCount o ->
  has_flag (ra_flags r) MSG_NOTIFICATION = true -> has_flag (ra_flags r) MSG_PEEK = false ->
  has_flag (ra_flags r) MSG_EOR = false ->
  0 <= ContentPosition n < rd sn_length (Content n) ->
  Forall (fun size => 0 < size < 2 ^ 32) sizes ->
  rd sn_length (Content n) <= ContentPosition n + foldr Z.add 0 sizes ->
  exists y' o',
    runs l (read_record this q flags r sizes) y
      (slice (ContentPosition n) (rd sn_length (Content n) - ContentPosition n) (Content n), true)
      l y'
    /\ queue_of q y' = Some ns
    /\ assocs y' !! a = Some o' /\ a_UseCount o' = a_UseCount o - 1.
Proof.
  induction sizes as [|size sizes IH]; intros y o n ns Hl Hq He Ho Hu Hn Hp Heor Hpos Hsizes Hsum;
    simpl in Hsum; [lia|].
  apply Forall_cons in Hsizes as [Hsize Hsizes].
  destruct (runs_internalReceive_event l this q flags false i a (set_ra_buffer [] size r) []
    y o n ns) as (r' & y1 & Hr & Hb & Hr'eor & Hend); try done.
  simpl in Hb, Hr'eor, Hend. rewrite Heor, orb_false_r in Hr'eor.
  unfold complete in *. cbn [read_record].
  destruct (bool_decide_reflect (rd sn_length (Content n) <= ContentPosition n + size)) as [Hc|Hc].
  - destruct Hend as (Hq' & o' & Ho' & Hu'). exists y1, o'. split; [|done].
    eapply runs_bind; [exact Hr|]. cbv beta iota. rewrite Hr'eor.
    eapply runs_eq; [apply runs_ret| |done|done]. rewrite Hb. unfold piece. by rewrite Z.min_l by lia.
  - subst y1.
    destruct (owner_put_queue y this i a o q
      (with_ContentPosition n (ContentPosition n + size) :: ns) Ho) as (o1 & Ho1 & Hu1).
    destruct (IH (put_queue q (with_ContentPosition n (ContentPosition n + size) :: ns) y) o1
      (with_ContentPosition n (ContentPosition n + size)) ns)
      as (y' & o' & Hrec & Hq' & Ho' & Hu'); try done.
    + apply queue_of_put. by rewrite Hq.
    + by apply event_position.
    + by rewrite Hu1.
    + simpl. lia.
    + simpl. lia.
    + exists y', o'. split; [|by rewrite Hu1 in Hu'].
      eapply runs_bind; [exact Hr|]. cbv beta iota. rewrite Hr'eor.
      eapply runs_bind; [exact Hrec|]. cbv beta iota. simpl.
      eapply runs_eq; [apply runs_ret| |done|done]. rewrite Hb.
      unfold piece. rewrite Z.min_r by lia. f_equal. simpl in Hpos.
      rewrite slice_split by lia. f_equal. lia.
Qed.
End Pieces.

(** ** Reading user data *)

Section Data.
Context `{!Platform}.

Lemma runs_sender_address l i want r y :
  exists addr, runs l (sender_address i want r) y
    {| ra_buffer := ra_buffer r; ra_bufferSize := ra_bufferSize r; ra_flags := ra_flags r;
       ra_assocID := ra_assocID r; ra_streamID := ra_streamID r; ra_protoID := ra_protoID r;
       ra_ssn := ra_ssn r; ra_tsn := ra_tsn r; ra_address := addr |} l y.
Proof.
  assert (Hsame : forall (r : RecvArgs), r =
    {| ra_buffer := ra_buffer r; ra_bufferSize := ra_bufferSize r; ra_flags := ra_flags r;
       ra_assocID := ra_assocID r; ra_streamID := ra_streamID r; ra_protoID := ra_protoID r;
       ra_ssn := ra_ssn r; ra_tsn := ra_tsn r; ra_address := ra_address r |}) by by intros [].
  unfold sender_address. destruct want; simpl.
  2: { exists (ra_address r). rewrite <- Hsame. apply runs_ret. }
  destruct (sctp_getPathStatus i (sctp_getPrimary i (world y)) (world y)) as [p|] eqn:Ep.
  2: { exists (ra_address r). rewrite <- Hsame. rstep. rstep. rewrite Ep. apply runs_ret. }
  destruct (sctp_getAssocStatus i (world y)) as [st|] eqn:Est.
  2: { exists (ra_address r). rewrite <- Hsame. rstep. rstep. rewrite Ep. rstep. rewrite Est.
       apply runs_ret. }
  eexists. rstep. rstep. rewrite Ep. rstep. rewrite Est. apply runs_ret.
Qed.

(** A data notification, and what sctplib hands out for it. *)
Record arrival (n : SCTPNotification) (i stream arrived : Z) : Prop := {
  arrival_content : content_ok (Content n);
  arrival_type : n_type n = SCTP_DATA_ARRIVE;
  arrival_id : rd sda_assoc_id (Content n) = i;
  arrival_stream : rd sda_stream (Content n) = stream;
  arrival_bytes : rd sda_bytes_arrived (Content n) = arrived;
  arrival_some : 0 < arrived }.

(** The notification with a part of its bytes read. *)
Definition consumed (n : SCTPNotification) (left : Z) : SCTPNotification :=
  with_Content n (wr sda_bytes_arrived left (Content n)).

Lemma consumed_arrival n i stream arrived left :
  arrival n i stream arrived -> 0 < left < 2 ^ 32 -> arrival (consumed n left) i stream left.
Proof.
  intros [Hc Hty Hi Hs Hb Hp] Hl.
  assert (Hlen : length (Content n) = sizeof_sctp_notification) by (by destruct Hc).
  split.
  - apply (wr_ok sda_bytes_arrived left (Content n)); [reflexivity|exact Hc].
  - rewrite <- Hty. by apply rd_wr_ne.
  - rewrite <- Hi. by apply rd_wr_ne.
  - rewrite <- Hs. by apply rd_wr_ne.
  - unfold consumed. cbn [Content with_Content]. rewrite rd_wr_same by done.
    apply Z.mod_small. simpl. lia.
  - lia.
Qed.

(** What the call tells about the data besides: the protocol ID, the numbers of
    the chunk, whether it is unordered, and that it is no notification. *)
Record data_info (n : SCTPNotification) (r r' : RecvArgs) (d : Received) : Prop := {
  info_protoID : ra_protoID r' = rd sda_ppid (Content n);
  info_ssn : ra_ssn r' = r_ssn d;
  info_tsn : ra_tsn r' = r_tsn d;
  info_notification : has_flag (ra_flags r') MSG_NOTIFICATION = false;
  info_unordered : has_flag (ra_flags r') MSG_UNORDERED =
    has_flag (rd sn_flags (Content n)) SCTP_ARRIVE_UNORDERED || has_flag (ra_flags r) MSG_UNORDERED }.

Lemma runs_receive_data l q n want r y i stream arrived d w ns :
  queue_of q y = Some (n :: ns) -> arrival n i stream arrived ->
  0 < ra_bufferSize r < 2 ^ 31 ->
  sctp_receive i stream (Z.min arrived (ra_bufferSize r)) (has_flag (ra_flags r) MSG_PEEK) (world y)
    = (Some d, w) ->
  Z.of_nat (length (r_data d)) <= Z.min arrived (ra_bufferSize r) ->
  let got := Z.of_nat (length (r_data d)) in
  let peek := has_flag (ra_flags r) MSG_PEEK in
  exists r',
    runs l (receive_data q n want r) y (got, peek || bool_decide (got < arrived), r') l
      (if peek then put_queue q (n :: ns) (set_world w y)
       else if bool_decide (got < arrived)
            then put_queue q (consumed n (arrived - got) :: ns) (set_world w y)
            else set_world w y)
    /\ ra_buffer r' = r_data d /\ ra_assocID r' = i /\ ra_streamID r' = stream
    /\ data_info n r r' d
    /\ has_flag (ra_flags r') MSG_EOR
       = (negb peek && bool_decide (got = arrived)) || has_flag (ra_flags r) MSG_EOR.
Proof.
  intros Hq [Hc Hty Hi Hs Hb Hp] Hsize Hrecv Hgot. cbv zeta.
  set (got := Z.of_nat (length (r_data d))) in *.
  assert (Hrange : arrived < 2 ^ 32).
  { rewrite <- Hb. apply (rd_range sda_bytes_arrived); [reflexivity|done]. }
  unfold receive_data. cbv zeta. rewrite Hi, Hs, Hb, (bool_decide_true (0 < arrived)) by done.
  cbn [ra_flags ra_bufferSize set_ra_flags].
  rewrite (wrap_small 32 (Z.min _ _)) by lia.
  (* the flag for unordered data does not concern the peek flag *)
  set (flags := if has_flag (rd sn_flags (Content n)) SCTP_ARRIVE_UNORDERED
                then set_flag (clear_flag (ra_flags r) MSG_NOTIFICATION) MSG_UNORDERED
                else clear_flag (ra_flags r) MSG_NOTIFICATION).
  assert (Hflags : forall k, 0 < k -> k <> 2 ->
    has_flag flags (2 ^ k) = has_flag (ra_flags r) (2 ^ k)).
  { intros k Hk Hk2. unfold flags. destruct (has_flag (rd _ _) _);
      rewrite ?(has_set_flag_ne _ _ 2), (has_clear_flag_ne _ _ 0) by lia; done. }
  assert (Hpeek : has_flag flags MSG_PEEK = has_flag (ra_flags r) MSG_PEEK)
    by (apply (Hflags 1); lia).
  assert (Heor : has_flag flags MSG_EOR = has_flag (ra_flags r) MSG_EOR)
    by (apply (Hflags 7); lia).
  assert (Hnote : has_flag flags MSG_NOTIFICATION = false).
  { unfold flags. destruct (has_flag (rd _ _) _);
      [etransitivity; [apply (has_set_flag_ne _ 0 2); lia|]|]; apply (has_clear_flag _ 0); lia. }
  assert (Hunord : has_flag flags MSG_UNORDERED
    = has_flag (rd sn_flags (Content n)) SCTP_ARRIVE_UNORDERED || has_flag (ra_flags r) MSG_UNORDERED).
  { unfold flags. destruct (has_flag (rd _ _) _); [apply (has_set_flag _ 2); lia|].
    apply (has_clear_flag_ne _ 2 0); lia. }
  set (r1 := {| ra_buffer := r_data d; ra_bufferSize := got; ra_flags := flags;
    ra_assocID := i; ra_streamID := stream; ra_protoID := rd sda_ppid (Content n);
    ra_ssn := r_ssn d; ra_tsn := r_tsn d; ra_address := ra_address r |}).
  destruct (runs_sender_address l i want r1 (set_world w y)) as (addr & Haddr).
  assert (Hcall : runs l (call (sctp_receive i stream (Z.min arrived (ra_bufferSize r))
      (has_flag flags MSG_PEEK))) y (Some d) l (set_world w y)).
  { rewrite Hpeek. eapply runs_eq; [apply runs_call| |done|]; by rewrite Hrecv. }
  assert (Hw : u32 (arrived - got) = arrived - got) by (apply wrap_small; lia).
  assert (Hs32 : s32 got = got) by (apply s32_small; lia).
  assert (Hqw : queue_of q (set_world w y) = Some (n :: ns)) by (by destruct q).
  rewrite <- Hpeek, <- Heor.
  destruct (has_flag flags MSG_PEEK) eqn:Hpk; cbn [orb negb andb].
  - eexists. split.
    { eapply runs_bind; [exact Hcall|]. cbv beta iota. fold got. rewrite Hs32.
      eapply runs_bind; [exact Haddr|]. cbv beta.
      eapply runs_bind; [by eapply runs_queue_update|]. cbv beta. apply runs_ret. }
    by repeat split.
  - destruct (bool_decide_reflect (got < arrived)) as [Hlt|Hge].
    + eexists. split.
      { eapply runs_bind; [exact Hcall|]. cbv beta iota. fold got. rewrite Hw, Hs32.
        eapply runs_bind; [exact Haddr|]. cbv beta.
        rewrite bool_decide_true by lia.
        eapply runs_bind; [by eapply runs_queue_update|]. cbv beta. apply runs_ret. }
      cbn. rewrite bool_decide_false by lia. by repeat split.
    + eexists. split.
      { eapply runs_bind; [exact Hcall|]. cbv beta iota. fold got. rewrite Hw, Hs32.
        eapply runs_bind; [exact Haddr|]. cbv beta.
        rewrite bool_decide_false by lia. apply runs_ret. }
      split; [done|]. split; [done|]. split; [done|]. cbn [ra_flags set_ra_flags].
      split.
      { split; try done; cbn [ra_flags set_ra_flags].
        - etransitivity; [apply (has_set_flag_ne _ 0 7); lia|done].
        - etransitivity; [apply (has_set_flag_ne _ 2 7); lia|done]. }
      rewrite bool_decide_true by lia. apply (has_set_flag _ 7). lia.
Qed.
End Data.

(** ** The properties *)

Section Properties.
Context `{!Platform}.

(** C10. A notification is read completely however small the buffers are: a
    client that calls [internalReceive] with buffers of any positive sizes,
    until the end-of-record flag, gets the [sn_length] bytes of the
    notification, in order and once, with the flag exactly on the last call;
    the notification has then left the queue and the use count of its
    association is decremented once. *)
Theorem read_record_reassembles (l : Z) (this : nat) (q : QueueRef) (flags i : Z) (a : nat)
    (r : RecvArgs) (sizes : list Z) (y : Sys) (o : SCTPAssociation) (n : SCTPNotification)
    (ns : list SCTPNotification)
    (Hl : 0 <= l < 2 ^ 31 - 1) (Hq : queue_of q y = Some (n :: ns)) (He : event flags i n)
    (Hown : owner y this i a o) (Huse : 0 < a_UseCount o)
    (Hwants : has_flag (ra_flags r) MSG_NOTIFICATION = true)
    (Hpeek : has_flag (ra_flags r) MSG_PEEK = false)
    (Heor : has_flag (ra_flags r) MSG_EOR = false)
    (Hpos : ContentPosition n = 0) (Hlen : 0 < rd sn_length (Content n))
    (Hsizes : Forall (fun size => 0 < size < 2 ^ 32) sizes)
    (Hsum : rd sn_length (Content n) <= foldr Z.add 0 sizes) :
  exists y' o',
    runs l (read_record this q flags r sizes) y
      (take (Z.to_nat (rd sn_length (Content n))) (Content n), true) l y'
    /\ queue_of q y' = Some ns
    /\ assocs y' !! a = Some o' /\ a_UseCount o' = a_UseCount o - 1.
Proof.
  destruct (runs_read_record l this q flags i a r sizes y o n ns)
    as (y' & o' & Hrun & Hend); try done; [lia..|].
  exists y', o'. split; [|done]. rewrite Hpos, Z.sub_0_r in Hrun. exact Hrun.
Qed.

(** Reading user data once the loop has found it. *)
Lemma runs_receive_arrival (l : Z) (this : nat) (q : QueueRef) (flags : Z) (want : bool)
    (r : RecvArgs) (sched : schedule) (y0 y : Sys) (n : SCTPNotification)
    (ns : list SCTPNotification) (i stream arrived : Z) (a : nat) (o : SCTPAssociation)
    (d : Received) (w : W) :
  0 <= l < 2 ^ 31 - 1 ->
  runs (l + 1) (receive_loop this q flags r (receive_fuel sched) sched) y0 (inl n) (l + 1) y ->
  queue_of q y = Some (n :: ns) -> arrival n i stream arrived ->
  owner y this i a o -> 0 < a_UseCount o -> 0 < ra_bufferSize r < 2 ^ 31 ->
  sctp_receive i stream (Z.min arrived (ra_bufferSize r))
    (has_flag (ra_flags r) MSG_PEEK) (world y) = (Some d, w) ->
  Z.of_nat (length (r_data d)) <= Z.min arrived (ra_bufferSize r) ->
  let got := Z.of_nat (length (r_data d)) in
  exists r' y' o',
    runs l (internalReceive this q flags want r sched) y0 (got, r') l y'
    /\ ra_buffer r' = r_data d /\ ra_assocID r' = i /\ ra_streamID r' = stream
    /\ data_info n r r' d
    /\ assocs y' !! a = Some o'
    /\ (if has_flag (ra_flags r) MSG_PEEK then
          queue_of q y' = Some (n :: ns) /\ a_UseCount o' = a_UseCount o
        else if bool_decide (got < arrived) then
          queue_of q y' = Some (consumed n (arrived - got) :: ns)
          /\ arrival (consumed n (arrived - got)) i stream (arrived - got)
          /\ a_UseCount o' = a_UseCount o
          /\ has_flag (ra_flags r') MSG_EOR = has_flag (ra_flags r) MSG_EOR
        else
          queue_of q y' = Some ns /\ has_flag (ra_flags r') MSG_EOR = true
          /\ a_UseCount o' = a_UseCount o - 1).
Proof.
  intros Hl Hloop Hq Harr Hown Huse Hsize Hrecv Hgot.
  cbv zeta. set (got := Z.of_nat (length (r_data d))) in *.
  assert (Hqw : queue_of q (set_world w y) = Some (n :: ns)) by (by destruct q).
  assert (Howw : owner (set_world w y) this i a o) by (by destruct Hown).
  destruct (runs_receive_data (l + 1) q n want r y i stream arrived d w ns)
    as (r' & Hr & Hb & Hi & Hs & Hinfo & Heor); try done.
  fold got in Hr, Heor.
  assert (Hrange : 0 < arrived < 2 ^ 32).
  { destruct Harr as [Hc _ _ _ <- ?]. split; [done|].
    by apply (rd_range sda_bytes_arrived (Content n)). }
  assert (Hreceive : forall y1 y2,
    runs (l + 1) (receive_data q n want r) y (got, has_flag (ra_flags r) MSG_PEEK
      || bool_decide (got < arrived), r') (l + 1) y1 ->
    runs (l + 1) (when (negb (has_flag (ra_flags r) MSG_PEEK || bool_decide (got < arrived)))
      (finish_receive this q (ra_assocID r'))) y1 tt (l + 1) y2 ->
    runs l (internalReceive this q flags want r sched) y0 (got, r') l y2).
  { intros y1 y2 Hrun1 Hrun2. unfold internalReceive. rewrite bool_decide_false by lia.
    rstep. eapply runs_bind; [exact Hloop|]. cbv beta iota.
    eapply runs_bind.
    { rewrite (bool_decide_true (n_type n = SCTP_DATA_ARRIVE)) by (by destruct Harr).
      exact Hrun1. }
    cbv beta iota. eapply runs_bind; [exact Hrun2|]. cbv beta. rsteps. }
  exists r'. destruct (has_flag (ra_flags r) MSG_PEEK); cbn [orb negb andb] in *.
  - destruct (owner_put_queue _ this i a o q (n :: ns) Howw) as (o' & Ho' & Hu').
    eexists _, o'. split; [eapply Hreceive; [exact Hr|apply runs_ret]|].
    split_and!; try done; [by destruct Ho'|apply queue_of_put; by rewrite Hqw].
  - destruct (bool_decide_reflect (got < arrived)) as [Hlt|Hge]; cbn [negb] in *.
    + destruct (owner_put_queue _ this i a o q (consumed n (arrived - got) :: ns) Howw)
        as (o' & Ho' & Hu').
      eexists _, o'. split; [eapply Hreceive; [exact Hr|apply runs_ret]|].
      rewrite bool_decide_false in Heor by lia.
      split_and!; try done; [by destruct Ho'|apply queue_of_put; by rewrite Hqw|].
      apply (consumed_arrival n i stream arrived); [done|]. lia.
    + destruct (runs_finish_receive (l + 1) this q i a o (set_world w y) (n :: ns))
        as (y' & o' & Hf & Hq' & Ho' & Hu'); [unfold level_ok; lia|done..|].
      exists y', o'. rewrite <- Hi in Hf.
      split; [eapply Hreceive; [exact Hr|exact Hf]|].
      rewrite bool_decide_true in Heor by lia. rewrite Hi. split_and!; done.
Qed.

(** C11. Reading user data.  The call returns the bytes sctplib hands out, with
    the association and stream of the notification.  With [MSG_PEEK] the queue
    is unchanged; otherwise the notification stays at the head with the number
    of remaining bytes while there are any, and with the last byte it leaves
    the queue, the end-of-record flag is set and the use count of the
    association is decremented. *)
Theorem receive_data_correct (l : Z) (this : nat) (q : QueueRef) (flags : Z) (want : bool)
    (r : RecvArgs) (sched : schedule) (y : Sys) (n : SCTPNotification)
    (ns : list SCTPNotification) (i stream arrived : Z) (a : nat) (o : SCTPAssociation)
    (d : Received) (w : W)
    (Hl : 0 <= l < 2 ^ 31 - 1) (Hq : queue_of q y = Some (n :: ns))
    (Harr : arrival n i stream arrived)
    (Hown : owner y this i a o) (Huse : 0 < a_UseCount o)
    (Hsize : 0 < ra_bufferSize r < 2 ^ 31)
    (Hrecv : sctp_receive i stream (Z.min arrived (ra_bufferSize r))
               (has_flag (ra_flags r) MSG_PEEK) (world y) = (Some d, w))
    (Hgot : Z.of_nat (length (r_data d)) <= Z.min arrived (ra_bufferSize r)) :
  let got := Z.of_nat (length (r_data d)) in
  exists r' y' o',
    runs l (internalReceive this q flags want r sched) y (got, r') l y'
    /\ ra_buffer r' = r_data d /\ ra_assocID r' = i /\ ra_streamID r' = stream
    /\ assocs y' !! a = Some o'
    /\ (if has_flag (ra_flags r) MSG_PEEK then
          queue_of q y' = Some (n :: ns) /\ a_UseCount o' = a_UseCount o
        else if bool_decide (got < arrived) then
          queue_of q y' = Some (consumed n (arrived - got) :: ns)
          /\ arrival (consumed n (arrived - got)) i stream (arrived - got)
          /\ a_UseCount o' = a_UseCount o
          /\ has_flag (ra_flags r') MSG_EOR = has_flag (ra_flags r) MSG_EOR
        else
          queue_of q y' = Some ns /\ has_flag (ra_flags r') MSG_EOR = true
          /\ a_UseCount o' = a_UseCount o - 1).
Proof.
  destruct (runs_receive_arrival l this q flags want r sched y y n ns i stream arrived a o d w)
    as (r' & y' & o' & Hrun & Hb & Hi & Hs & _ & Hend); try done;
    [by eapply runs_receive_loop_found|].
  by exists r', y', o'.
Qed.

(** The error code of the association a call names. *)
Definition call_error (y : Sys) (this : nat) (i code : Z) : Prop :=
  exists s, sockets y !! this = Some s /\
  match mm_find i (s_AssociationList s) with
  | Some e => exists o, assocs y !! e.2 = Some o /\ code = error_code o
  | None => code = 0
  end.

Lemma runs_call_error l this i code y :
  level_ok l -> call_error y this i code ->
  exists y', runs l (getErrorCode this i) y code l y' /\ (code = 0 -> y' = y)
    /\ (forall q, queue_of q y' = queue_of q y).
Proof.
  intros Hl (s & Hs & He). destruct (mm_find i (s_AssociationList s)) as [e|] eqn:Ef.
  - destruct He as (o & Ho & ->). eexists. split; [by eapply runs_getErrorCode|]. split.
    + intros Hz. by rewrite bool_decide_true.
    + intros q. case_bool_decide; [done|]. destruct q as [p|b]; [done|]. simpl.
      destruct (decide (e.2 = b)) as [<-|Hne].
      * rewrite lookup_insert_eq, Ho. done.
      * by rewrite lookup_insert_ne.
  - subst code. exists y. split; [by eapply runs_getErrorCode_none|]. done.
Qed.

(** An empty queue.  Without an error, a non-blocking call returns
    [-EAGAIN] and changes nothing, and a blocking one waits as long as no other
    thread does anything; for an association that is closed ([-ECONNRESET]) the
    call returns 0, the end of the stream; another error is returned as it is. *)
Theorem receive_empty (l : Z) (this : nat) (q : QueueRef) (flags code : Z) (want : bool)
    (r : RecvArgs) (y : Sys)
    (Hl : 0 <= l < 2 ^ 31 - 1) (Hq : queue_of q y = Some [])
    (Hsize : ra_bufferSize r <> 0) (Hcode : call_error y this (ra_assocID r) code) :
  (code <> 0 -> exists r' y',
     runs l (internalReceive this q flags want r []) y
       (if bool_decide (code = - ECONNRESET) then 0 else code, r') l y'
     /\ ra_bufferSize r' = 0 /\ queue_of q y' = Some [])
  /\ (code = 0 -> has_flag (ra_flags r) MSG_DONTWAIT = true ->
      runs l (internalReceive this q flags want r []) y (- EAGAIN, r) l y)
  /\ (code = 0 -> has_flag (ra_flags r) MSG_DONTWAIT = false ->
      forall d, Condition.conds (conditions y) !! queue_condition q = Some d ->
      Condition.Fired d = false ->
      forall ce old, internalReceive this q flags want r [] (relock l ce old y) = Stop WouldBlock).
Proof.
  destruct (runs_call_error (l + 1) this (ra_assocID r) code y) as (y' & Herr & Hsame & Hqs);
    [unfold level_ok; lia|done|].
  assert (Hget : runs (l + 1) (queue_getNotification q) y None (l + 1) y)
    by (by eapply (runs_queue_get _ _ _ [])).
  assert (Hfuel : receive_fuel [] = 2%nat) by done.
  split; [|split].
  - intros Hne. unfold internalReceive. rewrite bool_decide_false by done.
    assert (Hget' : runs l (queue_hasData q flags) y' false l y').
    { eapply runs_bind; [apply runs_get_queue; by rewrite Hqs|]. apply runs_ret. }
    eexists _, y'. split.
    + rstep. rewrite Hfuel. cbn [receive_loop].
      eapply runs_bind with (a := inr (if bool_decide (code = - ECONNRESET) then 0 else code,
        if bool_decide (code = - ECONNRESET)
        then set_ra_flags (clear_flag (ra_flags r) MSG_NOTIFICATION) (set_ra_buffer (ra_buffer r) 0 r)
        else set_ra_buffer (ra_buffer r) 0 r)).
      * eapply runs_bind; [exact Hget|]. cbv beta iota.
        eapply runs_bind; [exact Herr|]. cbv beta. rstep.
        rewrite (bool_decide_true (code <> 0)) by done.
        eapply runs_bind; [exact Hget'|]. cbv beta. rewrite andb_true_r.
        destruct (bool_decide (code = - ECONNRESET)); apply runs_ret.
      * cbv beta iota. apply runs_ret.
    + split; [by destruct (bool_decide (code = - ECONNRESET))|by rewrite Hqs].
  - intros Hz Hd. rewrite (Hsame Hz) in Herr. subst code. unfold internalReceive.
    rewrite bool_decide_false by done. rstep. rewrite Hfuel. cbn [receive_loop]. eapply runs_bind.
    + eapply runs_bind; [exact Hget|]. cbv beta iota. eapply runs_bind; [exact Herr|]. cbv beta.
      rstep. rewrite (bool_decide_false (0 <> 0)) by (intros Hn; by apply Hn).
      rewrite Hd. apply runs_ret.
    + cbv beta iota. apply runs_ret.
  - intros Hz Hd d Hc Hf ce old. rewrite (Hsame Hz) in Herr. subst code.
    unfold internalReceive. rewrite bool_decide_false by done.
    destruct (runs_lock l y ltac:(unfold level_ok; lia) ce old) as [old1 E1].
    unfold bind at 1. rewrite E1. rewrite Hfuel. cbn [receive_loop]. unfold bind at 1 2.
    destruct (Hget ce old1) as [old2 E2]. rewrite E2. unfold bind at 1.
    destruct (Herr ce old2) as [old3 E3]. rewrite E3. unfold bind at 1.
    destruct (runs_unlock l y ltac:(lia) ce old3) as [old4 E4]. rewrite E4.
    rewrite (bool_decide_false (0 <> 0)) by (intros Hn; by apply Hn). rewrite Hd.
    unfold bind at 1. rewrite (wait_blocks _ _ d); [done| |done].
    by rewrite (relock_proj conditions).
Qed.
(** The queue the notifications of an association go to. *)
Definition destination (p a : nat) (s : SCTPSocket) (o : SCTPAssociation) : QueueRef :=
  if to_global_queue s o then GlobalQueueOf p else InQueueOf a.

(** C12. No lost wake-up: a call blocks on the empty queue of its notifications;
    meanwhile, the callback of sctplib queues the arrival of user data.  Then
    the waiting call is woken up and returns the data, and if these are all the
    data, the queue is empty and the use count what it was. *)
Theorem blocked_receive_wakes (l : Z) (p a : nat) (i stream arrived flags : Z) (want : bool)
    (r : RecvArgs) (y : Sys) (s : SCTPSocket) (o : SCTPAssociation) (n : SCTPNotification)
    (c : Condition.Cond cid) (d : Received) (w : W)
    (Hl : 0 <= l < 2 ^ 31 - 1) (Hreg : registered y p i a s o) (Hid : a_AssociationID o = i)
    (Hempty : queue_of (destination p a s o) y = Some [])
    (Hcond : Condition.conds (conditions y) !! queue_condition (destination p a s o) = Some c)
    (Hfired : Condition.Fired c = false)
    (Hcode : call_error y p (ra_assocID r) 0)
    (Hblock : has_flag (ra_flags r) MSG_DONTWAIT = false)
    (Huse : 0 <= a_UseCount o < 2 ^ 32 - 1) (Harr : arrival n i stream arrived)
    (Hsize : 0 < ra_bufferSize r < 2 ^ 31) (Hpeek : has_flag (ra_flags r) MSG_PEEK = false)
    (Hrecv : sctp_receive i stream (Z.min arrived (ra_bufferSize r)) false (world y) = (Some d, w))
    (Hall : Z.of_nat (length (r_data d)) = arrived) (Hfits : arrived <= ra_bufferSize r) :
  exists r' y' o',
    runs l (internalReceive p (destination p a s o) flags want r [addNotification p i n]) y
      (arrived, r') l y'
    /\ ra_buffer r' = r_data d /\ ra_assocID r' = i
    /\ has_flag (ra_flags r') MSG_EOR = true
    /\ queue_of (destination p a s o) y' = Some []
    /\ assocs y' !! a = Some o' /\ a_UseCount o' = a_UseCount o.
Proof.
  set (q := destination p a s o) in *.
  assert (Hwanted : readable (a_NotificationFlags o) (n_type n) = true)
    by (destruct Harr as [_ -> _ _ _ _]; done).
  destruct (runs_addNotification l p i n y a s o)
    as (y1 & s1 & o1 & Hadd & Hs1 & Ho1 & Hu1 & (Hw1 & Hl1 & Hi1) & Hif);
    [unfold level_ok; lia|done..|].
  assert (Hq1 : queue_of q y1 = Some [n] /\ is_fired y1 (queue_condition q)).
  { unfold q, destination in *. destruct Hreg as [Hs _ Ho _ _ _].
    destruct (to_global_queue s o); simpl in *.
    - rewrite Hs in Hempty. simpl in Hempty. destruct Hif as (Hg & _ & Hf).
      rewrite Hs1. simpl. rewrite Hg. split; [|done]. by injection Hempty as ->.
    - rewrite Ho in Hempty. simpl in Hempty. destruct Hif as (_ & Hg & Hf & _).
      rewrite Ho1. simpl. rewrite Hg. split; [|done]. by injection Hempty as ->. }
  destruct Hq1 as [Hq1 Hf1].
  set (y2 := clear_fired (queue_condition q) y1).
  assert (Hsame : assocs y2 = assocs y1 /\ sockets y2 = sockets y1 /\ world y2 = world y1)
    by (unfold y2, clear_fired; by destruct (Condition.conds (conditions y1) !! queue_condition q)).
  destruct Hsame as (Ha2 & Hs2 & Hw2).
  assert (Hq2 : queue_of q y2 = Some [n])
    by (rewrite <- Hq1; generalize q; intros []; simpl; by rewrite ?Ha2, ?Hs2).
  assert (Hown : owner y2 p i a o1).
  { split; [|by rewrite Ha2|congruence]. exists s1. rewrite Hs2, Hl1. split; [done|].
    by destruct Hreg. }
  destruct (runs_call_error (l + 1) p (ra_assocID r) 0 y) as (y0 & Herr & Hy0 & _);
    [unfold level_ok; lia|done|]. rewrite (Hy0 eq_refl) in Herr.
  destruct (runs_receive_arrival l p q flags want r [addNotification p i n] y y2 n [] i stream
    arrived a o1 d w) as (r' & y' & o' & Hrun & Hb & Hi & _ & _ & Ho' & Hend);
    try done; [| lia | by rewrite Hpeek, Hw2, Hw1 | lia |].
  - unfold receive_fuel. cbn [length Nat.mul Nat.add receive_loop].
    eapply runs_bind; [by eapply (runs_queue_get _ _ _ [])|]. cbv beta iota.
    eapply runs_bind; [exact Herr|]. cbv beta. rstep.
    rewrite (bool_decide_false (0 <> 0)) by (intros Hn; by apply Hn). rewrite Hblock.
    eapply runs_bind; [by eapply runs_wait_once|]. cbv beta. fold y2. rstep.
    eapply runs_bind; [by eapply runs_queue_get|]. cbv beta iota. apply runs_ret.
  - rewrite Hall in *. rewrite Hpeek, bool_decide_false in Hend by lia.
    destruct Hend as (Hq' & Heor & Hu'). exists r', y', o'. split_and!; try done. lia.
Qed.

(** The notification [initNotification] makes. *)
Lemma initNotification_ok l i y :
  exists n, runs l (initNotification i) y n l y /\ content_ok (Content n).
Proof.
  set (w := world y).
  assert (Hc : content_ok (wr sn_type SCTP_UNDEFINED (Content indeterminate_notification)))
    by (apply wr_ok; [reflexivity|apply indeterminate_ok]).
  destruct (initNotification i y) as [n y1|] eqn:E; cycle 1.
  { revert E. unfold initNotification. by destruct (sctp_getAssocStatus i _). }
  exists n. revert E. unfold initNotification, runs.
  destruct (sctp_getAssocStatus i (world y)) as [st|] eqn:Est; intros [= <- <-]; (split; [|exact Hc]);
    intros ce old; exists old; by rewrite (relock_proj world), Est.
Qed.
Lemma runs_getSocket l i instanceID p e y :
  sctp_getInstanceID i (world y) = Some instanceID -> instanceID <> 0 ->
  mm_find instanceID (SocketList y) = Some (e, p) ->
  runs l (getSocketForAssociationID i) y (Some p) l y.
Proof.
  intros Hi Hne Hf. unfold getSocketForAssociationID. eapply runs_bind; [apply runs_ask|]. cbv beta.
  rewrite Hi, bool_decide_true by done.
  eapply runs_bind; [apply runs_gets; intros; by apply (relock_proj SocketList)|]. cbv beta. rewrite Hf.
  apply runs_ret.
Qed.
(** The queue after the delivery to its end. *)
Lemma delivered_queue p a i s o y n l :
  level_ok l -> registered y p i a s o -> queue_of (destination p a s o) y = Some [] ->
  readable (a_NotificationFlags o) (n_type n) = true -> 0 <= a_UseCount o < 2 ^ 32 - 1 ->
  a_AssociationID o = i ->
  exists y' o', runs l (addNotification p i n) y tt l y' /\ world y' = world y
    /\ queue_of (destination p a s o) y' = Some [n]
    /\ owner y' p i a o' /\ a_UseCount o' = a_UseCount o + 1.
Proof.
  intros Hl Hreg Hempty Hw Hu Hid.
  destruct (runs_addNotification l p i n y a s o)
    as (y1 & s1 & o1 & Hadd & Hs1 & Ho1 & Hu1 & (Hw1 & Hl1 & Hi1) & Hif); [done..|].
  exists y1, o1. split; [done|]. split; [done|]. split; [|split; [|done]].
  - destruct Hreg as [Hs _ Ho _ _ _]. unfold destination in *. destruct (to_global_queue s o); simpl in *.
    + rewrite Hs in Hempty. injection Hempty as Hg. rewrite Hs1. simpl. destruct Hif as (-> & _). by rewrite Hg.
    + rewrite Ho in Hempty. injection Hempty as Hg. rewrite Ho1. simpl. destruct Hif as (_ & -> & _). by rewrite Hg.
  - split; [|done|congruence]. exists s1. split; [done|]. rewrite Hl1. by destruct Hreg.
Qed.

End Properties.

(** ** Witnesses *)

Definition demo_args (size flags : Z) : @RecvArgs demo :=
  {| ra_buffer := []; ra_bufferSize := size; ra_flags := flags; ra_assocID := 0;
     ra_streamID := 0; ra_protoID := 0; ra_ssn := 0; ra_tsn := 0; ra_address := None |}.

(** The demo system with one notification in the socket's queue. *)
Definition demo_queued (n : SCTPNotification) : @Sys demo :=
  put_sock 0 (set_s_GlobalQueue [n] demo_up_socket)
    (put_assoc 1 (set_a_UseCount 1 demo_up_assoc) demo_up).
Definition demo_event : SCTPNotification :=
  with_Content demo_notification (shutdown_event 5 (Content demo_notification)).

Lemma demo_queued_owner n :
  owner (demo_queued n) 0 5 1 (set_a_UseCount 1 demo_up_assoc).
Proof. split; [by eexists|done..]. Qed.

Lemma demo_event_ok : event SCTP_RECVSHUTDOWNEVNT 5 demo_event.
Proof. split; by vm_compute. Qed.

Lemma demo_data_ok : arrival demo_data 5 0 5.
Proof.
  split; [|by vm_compute..]. apply (bool_decide_unpack _). by vm_compute.
Qed.

Lemma read_record_reassembles_witness :
  event SCTP_RECVSHUTDOWNEVNT 5 demo_event
  /\ exists y', runs 0 (read_record 0 (GlobalQueueOf 0) SCTP_RECVSHUTDOWNEVNT
       (demo_args 0 MSG_NOTIFICATION) [7; 7; 7]) (demo_queued demo_event)
       (take 20 (Content demo_event), true) 0 y'.
Proof.
  split; [exact demo_event_ok|].
  destruct (read_record_reassembles 0 0 (GlobalQueueOf 0) SCTP_RECVSHUTDOWNEVNT 5 1
    (demo_args 0 MSG_NOTIFICATION) [7; 7; 7] (demo_queued demo_event) _ demo_event []
    ltac:(lia) eq_refl demo_event_ok (demo_queued_owner demo_event) ltac:(by vm_compute)
    ltac:(by vm_compute) ltac:(by vm_compute) ltac:(by vm_compute) eq_refl ltac:(by vm_compute)
    ltac:(repeat constructor; lia) ltac:(by vm_compute)) as (y' & o' & Hrun & _).
  exists y'. exact Hrun.
Defined.

Lemma receive_data_correct_witness :
  arrival demo_data 5 0 5
  /\ exists r' y', runs 0 (internalReceive 0 (GlobalQueueOf 0) SCTP_RECVDATAIOEVNT false
       (demo_args 3 0) []) (demo_queued demo_data) (3, r') 0 y'
     /\ ra_buffer r' = [104; 101; 108]
     /\ queue_of (GlobalQueueOf 0) y' = Some [consumed demo_data 2].
Proof.
  split; [exact demo_data_ok|].
  destruct (receive_data_correct 0 0 (GlobalQueueOf 0) SCTP_RECVDATAIOEVNT false (demo_args 3 0) []
    (demo_queued demo_data) demo_data [] 5 0 5 1 _
    {| r_data := [104; 101; 108]; r_ssn := 0; r_tsn := 0 |}
    (with_data (<[5 := [108; 111]]> (w_data demo_connected)) demo_connected)
    ltac:(lia) eq_refl demo_data_ok (demo_queued_owner demo_data) ltac:(by vm_compute)
    ltac:(by vm_compute) ltac:(vm_compute; reflexivity) ltac:(by vm_compute))
    as (r' & y' & o' & Hrun & Hb & _ & _ & _ & Hq & _).
  exists r', y'. exact (conj Hrun (conj Hb Hq)).
Defined.

Lemma receive_empty_witness :
  queue_of (GlobalQueueOf 0) demo_up = Some []
  /\ runs 0 (internalReceive 0 (GlobalQueueOf 0) 0 false (demo_args 10 MSG_DONTWAIT) []) demo_up
       (-11, demo_args 10 MSG_DONTWAIT) 0 demo_up.
Proof.
  split; [reflexivity|].
  assert (Hcode : call_error demo_up 0 (ra_assocID (demo_args 10 MSG_DONTWAIT)) 0)
    by (exists demo_up_socket; by split).
  destruct (receive_empty 0 0 (GlobalQueueOf 0) 0 0 false (demo_args 10 MSG_DONTWAIT) demo_up
    ltac:(lia) eq_refl ltac:(by vm_compute) Hcode) as (_ & Hagain & _).
  apply Hagain; [reflexivity|by vm_compute].
Defined.

Lemma blocked_receive_wakes_witness :
  queue_of (GlobalQueueOf 0) demo_up = Some []
  /\ exists r' y', runs 0 (internalReceive 0 (GlobalQueueOf 0) 0 false (demo_args 10 0)
       [addNotification 0 5 demo_data]) demo_up (5, r') 0 y'
     /\ ra_buffer r' = [104; 101; 108; 108; 111].
Proof.
  split; [reflexivity|].
  assert (Hcode : call_error demo_up 0 (ra_assocID (demo_args 10 0)) 0)
    by (exists demo_up_socket; by split).
  assert (Hc : Condition.conds (conditions demo_up) !! (0%nat, InQueueUpdate)
    = Some {| Condition.Fired := false; Condition.ParentSet := ∅ |}) by reflexivity.
  destruct (blocked_receive_wakes 0 0 1 5 0 5 0 false (demo_args 10 0) demo_up demo_up_socket
    demo_up_assoc demo_data {| Condition.Fired := false; Condition.ParentSet := ∅ |}
    {| r_data := [104; 101; 108; 108; 111]; r_ssn := 0; r_tsn := 0 |}
    (with_data (<[5 := []]> (w_data demo_connected)) demo_connected)
    ltac:(lia) demo_up_registered eq_refl eq_refl Hc eq_refl Hcode ltac:(by vm_compute)
    ltac:(by vm_compute) demo_data_ok ltac:(by vm_compute) ltac:(by vm_compute)
    ltac:(vm_compute; reflexivity) eq_refl ltac:(by vm_compute))
    as (r' & y' & o' & Hrun & Hb & _).
  exists r', y'. exact (conj Hrun Hb).
Defined.

