(* ===== verification/Sending.v ===== *)
(** * Sending: [SCTPSocket::internalSend] and the packets queued before an
    association is established *)

From S2P Require Import Prelude MultiMap Memory Notification NotificationQueue State.
From S2P Require Import Association Socket SocketIO SocketOps SocketMaster Runs Demo.
From S2P Require Condition.
Local Open Scope Z_scope.

Section Sending.
Context `{!Platform}.

(** The association [i] of socket [p], with nothing that prevents sending. *)
Record usable (y : Sys) (p : nat) (i : Z) (a : nat) (s : SCTPSocket) (o : SCTPAssociation)
    : Prop := {
  us_socket : sockets y !! p = Some s;
  us_list : mm_find i (s_AssociationList s) = Some (i, a);
  us_assoc : assocs y !! a = Some o;
  us_error : error_code o = 0 }.

Lemma usable_clear y p i a s o c : usable y p i a s o -> usable (clear_fired c y) p i a s o.
Proof. intros []. split; rewrite ?sockets_clear, ?assocs_clear; done. Qed.
Lemma usable_world y p i a s o w : usable y p i a s o -> usable (set_world w y) p i a s o.
Proof. by intros []. Qed.

(** An established association of the socket [p] with the ID [i]. *)
Definition identity_of (o : SCTPAssociation) (p : nat) (i : Z) : Prop :=
  a_Socket o = p /\ a_AssociationID o = i /\ a_CommunicationUpNotification o = true.

(** The call of sctplib that [internalSend] makes for a message. *)
Definition transmit (i : Z) (sa : SendArgs) (w : W) : Z * W :=
  sctp_send_private i (sa_streamID sa) (sa_buffer sa) (sa_protoID sa) (sctp_getPrimary i w)
    (sa_timeToLive sa) (has_flag (sa_flags sa) MSG_UNORDERED)
    (has_flag (sa_flags sa) MSG_UNBUNDLED) w.

(** The result of the call, in terms of errno. *)
Definition send_result (sa : SendArgs) (r : Z) : Z :=
  if bool_decide (r = 0) then s32 (Z.of_nat (length (sa_buffer sa)))
  else if bool_decide (r = SCTP_PARAMETER_PROBLEM) then - EINVAL
  else if bool_decide (r = SCTP_QUEUE_EXCEEDED) then - ENOBUFS
  else - EIO.

(** The state after a send that ended with [r]. *)
Definition sent (p : nat) (s : SCTPSocket) (r : Z) (w : W) (y : Sys) : Sys :=
  put_sock p (set_s_WriteReady (bool_decide (r <> SCTP_QUEUE_EXCEEDED)) s) (set_world w y).

Lemma runs_getErrorCode_usable l y p i a s o :
  level_ok l -> usable y p i a s o -> runs l (getErrorCode p i) y 0 l y.
Proof.
  intros Hl [Hs Hi Ho He]. eapply runs_eq; [by eapply runs_getErrorCode|done|done|].
  by rewrite bool_decide_true.
Qed.

(** One round of the send loop that does not have to wait. *)
Lemma runs_send_once l y i sa c fuel sched :
  level_ok l -> (0 < fuel)%nat ->
  (transmit i sa (world y)).1 <> SCTP_QUEUE_EXCEEDED \/ has_flag (sa_flags sa) MSG_DONTWAIT = true ->
  runs l (send_loop sa i c None fuel sched) y (transmit i sa (world y)).1 l
    (set_world (transmit i sa (world y)).2 y).
Proof.
  intros Hl Hfuel Hdone. destruct fuel as [|fuel]; [lia|]. cbn [send_loop]. rstep. rstep. rstep. rstep.
  fold (transmit i sa (world y)).
  assert (Hcond : bool_decide ((transmit i sa (world y)).1 = SCTP_QUEUE_EXCEEDED)
                  && negb (has_flag (sa_flags sa) MSG_DONTWAIT) = false).
  { destruct Hdone as [Hne|Hf]; [by rewrite bool_decide_false|by rewrite Hf, andb_false_r]. }
  rewrite Hcond. rsteps.
Qed.

Lemma runs_internalSend l y p i a s o sa c sched :
  level_ok l -> usable y p i a s o ->
  (transmit i sa (world y)).1 <> SCTP_QUEUE_EXCEEDED \/ has_flag (sa_flags sa) MSG_DONTWAIT = true ->
  runs l (internalSend p sa i c None sched) y (send_result sa (transmit i sa (world y)).1) l
    (sent p s (transmit i sa (world y)).1 (transmit i sa (world y)).2 y).
Proof.
  intros Hl Hu Hdone. unfold internalSend.
  eapply runs_bind; [by eapply runs_getErrorCode_usable|]. cbv beta.
  rewrite bool_decide_false by lia.
  eapply runs_bind; [apply runs_send_once; [done|unfold send_fuel; lia|done]|]. cbv beta.
  destruct Hu. rsteps.
Qed.

(** A round that finds sctplib's queue full, and what the others do meanwhile. *)
Lemma runs_send_wait l y y1 i sa c d fuel others r l' y' :
  level_ok l -> Condition.conds (conditions y) !! c = Some d -> Condition.Fired d = false ->
  (transmit i sa (world y)).1 = SCTP_QUEUE_EXCEEDED -> has_flag (sa_flags sa) MSG_DONTWAIT = false ->
  runs l others (set_world (transmit i sa (world y)).2 y) tt l y1 ->
  live_condition y1 c ->
  runs l (send_loop sa i c None fuel []) (clear_fired c y1) r l' y' ->
  runs l (send_loop sa i c None (S fuel) [others]) y r l' y'.
Proof.
  intros Hl Hc Hd Hfull Hwait Hothers [d1 Hd1] Hrest. cbn [send_loop].
  rstep. rstep. rstep. rstep. fold (transmit i sa (world y)).
  rewrite bool_decide_true, Hwait by done. cbn [andb negb].
  rstep. eapply runs_bind; [by apply runs_fired|]. cbv beta. rewrite Hd.
  rewrite (clear_fired_id c d) by done.
  eapply runs_bind.
  { eapply runs_bind; [exact Hothers|]. cbv beta.
    eapply runs_bind; [by apply runs_fired|]. cbv beta. apply runs_ret. }
  cbv beta. rstep. rstep. exact Hrest.
Qed.

(** C15. The result of a send.  If the association has an error, its code is
    returned and sctplib is not called.  Otherwise exactly one call is made
    when it is not refused for a full queue, or the caller does not want to
    wait: the result is the number of bytes, [-EINVAL], [-ENOBUFS] or [-EIO]
    by the result of the call, and [WriteReady] says whether the queue has
    room. *)
Theorem internal_send_result (l : Z) (y : Sys) (p : nat) (i : Z) (a : nat) (s : SCTPSocket)
    (o : SCTPAssociation) (sa : SendArgs) (c : cid) (sched : schedule)
    (Hl : level_ok l) (Hs : sockets y !! p = Some s)
    (Hi : mm_find i (s_AssociationList s) = Some (i, a)) (Ho : assocs y !! a = Some o) :
  let r := transmit i sa (world y) in
  (error_code o <> 0 ->
     runs l (internalSend p sa i c None sched) y (error_code o) l
       (put_assoc a (set_a_HasException true o) y))
  /\ (error_code o = 0 ->
      r.1 <> SCTP_QUEUE_EXCEEDED \/ has_flag (sa_flags sa) MSG_DONTWAIT = true ->
     runs l (internalSend p sa i c None sched) y (send_result sa r.1) l (sent p s r.1 r.2 y)).
Proof.
  simpl. split.
  - intros He. unfold internalSend. eapply runs_bind; [by eapply runs_getErrorCode|]. cbv beta.
    rewrite (bool_decide_true (error_code o <> 0)), (bool_decide_false (error_code o = 0)) by done.
    apply runs_ret.
  - intros He Hdone. apply (runs_internalSend l y p i a s o); [done| |done]. by split.
Qed.

(** A blocking send whose message sctplib's queue has no room for waits
    for the association's condition, and after the others have run it tries
    again, on the state they leave: once the queue has room, the message is
    sent and its length returned.  Without others it waits for ever. *)
Theorem blocked_send_resumes (l : Z) (y y1 : Sys) (p : nat) (i : Z) (a : nat)
    (s s1 : SCTPSocket) (o o1 : SCTPAssociation) (sa : SendArgs) (c : cid)
    (d : Condition.Cond cid) (others : P unit)
    (Hl : level_ok l) (Hu : usable y p i a s o)
    (Hc : Condition.conds (conditions y) !! c = Some d) (Hd : Condition.Fired d = false)
    (Hfull : (transmit i sa (world y)).1 = SCTP_QUEUE_EXCEEDED)
    (Hwait : has_flag (sa_flags sa) MSG_DONTWAIT = false)
    (Hothers : runs l others (set_world (transmit i sa (world y)).2 y) tt l y1)
    (Hu1 : usable y1 p i a s1 o1) (Hlive : live_condition y1 c)
    (Hroom : (transmit i sa (world y1)).1 <> SCTP_QUEUE_EXCEEDED) :
  runs l (internalSend p sa i c None [others]) y (send_result sa (transmit i sa (world y1)).1) l
    (sent p s1 (transmit i sa (world y1)).1 (transmit i sa (world y1)).2 (clear_fired c y1))
  /\ internalSend p sa i c None [] (relock l true true y) = Stop WouldBlock.
Proof.
  pose proof (usable_clear y1 p i a s1 o1 c Hu1) as Hu2.
  pose proof (world_clear c y1) as Hw2. split.
  - unfold internalSend. eapply runs_bind; [by eapply runs_getErrorCode_usable|]. cbv beta.
    rewrite bool_decide_false by lia.
    eapply runs_bind.
    { eapply (runs_send_wait l y y1); try done.
      apply runs_send_once; [done|simpl; lia|]. rewrite Hw2. by left. }
    cbv beta. rewrite Hw2. destruct Hu2. rsteps.
  - unfold internalSend. eapply stops_then; [by eapply runs_getErrorCode_usable|]. cbv beta.
    rewrite bool_decide_false by lia.
    apply stops_first. unfold send_fuel. cbn [length Nat.mul Nat.add send_loop].
    sstep. sstep. sstep. sstep. fold (transmit i sa (world y)).
    rewrite bool_decide_true, Hwait by done. cbn [andb negb].
    sstep. eapply stops_then; [by apply runs_fired|]. cbv beta. rewrite Hd.
    apply stops_first, stops_stop.
Qed.

(** ** Packets queued before the establishment *)

Definition packet_args (k : PreEstablishmentPacket) : SendArgs :=
  {| sa_buffer := p_Data k; sa_flags := p_Flags k; sa_streamID := p_StreamID k;
     sa_protoID := p_ProtoID k; sa_timeToLive := p_TimeToLive k |}.

(** Reference: one send that sees no other thread, while the condition
    [ReadyForTransmit] is fired ([ready]) or not.  If sctplib's queue is full and
    the packet may wait, a fired condition ends the wait at once, and the packet
    is tried again; otherwise nothing ends the wait ([None]).  The result of
    sctplib, the state of the condition and that of sctplib. *)
Definition attempt (i : Z) (sa : SendArgs) (ready : bool) (w : W) : option (Z * bool * W) :=
  let '(r, w) := transmit i sa w in
  if bool_decide (r = SCTP_QUEUE_EXCEEDED) && negb (has_flag (sa_flags sa) MSG_DONTWAIT) then
    if ready then
      let '(r, w) := transmit i sa w in
      if bool_decide (r = SCTP_QUEUE_EXCEEDED) then None else Some (r, false, w)
    else None
  else Some (r, ready, w).

(** Reference: the packets are handed to sctplib one by one, in their order,
    until one is refused; the number of packets taken and the state of sctplib. *)
Fixpoint transmit_all (i : Z) (packets : list PreEstablishmentPacket) (ready : bool) (w : W)
  : option (nat * W) :=
  match packets with
  | [] => Some (0%nat, w)
  | k :: packets =>
      match attempt i (packet_args k) ready w with
      | Some (r, ready, w) =>
          if bool_decide (r = 0) then
            (fun '(n, w) => (S n, w)) <$> transmit_all i packets ready w
          else Some (0%nat, w)
      | None => None
      end
  end.

Definition sendable (k : PreEstablishmentPacket) : Prop := Z.of_nat (length (p_Data k)) < 2 ^ 31.

Lemma send_result_all sa r : Z.of_nat (length (sa_buffer sa)) < 2 ^ 31 ->
  bool_decide (send_result sa r = Z.of_nat (length (sa_buffer sa))) = bool_decide (r = 0).
Proof.
  intros Hl. unfold send_result. destruct (decide (r = 0)) as [->|Hr].
  - rewrite !(bool_decide_true (0 = 0)) by done. rewrite s32_small by lia. by apply bool_decide_true.
  - rewrite !(bool_decide_false (r = 0)) by done. apply bool_decide_false.
    unfold EINVAL, ENOBUFS, EIO. repeat case_match; lia.
Qed.

(** The state of the condition. *)
Definition condition_is (y : Sys) (c : cid) (ready : bool) : Prop :=
  exists d, Condition.conds (conditions y) !! c = Some d /\ Condition.Fired d = ready.
(** The same objects, and the condition in this state. *)
Record after (c : cid) (ready : bool) (w : W) (y y' : Sys) : Prop := {
  after_sockets : sockets y' = sockets y;
  after_assocs : assocs y' = assocs y;
  after_world : world y' = w;
  after_condition : condition_is y' c ready }.

Lemma usable_after y y' p i a s o c ready w :
  after c ready w y y' -> usable y p i a s o -> usable y' p i a s o.
Proof. intros [E1 E2 _ _] [H1 H2 H3 H4]. split; rewrite ?E1, ?E2; done. Qed.

Lemma send_loop_attempt l y i sa c ready :
  level_ok l -> condition_is y c ready ->
  match attempt i sa ready (world y) with
  | Some (r, ready', w) =>
      exists y', runs l (send_loop sa i c None (send_fuel []) []) y r l y' /\ after c ready' w y y'
  | None => stops WouldBlock l (send_loop sa i c None (send_fuel []) []) y
  end.
Proof.
  intros Hl (d & Hc & Hd). unfold attempt, send_fuel. cbn [length Nat.mul Nat.add].
  destruct (transmit i sa (world y)) as [r w] eqn:Et.
  assert (Et1 : (transmit i sa (world y)).1 = r /\ (transmit i sa (world y)).2 = w) by (by rewrite Et).
  destruct Et1 as [Er Ew].
  destruct (bool_decide (r = SCTP_QUEUE_EXCEEDED) && negb (has_flag (sa_flags sa) MSG_DONTWAIT)) eqn:Hw;
    cycle 1.
  { exists (set_world w y). split; [|split; try done; by exists d]. rewrite <- Er, <- Ew.
    apply runs_send_once; [done|lia|]. rewrite Er. apply andb_false_iff in Hw as [Hw|Hw].
    - left. by apply bool_decide_eq_false in Hw.
    - right. by apply negb_false_iff in Hw. }
  set (y1 := set_world w y).
  assert (Hfirst : forall fuel,
    (forall sched r' y', runs l (let* sched := (if Condition.Fired d then ret sched
        else match sched with [] => stop WouldBlock | others :: sched => others ;; fired c ;; ret sched end) in
      lock ;; unlock ;; send_loop sa i c None fuel sched) (clear_fired c y1) r' l y' ->
      runs l (send_loop sa i c None (S fuel) sched) y r' l y')
    /\ (forall f sched, stops f l (let* sched := (if Condition.Fired d then ret sched
        else match sched with [] => stop WouldBlock | others :: sched => others ;; fired c ;; ret sched end) in
      lock ;; unlock ;; send_loop sa i c None fuel sched) (clear_fired c y1) ->
      stops f l (send_loop sa i c None (S fuel) sched) y)).
  { intros fuel. split; intros; cbn [send_loop].
    - rstep. rstep. rstep. rstep. fold (transmit i sa (world y)). rewrite Er, Hw, Ew. fold y1.
      rstep. eapply runs_bind; [by apply runs_fired|]. done.
    - sstep. sstep. sstep. sstep. fold (transmit i sa (world y)). rewrite Er, Hw, Ew. fold y1.
      sstep. eapply stops_then; [by apply runs_fired|]. done. }
  rewrite Hd in Hfirst. destruct ready; cycle 1.
  { apply Hfirst. apply stops_first, stops_stop. }
  destruct (transmit i sa w) as [r2 w2] eqn:Et2.
  assert (Et3 : (transmit i sa w).1 = r2 /\ (transmit i sa w).2 = w2) by (by rewrite Et2).
  destruct Et3 as [Er2 Ew2].
  set (y2 := clear_fired c y1).
  assert (Hw2 : world y2 = w) by apply world_clear.
  assert (Hc2 : Condition.conds (conditions y2) !! c
    = Some {| Condition.Fired := false; Condition.ParentSet := Condition.ParentSet d |}).
  { unfold y2, clear_fired. change (conditions y1) with (conditions y). rewrite Hc. simpl.
    apply lookup_insert_eq. }
  destruct (bool_decide_reflect (r2 = SCTP_QUEUE_EXCEEDED)) as [H2|H2].
  - apply Hfirst. fold y2. sstep. sstep. sstep. cbn [send_loop]. sstep. sstep. sstep. sstep.
    fold (transmit i sa (world y2)). rewrite Hw2, Er2, H2. apply andb_true_iff in Hw as [_ Hw].
    rewrite bool_decide_true, Hw by done. cbn [andb].
    sstep. eapply stops_then; [by apply runs_fired|]. cbv beta. cbn [Condition.Fired].
    apply stops_first, stops_stop.
  - exists (set_world w2 y2). split.
    + apply Hfirst. fold y2. rstep. rstep. rstep. rewrite <- Er2, <- Ew2, <- Hw2.
      apply runs_send_once; [done|lia|]. left. by rewrite Hw2, Er2.
    + split; [by apply (sockets_clear c y1)|by apply (assocs_clear c y1)|done|]. by eexists.
Qed.

(** The send of one packet. *)
Lemma send_packet l y p i a s o k ready :
  level_ok l -> usable y p i a s o -> identity_of o p i -> condition_is y (a, ReadyForTransmit) ready ->
  let send := assoc_sendTo a (Some (p_Data k)) (p_Flags k) (p_StreamID k) (p_ProtoID k)
                (p_TimeToLive k) false None [] in
  match attempt i (packet_args k) ready (world y) with
  | Some (r, ready', w) => exists y', runs l send y (send_result (packet_args k) r) l
      (put_sock p (set_s_WriteReady (bool_decide (r <> SCTP_QUEUE_EXCEEDED)) s) y')
      /\ after (a, ReadyForTransmit) ready' w y y'
  | None => stops WouldBlock l send y
  end.
Proof.
  intros Hl Hu (Hp & Hi & Hup) Hc. cbv zeta. pose proof (us_assoc _ _ _ _ _ _ Hu) as Ho.
  pose proof (send_loop_attempt l y i (packet_args k) (a, ReadyForTransmit) ready Hl Hc) as Hloop.
  destruct (attempt i (packet_args k) ready (world y)) as [[[r ready'] w]|].
  - destruct Hloop as (y' & Hrun & Haf). exists y'. split; [|done].
    pose proof (usable_after _ _ _ _ _ _ _ _ _ _ Haf Hu) as Hu'.
    unfold assoc_sendTo. rstep. rewrite Hup. cbn [negb default]. rewrite Hp, Hi. unfold internalSend.
    eapply runs_bind; [by eapply runs_getErrorCode_usable|]. cbv beta.
    rewrite bool_decide_false by lia. eapply runs_bind; [exact Hrun|]. cbv beta.
    destruct Hu'. rsteps.
  - unfold assoc_sendTo. sstep. rewrite Hup. cbn [negb default]. rewrite Hp, Hi. unfold internalSend.
    eapply stops_then; [by eapply runs_getErrorCode_usable|]. cbv beta.
    rewrite bool_decide_false by lia. by apply stops_first.
Qed.

(** The queue of the association after [n] packets have been taken off. *)
Definition with_packets (packets : list PreEstablishmentPacket) (o : SCTPAssociation)
  : SCTPAssociation := set_a_PreEstablishment packets o.
Lemma with_packets_same o : with_packets (a_PreEstablishment o) o = o.
Proof. by destruct o. Qed.

Lemma send_packets_all l p i a packets : forall y s o ready fuel,
  level_ok l -> usable y p i a s o -> identity_of o p i -> a_PreEstablishment o = packets ->
  condition_is y (a, ReadyForTransmit) ready ->
  Forall sendable packets -> (length packets <= fuel)%nat ->
  match transmit_all i packets ready (world y) with
  | Some (n, w) => exists y' s',
      runs l (send_packets a fuel) y (bool_decide (n = length packets)) l y'
      /\ world y' = w /\ usable y' p i a s' (with_packets (drop n packets) o)
  | None => stops WouldBlock l (send_packets a fuel) y
  end.
Proof.
  induction packets as [|k packets IH]; intros y s o ready fuel Hl Hu Hid Hq Hc Hsend Hfuel;
    pose proof (us_assoc _ _ _ _ _ _ Hu) as Ho.
  - exists y, s. rewrite drop_0, <- Hq, with_packets_same. split; [|done].
    destruct fuel; cbn [send_packets]; rstep; rewrite Hq; rsteps.
  - destruct fuel as [|fuel]; [simpl in Hfuel; lia|].
    inversion Hsend as [|? ? Hk Hks]; subst.
    pose proof (send_packet l y p i a s o k ready Hl Hu Hid Hc) as Hpacket. cbn [transmit_all].
    destruct (attempt i (packet_args k) ready (world y)) as [[[r ready'] w]|]; cycle 1.
    { cbn [send_packets]. sstep. rewrite Hq. by apply stops_first. }
    destruct Hpacket as (y1 & Hrun & Haf).
    pose proof (usable_after _ _ _ _ _ _ _ _ _ _ Haf Hu) as Hu1. destruct Haf as [_ _ Hw1 Hc1].
    set (s1 := set_s_WriteReady _ s) in Hrun. set (y2 := put_sock p s1 y1) in Hrun.
    assert (Hu2 : usable y2 p i a s1 o)
      by (destruct Hu1 as [H1 H2 H3 H4]; split; [apply lookup_put_sock|exact H2|exact H3|exact H4]).
    assert (Hres : bool_decide (send_result (packet_args k) r = Z.of_nat (length (p_Data k)))
                   = bool_decide (r = 0)) by (by apply (send_result_all (packet_args k))).
    destruct (bool_decide_reflect (r = 0)) as [Hr|Hr]; cycle 1.
    { exists y2, s1. rewrite drop_0, <- Hq, with_packets_same. split; [|done].
      cbn [send_packets]. rstep. rewrite Hq. eapply runs_bind; [exact Hrun|]. cbv beta.
      rewrite Hres. apply runs_ret. }
    set (o2 := with_packets packets o).
    assert (Hu3 : usable (put_assoc a o2 y2) p i a s1 o2)
      by (destruct Hu2 as [H1 H2 H3 H4]; split; [exact H1|exact H2|apply lookup_put_assoc|exact H4]).
    pose proof (IH (put_assoc a o2 y2) s1 o2 ready' fuel Hl Hu3 Hid eq_refl Hc1 Hks
      ltac:(simpl in Hfuel; lia)) as Hrest.
    change (world (put_assoc a o2 y2)) with (world y1) in Hrest. rewrite Hw1 in Hrest.
    destruct (transmit_all i packets ready' w) as [[n w']|]; simpl.
    + destruct Hrest as (y' & s' & Hrest & Hw' & Hu'). exists y', s'.
      split; [|split; [done|by destruct o]].
      cbn [send_packets]. rstep. rewrite Hq. eapply runs_bind; [exact Hrun|]. cbv beta.
      rewrite Hres. eapply runs_bind; [eapply runs_upd_assoc, us_assoc; exact Hu2|]. cbv beta. rewrite Hq.
      eapply runs_eq; [exact Hrest| |done|done]. apply bool_decide_ext. simpl. lia.
    + cbn [send_packets]. sstep. rewrite Hq. eapply stops_then; [exact Hrun|]. cbv beta.
      rewrite Hres. eapply stops_then; [eapply runs_upd_assoc, us_assoc; exact Hu2|]. cbv beta.
      rewrite Hq. exact Hrest.
Qed.

End Sending.

(** ** Witnesses *)

Definition demo_message (flags : Z) : SendArgs :=
  {| sa_buffer := [1; 2; 3]; sa_flags := flags; sa_streamID := 0; sa_protoID := 0;
     sa_timeToLive := 0 |}.

Lemma demo_up_usable : usable demo_up 0 5 1 demo_up_socket demo_up_assoc.
Proof. split; reflexivity. Qed.

Lemma internal_send_result_witness :
  level_ok 0 /\ (transmit 5 (demo_message 0) (world demo_up)).1 = 0
  /\ exists y', runs 0 (internalSend 0 (demo_message 0) 5 (1%nat, ReadyForTransmit) None [])
                  demo_up 3 0 y'.
Proof.
  assert (Hl : level_ok 0) by (split; lia).
  assert (Hr : (transmit 5 (demo_message 0) (world demo_up)).1 = 0) by (vm_compute; reflexivity).
  split; [exact Hl|]. split; [exact Hr|].
  destruct (internal_send_result 0 demo_up 0 5 1 demo_up_socket demo_up_assoc (demo_message 0)
              (1%nat, ReadyForTransmit) [] Hl eq_refl eq_refl eq_refl) as [_ Hrun].
  eexists. eapply runs_eq; [apply Hrun; [reflexivity|left; rewrite Hr; vm_compute; discriminate]
    | rewrite Hr; vm_compute; reflexivity | reflexivity | reflexivity].
Defined.

(** sctplib's queue is full, and then has room again. *)
Definition with_capacity (n : nat) (y : @Sys demo) : @Sys demo :=
  set_world ({|
    w_clock := w_clock (world y); w_instance := w_instance (world y);
    w_status := w_status (world y); w_path := w_path (world y); w_data := w_data (world y);
    w_sent := w_sent (world y); w_capacity := n; w_unregistered := w_unregistered (world y);
    w_next := w_next (world y) |} : @W demo) y.

Lemma blocked_send_resumes_witness :
  (transmit 5 (demo_message 0) (world (with_capacity 0 demo_up))).1 = SCTP_QUEUE_EXCEEDED
  /\ exists y', runs 0 (internalSend 0 (demo_message 0) 5 (1%nat, ReadyForTransmit) None
                     [modify (with_capacity 2)]) (with_capacity 0 demo_up) 3 0 y'.
Proof.
  assert (Hfull : (transmit 5 (demo_message 0) (world (with_capacity 0 demo_up))).1
                  = SCTP_QUEUE_EXCEEDED) by (vm_compute; reflexivity).
  split; [exact Hfull|].
  assert (Hl : level_ok 0) by (split; lia).
  set (w := (transmit 5 (demo_message 0) (world (with_capacity 0 demo_up))).2).
  assert (Hothers : runs 0 (modify (with_capacity 2)) (set_world w (with_capacity 0 demo_up)) tt 0
            (with_capacity 2 (set_world w (with_capacity 0 demo_up))))
    by (apply runs_modify; intros ce old; reflexivity).
  assert (Hu : usable (with_capacity 0 demo_up) 0 5 1 demo_up_socket demo_up_assoc)
    by (split; reflexivity).
  assert (Hu1 : usable (with_capacity 2 (set_world w (with_capacity 0 demo_up))) 0 5 1
                  demo_up_socket demo_up_assoc) by (split; reflexivity).
  destruct (blocked_send_resumes 0 (with_capacity 0 demo_up)
    (with_capacity 2 (set_world w (with_capacity 0 demo_up))) 0 5 1
    demo_up_socket demo_up_socket demo_up_assoc demo_up_assoc (demo_message 0)
    (1%nat, ReadyForTransmit) {| Condition.Fired := false; Condition.ParentSet := ∅ |}
    (modify (with_capacity 2)) Hl Hu eq_refl eq_refl Hfull eq_refl Hothers Hu1
    ltac:(eexists; reflexivity) ltac:(vm_compute; discriminate)) as [Hrun _].
  eexists. eapply runs_eq; [exact Hrun | vm_compute; reflexivity | reflexivity | reflexivity].
Defined.

Definition demo_packet (flags : Z) (data : list Z) : PreEstablishmentPacket :=
  {| p_Flags := flags; p_ProtoID := 0; p_StreamID := 0; p_TimeToLive := 0; p_Data := data |}.
Definition demo_packets (flags : Z) : list PreEstablishmentPacket :=
  [demo_packet flags [1]; demo_packet flags [2; 2]; demo_packet flags [3]].
Definition demo_queued (flags : Z) : @SCTPAssociation demo :=
  with_packets (demo_packets flags) demo_up_assoc.
Definition demo_queueing (flags : Z) : @Sys demo := put_assoc 1 (demo_queued flags) demo_up.

