(* ===== verification/Accepting.v ===== *)
(** * Accepting connections: [SCTPSocket::accept], [listen] and the automatic
    accept of connectionless sockets, [checkAutoConnect] *)

From S2P Require Import Prelude MultiMap Memory Notification NotificationQueue State.
From S2P Require Import Association Socket SocketIO SocketOps SocketMaster Runs WellFormed Demo.
From S2P Require Condition.
Local Open Scope Z_scope.

Section Accepting.
Context `{!Platform}.

Lemma put_sock_twice p s s' y : put_sock p s' (put_sock p s y) = put_sock p s' y.
Proof. unfold put_sock. simpl. by rewrite insert_insert_eq. Qed.
Lemma put_sock_id p s y : sockets y !! p = Some s -> put_sock p s y = y.
Proof. intros Hs. unfold put_sock. rewrite insert_id by done. by destruct y. Qed.

(** The socket after the first pending request has been taken. *)
Definition request_taken (rest : list IncomingConnection) (s : SCTPSocket) : SCTPSocket :=
  let s' := set_s_ConnectionRequests rest s in set_s_ReadReady (ready_to_read s') s'.

Lemma runs_accept_request l p s r rest y :
  level_ok (l + 1) -> level_ok l -> sockets y !! p = Some s ->
  s_ConnectionRequests s = r :: rest ->
  runs (l + 1) (accept_request p false) y (Some (ic_Association r), None) l
    (put_sock p (request_taken rest s) y).
Proof.
  intros Hl1 Hl Hs Hr. unfold accept_request. rstep. rewrite Hr. rstep. rstep.
  eapply runs_bind; [by apply runs_update_ReadReady; [|apply lookup_put_sock]|].
  cbv beta. eapply runs_eq; [rsteps|done|done|]. by rewrite put_sock_twice.
Qed.

Lemma runs_accept_with l p s r rest ac wait sched y :
  level_ok (l + 1) -> level_ok l -> sockets y !! p = Some s -> has_flag (s_Flags s) SSF_Listening = true ->
  s_ConnectionRequests s = r :: rest ->
  runs l (accept_with ac p false wait sched) y (Some (ic_Association r), None) l
    (put_sock p (request_taken rest s) y).
Proof.
  intros Hl1 Hl Hs Hf Hr. unfold accept_with. rstep. rstep. rewrite Hf. cbn [negb].
  eapply runs_bind.
  { unfold accept_fuel. rewrite Nat.add_comm. cbn [accept_loop Nat.add]. rstep. rewrite Hr.
    apply runs_ret. }
  cbv beta. cbn [negb]. by apply runs_accept_request.
Qed.

Lemma runs_accept_none l p s ac sched y :
  level_ok l -> sockets y !! p = Some s -> has_flag (s_Flags s) SSF_Listening = true ->
  s_ConnectionRequests s = [] ->
  runs l (accept_with ac p false false sched) y (None, None) l y.
Proof.
  intros Hl Hs Hf Hr. unfold accept_with. rstep. rstep. rewrite Hf. cbn [negb].
  eapply runs_bind.
  { unfold accept_fuel. rewrite Nat.add_comm. cbn [accept_loop Nat.add]. rstep. rewrite Hr.
    rstep. cbn [negb]. apply runs_ret. }
  cbv beta. cbn [negb]. apply runs_ret.
Qed.

(** The pending associations, entered into a list of connectionless ones in
    the order of their arrival. *)
Definition enter (y : Sys) (m : list (@entry nat)) (r : IncomingConnection) : list (@entry nat) :=
  match assocs y !! ic_Association r with
  | Some o => mm_insert (a_AssociationID o) (ic_Association r) m
  | None => m
  end.

Definition adopted (y : Sys) (s : SCTPSocket) : list (@entry nat) :=
  foldl (enter y) (s_ConnectionlessAssociationList s) (s_ConnectionRequests s).

(** The socket with all pending requests taken over. *)
Definition all_taken (y : Sys) (s : SCTPSocket) : SCTPSocket :=
  match s_ConnectionRequests s with
  | [] => s
  | _ => set_s_ConnectionlessAssociationList (adopted y s) (request_taken [] s)
  end.

Lemma runs_autoconnect_loop l p rs : forall y s,
  level_ok (l + 1) -> level_ok l -> sockets y !! p = Some s ->
  has_flag (s_Flags s) SSF_Listening = true -> s_ConnectionRequests s = rs ->
  Forall (fun r => is_Some (assocs y !! ic_Association r)) rs ->
  runs l (autoconnect_loop p (length rs)) y tt l (put_sock p (all_taken y s) y).
Proof.
  induction rs as [|r rs IH]; intros y s Hl1 Hl Hs Hf Hr Hlive.
  - assert (Hall : all_taken y s = s) by (unfold all_taken; by rewrite Hr).
    rewrite Hall, put_sock_id by done. cbn [length autoconnect_loop]. unfold accept_nowait.
    eapply runs_bind; [eapply runs_bind; [by eapply runs_accept_none|apply runs_ret]|].
    apply runs_ret.
  - apply Forall_cons in Hlive as [[o Ho] Hlive]. cbn [length autoconnect_loop].
    unfold accept_nowait.
    eapply runs_bind; [eapply runs_bind; [by eapply runs_accept_with|apply runs_ret]|].
    cbv beta iota. rstep.
    eapply runs_bind; [eapply runs_upd_sock; apply lookup_put_sock|]. cbv beta.
    set (s1 := request_taken rs s).
    set (s2 := set_s_ConnectionlessAssociationList
                 (mm_insert (a_AssociationID o) (ic_Association r)
                    (s_ConnectionlessAssociationList s1)) s1).
    eapply runs_eq; [apply (IH _ s2); try done; apply lookup_put_sock|done|done|].
    rewrite put_sock_twice, put_sock_twice. f_equal.
    unfold all_taken, adopted. rewrite Hr. simpl.
    assert (Hen : enter y (s_ConnectionlessAssociationList s) r
                  = mm_insert (a_AssociationID o) (ic_Association r)
                      (s_ConnectionlessAssociationList s)) by (unfold enter; by rewrite Ho).
    rewrite Hen. destruct rs as [|r' rs]; simpl; [done|]. destruct s; reflexivity.
Qed.

Lemma elem_of_enter y rs : forall m e,
  Forall (fun r => is_Some (assocs y !! ic_Association r)) rs ->
  e ∈ foldl (enter y) m rs <->
  e ∈ m \/ exists r o, r ∈ rs /\ assocs y !! ic_Association r = Some o
                     /\ e = (a_AssociationID o, ic_Association r).
Proof.
  induction rs as [|r rs IH]; intros m e Hlive; simpl.
  - split; [by left|]. intros [?|(r & o & Hr & _)]; [done|by apply not_elem_of_nil in Hr].
  - apply Forall_cons in Hlive as [[o Ho] Hlive]. rewrite IH by done.
    assert (Hen : enter y m r = mm_insert (a_AssociationID o) (ic_Association r) m)
      by (unfold enter; by rewrite Ho).
    rewrite Hen, elem_of_mm_insert. split.
    + intros [[->|?]|(r' & o' & Hr & Ho' & ->)].
      * right. exists r, o. split; [left|done].
      * by left.
      * right. exists r', o'. split; [by right|done].
    + intros [?|(r' & o' & Hr & Ho' & ->)]; [left; by right|].
      apply elem_of_cons in Hr as [->|Hr]; [left; left; congruence|].
      right. by exists r', o'.
Qed.

(** The listening flag does not matter for what is ready to be read. *)
Lemma all_taken_flags y s :
  set_s_Flags (s_Flags s) (all_taken y (set_s_Flags (set_flag (s_Flags s) SSF_Listening) s))
  = all_taken y s.
Proof.
  assert (Hg : has_flag (set_flag (s_Flags s) SSF_Listening) SSF_GlobalQueue
               = has_flag (s_Flags s) SSF_GlobalQueue) by (by apply (has_set_flag_ne _ 0 31)).
  unfold all_taken. simpl. destruct (s_ConnectionRequests s) eqn:Hr; [by destruct s|].
  unfold adopted, request_taken, ready_to_read. simpl. rewrite Hg, Hr. by destruct s.
Qed.

(** The entry [e] is that of an association whose request is pending. *)
Definition requested (y : Sys) (s : SCTPSocket) (e : @entry nat) : Prop :=
  exists r o, r ∈ s_ConnectionRequests s /\ assocs y !! ic_Association r = Some o
              /\ e = (a_AssociationID o, ic_Association r).

(** [s'] is the socket [s] with the requests [rest] left. *)
Definition leaves (rest : list IncomingConnection) (s s' : SCTPSocket) : Prop :=
  s_ConnectionRequests s' = rest /\ s_AssociationList s' = s_AssociationList s.

(** C17. [checkAutoConnect]: on a socket that connects automatically, every
    pending connection request is taken, and exactly the associations of these
    requests are added to the connectionless associations, under their IDs; the
    socket listens afterwards if and only if it did before, and its other
    associations are untouched.  On any other socket nothing happens. *)
Theorem auto_accept_all (l : Z) (y : Sys) (p : nat) (s : SCTPSocket)
    (Hl : level_ok (l + 2)) (Hl0 : 0 <= l) (Hs : sockets y !! p = Some s)
    (Hlive : Forall (fun r => is_Some (assocs y !! ic_Association r)) (s_ConnectionRequests s)) :
  if has_flag (s_Flags s) SSF_AutoConnect then
    exists s',
      runs l (checkAutoConnect p) y tt l (put_sock p s' y)
      /\ s_ConnectionRequests s' = [] /\ s_Flags s' = s_Flags s
      /\ s_AssociationList s' = s_AssociationList s
      /\ forall e, e ∈ s_ConnectionlessAssociationList s' <->
           e ∈ s_ConnectionlessAssociationList s \/ requested y s e
  else runs l (checkAutoConnect p) y tt l y.
Proof.
  assert (Hl' : level_ok l) by (unfold level_ok in *; lia).
  assert (Hl1 : level_ok (l + 1)) by (unfold level_ok in *; lia).
  destruct (has_flag (s_Flags s) SSF_AutoConnect) eqn:Hauto.
  - set (s1 := set_s_Flags (set_flag (s_Flags s) SSF_Listening) s).
    exists (all_taken y s). split; [|split_and!].
    + unfold checkAutoConnect. rstep. rewrite Hauto. cbn [when]. rstep. rstep. rstep.
      eapply runs_bind.
      { eapply (runs_autoconnect_loop (l + 1) p (s_ConnectionRequests s) _ s1);
          [by replace (l + 1 + 1) with (l + 2) by lia|done|apply lookup_put_sock| |done|done].
        apply (has_set_flag _ 31). done. }
      cbv beta. rstep. eapply runs_eq; [rsteps|done|done|].
      rewrite !put_sock_twice. apply (f_equal (fun t => put_sock p t y)).
      exact (all_taken_flags y s).
    + unfold all_taken. by destruct (s_ConnectionRequests s) eqn:E.
    + unfold all_taken. by destruct (s_ConnectionRequests s).
    + unfold all_taken. by destruct (s_ConnectionRequests s).
    + intros e. unfold requested. rewrite <- elem_of_enter by done. fold (adopted y s). unfold all_taken.
      destruct (s_ConnectionRequests s) eqn:E; [|done]. unfold adopted. by rewrite E.
  - unfold checkAutoConnect. rstep. rewrite Hauto. cbn [when]. apply runs_ret.
Qed.

(** [accept] on a listening socket takes the oldest pending request and
    leaves the others in their order; without one, it returns NULL at once if
    it must not wait, and otherwise returns the association of the first
    connection that comes up while it waits. *)
Theorem accept_first (l : Z) (y y1 : Sys) (p : nat) (s s1 : SCTPSocket)
    (r : IncomingConnection) (rest : list IncomingConnection) (sched : schedule)
    (d : Condition.Cond cid) (others : P unit) (wait : bool)
    (Hl : level_ok (l + 1)) (Hl0 : 0 <= l) (Hs : sockets y !! p = Some s)
    (Hf : has_flag (s_Flags s) SSF_Listening = true) :
  (s_ConnectionRequests s = r :: rest ->
     exists s', runs l (accept p false wait sched) y (Some (ic_Association r), None) l
                  (put_sock p s' y)
       /\ leaves rest s s')
  /\ (s_ConnectionRequests s = [] ->
       runs l (accept p false false sched) y (None, None) l y)
  /\ (s_ConnectionRequests s = [] ->
       Condition.conds (conditions y) !! (p, Establish) = Some d -> Condition.Fired d = false ->
       runs l others y tt l y1 -> is_fired y1 (p, Establish) ->
       sockets y1 !! p = Some s1 -> s_ConnectionRequests s1 = r :: rest ->
       exists s', runs l (accept p false true [others]) y (Some (ic_Association r), None) l
                    (put_sock p s' (clear_fired (p, Establish) y1))
         /\ leaves rest s1 s').
Proof.
  assert (Hl' : level_ok l) by (unfold level_ok in *; lia).
  split_and!.
  - intros Hr. exists (request_taken rest s). split; [|done]. by apply runs_accept_with.
  - intros Hr. by eapply runs_accept_none.
  - intros Hr Hc Hd Hothers Hfired Hs1 Hr1. exists (request_taken rest s1). split; [|done].
    assert (Hs2 : sockets (clear_fired (p, Establish) y1) !! p = Some s1)
      by (by rewrite sockets_clear).
    unfold accept, accept_with. rstep. rstep. rewrite Hf. cbn [negb].
    eapply (runs_bind _ _ _ _ true (l + 1) (clear_fired (p, Establish) y1)).
    + unfold accept_fuel. cbn [length Nat.mul Nat.add accept_loop].
      rstep. rewrite Hr. rstep. cbn [negb].
      eapply runs_bind; [by eapply runs_wait_once|]. cbv beta.
      rstep. rstep. rewrite Hr1. apply runs_ret.
    + cbv beta. cbn [negb]. by apply runs_accept_request.
Qed.
End Accepting.

(** ** Witnesses *)

Lemma demo_tcp_well_formed : well_formed (demo_boot tcp_flags).
Proof. apply state_check_ok, (bool_decide_unpack _). by vm_compute. Qed.

(** Two connections have come up and wait to be accepted. *)
Definition demo_pending : @Sys demo :=
  final (dispatch 2 [CommunicationUp 5 1 1; CommunicationUp 6 1 1]) (demo_boot udp_flags).
Definition demo_pending_socket : SCTPSocket :=
  default (demo_socket 0) (sockets demo_pending !! 0%nat).

Definition demo_request : IncomingConnection :=
  default {| ic_Association := 0; ic_Notification := demo_notification |}
    (head (s_ConnectionRequests demo_pending_socket)).

Lemma auto_accept_all_witness :
  s_ConnectionRequests demo_pending_socket <> []
  /\ exists s', runs 0 (checkAutoConnect 0) demo_pending tt 0 (put_sock 0 s' demo_pending)
       /\ s_ConnectionRequests s' = [] /\ (5, 1%nat) ∈ s_ConnectionlessAssociationList s'.
Proof.
  split; [vm_compute; discriminate|].
  assert (Hs : sockets demo_pending !! 0%nat = Some demo_pending_socket)
    by (vm_compute; reflexivity).
  assert (Hlive : Forall (fun r => is_Some (assocs demo_pending !! ic_Association r))
                    (s_ConnectionRequests demo_pending_socket)).
  { apply (bool_decide_unpack _). by vm_compute. }
  pose proof (auto_accept_all 0 demo_pending 0 demo_pending_socket ltac:(split; lia) ltac:(lia)
                Hs Hlive) as Hthm.
  assert (Hauto : has_flag (s_Flags demo_pending_socket) SSF_AutoConnect = true)
    by (vm_compute; reflexivity).
  rewrite Hauto in Hthm. destruct Hthm as (s' & Hrun & Hr & _ & _ & He).
  exists s'. split; [exact Hrun|]. split; [exact Hr|]. apply He. right.
  exists demo_request, (default (demo_association 5) (assocs demo_pending !! 1%nat)).
  split; [|split; vm_compute; reflexivity].
  apply (list_elem_of_lookup_2 _ 0%nat). vm_compute. reflexivity.
Defined.

(** What a connection that comes up does to the socket that waits for it. *)
Definition demo_arrival : @P demo unit :=
  upd_sock 0 (set_s_ConnectionRequests [demo_request]) ;; broadcast (0%nat, Establish).

Lemma accept_first_witness :
  level_ok (0 + 1) /\ has_flag (s_Flags (demo_socket tcp_flags)) SSF_Listening = true
  /\ exists y', runs 0 (accept 0 false true [demo_arrival]) (demo_boot tcp_flags)
                  (Some (ic_Association demo_request), None) 0 y'.
Proof.
  assert (Hl : level_ok (0 + 1)) by (split; lia).
  assert (Hf : has_flag (s_Flags (demo_socket tcp_flags)) SSF_Listening = true)
    by (vm_compute; reflexivity).
  split; [exact Hl|]. split; [exact Hf|].
  set (s1 := set_s_ConnectionRequests [demo_request] (demo_socket tcp_flags)).
  assert (Hok : conditions_ok (put_sock 0 s1 (demo_boot tcp_flags)))
    by exact (wf_graph _ demo_tcp_well_formed).
  assert (Hlive : live_condition (put_sock 0 s1 (demo_boot tcp_flags)) (0%nat, Establish))
    by (eexists; vm_compute; reflexivity).
  destruct (runs_broadcast 0 _ _ Hok Hlive) as (cs & Hb & Hfires).
  assert (Hothers : runs 0 demo_arrival (demo_boot tcp_flags) tt 0
                      (set_conditions cs (put_sock 0 s1 (demo_boot tcp_flags)))).
  { eapply runs_bind; [eapply runs_upd_sock; reflexivity|exact Hb]. }
  assert (Hfired : is_fired (set_conditions cs (put_sock 0 s1 (demo_boot tcp_flags)))
                     (0%nat, Establish)).
  { eapply (broadcast_is_fired (0%nat, Establish) _ _ _ Hlive); [exact Hfires|reflexivity]. }
  destruct (accept_first 0 (demo_boot tcp_flags)
    (set_conditions cs (put_sock 0 s1 (demo_boot tcp_flags))) 0 (demo_socket tcp_flags) s1
    demo_request [] [] {| Condition.Fired := false; Condition.ParentSet := ∅ |} demo_arrival true
    Hl ltac:(lia) eq_refl Hf) as (_ & _ & Hthm).
  destruct (Hthm eq_refl eq_refl eq_refl Hothers Hfired eq_refl eq_refl) as (s' & Hrun & _).
  eexists. exact Hrun.
Defined.
