(* ===== verification/Construction.v ===== *)
(** * Construction of associations and sockets

    The constructors create the conditions of an object and wire them: they
    keep the state well-formed ([WellFormed]), and afterwards an event on an
    inner condition reaches exactly the update conditions a caller waits on. *)

From S2P Require Import Prelude MultiMap Memory Notification NotificationQueue State.
From S2P Require Import Association Socket SocketIO SocketOps SocketLife SocketMaster.
From S2P Require Import Runs WellFormed Demo.
From S2P Require Condition.
Local Open Scope Z_scope.

Section Wiring.
Context `{!Platform}.

Definition condition_map (y : Sys) : gmap cid (Condition.Cond cid) :=
  Condition.conds (conditions y).

(** Only the conditions differ. *)
Definition conditions_only (y y' : Sys) : Prop := y' = set_conditions (conditions y') y.

Definition quiescent (parents : gset cid) : Condition.Cond cid :=
  {| Condition.Fired := false; Condition.ParentSet := parents |}.

Lemma new_Condition_run c y : exists y', new_Condition c y = Ret tt y'
  /\ conditions_only y y' /\ condition_map y' = <[c := quiescent ∅]> (condition_map y).
Proof.
  unfold new_Condition, on_conditions, Condition.new_Condition, Condition.set_Fired,
    Condition.load_cond, bind, modify. simpl. rewrite lookup_insert_eq. simpl.
  eexists. split; [reflexivity|]. split; [done|]. unfold condition_map. simpl.
  apply insert_insert_eq.
Qed.

Lemma addParent_run c p parents y : condition_map y !! c = Some (quiescent parents) ->
  exists y', addParent c p y = Ret tt y' /\ conditions_only y y'
    /\ condition_map y' = <[c := quiescent ({[p]} ∪ parents)]> (condition_map y).
Proof.
  intros Hc. unfold condition_map in Hc.
  unfold addParent, on_conditions, Condition.addParent, Condition.set_ParentSet,
    Condition.load_cond, bind, modify. rewrite Hc. simpl. rewrite Hc. simpl.
  rewrite lookup_insert_eq. simpl. eexists. split; [reflexivity|]. by split.
Qed.

(** The conditions of an object under construction: [f] gives the parents of
    those that exist already. *)
Definition wired (a : nat) (f : CondKind -> option (gset cid)) (y y' : Sys) : Prop :=
  conditions_only y y'
  /\ (forall k, condition_map y' !! (a, k) =
        match f k with Some ps => Some (quiescent ps) | None => condition_map y !! (a, k) end)
  /\ (forall c, c.1 <> a -> condition_map y' !! c = condition_map y !! c).

Definition assign (k : CondKind) (ps : gset cid) (f : CondKind -> option (gset cid)) :=
  fun j => if decide (j = k) then Some ps else f j.

Lemma wired_insert a f y y1 y2 k ps :
  wired a f y y1 -> conditions_only y1 y2 ->
  condition_map y2 = <[(a, k) := quiescent ps]> (condition_map y1) ->
  wired a (assign k ps f) y y2.
Proof.
  intros (Ho & Hm & Hn) Ho2 Hc. split_and!.
  - unfold conditions_only in *. rewrite Ho2, Ho. done.
  - intros j. rewrite Hc. unfold assign. case_decide as Hj.
    + subst j. by rewrite lookup_insert_eq.
    + rewrite lookup_insert_ne by congruence. apply Hm.
  - intros c Hca. rewrite Hc, lookup_insert_ne; [auto|]. by intros [= <-].
Qed.

Lemma wired_new a f y y1 k : wired a f y y1 ->
  exists y2, new_Condition (a, k) y1 = Ret tt y2 /\ wired a (assign k ∅ f) y y2.
Proof.
  intros Hw. destruct (new_Condition_run (a, k) y1) as (y2 & Hrun & Ho & Hc).
  exists y2. split; [done|]. by eapply wired_insert.
Qed.

Lemma wired_parent a f y y1 k p ps : wired a f y y1 -> f k = Some ps ->
  exists y2, addParent (a, k) p y1 = Ret tt y2 /\ wired a (assign k ({[p]} ∪ ps) f) y y2.
Proof.
  intros Hw Hk. destruct (addParent_run (a, k) p ps y1) as (y2 & Hrun & Ho & Hc).
  { destruct Hw as (_ & Hm & _). by rewrite Hm, Hk. }
  exists y2. split; [done|]. by eapply wired_insert.
Qed.

Lemma wired_refl a y : wired a (fun _ => None) y y.
Proof. split_and!; [by destruct y|done|done]. Qed.

(** ** The wiring of the two constructors *)

Definition association_wiring (a : nat) (udpLike : bool) (k : CondKind) : option (gset cid) :=
  match k, udpLike with
  | InQueueUpdate, _ => Some {[ (a, ReadUpdate) ]}
  | ShutdownCompleteC, false => Some {[ (a, ExceptUpdate) ]}
  | Establish, false | ReadyForTransmit, false => Some {[ (a, WriteUpdate) ]}
  | (UserUpdate | SelectRead | SelectWrite | SelectExcept | SelectGlobal), _ => None
  | _, _ => Some ∅
  end.

Definition socket_wiring (p : nat) (k : CondKind) : option (gset cid) :=
  match k with
  | Establish | InQueueUpdate => Some {[ (p, ReadUpdate) ]}
  | ReadUpdate | WriteUpdate | ExceptUpdate => Some ∅
  | _ => None
  end.

Lemma wired_ext a f g y y' : (forall k, f k = g k) -> wired a f y y' -> wired a g y y'.
Proof. intros Hfg (H1 & H2 & H3). split_and!; [done| |done]. intros k. by rewrite <- Hfg. Qed.
End Wiring.

(** Step through a sequence of constructions of conditions. *)
Ltac wire_step :=
  lazymatch goal with
  | Hw : wired ?a ?f ?y ?z |- context [new_Condition (?a, ?k) ?z] =>
      let z2 := fresh "z" in let E := fresh "E" in let Hw2 := fresh "Hw" in
      destruct (wired_new a f y z k Hw) as (z2 & E & Hw2); rewrite E; clear E Hw;
      cbn beta iota
  | Hw : wired ?a ?f ?y ?z |- context [addParent (?a, ?k) ?p ?z] =>
      let z2 := fresh "z" in let E := fresh "E" in let Hw2 := fresh "Hw" in
      destruct (wired_parent a f y z k p ∅ Hw) as (z2 & E & Hw2);
        [by vm_compute|]; rewrite E; clear E Hw; cbn beta iota
  end.

Section Constructors.
Context `{!Platform}.

Lemma association_conditions (a : nat) (udpLike : bool) (y : Sys) :
  exists y',
    (for_each [InQueueUpdate; Establish; ShutdownCompleteC; ReadyForTransmit;
               ReadUpdate; WriteUpdate; ExceptUpdate] (fun k => new_Condition (a, k)) ;;
     addParent (a, InQueueUpdate) (a, ReadUpdate) ;;
     when (negb udpLike) (
       addParent (a, ShutdownCompleteC) (a, ExceptUpdate) ;;
       addParent (a, Establish) (a, WriteUpdate) ;;
       addParent (a, ReadyForTransmit) (a, WriteUpdate))) y = Ret tt y'
    /\ wired a (association_wiring a udpLike) y y'.
Proof.
  pose proof (wired_refl a y) as Hw.
  cbn [for_each]. unfold bind, ret. cbn beta. repeat wire_step.
  destruct udpLike; cbn [negb when]; unfold ret; cbn beta; repeat wire_step;
    (eexists; split; [reflexivity|]; eapply wired_ext; [|eassumption]; intros [];
     unfold assign; simpl; by rewrite ?(right_id_L ∅ (∪))).
Qed.

Lemma socket_conditions_wired (p : nat) (y : Sys) :
  exists y',
    (for_each [InQueueUpdate; Establish; ReadUpdate; WriteUpdate; ExceptUpdate]
       (fun k => new_Condition (p, k)) ;;
     addParent (p, Establish) (p, ReadUpdate) ;;
     addParent (p, InQueueUpdate) (p, ReadUpdate)) y = Ret tt y'
    /\ wired p (socket_wiring p) y y'.
Proof.
  pose proof (wired_refl p y) as Hw.
  cbn [for_each]. unfold bind, ret. cbn beta. repeat wire_step.
  eexists; split; [reflexivity|]; eapply wired_ext; [|eassumption]; intros [];
    unfold assign; simpl; by rewrite ?(right_id_L ∅ (∪)).
Qed.

Lemma wired_live a f y y' c : wired a f y y' -> live_condition y c -> live_condition y' c.
Proof.
  intros (_ & Hm & Hn) Hc. unfold live_condition, condition_map in *.
  destruct c as [b k]. destruct (decide (b = a)) as [->|Hne]; [|by rewrite Hn].
  rewrite Hm. destruct (f k); eauto.
Qed.

Lemma wired_live_new a f y y' k : wired a f y y' -> is_Some (f k) -> live_condition y' (a, k).
Proof.
  intros (_ & Hm & _) [ps Hk]. unfold live_condition. fold (condition_map y').
  rewrite Hm, Hk. eauto.
Qed.

(** Wiring along the ranks keeps the graph of conditions acyclic. *)
Lemma wired_graph a f y y' :
  wired a f y y' -> conditions_ok y ->
  (forall k ps c, f k = Some ps -> c ∈ ps -> live_condition y' c /\ (cond_rank c < cond_rank (a, k))%nat) ->
  conditions_ok y'.
Proof.
  intros Hw [Hcl Hrk] Hf. pose proof Hw as (_ & Hm & Hn).
  assert (Hold : forall c q, Condition.parent (condition_map y') c q ->
    Condition.parent (condition_map y) c q
    \/ exists k ps, c = (a, k) /\ f k = Some ps /\ q ∈ ps).
  { intros [b k] q (d & Hd & Hq). destruct (decide (b = a)) as [->|Hne].
    - rewrite Hm in Hd. destruct (f k) as [ps|] eqn:E; [|left; by exists d].
      injection Hd as <-. right. eauto.
    - rewrite Hn in Hd by done. left. by exists d. }
  split; intros c q Hp; (destruct (Hold c q Hp) as [Hp'|(k & ps & -> & Hk & Hq)];
    [|by apply (Hf k ps)]).
  - apply (wired_live a f y y' q Hw). by apply (Hcl c).
  - by apply Hrk.
Qed.

Lemma association_wiring_ok a udpLike y y' :
  wired a (association_wiring a udpLike) y y' -> conditions_ok y ->
  conditions_ok y' /\ forall k, k ∈ association_kinds -> live_condition y' (a, k).
Proof.
  intros Hw Hok.
  assert (Hlive : forall k, k ∈ association_kinds -> live_condition y' (a, k)).
  { intros k Hk. apply (wired_live_new _ _ _ _ _ Hw).
    unfold association_kinds in Hk. destruct k, udpLike; simpl; eauto; set_solver. }
  split; [|done]. apply (wired_graph _ _ _ _ Hw Hok). intros k ps c Hk Hc.
  destruct k, udpLike; simplify_eq/=; try (by apply not_elem_of_empty in Hc);
    apply elem_of_singleton in Hc as ->;
    (split; [apply Hlive; unfold association_kinds; set_solver
            |unfold cond_rank; simpl; lia]).
Qed.

Lemma socket_wiring_ok p y y' :
  wired p (socket_wiring p) y y' -> conditions_ok y ->
  conditions_ok y' /\ forall k, k ∈ socket_conditions -> live_condition y' (p, k).
Proof.
  intros Hw Hok.
  assert (Hlive : forall k, k ∈ socket_conditions -> live_condition y' (p, k)).
  { intros k Hk. apply (wired_live_new _ _ _ _ _ Hw).
    unfold socket_conditions in Hk. destruct k; simpl; eauto; set_solver. }
  split; [|done]. apply (wired_graph _ _ _ _ Hw Hok). intros k ps c Hk Hc.
  destruct k; simplify_eq/=; try (by apply not_elem_of_empty in Hc);
    apply elem_of_singleton in Hc as ->;
    (split; [apply Hlive; unfold socket_conditions; set_solver|unfold cond_rank; simpl; lia]).
Qed.

Lemma seq3_run {B : Type} (m1 m2 m3 : P unit) (k : P B) y y' :
  (m1 ;; m2 ;; m3) y = Ret tt y' -> (m1 ;; m2 ;; m3 ;; k) y = k y'.
Proof.
  unfold bind. destruct (m1 y) as [[] y1|]; [|done]. destruct (m2 y1) as [[] y2|]; [|done].
  by intros ->.
Qed.

(** What the constructor of a socket leaves behind. *)
Definition fresh_socket (memory : SCTPSocket) (family flags : Z) (s : SCTPSocket) : Prop :=
  skeleton s = ([], [], [], false) /\ s_InstanceName s = 0 /\ s_Flags s = flags
  /\ s_Family s = family /\ s_GlobalQueue s = [] /\ s_NotificationFlags s = 0
  /\ s_LocalPort s = s_LocalPort memory.

Lemma new_SCTPSocket_run memory family flags y :
  well_formed y ->
  exists y', new_SCTPSocket memory family flags y = Ret (next_address y) y'
    /\ well_formed y'
    /\ (exists s, sockets y' = <[next_address y := s]> (sockets y)
                  /\ fresh_socket memory family flags s)
    /\ assocs y' = assocs y
    /\ (forall k, is_Some (socket_wiring (next_address y) k) ->
         condition_map y' !! (next_address y, k)
         = quiescent <$> socket_wiring (next_address y) k).
Proof.
  intros Hwf. unfold new_SCTPSocket, gets, modify. unfold bind at 1 2 3. cbn beta iota.
  match goal with |- context [set_sockets (<[_ := ?t]> _) _] => set (s := t) end.
  match goal with |- context [(for_each _ _ ;; _) ?z] => set (y1 := z) end.
  set (p := next_address y).
  destruct (socket_conditions_wired p y1) as (y2 & Hrun & Hw).
  destruct (socket_wiring_ok _ _ _ Hw (wf_graph y Hwf)) as [Hg Hlive].
  exists y2. split; [by apply (seq3_run _ _ _ (ret p) y1 y2)|].
  pose proof Hw as (Ho & Hm & Hn). unfold conditions_only in Ho.
  assert (Es : sockets y2 = <[p := s]> (sockets y)) by (by rewrite Ho).
  assert (Ea : assocs y2 = assocs y) by (by rewrite Ho).
  assert (El : SocketList y2 = SocketList y) by (by rewrite Ho).
  assert (En : next_address y2 = S p) by (by rewrite Ho).
  destruct (wf_fresh y Hwf p) as [Fa Fs]; [done|].
  split; [|split; [exists s; split; [done|by repeat split]|split; [done|]]].
  2: { intros k [ps Hk]. rewrite Hm, Hk. done. }
  assert (Hdom : forall q, is_Some (sockets y !! q) -> is_Some (sockets y2 !! q)).
  { intros q Hq. rewrite Es. destruct (decide (p = q)) as [<-|];
      [rewrite lookup_insert_eq; eauto|by rewrite lookup_insert_ne]. }
  assert (Hold : forall c, live_condition y c -> live_condition y2 c)
    by (intros c; apply (wired_live _ _ _ _ c Hw)).
  split.
  - intros q t Ht. rewrite Es in Ht. destruct (decide (p = q)) as [<-|Hne].
    + rewrite lookup_insert_eq in Ht. injection Ht as <-.
      split; simpl; try (by intros ? ?%not_elem_of_nil); try apply NoDup_nil_2; try done.
    + rewrite lookup_insert_ne in Ht by done.
      destruct (wf_sockets y Hwf q t Ht) as [H1 H2 H3 H4 H5 H6]. split; eauto.
      intros e He. unfold entry_ok. rewrite Ea. by apply H1.
  - rewrite El. intros e He. apply Hdom, (wf_registered y Hwf e He).
  - intros b o Hb. rewrite Ea in Hb. destruct (wf_assocs y Hwf b o Hb). eauto.
  - done.
  - replace (ClosingSockets y2) with (ClosingSockets y) by (by rewrite Ho). apply (wf_closing y Hwf).
  - intros b Hb. rewrite En in Hb. destruct (wf_fresh y Hwf b) as [E1 E2]; [lia|].
    rewrite Ea, Es, lookup_insert_ne; [done|]. unfold p. lia.
Qed.

(** What the constructor of an association leaves behind. *)
Record associated (y : Sys) (p : nat) (s : SCTPSocket) (i : Z) (udpLike : bool)
    (a : nat) (y' : Sys) : Prop := {
  as_address : a = next_address y /\ next_address y' = S (next_address y);
  as_list : SocketList y' = SocketList y;
  as_closing : ClosingSockets y' = ClosingSockets y;
  as_object : exists o, assocs y' = <[a := o]> (assocs y) /\ identity o = (p, i);
  as_registered : sockets y' =
    <[p := set_s_AssociationList (mm_insert i a (s_AssociationList s)) s]> (sockets y);
  as_wired : forall k, condition_map y' !! (a, k) =
    match association_wiring a udpLike k with
    | Some ps => Some (quiescent ps)
    | None => condition_map y !! (a, k)
    end;
  as_others : forall c, c.1 <> a -> condition_map y' !! c = condition_map y !! c;
  as_graph : conditions_ok y' }.

Lemma associated_well_formed y p s i udpLike a y' :
  well_formed y -> sockets y !! p = Some s -> mm_find i (s_AssociationList s) = None ->
  associated y p s i udpLike a y' -> well_formed y'.
Proof.
  intros Hwf Hs Hi [[Ea En] El Ecl (o & Eo & Hid) Es Hw Hn Hg].
  destruct (wf_fresh y Hwf a) as [Fa Fs]; [lia|].
  assert (Hap : a <> p) by congruence.
  assert (Hlive : forall c, live_condition y c -> live_condition y' c).
  { intros [b k] Hc. unfold live_condition. fold (condition_map y').
    destruct (decide (b = a)) as [->|Hne]; [|by rewrite Hn].
    rewrite Hw. destruct (association_wiring a udpLike k); eauto. }
  assert (Hentry : forall q e, entry_ok y q e -> entry_ok y' q e).
  { intros q e He. unfold entry_ok in *. rewrite Eo. rewrite lookup_insert_ne; [done|].
    intros E. rewrite <- E, Fa in He. discriminate He. }
  assert (Hdom : forall q, is_Some (sockets y !! q) -> is_Some (sockets y' !! q)).
  { intros q Hq. rewrite Es. destruct (decide (p = q)) as [<-|];
      [rewrite lookup_insert_eq; eauto|by rewrite lookup_insert_ne]. }
  split.
  - intros q t Ht. rewrite Es in Ht. destruct (decide (p = q)) as [<-|Hne].
    + rewrite lookup_insert_eq in Ht. injection Ht as <-.
      destruct (wf_sockets y Hwf p s Hs) as [H1 H2 H3 H4 H5 H6]. split; simpl; try done.
      * intros e [->|He]%elem_of_mm_insert; [|auto]. unfold entry_ok. simpl.
        rewrite Eo, lookup_insert_eq. simpl. by rewrite Hid.
      * rewrite mm_insert_perm. simpl. apply NoDup_cons. split; [|done].
        intros (e & E & He)%list_elem_of_fmap. apply mm_find_None in Hi.
        rewrite Forall_forall in Hi. by apply (Hi e He).
      * intros e He. apply elem_of_mm_insert. auto.
      * intros r Hr. destruct (H5 r Hr) as (e & He & E & Hc). exists e.
        split; [apply elem_of_mm_insert; auto|done].
      * eauto.
    + rewrite lookup_insert_ne in Ht by done.
      destruct (wf_sockets y Hwf q t Ht) as [H1 H2 H3 H4 H5 H6]. split; eauto.
  - rewrite El. intros e He. apply Hdom, (wf_registered y Hwf e He).
  - intros b ob Hb. rewrite Eo in Hb. destruct (decide (a = b)) as [<-|Hne].
    + rewrite lookup_insert_eq in Hb. injection Hb as <-. injection Hid as -> _.
      split; [apply Hdom; eauto|]. intros k Hk. unfold live_condition. fold (condition_map y').
      rewrite Hw. unfold association_kinds in Hk. destruct k, udpLike; simpl; eauto; set_solver.
    + rewrite lookup_insert_ne in Hb by done. destruct (wf_assocs y Hwf b ob Hb). eauto.
  - done.
  - rewrite Ecl. apply (wf_closing y Hwf).
  - intros b Hb. destruct (wf_fresh y Hwf b) as [E1 E2]; [lia|]. rewrite Eo, Es.
    rewrite !lookup_insert_ne; [done|congruence|lia].
Qed.

Lemma new_SCTPAssociation_run p s i nf udpLike y :
  well_formed y -> sockets y !! p = Some s ->
  wp (fun f => f = ProcessAbort /\ u32 (LockLevel y + 1) = 0) (new_SCTPAssociation p i nf udpLike)
    (fun a y' => associated y p s i udpLike a y') y.
Proof.
  intros Hwf Hs. unfold new_SCTPAssociation.
  apply wp_bind. unfold wp at 1, gets. apply wp_bind. unfold wp at 1, modify.
  apply wp_bind. unfold wp at 1, call. destruct (getMicroTime_ _) as [now w].
  apply wp_bind. unfold wp at 1, modify.
  match goal with |- wp _ _ _ ?z => set (y1 := z) end.
  set (a := next_address y).
  destruct (association_conditions a udpLike y1) as (y2 & Hrun & Hw).
  unfold wp. rewrite (seq3_run _ _ _ _ _ _ Hrun).
  destruct (association_wiring_ok _ _ _ _ Hw (wf_graph y Hwf)) as [Hg _].
  destruct Hw as (Ho & Hm & Hn). unfold conditions_only in Ho.
  assert (Hs2 : sockets y2 !! p = Some s) by (rewrite Ho; exact Hs).
  assert (Hl : LockLevel y2 = LockLevel y) by (by rewrite Ho).
  unfold bind, lock, upd_sock, bind, sock, modify, unlock, ret.
  destruct (bool_decide _); simpl; rewrite Hs2; simpl; rewrite Hl;
    (case_bool_decide as Hzero; [done|]); simpl.
  all: case_bool_decide; (split; [by rewrite Ho|by rewrite Ho|by rewrite Ho| |by rewrite Ho|exact Hm|exact Hn|exact Hg]).
  all: simpl; rewrite Ho; simpl; by eexists.
Qed.

(** C14. Construction.  A new socket and a new association are objects at an
    address not in use, no other object changes, and the state stays
    well-formed.  The association is the one the socket finds under its ID.
    The conditions are not fired, and their parents are exactly these: data in
    a queue, and a new connection of a socket, reach the read condition; for an
    association of a one-to-one socket, the establishment and room in the send
    queue reach the write condition and a completed shutdown the exception
    condition. *)
Theorem construction_correct (y : Sys) (p : nat) (s : SCTPSocket) (i notificationFlags : Z)
    (udpLike : bool) (memory : SCTPSocket) (family flags : Z)
    (Hwf : well_formed y) (Hs : sockets y !! p = Some s)
    (Hi : mm_find i (s_AssociationList s) = None) (Hl : 0 <= LockLevel y < 2 ^ 32 - 1) :
  let n := next_address y in
  assocs y !! n = None /\ sockets y !! n = None
  /\ (exists y' t, new_SCTPSocket memory family flags y = Ret n y' /\ well_formed y'
        /\ sockets y' = <[n := t]> (sockets y) /\ assocs y' = assocs y
        /\ fresh_socket memory family flags t
        /\ forall k, k ∈ socket_conditions -> condition_map y' !! (n, k) = quiescent <$> socket_wiring n k)
  /\ (exists y' o t, new_SCTPAssociation p i notificationFlags udpLike y = Ret n y'
        /\ well_formed y' /\ assocs y' = <[n := o]> (assocs y) /\ identity o = (p, i)
        /\ sockets y' = <[p := t]> (sockets y)
        /\ mm_find i (s_AssociationList t) = Some (i, n)
        /\ (forall j, j <> i -> mm_find j (s_AssociationList t) = mm_find j (s_AssociationList s))
        /\ forall k, k ∈ association_kinds ->
             condition_map y' !! (n, k) = quiescent <$> association_wiring n udpLike k).
Proof.
  simpl. destruct (wf_fresh y Hwf (next_address y)) as [Fa Fs]; [done|].
  split; [done|]. split; [done|]. split.
  - destruct (new_SCTPSocket_run memory family flags y Hwf)
      as (y' & Hrun & Hwf' & (t & Es & Ht) & Ea & Hm).
    exists y', t. do 5 (split; [done|]). intros k Hk.
    assert (His : is_Some (socket_wiring (next_address y) k)).
    { destruct k; simpl; eauto; exfalso; unfold socket_conditions in Hk; set_solver. }
    apply (Hm k His).
  - pose proof (new_SCTPAssociation_run p s i notificationFlags udpLike y Hwf Hs) as Hrun.
    unfold wp in Hrun. destruct (new_SCTPAssociation p i notificationFlags udpLike y) as [a y'|f].
    2: { destruct Hrun as [_ Hz]. rewrite wrap_small in Hz by lia. lia. }
    pose proof (associated_well_formed _ _ _ _ _ _ _ Hwf Hs Hi Hrun) as Hwf'.
    destruct Hrun as [[-> En] El _ (o & Eo & Hid) Es Hw Hn Hg].
    exists y', o, (set_s_AssociationList (mm_insert i (next_address y) (s_AssociationList s)) s).
    do 5 (split; [done|]). split; [by apply mm_find_insert_new|].
    split; [intros j Hj; apply mm_find_insert_ne; congruence|].
    intros k Hk. rewrite Hw.
    unfold association_kinds in Hk. destruct k, udpLike; try done; set_solver.
Qed.
End Constructors.

(** ** Witness *)

Lemma demo_boot_well_formed : well_formed (demo_boot udp_flags).
Proof. apply state_check_ok, (bool_decide_unpack _). by vm_compute. Qed.

Lemma construction_correct_witness :
  well_formed (demo_boot udp_flags)
  /\ exists y' o t, new_SCTPAssociation 0 5 0 false (demo_boot udp_flags) = Ret 1%nat y'
       /\ identity o = (0%nat, 5) /\ mm_find 5 (s_AssociationList t) = Some (5, 1%nat)
       /\ sockets y' = <[0%nat := t]> (sockets (demo_boot udp_flags))
       /\ condition_map y' !! (1%nat, Establish) = Some (quiescent {[ (1%nat, WriteUpdate) ]}).
Proof.
  split; [exact demo_boot_well_formed|].
  destruct (construction_correct (demo_boot udp_flags) 0 (demo_socket udp_flags) 5 0 false
    (demo_socket 0) 2 0 demo_boot_well_formed eq_refl eq_refl ltac:(split; simpl; lia))
    as (_ & _ & _ & y' & o & t & Hrun & _ & _ & Hid & Hs & Hi & _ & Hp).
  exists y', o, t. exact (conj Hrun (conj Hid (conj Hi (conj Hs (Hp Establish ltac:(unfold association_kinds; set_solver)))))).
Defined.
