(* ===== verification/MemorySafety.v ===== *)
(** * Memory safety of the callbacks

    From a well-formed state, no callback of sctplib, at any depth of nesting,
    follows a dangling pointer, a NULL pointer or a dangling iterator, or reads
    past the end of an array, and the state stays well-formed. *)

From S2P Require Import Prelude MultiMap Memory Notification NotificationQueue State.
From S2P Require Import Association Socket SocketIO SocketOps SocketMaster Runs WellFormed Demo.
From S2P Require Import Construction.
From S2P Require Condition.
Local Open Scope Z_scope.
#[local] Existing Instance Condition.same_parents_equiv.

(** ** Operations that delete nothing

    [calm F m G]: in a well-formed state with the objects [F], [m] has no
    memory fault, leaves the objects and lists as they are, and the objects
    [G] of its result exist. *)

Section Calm.
Context `{!Platform}.

Inductive object : Set := Sk (p : nat) | As (a : nat).
Definition exists_in (y : Sys) (x : object) : Prop :=
  match x with Sk p => is_Some (sockets y !! p) | As a => is_Some (assocs y !! a) end.
Definition has (F : list object) (y : Sys) : Prop := forall x, x ∈ F -> exists_in y x.

Definition calm {A} (F : list object) (m : P A) (G : A -> list object) : Prop :=
  forall y, well_formed y -> has F y ->
  wp benign m (fun a y' => quiet y y' /\ has (G a) y') y.

(** The associations in the list of a socket. *)
Definition entries (s : SCTPSocket) : list object := (As ∘ snd) <$> s_AssociationList s.

Lemma has_quiet F y y' : quiet y y' -> has F y -> has F y'.
Proof.
  intros Hq HF x Hx. specialize (HF x Hx). destruct x; destruct HF as [o Ho]; simpl in *.
  - destruct (quiet_socket y y' p o Hq Ho) as (? & ? & _). eauto.
  - destruct (quiet_assoc y y' a o Hq Ho) as (? & ? & _). eauto.
Qed.

Lemma has_app F G y : has F y -> has G y -> has (F ++ G) y.
Proof. intros HF HG x Hx. apply elem_of_app in Hx as [?|?]; auto. Qed.

Lemma calm_conseq {A} F F' (m : P A) G G' :
  calm F' m G -> F' ⊆ F -> (forall a, G' a ⊆ G a ++ F) -> calm F m G'.
Proof.
  intros Hm HF HG y Hwf Hy. eapply wp_weaken; [apply Hm; [done|intros x Hx; auto]|].
  intros a y' [Hq Ha]. split; [done|]. intros x Hx.
  specialize (HG a x Hx). apply elem_of_app in HG as [?|Hx']; [auto|].
  by apply (has_quiet F y y').
Qed.

Lemma calm_bind {A B} F (m : P A) G (k : A -> P B) G' :
  calm F m G -> (forall a, calm (G a ++ F) (k a) G') -> calm F (bind m k) G'.
Proof.
  intros Hm Hk y Hwf Hy. eapply wp_seq; [by apply Hm|]. intros a y1 [Hq Ha].
  eapply wp_weaken.
  - apply Hk; [by rewrite <- Hq|]. apply has_app; [done|]. by apply (has_quiet F y y1).
  - intros b y2 [Hq2 Hb]. split; [by transitivity y1|done].
Qed.

Lemma calm_ret {A} F (a : A) G : G a ⊆ F -> calm F (ret a) G.
Proof. intros HG y Hwf Hy. split; [reflexivity|]. intros x Hx. auto. Qed.

Lemma calm_ret_bind {A B} F (a : A) (k : A -> P B) G :
  calm F (k a) G -> calm F (bind (ret a) k) G.
Proof. done. Qed.
Lemma calm_stop_bind {A B} F f (k : A -> P B) G : benign f -> calm F (bind (stop f) k) G.
Proof. by intros Hf y _ _. Qed.

Lemma calm_stop {A} F f G : benign f -> calm F (stop (A := A) f) G.
Proof. by intros Hf y _ _. Qed.

Lemma calm_read {A} F (m : P A) :
  (forall y, exists a, m y = Ret a y) -> calm F m (fun _ => []).
Proof.
  intros Hm y _ _. unfold wp. destruct (Hm y) as [a ->].
  split; [reflexivity|]. by intros x Hx%not_elem_of_nil.
Qed.

Lemma calm_modify F f : (forall y, quiet y (f y)) -> calm F (modify f) (fun _ => []).
Proof. intros Hf y _ _. split; [apply Hf|]. by intros x Hx%not_elem_of_nil. Qed.

Lemma calm_when F b m : calm F m (fun _ => []) -> calm F (when b m) (fun _ => []).
Proof. intros Hm. destruct b; [done|]. apply calm_ret. apply list_subseteq_nil. Qed.

Lemma calm_for_each {A} F (l : list A) body :
  (forall x, x ∈ l -> calm F (body x) (fun _ => [])) -> calm F (for_each l body) (fun _ => []).
Proof.
  induction l as [|x l IH]; intros Hb; simpl; [apply calm_ret, list_subseteq_nil|].
  eapply calm_bind; [apply Hb; left|]. intros []. simpl. apply IH. intros z Hz. apply Hb. by right.
Qed.

(** ** The primitives *)

Lemma quiet_trivial y y' :
  SocketList y' = SocketList y -> ClosingSockets y' = ClosingSockets y ->
  next_address y' = next_address y -> sockets y' = sockets y -> assocs y' = assocs y -> conditions y' = conditions y ->
  quiet y y'.
Proof. intros E1 E2 E3 E4 E5 E6. split; rewrite ?E4, ?E5, ?E6; done. Qed.

Lemma benign_abort : benign ProcessAbort.
Proof. unfold benign, memory_fault. intuition discriminate. Qed.
Lemma benign_block : benign WouldBlock.
Proof. unfold benign, memory_fault. intuition discriminate. Qed.
Lemma benign_fuel : benign OutOfFuel.
Proof. unfold benign, memory_fault. intuition discriminate. Qed.

Lemma calm_lock F : calm F lock (fun _ => []).
Proof.
  intros y _ _. unfold lock, wp. split; [|by intros x Hx%not_elem_of_nil].
  case_bool_decide; by apply quiet_trivial.
Qed.
Lemma calm_unlock F : calm F unlock (fun _ => []).
Proof.
  intros y _ _. unfold unlock, wp. case_bool_decide; [apply benign_abort|].
  split; [|by intros x Hx%not_elem_of_nil]. case_bool_decide; by apply quiet_trivial.
Qed.
Lemma calm_call {A} F (f : W -> A * W) : calm F (call f) (fun _ => []).
Proof.
  intros y _ _. unfold call, wp. destruct (f (world y)) as [a w].
  split; [by apply quiet_trivial|]. by intros x Hx%not_elem_of_nil.
Qed.
Lemma calm_sock p : calm [Sk p] (sock p) entries.
Proof.
  intros y Hwf Hy. destruct (Hy (Sk p)) as [s Hs]; [left|]. unfold sock, wp. rewrite Hs.
  split; [reflexivity|]. intros x (e & -> & He)%list_elem_of_fmap. simpl.
  pose proof (so_entries _ _ _ (wf_sockets y Hwf p s Hs) e He) as He'. unfold entry_ok in He'.
  destruct (assocs y !! e.2); [eauto|discriminate He'].
Qed.
Lemma calm_assoc a : calm [As a] (assoc a) (fun o => [Sk (a_Socket o)]).
Proof.
  intros y Hwf Hy. destruct (Hy (As a)) as [o Ho]; [left|]. unfold assoc, wp. rewrite Ho.
  split; [reflexivity|]. intros x ->%list_elem_of_singleton. apply (wf_assocs y Hwf a o Ho).
Qed.
Lemma calm_upd_assoc a f :
  (forall o, identity (f o) = identity o) -> calm [As a] (upd_assoc a f) (fun _ => []).
Proof.
  intros Hf y Hwf Hy. destruct (Hy (As a)) as [o Ho]; [left|].
  eapply wp_upd_assoc; [done|]. split; [by eapply quiet_put_assoc|].
  by intros x Hx%not_elem_of_nil.
Qed.
Lemma calm_upd_sock p f :
  (forall s, skeleton (f s) = skeleton s) -> calm [Sk p] (upd_sock p f) (fun _ => []).
Proof.
  intros Hf y Hwf Hy. destruct (Hy (Sk p)) as [s Hs]; [left|].
  eapply wp_upd_sock; [done|]. split; [by eapply quiet_put_sock|].
  by intros x Hx%not_elem_of_nil.
Qed.

Lemma live_sock y p k : well_formed y -> is_Some (sockets y !! p) -> k ∈ socket_conditions ->
  live_condition y (p, k).
Proof. intros Hwf [s Hs]. apply (so_conditions _ _ _ (wf_sockets y Hwf p s Hs)). Qed.
Lemma live_assoc y a k : well_formed y -> is_Some (assocs y !! a) ->
  k ∈ association_kinds -> live_condition y (a, k).
Proof. intros Hwf [o Ho]. apply (wf_assocs y Hwf a o Ho). Qed.

Lemma broadcast_run y c : well_formed y -> live_condition y c ->
  wp benign (broadcast c) (fun _ y' => quiet y y') y.
Proof.
  intros Hwf Hc. unfold broadcast, on_conditions, wp.
  destruct (Condition.visit_fires Condition.broadcast Condition.PthreadBroadcast
              (fun _ _ => eq_refl) cond_rank cond_fuel c (conditions y)) as (cs & -> & [Hs _]);
    [apply (wf_graph y Hwf) | done
    | destruct c as [? []]; unfold cond_rank, cond_fuel; simpl; lia |].
  by split.
Qed.

Lemma fired_run y c : live_condition y c -> wp benign (fired c) (fun _ y' => quiet y y') y.
Proof.
  intros [d Hd]. unfold fired, on_conditions, Condition.fired, Condition.set_Fired, bind,
    Condition.load_cond, wp. rewrite Hd. simpl. rewrite Hd. simpl. split; try done.
  intros j. simpl. destruct (decide (c = j)) as [<-|Hne]; [|by rewrite lookup_insert_ne].
  by rewrite lookup_insert_eq, Hd.
Qed.

Lemma calm_live {A} x c (m : P A) :
  (forall y, well_formed y -> exists_in y x -> live_condition y c) ->
  (forall y, well_formed y -> live_condition y c -> wp benign m (fun _ y' => quiet y y') y) ->
  calm [x] m (fun _ => []).
Proof.
  intros Hc Hm y Hwf Hy. eapply wp_weaken; [apply Hm; [done|]; apply Hc; [done|]; apply Hy; left|].
  intros a y' Hq. split; [done|]. by intros z Hz%not_elem_of_nil.
Qed.

Lemma calm_broadcast_sock p k : k ∈ socket_conditions ->
  calm [Sk p] (broadcast (p, k)) (fun _ => []).
Proof.
  intros Hk. apply (calm_live _ (p, k)).
  - intros y Hwf Hs. by apply live_sock.
  - intros y. apply broadcast_run.
Qed.
Lemma calm_broadcast_assoc a k : k ∈ association_kinds ->
  calm [As a] (broadcast (a, k)) (fun _ => []).
Proof.
  intros Hk. apply (calm_live _ (a, k)).
  - intros y Hwf Hs. by apply live_assoc.
  - intros y. apply broadcast_run.
Qed.
Lemma calm_fired_assoc a k : k ∈ association_kinds ->
  calm [As a] (fired (a, k)) (fun _ => []).
Proof.
  intros Hk. apply (calm_live _ (a, k)).
  - intros y Hwf Hs. by apply live_assoc.
  - intros y _. apply fired_run.
Qed.
End Calm.

(** ** Automation *)

Create HintDb objs discriminated.
Lemma objs_cons (x : object) F G : x ∈ G -> F ⊆ G -> x :: F ⊆ G.
Proof. intros Hx HF z [->|Hz]%elem_of_cons; auto. Qed.
Lemma objs_app (F1 F2 G : list object) : F1 ⊆ G -> F2 ⊆ G -> F1 ++ F2 ⊆ G.
Proof. intros H1 H2 z [Hz|Hz]%elem_of_app; auto. Qed.
Lemma objs_post (F G : list object) : F ⊆ F ++ G.
Proof. intros x Hx. apply elem_of_app. by left. Qed.
Lemma objs_skip (F G1 G2 : list object) : F ⊆ G2 -> F ⊆ G1 ++ G2.
Proof. intros HF x Hx. apply elem_of_app. auto. Qed.
Lemma objs_skip_cons (F G : list object) x : F ⊆ G -> F ⊆ x :: G.
Proof. intros HF z Hz. right. auto. Qed.
Lemma objs_refl (F : list object) : F ⊆ F.
Proof. done. Qed.
Lemma objs_here (x : object) F : x ∈ x :: F.
Proof. left. Qed.
Lemma objs_further (x z : object) F : x ∈ F -> x ∈ z :: F.
Proof. by right. Qed.
Lemma objs_left (x : object) F G : x ∈ F -> x ∈ F ++ G.
Proof. intros. apply elem_of_app. by left. Qed.
Lemma objs_right (x : object) F G : x ∈ G -> x ∈ F ++ G.
Proof. intros. apply elem_of_app. by right. Qed.
Lemma objs_found `{!Platform} k s i a :
  mm_find k (s_AssociationList s) = Some (i, a) -> As a ∈ entries s.
Proof.
  intros Hf. apply mm_find_elem in Hf as [He _]. apply list_elem_of_fmap. by exists (i, a).
Qed.
#[export] Hint Resolve objs_cons objs_app objs_here objs_further objs_left objs_right objs_found
  objs_post objs_skip objs_skip_cons objs_refl list_subseteq_nil : objs.
Ltac objs := intros; repeat case_match; simpl; eauto 15 with objs.

Create HintDb calm discriminated.
#[export] Hint Resolve calm_lock calm_unlock calm_call calm_sock calm_assoc : calm.
#[export] Hint Extern 1 (calm _ (ask _) _) =>
  (apply calm_read; intros; eexists; reflexivity) : calm.
#[export] Hint Extern 1 (calm _ (gets _) _) =>
  (apply calm_read; intros; eexists; reflexivity) : calm.
#[export] Hint Extern 1 (calm _ (modify _) _) =>
  (apply calm_modify; intros; by apply quiet_trivial) : calm.
#[export] Hint Extern 1 (calm _ (upd_assoc _ _) _) =>
  (apply calm_upd_assoc; intros; reflexivity) : calm.
#[export] Hint Extern 1 (calm _ (upd_sock _ _) _) =>
  (apply calm_upd_sock; intros; reflexivity) : calm.

Ltac calm_use tac :=
  eapply calm_conseq; [solve [tac] | solve [objs] | solve [intros; apply objs_post | objs]].
Ltac kind_of_association := first [assumption | unfold association_kinds; set_solver].
Ltac calm_leaf :=
  first [ calm_use ltac:(apply calm_broadcast_assoc; kind_of_association)
        | calm_use ltac:(apply calm_fired_assoc; kind_of_association)
        | calm_use ltac:(apply calm_broadcast_sock; unfold socket_conditions; set_solver)
        | calm_use ltac:(eauto with calm) ].
Ltac calm_step :=
  lazymatch goal with
  | |- calm _ (bind _ _) _ =>
      first [ eapply calm_bind; [calm_leaf | intros; cbn [app]]
            | apply (calm_bind _ _ (fun _ => [])); [| intros; cbn [app]] ]
  | |- calm _ (ret _) _ => apply calm_ret; solve [objs]
  | |- calm _ (stop _) _ => apply calm_stop; auto using benign_abort, benign_block, benign_fuel
  | |- calm _ (when _ _) _ => apply calm_when
  | |- calm _ (match ?x with _ => _ end) _ => destruct x eqn:?
  | |- calm _ _ _ => calm_leaf
  end.
Ltac calm_auto := repeat calm_step.

(** ** The operations of the callbacks that delete nothing *)

Definition found (r : option nat) : list object :=
  match r with Some a => [As a] | None => [] end.
Definition socket_found (r : option nat) : list object :=
  match r with Some p => [Sk p] | None => [] end.

Section CalmOperations.
Context `{!Platform}.
Implicit Types (a p : nat).

Lemma calm_getAssociation p i b :
  calm [Sk p] (getAssociationForAssociationID p i b) found.
Proof.
  unfold getAssociationForAssociationID.
  calm_step. calm_step.
  eapply (calm_bind _ _ found); [calm_auto|]. intros r. calm_auto.
Qed.
Hint Resolve calm_getAssociation : calm.

Lemma calm_assoc_hasData a : calm [As a] (assoc_hasData a) (fun _ => []).
Proof. unfold assoc_hasData. calm_auto. Qed.
Lemma calm_sock_hasData p : calm [Sk p] (sock_hasData p) (fun _ => []).
Proof. unfold sock_hasData. calm_auto. Qed.
Hint Resolve calm_assoc_hasData calm_sock_hasData : calm.
Lemma calm_update_ReadReady p : calm [Sk p] (update_ReadReady p) (fun _ => []).
Proof. unfold update_ReadReady. calm_auto. Qed.
Lemma calm_getErrorCode p i : calm [Sk p] (getErrorCode p i) (fun _ => []).
Proof. unfold getErrorCode. calm_auto. Qed.
Hint Resolve calm_update_ReadReady calm_getErrorCode : calm.

Lemma calm_getSocket i : calm [] (getSocketForAssociationID i) socket_found.
Proof.
  unfold getSocketForAssociationID. calm_step. destruct a as [instanceID|]; [|calm_auto].
  case_bool_decide; [|calm_auto].
  intros y Hwf _. split; [reflexivity|]. cbn.
  destruct (mm_find instanceID (SocketList y)) as [e|] eqn:E; [|by intros x Hx%not_elem_of_nil].
  intros x ->%list_elem_of_singleton. apply mm_find_elem in E as [He _].
  apply (wf_registered y Hwf e He).
Qed.
Lemma calm_initNotification i : calm [] (initNotification i) (fun _ => []).
Proof.
  apply calm_read. intros y. unfold initNotification. destruct (sctp_getAssocStatus _ _); eauto.
Qed.
Lemma calm_addNotification p i n : calm [Sk p] (addNotification p i n) (fun _ => []).
Proof. unfold addNotification. calm_auto. Qed.
Hint Resolve calm_getSocket calm_initNotification calm_addNotification : calm.

Lemma calm_correct_RTOMax a i : calm [As a] (correct_RTOMax a i) (fun _ => []).
Proof. unfold correct_RTOMax, sock_getAssocStatus, sock_setAssocStatus. calm_auto. Qed.
Hint Resolve calm_correct_RTOMax : calm.

(** The sends of a callback have no path address and see no other thread. *)
Lemma calm_send_loop sa i a k fuel : k ∈ association_kinds ->
  calm [As a] (send_loop sa i (a, k) None fuel []) (fun _ => []).
Proof.
  intros Hk. induction fuel as [|fuel IH]; cbn [send_loop]; [calm_auto|].
  calm_step. calm_step. calm_step; [calm_auto|]. calm_step.
  destruct (bool_decide _ && _); [|calm_auto].
  calm_step. apply calm_bind with (G := fun _ => []); [calm_auto|]. intros b. cbn [app].
  destruct b; [apply calm_ret_bind | apply calm_stop_bind, benign_block]. calm_auto.
Qed.
Hint Extern 1 (calm _ (send_loop _ _ _ _ _ _) _) =>
  (apply calm_send_loop; kind_of_association) : calm.

Lemma calm_internalSend p sa i a k : k ∈ association_kinds ->
  calm [As a; Sk p] (internalSend p sa i (a, k) None []) (fun _ => []).
Proof. intros Hk. unfold internalSend. calm_auto. Qed.
Hint Extern 1 (calm _ (internalSend _ _ _ _ _ _) _) =>
  (apply calm_internalSend; kind_of_association) : calm.

(** Packets queued before the establishment are sent without the defaults. *)
Lemma calm_assoc_sendTo a data f s i t :
  calm [As a] (assoc_sendTo a (Some data) f s i t false None []) (fun _ => []).
Proof. unfold assoc_sendTo. calm_step. cbn [negb default]. calm_auto. Qed.
Hint Resolve calm_assoc_sendTo : calm.

Lemma calm_send_packets a fuel : calm [As a] (send_packets a fuel) (fun _ => []).
Proof. induction fuel; simpl; calm_auto. Qed.
Hint Resolve calm_send_packets : calm.

Lemma calm_established a i : calm [As a] (established a i) (fun _ => []).
Proof. unfold established, sendPreEstablishmentPackets. calm_auto. Qed.
Lemma calm_sendPreEstablishmentPackets a :
  calm [As a] (sendPreEstablishmentPackets a) (fun _ => []).
Proof. unfold sendPreEstablishmentPackets. calm_auto. Qed.
Hint Resolve calm_established calm_sendPreEstablishmentPackets : calm.

Lemma calm_raw_delete i : calm [] (raw_delete i) (fun _ => []).
Proof. unfold raw_delete. calm_auto. Qed.
Hint Resolve calm_raw_delete : calm.

(** The callbacks that end with a notification. *)
Lemma calm_dataArriveNotif i s l t u : calm [] (dataArriveNotif i s l t u) (fun _ => []).
Proof. unfold dataArriveNotif. calm_auto. Qed.
Lemma calm_sendFailureNotif i : calm [] (sendFailureNotif i) (fun _ => []).
Proof. unfold sendFailureNotif. calm_auto. Qed.
Lemma calm_networkStatusChangeNotif i t st :
  calm [] (networkStatusChangeNotif i t st) (fun _ => []).
Proof. unfold networkStatusChangeNotif. calm_auto. Qed.
Lemma calm_communicationErrorNotif i : calm [] (communicationErrorNotif i) (fun _ => []).
Proof. unfold communicationErrorNotif. calm_auto. Qed.
Lemma calm_restartNotif i : calm [] (restartNotif i) (fun _ => []).
Proof. unfold restartNotif. calm_auto. Qed.
Lemma calm_shutdownReceivedNotif i : calm [] (shutdownReceivedNotif i) (fun _ => []).
Proof. unfold shutdownReceivedNotif. calm_auto. Qed.
Lemma calm_queueStatusChangeNotif i : calm [] (queueStatusChangeNotif i) (fun _ => []).
Proof. unfold queueStatusChangeNotif. calm_auto. Qed.
End CalmOperations.
#[export] Hint Resolve calm_getAssociation calm_assoc_hasData calm_sock_hasData
  calm_update_ReadReady calm_getErrorCode calm_getSocket calm_initNotification
  calm_addNotification calm_correct_RTOMax calm_established calm_sendPreEstablishmentPackets
  calm_raw_delete : calm.

(** ** Operations that may close associations

    [gentle hole F m]: with the objects [F], [m] has no memory fault, keeps
    the state well-formed, and what it changes is within [stable hole].
    Sockets are not deleted, so that they can be used after [m]; an
    association may be gone. *)

Section Gentle.
Context `{!Platform}.

Definition gentle {A} (hole : option nat) (F : list object) (m : P A) : Prop :=
  forall y, well_formed y -> has F y ->
  wp benign m (fun _ y' => well_formed y' /\ stable hole y y') y.

Fixpoint only_sockets (F : list object) : list object :=
  match F with
  | [] => []
  | Sk p :: F => Sk p :: only_sockets F
  | As _ :: F => only_sockets F
  end.

Lemma elem_of_only_sockets x F : x ∈ only_sockets F -> exists p, x = Sk p /\ x ∈ F.
Proof.
  induction F as [|[q|b] F IH]; simpl; [by intros ?%not_elem_of_nil| |].
  - intros [->|Hx]%elem_of_cons; [exists q; split; [done|left]|].
    destruct (IH Hx) as (p & -> & Hp). exists p. split; [done|by right].
  - intros Hx. destruct (IH Hx) as (p & -> & Hp). exists p. split; [done|by right].
Qed.

Lemma has_stable hole F y y' : stable hole y y' -> has F y -> has (only_sockets F) y'.
Proof.
  intros Hst HF x (p & -> & Hp)%elem_of_only_sockets. specialize (HF (Sk p) Hp). simpl in *.
  by eapply stable_socket.
Qed.

Lemma gentle_calm {A} hole F (m : P A) G : calm F m G -> gentle hole F m.
Proof.
  intros Hm y Hwf Hy. eapply wp_weaken; [by apply Hm|]. intros a y' [Hq _].
  split; [by rewrite <- Hq|by apply quiet_stable].
Qed.

Lemma gentle_weaken {A} hole F F' (m : P A) : gentle hole F' m -> F' ⊆ F -> gentle hole F m.
Proof. intros Hm HF y Hwf Hy. apply Hm; [done|]. intros x Hx. auto. Qed.

Lemma gentle_bind {A B} hole F (m : P A) (k : A -> P B) :
  gentle hole F m -> (forall a, gentle hole (only_sockets F) (k a)) -> gentle hole F (bind m k).
Proof.
  intros Hm Hk y Hwf Hy. eapply wp_seq; [by apply Hm|]. intros a y1 [Hwf1 Hst1].
  eapply wp_weaken; [apply Hk; [done|by eapply has_stable]|].
  intros b y2 [Hwf2 Hst2]. split; [done|by transitivity y1].
Qed.

Lemma gentle_calm_bind {A B} hole F (m : P A) G (k : A -> P B) :
  calm F m G -> (forall a, gentle hole (G a ++ F) (k a)) -> gentle hole F (bind m k).
Proof.
  intros Hm Hk y Hwf Hy. eapply wp_seq; [by apply Hm|]. intros a y1 [Hq Ha].
  eapply wp_weaken.
  - apply Hk; [by rewrite <- Hq|]. apply has_app; [done|]. by apply (has_quiet F y y1).
  - intros b y2 [Hwf2 Hst2]. split; [done|]. transitivity y1; [by apply quiet_stable|done].
Qed.

Lemma gentle_bind_assoc {A B C} hole F (m : P A) (k1 : A -> P B) (k2 : B -> P C) :
  gentle hole F (bind (bind m k1) k2) -> gentle hole F (bind m (fun a => bind (k1 a) k2)).
Proof.
  intros Hm y Hwf Hy. specialize (Hm y Hwf Hy). unfold wp, bind in *. by destruct (m y).
Qed.

Lemma gentle_when hole F b m : gentle hole F m -> gentle hole F (when b m).
Proof.
  intros Hm. destruct b; [done|]. apply (gentle_calm _ _ _ (fun _ => [])).
  apply calm_ret, list_subseteq_nil.
Qed.

Lemma gentle_hole {A} hole F (m : P A) : gentle None F m -> gentle hole F m.
Proof.
  intros Hm y Hwf Hy. eapply wp_weaken; [by apply Hm|]. intros a y' [Hwf' Hst].
  split; [done|by apply stable_hole].
Qed.

Lemma gentle_for_each {A} hole (l : list A) F body :
  (forall e, e ∈ l -> gentle hole F (body e)) -> only_sockets F = F ->
  gentle hole F (for_each l body).
Proof.
  intros Hb HF. induction l as [|e l IH]; simpl.
  - apply (gentle_calm _ _ _ (fun _ => [])), calm_ret, list_subseteq_nil.
  - apply gentle_bind; [apply Hb; left|]. intros _. rewrite HF. apply IH.
    intros e' He'. apply Hb. by right.
Qed.
End Gentle.

Lemma objs_only p F : Sk p ∈ F -> Sk p ∈ only_sockets F.
Proof.
  induction F as [|[q|b] F IH]; simpl; [done| |].
  - intros [->|HF]%elem_of_cons; [left|right; auto].
  - intros [?|HF]%elem_of_cons; [done|auto].
Qed.
#[export] Hint Resolve objs_only : objs.

Ltac gentle_step :=
  lazymatch goal with
  | |- gentle _ _ (bind _ _) =>
      first [ eapply gentle_calm_bind; [calm_leaf | intros; cbn [app]]
            | eapply gentle_bind; [| intros; cbn [only_sockets]] ]
  | |- gentle _ _ (ret _) => apply (gentle_calm _ _ _ (fun _ => [])), calm_ret; solve [objs]
  | |- gentle _ _ (stop _) => apply (gentle_calm _ _ _ (fun _ => [])), calm_stop;
                              auto using benign_abort, benign_block, benign_fuel
  | |- gentle _ _ (when _ _) => apply gentle_when
  | |- gentle _ _ (match ?x with _ => _ end) => destruct x eqn:?
  | |- gentle _ _ _ =>
      first [ eapply gentle_calm; calm_leaf
            | eapply gentle_weaken; [solve [eauto with gentle] | solve [objs]]
            | eapply gentle_hole, gentle_weaken; [solve [eauto with gentle] | solve [objs]] ]
  end.
Ltac gentle_auto := repeat gentle_step.
Create HintDb gentle discriminated.

(** ** Documented behaviour of sctplib

    [sctp_shutdown] and [sctp_abort] may call back before they return, to say
    that the association is gone; they do not report new associations. *)
Definition announces (cb : Callback) : bool :=
  match cb with CommunicationUp _ _ _ => true | _ => false end.
Definition sctplib_closes_only `{!Platform} : Prop := forall assocID w,
  Forall (fun cb => announces cb = false) (sctp_shutdown assocID w).2
  /\ Forall (fun cb => announces cb = false) (sctp_abort assocID w).2.

Section Closing.
Context `{!Platform}.
Hypothesis sctplib : sctplib_closes_only.
Variable deliver : list Callback -> P unit.
Hypothesis deliver_gentle : forall cbs, Forall (fun cb => announces cb = false) cbs ->
  gentle None [] (deliver cbs).
Implicit Types (a p : nat).

(** Calling sctplib and running its callbacks. *)
Lemma gentle_call_back F (f : W -> W * list Callback) :
  (forall w, Forall (fun cb => announces cb = false) (f w).2) ->
  gentle None F (bind (fun y => let '(w, cbs) := f (world y) in Ret cbs (set_world w y))
                  (fun cbs => deliver cbs)).
Proof using deliver_gentle.
  intros Hf y Hwf Hy. unfold wp, bind. specialize (Hf (world y)).
  destruct (f (world y)) as [w cbs]. simpl in Hf.
  assert (Hq : quiet y (set_world w y)) by (by apply quiet_trivial).
  change (wp benign (deliver cbs) (fun _ y' => well_formed y' /\ stable None y y') (set_world w y)).
  eapply wp_weaken; [apply deliver_gentle; [done|by rewrite <- Hq|by intros x Hx%not_elem_of_nil]|].
  intros _ y' [Hwf' Hst]. split; [done|].
  transitivity (set_world w y); [by apply quiet_stable|done].
Qed.

Lemma gentle_shutdown a : gentle None [As a] (assoc_shutdown deliver a).
Proof using Type*.
  unfold assoc_shutdown. gentle_step. gentle_step. gentle_step; [|gentle_auto].
  gentle_step. gentle_step. apply gentle_call_back. intros w. apply sctplib.
Qed.

Lemma gentle_abort a : gentle None [As a] (assoc_abort deliver a).
Proof using Type*.
  unfold assoc_abort. gentle_step. gentle_step. gentle_step.
  apply gentle_bind_assoc. gentle_step; [|gentle_auto].
  apply gentle_call_back. intros w. apply sctplib.
Qed.

(** ** Deleting an association *)

Lemma find_entry (m : list (@entry nat)) e : NoDup m.*1 -> e ∈ m -> mm_find e.1 m = Some e.
Proof.
  induction m as [|x m IH]; intros Hnd He; [by apply not_elem_of_nil in He|].
  simpl in Hnd |- *. apply NoDup_cons in Hnd as [Hx Hnd].
  apply elem_of_cons in He as [->|He]; [by rewrite decide_True|].
  rewrite decide_False; [by apply IH|]. intros Hxe. apply Hx. rewrite Hxe.
  apply list_elem_of_fmap. eauto.
Qed.

Lemma same_address y p q s t e x :
  well_formed y -> sockets y !! p = Some s -> sockets y !! q = Some t ->
  e ∈ s_AssociationList s -> x ∈ s_AssociationList t -> e.2 = x.2 -> p = q /\ e = x.
Proof.
  intros Hwf Hs Ht He Hx Hsnd.
  pose proof (so_entries _ _ _ (wf_sockets y Hwf p s Hs) e He) as Ee.
  pose proof (so_entries _ _ _ (wf_sockets y Hwf q t Ht) x Hx) as Ex.
  unfold entry_ok in Ee, Ex. rewrite Hsnd, Ex in Ee. injection Ee as -> E1.
  split; [done|]. destruct e, x; simpl in *; congruence.
Qed.

(** The state without the entry [e] of socket [p] and without its object. *)
Lemma remove_entry y y' p s e :
  well_formed y -> sockets y !! p = Some s -> e ∈ s_AssociationList s ->
  e ∉ s_ConnectionlessAssociationList s ->
  (forall r, r ∈ s_ConnectionRequests s -> ic_Association r <> e.2) ->
  sockets y' = <[p := set_s_AssociationList (mm_erase e (s_AssociationList s)) s]> (sockets y) ->
  assocs y' = delete e.2 (assocs y) -> SocketList y' = SocketList y ->
  ClosingSockets y' = ClosingSockets y ->
  next_address y' = next_address y -> conditions y' = conditions y ->
  well_formed y'.
Proof.
  intros Hwf Hs He Hc Hr Es Ea El Ecl En Ec.
  pose proof (wf_sockets y Hwf p s Hs) as Hok.
  pose proof (mm_erase_perm e _ He) as Hperm.
  assert (Hin : forall x, x ∈ s_AssociationList s -> x <> e ->
    x ∈ mm_erase e (s_AssociationList s)).
  { intros x Hx Hne. rewrite Hperm in Hx. by apply elem_of_cons in Hx as [?|?]. }
  assert (Hentry : forall q t x, sockets y !! q = Some t -> x ∈ s_AssociationList t ->
    x <> e -> entry_ok y' q x).
  { intros q t x Ht Hx Hne. unfold entry_ok. rewrite Ea.
    rewrite lookup_delete_ne; [apply (so_entries _ _ _ (wf_sockets y Hwf q t Ht) x Hx)|].
    intros E. destruct (same_address y p q s t e x Hwf Hs Ht He Hx E). congruence. }
  assert (Hlive : forall c, live_condition y c -> live_condition y' c)
    by (unfold live_condition; by rewrite Ec).
  assert (Hdom : forall q, is_Some (sockets y !! q) -> is_Some (sockets y' !! q)).
  { intros q Hq. rewrite Es. destruct (decide (p = q)) as [<-|];
      [rewrite lookup_insert_eq; eauto|by rewrite lookup_insert_ne]. }
  split.
  - intros q t Ht. rewrite Es in Ht. destruct (decide (p = q)) as [<-|Hne].
    + rewrite lookup_insert_eq in Ht. injection Ht as <-. destruct Hok as [H1 H2 H3 H4 H5 H6].
      split; simpl; try done.
      * intros x Hx. eapply (Hentry p s); [done|by apply (mm_erase_incl e)|].
        intros ->. revert Hx. apply mm_erase_not_elem. by apply NoDup_fmap_1 in H2.
      * rewrite Hperm in H2. by apply NoDup_cons in H2 as [_ ?].
      * intros x Hx. apply Hin; [auto|]. by intros ->.
      * intros r Hrq. destruct (H5 r Hrq) as (x & Hx & E & Hn). exists x.
        split; [|done]. apply Hin; [done|]. intros ->. by apply (Hr r).
      * eauto.
    + rewrite lookup_insert_ne in Ht by done.
      destruct (wf_sockets y Hwf q t Ht) as [H1 H2 H3 H4 H5 H6]. split; eauto.
      intros x Hx. eapply Hentry; eauto. intros ->.
      destruct (same_address y p q s t e e Hwf Hs Ht He Hx eq_refl). congruence.
  - rewrite El. intros x Hx. apply Hdom, (wf_registered y Hwf x Hx).
  - intros b o Ho. rewrite Ea in Ho. apply lookup_delete_Some in Ho as [_ Ho].
    destruct (wf_assocs y Hwf b o Ho). eauto.
  - unfold conditions_ok. rewrite Ec. apply (wf_graph y Hwf).
  - rewrite Ecl. apply (wf_closing y Hwf).
  - rewrite En. intros b Hb. destruct (wf_fresh y Hwf b Hb) as [E1 E2]. rewrite Ea, Es.
    rewrite lookup_delete, E1. split; [by case_decide|].
    rewrite lookup_insert_ne; [done|]. congruence.
Qed.

Lemma kept_entry y y' p s e :
  stable None y y' -> sockets y !! p = Some s -> e ∈ s_AssociationList s ->
  e ∉ s_ConnectionlessAssociationList s ->
  exists s', sockets y' !! p = Some s' /\ e ∈ s_AssociationList s'
    /\ (e ∉ s_ConnectionlessAssociationList s')
    /\ s_ConnectionRequests s' = s_ConnectionRequests s.
Proof.
  intros [_ Hst] Hs He Hc. destruct (Hst p s Hs) as (s' & Hs' & [H1 H2 Hm H3 H4 H5]).
  exists s'. split; [done|]. split; [auto|]. split; [auto|done].
Qed.

(** The end of the destructor. *)
Lemma delete_end y p s e o :
  well_formed y -> sockets y !! p = Some s -> e ∈ s_AssociationList s ->
  e ∉ s_ConnectionlessAssociationList s ->
  (forall r, r ∈ s_ConnectionRequests s -> ic_Association r <> e.2) ->
  identity o = (p, e.1) ->
  wp benign
    (let* s := sock (a_Socket o) in
     (match mm_find (a_AssociationID o) (s_AssociationList s) with
      | Some iterator =>
          upd_sock (a_Socket o) (fun s =>
            set_s_AssociationList (mm_erase iterator (s_AssociationList s)) s)
      | None => stop ProcessAbort
      end) ;;
     upd_assoc e.2 (set_a_AssociationID 0) ;;
     unlock ;;
     modify (fun y => set_assocs (delete e.2 (assocs y)) y))
    (fun _ y' => well_formed y' /\ SocketList y' = SocketList y /\
       sockets y' = <[p := set_s_AssociationList (mm_erase e (s_AssociationList s)) s]> (sockets y))
    y.
Proof.
  intros Hwf Hs He Hc Hr Hid. injection Hid as -> ->.
  pose proof (wf_sockets y Hwf p s Hs) as Hok.
  pose proof (so_entries _ _ _ Hok e He) as Hent. unfold entry_ok in Hent.
  destruct (assocs y !! e.2) as [o'|] eqn:Ho'; [|discriminate Hent].
  unfold bind, sock, upd_sock, upd_assoc, wp. rewrite Hs.
  rewrite (find_entry _ e (so_unique _ _ _ Hok) He).
  unfold bind, sock, assoc, modify, unlock. rewrite Hs. simpl. rewrite Ho'. simpl.
  case_bool_decide; [apply benign_abort|]. split; [|by case_bool_decide].
  eapply remove_entry; try eassumption; case_bool_decide; simpl; try done;
    by rewrite delete_insert_eq.
Qed.

Lemma delete_run y p s e :
  well_formed y -> sockets y !! p = Some s -> e ∈ s_AssociationList s ->
  e ∉ s_ConnectionlessAssociationList s ->
  (forall r, r ∈ s_ConnectionRequests s -> ic_Association r <> e.2) ->
  wp benign (delete_SCTPAssociation deliver e.2)
    (fun _ y' => well_formed y' /\ exists y2 s2, stable None y y2 /\ sockets y2 !! p = Some s2
       /\ SocketList y' = SocketList y2
       /\ sockets y' = <[p := set_s_AssociationList (mm_erase e (s_AssociationList s2)) s2]>
                          (sockets y2)) y.
Proof using Type*.
  intros Hwf Hs He Hc Hr.
  pose proof (so_entries _ _ _ (wf_sockets y Hwf p s Hs) e He) as Hent. unfold entry_ok in Hent.
  destruct (assocs y !! e.2) as [o0|] eqn:Ho0; [|discriminate Hent].
  unfold delete_SCTPAssociation. eapply wp_seq; [apply (calm_lock [] y Hwf)|].
  { by intros x Hx%not_elem_of_nil. }
  intros [] y1 [Hq1 _]. destruct (quiet_assoc y y1 _ _ Hq1 Ho0) as (o & Ho & Hid).
  assert (Hwf1 : well_formed y1) by (by rewrite <- Hq1).
  assert (Hid' : identity o = (p, e.1)) by (rewrite Hid; by apply (inj Some)).
  apply wp_bind. unfold wp at 1, assoc. rewrite Ho.
  case_bool_decide; [apply benign_abort|].
  destruct (kept_entry y y1 p s e (quiet_stable None _ _ Hq1) Hs He Hc)
    as (s1 & Hs1 & He1 & Hc1 & Hr1).
  eapply wp_seq.
  { assert (Hg : gentle None [As e.2; Sk p]
      (if negb (a_ShutdownCompleteNotification o) then
         let* s := sock (a_Socket o) in
         delayedDeleteAssociation (s_InstanceName s) (a_AssociationID o) ;;
         assoc_shutdown deliver e.2
       else
         let* r := call (sctp_deleteAssociation (a_AssociationID o)) in
         when (bool_decide (r <> 0)) (stop ProcessAbort))).
    { injection Hid' as -> _. unfold delayedDeleteAssociation.
      destruct (negb _); [|gentle_auto]. gentle_step. gentle_step.
      eapply gentle_weaken; [apply gentle_shutdown|objs]. }
    apply (Hg y1 Hwf1). intros x [->|[->|Hx%not_elem_of_nil]%elem_of_cons]%elem_of_cons; simpl; eauto. done. }
  intros [] y2 [Hwf2 Hst2].
  destruct (kept_entry y1 y2 p s1 e Hst2 Hs1 He1 Hc1) as (s2 & Hs2 & He2 & Hc2 & Hr2).
  eapply wp_weaken; [apply (delete_end y2 p s2 e o); try done; rewrite Hr2, Hr1; done|].
  intros [] y' (Hwf' & El & Es). split; [done|]. exists y2, s2.
  split; [|done]. transitivity y1; [by apply quiet_stable|done].
Qed.

(** ** [checkAutoClose] *)

(** Taking an association off the connectionless list of a guarded socket. *)
Lemma erase_connectionless y p s e :
  well_formed y -> sockets y !! p = Some s -> e ∈ s_ConnectionlessAssociationList s ->
  let s1 := set_s_ConnectionlessAssociationList
              (mm_erase e (s_ConnectionlessAssociationList s)) s in
  let y1 := set_sockets (<[p := s1]> (sockets y)) y in
  well_formed y1 /\ stable (Some p) y y1 /\ e ∈ s_AssociationList s1
  /\ (e ∉ s_ConnectionlessAssociationList s1)
  /\ forall r, r ∈ s_ConnectionRequests s1 -> ic_Association r <> e.2.
Proof.
  intros Hwf Hs He s1 y1. pose proof (wf_sockets y Hwf p s Hs) as Hok.
  pose proof (so_connectionless _ _ _ Hok) as Hsub. pose proof (so_distinct _ _ _ Hok) as Hnd.
  split_and!.
  - apply (wf_put_sock p s s1 y Hwf Hs). destruct Hok as [H1 H2 H3 H4 H5 H6]. split; simpl; try done.
    + intros x Hx. apply Hsub. by apply (mm_erase_incl e).
    + by apply mm_erase_NoDup.
    + intros r Hr. destruct (H5 r Hr) as (x & Hx & E & Hn). exists x. split; [done|].
      split; [done|]. intros Hx'. apply Hn. by apply (mm_erase_incl e).
  - split; [done|]. intros q t Ht. simpl. destruct (decide (p = q)) as [<-|Hne].
    + rewrite lookup_insert_eq. exists s1. split; [done|]. simplify_eq.
      rewrite bool_decide_true by done. split; simpl; try done. apply mm_erase_incl.
    + rewrite lookup_insert_ne by done. exists t. split; [done|]. by apply socket_stable_refl.
  - simpl. auto.
  - simpl. by apply mm_erase_not_elem.
  - simpl. intros r Hr E. destruct (so_requests _ _ _ Hok r Hr) as (x & Hx & Ex & Hn).
    destruct (same_address y p p s s x e Hwf Hs Hs Hx (Hsub e He)) as [_ ->]; [congruence|done].
Qed.

Lemma close_entry y p s e :
  well_formed y -> sockets y !! p = Some s -> s_AutoCloseRecursion s = true ->
  e ∈ s_ConnectionlessAssociationList s ->
  wp benign
    (upd_sock p (fun s => set_s_ConnectionlessAssociationList
                  (mm_erase e (s_ConnectionlessAssociationList s)) s) ;;
     delete_SCTPAssociation deliver e.2)
    (fun _ y' => well_formed y' /\ stable (Some p) y y' /\
       exists s', sockets y' !! p = Some s' /\ s_AutoCloseRecursion s' = true /\
         s_ConnectionlessAssociationList s' = mm_erase e (s_ConnectionlessAssociationList s)) y.
Proof using Type*.
  intros Hwf Hs Hguard He.
  destruct (erase_connectionless y p s e Hwf Hs He) as (Hwf1 & Hst1 & He1 & Hc1 & Hr1).
  set (s1 := set_s_ConnectionlessAssociationList _ s) in *.
  set (y1 := set_sockets _ y) in *.
  assert (Hs1 : sockets y1 !! p = Some s1) by apply lookup_insert_eq.
  unfold wp, upd_sock, bind, sock, modify. rewrite Hs.
  change (wp benign (delete_SCTPAssociation deliver e.2)
    (fun _ y' => well_formed y' /\ stable (Some p) y y' /\
       exists s', sockets y' !! p = Some s' /\ s_AutoCloseRecursion s' = true /\
         s_ConnectionlessAssociationList s' = mm_erase e (s_ConnectionlessAssociationList s)) y1).
  eapply wp_weaken; [by apply (delete_run y1 p s1 e)|].
  intros _ y' (Hwf' & y2 & s2 & Hst2 & Hs2 & El & Es). split; [done|].
  assert (Hst : stable (Some p) y y2) by (transitivity y1; [done|by apply stable_hole]).
  destruct (st_sockets _ _ _ Hst2 p s1 Hs1) as (s2' & Hs2' & Hsst).
  assert (s2' = s2) as -> by congruence. destruct Hsst as [_ Hg2 _ _ Hc2 _].
  split.
  - split; [rewrite El; apply (st_list _ _ _ Hst)|]. intros q t Ht. rewrite Es.
    destruct (st_sockets _ _ _ Hst q t Ht) as (t2 & Ht2 & Hss).
    destruct (decide (p = q)) as [<-|Hne]; [|exists t2; by rewrite lookup_insert_ne].
    exists (set_s_AssociationList (mm_erase e (s_AssociationList s2)) s2).
    rewrite lookup_insert_eq. split; [done|].
    assert (t2 = s2) as -> by congruence. assert (t = s) as -> by congruence.
    destruct Hss as [A1 A2 Am A3 A4 A5]. rewrite bool_decide_true in * by done.
    split; try done; [simpl; intros x Hx; by apply Am, (mm_erase_incl e)|]. intros x Hx [Hn|[_ ?]]; [|done]. simpl.
    assert (Hx2 : x ∈ s_AssociationList s2) by (apply A5; auto).
    destruct (decide (e ∈ s_AssociationList s2)) as [He2|He2].
    + rewrite (mm_erase_perm e _ He2) in Hx2. apply elem_of_cons in Hx2 as [->|?]; [done|done].
    + by rewrite mm_erase_notin.
  - exists (set_s_AssociationList (mm_erase e (s_AssociationList s2)) s2).
    rewrite Es, lookup_insert_eq. split; [done|]. simpl.
    split; [by rewrite Hg2|]. rewrite Hc2; [done| |done]. done.
Qed.

(** A guarded socket keeps its list under any gentle operation. *)
Lemma guarded_list y y' p s :
  stable None y y' -> sockets y !! p = Some s -> s_AutoCloseRecursion s = true ->
  exists s', sockets y' !! p = Some s' /\ s_AutoCloseRecursion s' = true
    /\ s_ConnectionlessAssociationList s' = s_ConnectionlessAssociationList s.
Proof.
  intros [_ Hst] Hs Hg. destruct (Hst p s Hs) as (s' & Hs' & [_ H2 _ _ H4 _]).
  exists s'. split; [done|]. split; [congruence|auto].
Qed.

Definition at_iterator (p : nat) (iterator : option (@entry nat)) (y : Sys) : Prop :=
  exists s, sockets y !! p = Some s /\ s_AutoCloseRecursion s = true
    /\ forall e, iterator = Some e -> e ∈ s_ConnectionlessAssociationList s.

(** What one pass does to one association. *)
Lemma autoclose_entry y p s e n (o : SCTPAssociation) (idle : Z) :
  well_formed y -> sockets y !! p = Some s -> s_AutoCloseRecursion s = true ->
  e ∈ s_ConnectionlessAssociationList s -> assocs y !! e.2 = Some o ->
  mm_next e (s_ConnectionlessAssociationList s) = Some n ->
  wp benign
    (if bool_decide (a_UseCount o = 0) then
       if a_ShutdownCompleteNotification o || a_CommunicationLostNotification o then
         upd_sock p (fun s =>
           set_s_ConnectionlessAssociationList
             (mm_erase e (s_ConnectionlessAssociationList s)) s) ;;
         delete_SCTPAssociation deliver e.2
       else if bool_decide (0 < s_AutoCloseTimeout s)
               && bool_decide (u64 (4 * s_AutoCloseTimeout s) < idle) then
         assoc_abort deliver e.2
       else if bool_decide (0 < s_AutoCloseTimeout s)
               && bool_decide (s_AutoCloseTimeout s < idle)
               && negb (a_IsShuttingDown o) then
         assoc_shutdown deliver e.2
       else ret tt
     else ret tt)
    (fun _ y' => well_formed y' /\ stable (Some p) y y' /\ at_iterator p n y') y.
Proof using Type*.
  intros Hwf Hs Hg He Ho Hn.
  assert (Hnext : forall x, n = Some x -> x ∈ s_ConnectionlessAssociationList s).
  { intros x ->. apply (mm_erase_incl e). eapply mm_next_survives; [|done].
    apply (so_distinct _ _ _ (wf_sockets y Hwf p s Hs)). }
  assert (Hhas : has [As e.2] y) by (intros x ->%list_elem_of_singleton; simpl; eauto).
  assert (Hgentle : forall m, gentle None [As e.2] m ->
    wp benign m (fun (_ : unit) y' => well_formed y' /\ stable (Some p) y y' /\ at_iterator p n y') y).
  { intros m Hm. eapply wp_weaken; [by apply Hm|]. intros _ y' [Hwf' Hst].
    split; [done|]. split; [by apply stable_hole|].
    destruct (guarded_list y y' p s Hst Hs Hg) as (s' & Hs' & Hg' & El).
    exists s'. rewrite El. eauto. }
  assert (Hnone : gentle None [As e.2] (ret tt)) by (gentle_auto).
  case_bool_decide; [|auto]. destruct (_ || _).
  - eapply wp_weaken; [by apply close_entry|].
    intros _ y' (Hwf' & Hst & s' & Hs' & Hg' & El). split; [done|]. split; [done|].
    exists s'. split; [done|]. split; [done|]. intros x ->. rewrite El.
    eapply mm_next_survives; [|done]. apply (so_distinct _ _ _ (wf_sockets y Hwf p s Hs)).
  - destruct (_ && _); [apply Hgentle, gentle_abort|].
    destruct (_ && _); [apply Hgentle, gentle_shutdown|auto].
Qed.

Lemma autoclose_pass_safe p now fuel : forall iterator y,
  well_formed y -> at_iterator p iterator y ->
  wp benign (autoclose_pass deliver p now fuel iterator)
    (fun _ y' => well_formed y' /\ stable (Some p) y y' /\ at_iterator p None y') y.
Proof using Type*.
  induction fuel as [|fuel IH]; intros [e|] y Hwf (s & Hs & Hg & Hit); cbn [autoclose_pass].
  1, 3: idtac. 1: apply benign_fuel. 2, 3: split; [done|]; split; [reflexivity|]; exists s; naive_solver.
  specialize (Hit e eq_refl). pose proof (wf_sockets y Hwf p s Hs) as Hok.
  pose proof (so_entries _ _ _ Hok e (so_connectionless _ _ _ Hok e Hit)) as Hent.
  unfold entry_ok in Hent. destruct (assocs y !! e.2) as [o|] eqn:Ho; [|discriminate Hent].
  destruct (proj1 (mm_next_elem e _) Hit) as [n Hn].
  apply wp_bind. unfold wp at 1, sock. rewrite Hs.
  apply wp_bind. unfold wp at 1, of_option. rewrite Hn. unfold ret at 1.
  apply wp_bind. unfold wp at 1, assoc. rewrite Ho.
  eapply wp_seq; [by eapply autoclose_entry|]. intros _ y1 (Hwf1 & Hst1 & Hat).
  eapply wp_weaken; [by apply IH|]. intros _ y2 (Hwf2 & Hst2 & Hat2).
  split; [done|]. split; [by transitivity y1|done].
Qed.

Lemma autoclose_loop_safe p passes : forall y,
  well_formed y -> at_iterator p None y ->
  wp benign (autoclose_loop deliver p passes)
    (fun _ y' => well_formed y' /\ stable (Some p) y y' /\ at_iterator p None y') y.
Proof using Type*.
  induction passes as [|passes IH]; intros y Hwf Hat; cbn [autoclose_loop]; [apply benign_fuel|].
  assert (Hcalm : forall A (m : P A), calm [Sk p] m (fun _ => []) -> forall y, well_formed y ->
    at_iterator p None y -> wp benign m (fun _ y' => quiet y y' /\ well_formed y' /\ at_iterator p None y') y).
  { intros A m Hm z Hz (s & Hs & Hg & _). eapply wp_weaken.
    - apply Hm; [done|]. intros x ->%list_elem_of_singleton. simpl. eauto.
    - intros a z' [Hq _]. split; [done|]. split; [by rewrite <- Hq|].
      destruct (quiet_socket z z' p s Hq Hs) as (s' & Hs' & Hsk). injection Hsk as _ _ _ Eg.
      exists s'. split; [done|]. split; [congruence|done]. }
  eapply wp_seq; [apply Hcalm; [calm_leaf|done|done]|]. intros _ y1 (Hq1 & Hwf1 & Hat1).
  eapply wp_seq; [apply Hcalm; [calm_leaf|done|done]|]. intros now y2 (Hq2 & Hwf2 & Hat2).
  destruct Hat2 as (s & Hs & Hg & _).
  apply wp_bind. unfold wp at 1, sock. rewrite Hs.
  eapply wp_seq; [apply autoclose_pass_safe; [done|]|].
  { exists s. split; [done|]. split; [done|]. intros e He. by apply head_Some_elem_of in He. }
  intros _ y3 (Hwf3 & Hst3 & s3 & Hs3 & Hg3 & _).
  assert (Hst : stable (Some p) y y3).
  { transitivity y2; [|done]. apply quiet_stable. by transitivity y1. }
  apply wp_bind. unfold wp at 1, sock. rewrite Hs3.
  destruct (s_AutoCloseNewCheckRequired s3).
  - eapply wp_weaken; [apply IH; [done|exists s3; naive_solver]|].
    intros _ y4 (Hwf4 & Hst4 & Hat4). split; [done|]. split; [by transitivity y3|done].
  - split; [done|]. split; [done|]. exists s3. naive_solver.
Qed.

Definition with_guard (b : bool) (p : nat) (s : SCTPSocket) (y : Sys) : Sys :=
  set_sockets (<[p := set_s_AutoCloseRecursion b s]> (sockets y)) y.

Lemma wf_guard b p s y :
  well_formed y -> sockets y !! p = Some s -> well_formed (with_guard b p s y).
Proof.
  intros Hwf Hs. apply (wf_put_sock p s _ y Hwf Hs). destruct (wf_sockets y Hwf p s Hs). by split.
Qed.

Lemma stable_guarded_run y y2 p s s2 :
  sockets y !! p = Some s -> s_AutoCloseRecursion s = false ->
  stable (Some p) (with_guard true p s y) y2 -> sockets y2 !! p = Some s2 ->
  stable None y (with_guard false p s2 y2).
Proof.
  intros Hs Hg [El Hst] Hs2. split; [done|]. intros q t Ht. simpl.
  destruct (decide (p = q)) as [<-|Hne].
  - rewrite lookup_insert_eq. exists (set_s_AutoCloseRecursion false s2). split; [done|].
    assert (t = s) as -> by congruence.
    destruct (Hst p (set_s_AutoCloseRecursion true s)) as (t2 & Ht2 & Hss);
      [apply lookup_insert_eq|].
    assert (t2 = s2) as -> by congruence. destruct Hss as [A1 A2 Am A3 A4 A5].
    split; simpl; try done; [congruence|].
    intros e He [Hn|[? _]]; [|congruence]. apply A5; auto.
  - rewrite lookup_insert_ne by done.
    destruct (Hst q t) as (t2 & Ht2 & Hss); [simpl; by rewrite lookup_insert_ne|].
    exists t2. split; [done|]. rewrite bool_decide_false in Hss by congruence.
    exact Hss.
Qed.

Lemma gentle_checkAutoClose p : gentle None [Sk p] (checkAutoClose deliver p).
Proof using Type*.
  intros y Hwf Hy. destruct (Hy (Sk p)) as [s Hs]; [left|].
  unfold checkAutoClose. apply wp_bind. unfold wp at 1, sock. rewrite Hs.
  destruct (s_AutoCloseRecursion s) eqn:Hg.
  { eapply (gentle_calm None [Sk p]); [calm_leaf|done|done]. }
  apply wp_bind. unfold wp at 1, upd_sock, bind, sock, modify. rewrite Hs.
  fold (with_guard true p s y). eapply wp_seq.
  { apply autoclose_loop_safe; [by apply wf_guard|].
    exists (set_s_AutoCloseRecursion true s). split; [apply lookup_insert_eq|done]. }
  intros _ y2 (Hwf2 & Hst & s2 & Hs2 & Hg2 & _).
  unfold wp, upd_sock, bind, sock, modify. rewrite Hs2. fold (with_guard false p s2 y2).
  split; [by apply wf_guard|by eapply stable_guarded_run].
Qed.
Hint Resolve gentle_checkAutoClose : gentle.

(** ** Garbage collection *)

(** [m] is safe in this state. *)
Definition safe_in {A : Type} (m : P A) (y : Sys) : Prop :=
  wp benign m (fun _ y' => well_formed y' /\ stable None y y') y.

Lemma safe_in_gentle {A} F (m : P A) y : gentle None F m -> well_formed y -> has F y -> safe_in m y.
Proof. intros Hm. apply Hm. Qed.
Lemma safe_in_ret {A} (a : A) y : well_formed y -> safe_in (ret a) y.
Proof. intros Hwf. by split. Qed.
Lemma safe_in_seq {A B} (m : P A) (k : A -> P B) y : safe_in m y ->
  (forall x y', m y = Ret x y' -> well_formed y' -> stable None y y' -> safe_in (k x) y') ->
  safe_in (bind m k) y.
Proof.
  unfold safe_in, wp, bind. intros Hm Hk. destruct (m y) as [a y1|f] eqn:E; [|done].
  destruct Hm as [Hwf1 Hst1]. specialize (Hk a y1 eq_refl Hwf1 Hst1). unfold wp in Hk.
  destruct (k a y1) as [b y2|]; [|done]. destruct Hk. split; [done|by transitivity y1].
Qed.
Lemma safe_in_gets {A B} (f : Sys -> A) (k : A -> P B) y :
  safe_in (k (f y)) y -> safe_in (bind (gets f) k) y.
Proof. done. Qed.
Lemma has_nil y : has [] y.
Proof. by intros x Hx%not_elem_of_nil. Qed.

Lemma autoclose_sockets_safe fuel : forall it y, well_formed y ->
  (forall e, it = Some e -> e ∈ SocketList y) -> safe_in (autoclose_sockets deliver fuel it) y.
Proof using Type*.
  induction fuel as [|fuel IH]; intros [e|] y Hwf He; cbn [autoclose_sockets];
    try (by apply safe_in_ret); [apply benign_fuel|].
  apply safe_in_seq.
  { apply (safe_in_gentle [Sk e.2]); [apply gentle_checkAutoClose|done|].
    intros x ->%list_elem_of_singleton. apply (wf_registered y Hwf e). auto. }
  intros [] y1 _ Hwf1 [El _]. apply safe_in_gets.
  destruct (proj1 (mm_next_elem e (SocketList y1))) as [next Hnext]; [rewrite El; auto|].
  rewrite Hnext. apply (IH next); [done|]. intros e' ->. by eapply mm_next_incl.
Qed.

Lemma wf_set_closing y l : well_formed y -> closing_ok l -> well_formed (set_ClosingSockets l y).
Proof.
  intros [H1 H2 H3 H4 H5 H6] Hl. split; try done.
  intros p s Hs. destruct (H1 p s Hs). by split.
Qed.

Lemma collect_instance_run k y : well_formed y ->
  wp benign (collect_instance k) (fun _ y' => well_formed y' /\ stable None y y' /\
    (ClosingSockets y' = ClosingSockets y \/ ClosingSockets y' = set_erase k (ClosingSockets y))) y.
Proof.
  intros Hwf. unfold collect_instance, wp, gets, bind at 1. destruct (negb _); simpl; [|by split; [done|]; split; [|auto]].
  unfold bind, modify, call. destruct (sctp_unregisterInstance k _) as [r w]. simpl.
  case_bool_decide; simpl; [apply benign_abort|]. split.
  - rewrite <- (quiet_trivial (set_ClosingSockets (set_erase k (ClosingSockets y)) y)) by done.
    apply wf_set_closing; [done|]. apply set_erase_ok, (wf_closing y Hwf).
  - split; [|auto]. split; [done|]. intros p s Hs. exists s. split; [done|].
    by apply socket_stable_refl.
Qed.

Lemma collect_instances_safe fuel : forall it y, well_formed y ->
  (forall k, it = Some k -> k ∈ ClosingSockets y) -> safe_in (collect_instances fuel it) y.
Proof.
  induction fuel as [|fuel IH]; intros [k|] y Hwf Hk; cbn [collect_instances];
    try (by apply safe_in_ret); [apply benign_fuel|].
  apply safe_in_gets.
  destruct (proj1 (set_next_elem k (ClosingSockets y)) (Hk k eq_refl)) as [next Hnext].
  rewrite Hnext. change (safe_in (collect_instance (u16 k) ;; collect_instances fuel next) y).
  pose proof (collect_instance_run (u16 k) y Hwf) as Hrun.
  apply safe_in_seq; [eapply wp_weaken; [exact Hrun|]; by intros a y' (? & ? & _)|].
  intros [] y1 E Hwf1 _. unfold wp in Hrun. rewrite E in Hrun. destruct Hrun as (_ & _ & Hc).
  apply IH; [done|]. intros k' ->.
  destruct (set_next_later _ _ _ (wf_closing y Hwf) Hnext) as [Hlt Hin].
  destruct Hc as [-> | ->]; [done|]. rewrite (closing_u16 k (ClosingSockets y)) by (auto using wf_closing).
  apply elem_of_set_erase. split; [done|lia].
Qed.

Lemma gentle_socketGarbageCollection : gentle None [] (socketGarbageCollection deliver).
Proof using Type*.
  unfold socketGarbageCollection. gentle_step. gentle_step. gentle_step.
  intros y Hwf _. apply (safe_in_gets SocketList). apply safe_in_seq.
  { apply autoclose_sockets_safe; [done|]. intros e He. by apply head_Some_elem_of in He. }
  intros [] y1 _ Hwf1 _. apply safe_in_gets. apply safe_in_seq.
  { apply collect_instances_safe; [done|]. intros k Hk. by apply head_Some_elem_of in Hk. }
  intros [] y2 _ Hwf2 _. apply (safe_in_gentle []); [gentle_auto|done|apply has_nil].
Qed.
Hint Resolve gentle_socketGarbageCollection : gentle.

Lemma gentle_raw_abort i : gentle None [] (raw_abort deliver i).
Proof using Type*. unfold raw_abort. apply gentle_call_back. intros w. apply sctplib. Qed.
Hint Resolve gentle_raw_abort : gentle.

(** The entry that was found is still there when it is erased: the deletion of
    an association does not call back. *)
Lemma gentle_associationGarbageCollection i :
  gentle None [] (associationGarbageCollection deliver i false).
Proof using Type*.
  intros y Hwf _. apply (safe_in_gets ClosingAssociations). cbn [when].
  destruct (mm_find i (ClosingAssociations y)) as [it|] eqn:Ef; [|by apply safe_in_ret].
  apply mm_find_elem in Ef as [Hin _].
  apply safe_in_seq; [by apply safe_in_ret|]. intros ? y0 [= <- <-] _ _.
  apply safe_in_seq; [apply (safe_in_gentle []); [gentle_auto|done|apply has_nil]|].
  intros [] y1 E Hwf1 _. apply safe_in_gets.
  assert (Ec : ClosingAssociations y1 = ClosingAssociations y).
  { revert E. unfold raw_delete, bind, call. destruct (sctp_deleteAssociation i _) as [r w].
    case_bool_decide; simpl; [done|]. by intros [= <-]. }
  rewrite Ec. unfold mm_erase_at. rewrite decide_True by done.
  apply safe_in_seq; [by apply safe_in_ret|]. intros ? y0 [= <- <-] _ _.
  apply (safe_in_gentle []); [gentle_auto|done|apply has_nil].
Qed.
Hint Resolve gentle_associationGarbageCollection : gentle.

(** ** The callbacks *)

Lemma gentle_communicationLostNotif i : gentle None [] (communicationLostNotif deliver i).
Proof using Type*. unfold communicationLostNotif. gentle_auto. Qed.
Lemma gentle_shutdownCompleteNotif i : gentle None [] (shutdownCompleteNotif deliver i).
Proof using Type*. unfold shutdownCompleteNotif. gentle_auto. Qed.

Lemma gentle_handle cb : announces cb = false -> gentle None [] (handle deliver cb).
Proof using Type*.
  destruct cb; intros Hcb; try done; simpl;
    first [ apply gentle_communicationLostNotif | apply gentle_shutdownCompleteNotif
          | apply (gentle_calm _ _ _ (fun _ => [])) ];
    auto using calm_dataArriveNotif, calm_sendFailureNotif, calm_networkStatusChangeNotif,
      calm_communicationErrorNotif, calm_restartNotif, calm_shutdownReceivedNotif,
      calm_queueStatusChangeNotif.
Qed.

(** ** New associations *)

(** [m] keeps the state well-formed. *)
Definition keeps {A} (m : P A) (y : Sys) : Prop :=
  wp benign m (fun _ y' => well_formed y') y.

Lemma keeps_gentle {A} F (m : P A) y :
  gentle None F m -> well_formed y -> has F y -> keeps m y.
Proof. intros Hm Hwf Hy. eapply wp_weaken; [by apply Hm|]. by intros _ y' [Hwf' _]. Qed.

Lemma keeps_calm {A} F (m : P A) G y :
  calm F m G -> well_formed y -> has F y -> keeps m y.
Proof. intros Hm. apply keeps_gentle. by eapply gentle_calm. Qed.

(** sctplib does not announce an association under the ID of one that is
    still being shut down. *)
Definition fresh_announcement (y : Sys) (cb : Callback) : Prop :=
  match cb with
  | CommunicationUp assocID _ _ => forall p s e o,
      sockets y !! p = Some s -> e ∈ s_AssociationList s -> e.1 = assocID ->
      assocs y !! e.2 = Some o -> a_IsShuttingDown o = false
  | _ => True
  end.

Lemma getAssociation_active p s i y :
  well_formed y -> sockets y !! p = Some s ->
  (forall e o, e ∈ s_AssociationList s -> e.1 = i -> assocs y !! e.2 = Some o ->
     a_IsShuttingDown o = false) ->
  wp benign (getAssociationForAssociationID p i true)
    (fun r y' => quiet y y' /\ match r with
       | Some a => is_Some (assocs y' !! a)
       | None => exists s', sockets y' !! p = Some s' /\ mm_find i (s_AssociationList s') = None
       end) y.
Proof.
  intros Hwf Hs Hactive.
  assert (Hcalm : wp benign (getAssociationForAssociationID p i true)
            (fun r y' => quiet y y' /\ has (found r) y') y).
  { apply calm_getAssociation; [done|]. intros x ->%list_elem_of_singleton. simpl. eauto. }
  assert (Hnone : wp (fun _ => True) (getAssociationForAssociationID p i true)
            (fun r _ => r = None -> mm_find i (s_AssociationList s) = None) y).
  { unfold getAssociationForAssociationID. apply wp_bind.
    unfold wp at 1, lock. set (y1 := if bool_decide _ then _ else _).
    assert (Es : sockets y1 = sockets y) by (unfold y1; by case_bool_decide).
    assert (Ea : assocs y1 = assocs y) by (unfold y1; by case_bool_decide).
    apply wp_bind. unfold wp at 1, sock. rewrite Es, Hs.
    destruct (mm_find i (s_AssociationList s)) as [[k a]|] eqn:E.
    - apply mm_find_elem in E as [He Hk]. simpl in Hk. subst k.
      pose proof (so_entries _ _ _ (wf_sockets y Hwf p s Hs) _ He) as Hent.
      unfold entry_ok in Hent. simpl in Hent.
      destruct (assocs y !! a) as [o|] eqn:Ho; [|discriminate Hent].
      unfold wp, bind, assoc, ret. rewrite Ea, Ho. rewrite (Hactive (i, a) o He eq_refl Ho). simpl.
      unfold unlock. case_bool_decide; [done|]. done.
    - unfold wp, bind, ret, unlock. case_bool_decide; done. }
  unfold wp in Hcalm, Hnone |- *. destruct (getAssociationForAssociationID p i true y) as [r y'|];
    [|done].
  destruct Hcalm as [Hq Hr]. split; [done|]. destruct r as [a|].
  - apply (Hr (As a)). left.
  - destruct (quiet_socket y y' p s Hq Hs) as (s' & Hs' & Hsk). exists s'. split; [done|].
    injection Hsk as -> _ _ _. auto.
Qed.

Lemma incoming_safe p i n y s :
  well_formed y -> sockets y !! p = Some s -> mm_find i (s_AssociationList s) = None ->
  wp benign (incoming p i n) (fun _ y' => well_formed y' /\ is_Some (sockets y' !! p)) y.
Proof.
  intros Hwf Hs Hi. unfold incoming. apply wp_bind. unfold wp at 1, sock. rewrite Hs.
  eapply wp_seq.
  { eapply wp_mono; [| |by apply (new_SCTPAssociation_run p s)]; [|by intros a y'; exact id].
    intros f [-> _]. apply benign_abort. }
  intros a y1 Has. pose proof (associated_well_formed _ _ _ _ _ _ _ Hwf Hs Hi Has) as Hwf1.
  destruct Has as [[Ea _] _ _ (o & Eo & Hid) Es _ _ _].
  assert (Ha : assocs y1 !! a = Some o) by (rewrite Eo; apply lookup_insert_eq).
  set (s1 := set_s_AssociationList _ s) in Es.
  assert (Hs1 : sockets y1 !! p = Some s1) by (rewrite Es; apply lookup_insert_eq).
  assert (Hlive : forall r, is_Some (sockets y !! r) -> a <> r).
  { intros r [t Ht] <-. destruct (wf_fresh y Hwf a); [lia|congruence]. }
  apply wp_bind. eapply wp_upd_assoc; [done|]. set (y2 := put_assoc _ _ y1).
  assert (Hq2 : quiet y1 y2) by (by eapply quiet_put_assoc).
  assert (Hwf2 : well_formed y2) by (by rewrite <- Hq2).
  apply wp_bind. eapply (wp_upd_sock _ p s1); [done|]. set (s3 := set_s_ConnectionRequests _ s1).
  set (y3 := put_sock p s3 y2).
  assert (Hwf3 : well_formed y3).
  { apply (wf_put_sock p s1 s3 y2 Hwf2 Hs1).
    destruct (wf_sockets y2 Hwf2 p s1 Hs1) as [H1 H2 H3 H4 H5 H6]. split; try done.
    intros r [Hr|Hr]%elem_of_app; [by apply H5|]. apply list_elem_of_singleton in Hr as ->.
    exists (i, a). split; [apply elem_of_mm_insert; by left|]. split; [done|]. simpl.
    intros Hc. apply (so_connectionless _ _ _ (wf_sockets y Hwf p s Hs)) in Hc.
    pose proof (so_entries _ _ _ (wf_sockets y Hwf p s Hs) _ Hc) as Hent. unfold entry_ok in Hent.
    destruct (wf_fresh y Hwf a) as [E _]; [lia|]. simpl in Hent. rewrite E in Hent. done. }
  assert (Hrest : calm [As a; Sk p]
    (upd_sock p (set_s_ReadReady true) ;;
     broadcast (p, Establish) ;;
     upd_assoc a (set_a_WriteReady true) ;;
     upd_assoc a (set_a_HasException false) ;;
     ret a) (fun _ => [Sk p])) by calm_auto.
  eapply wp_weaken; [apply Hrest; [done|]|].
  - intros x [->|[->|Hx%not_elem_of_nil]%elem_of_cons]%elem_of_cons; simpl; [| |done].
    + rewrite lookup_insert_eq. eauto.
    + rewrite lookup_insert_eq. eauto.
  - intros r y4 [Hq4 Hp]. split; [by rewrite <- Hq4|]. apply (Hp (Sk p)). left.
Qed.

Lemma rejected_safe i y :
  well_formed y -> wp benign (raw_abort deliver i ;; raw_delete i) (fun _ y' => well_formed y') y.
Proof using Type*.
  intros Hwf. apply (keeps_gentle []); [|done|by intros x Hx%not_elem_of_nil].
  gentle_auto.
Qed.

Lemma read_lookups i y : well_formed y -> exists n r,
  initNotification i y = Ret n y /\ getSocketForAssociationID i y = Ret r y
  /\ forall p, r = Some p -> is_Some (sockets y !! p).
Proof.
  intros Hwf.
  assert (Hn : exists n, initNotification i y = Ret n y)
    by (unfold initNotification; destruct (sctp_getAssocStatus i (world y)); eauto).
  destruct Hn as [n Hn]. exists n.
  pose proof (calm_getSocket i y Hwf) as Hg. unfold wp in Hg.
  assert (Hr : exists r, getSocketForAssociationID i y = Ret r y).
  { unfold getSocketForAssociationID, bind, ask, gets, ret.
    destruct (sctp_getInstanceID i (world y)); [case_bool_decide|]; eauto. }
  destruct Hr as [r Hr]. exists r. rewrite Hr in Hg. split; [done|]. split; [done|].
  intros p ->. destruct Hg as [_ Hp]; [by intros x Hx%not_elem_of_nil|]. apply (Hp (Sk p)). left.
Qed.

Lemma communicationUp_safe i ins outs y :
  well_formed y -> fresh_announcement y (CommunicationUp i ins outs) ->
  wp benign (communicationUpNotif deliver i ins outs) (fun _ y' => well_formed y') y.
Proof using Type*.
  intros Hwf Hfresh. unfold communicationUpNotif.
  destruct (read_lookups i y Hwf) as (n & r & En & Er & Hr).
  apply wp_bind. unfold wp at 1. rewrite En. apply wp_bind. unfold wp at 1. rewrite Er.
  destruct r as [p|]; [|apply wp_bind, wp_ret; by apply rejected_safe].
  destruct (Hr p eq_refl) as [s Hs].
  eapply (wp_seq _ _ _ (fun wanted y' => well_formed y' /\ has (socket_found wanted) y')).
  - eapply wp_seq; [apply (getAssociation_active p s i y Hwf Hs); intros e o; by apply (Hfresh p s e o)|].
    intros [a|] y1 (Hq1 & Ha); assert (Hwf1 : well_formed y1) by (by rewrite <- Hq1).
    + destruct (quiet_socket y y1 p s Hq1 Hs) as (s1 & Hs1 & _).
      assert (Hcalm : calm [As a; Sk p] (established a i ;; ret (Some p)) socket_found) by calm_auto.
      eapply wp_weaken; [apply Hcalm; [done|]|].
      * intros x [->|[->|Hx%not_elem_of_nil]%elem_of_cons]%elem_of_cons; simpl; eauto. done.
      * intros w y2 [Hq2 Hw]. split; [by rewrite <- Hq2|done].
    + destruct Ha as (s1 & Hs1 & Hi). apply wp_bind. eapply wp_sock; [done|].
      destruct (has_flag _ _); [|split; [done|by intros x Hx%not_elem_of_nil]].
      eapply wp_seq; [by apply (incoming_safe p i n y1 s1)|].
      intros _ y2 [Hwf2 Hp]. split; [done|]. by intros x ->%list_elem_of_singleton.
  - intros [p'|] y1 [Hwf1 Hp]; [|by apply rejected_safe].
    by apply (keeps_calm [Sk p'] _ (fun _ => [])); [calm_leaf| |].
Qed.
End Closing.

(** ** The dispatch *)

Section Dispatch.
Context `{!Platform}.
Hypothesis sctplib : sctplib_closes_only.

Lemma gentle_dispatch depth : forall cbs, Forall (fun cb => announces cb = false) cbs ->
  gentle None [] (dispatch depth cbs).
Proof using Type*.
  induction depth as [|depth IH]; intros [|cb cbs] Hcbs; cbn [dispatch]; [gentle_auto..|].
  apply gentle_for_each; [|done]. intros x Hx. apply gentle_handle; [done|exact IH|].
  rewrite Forall_forall in Hcbs. auto.
Qed.

(** C13. Memory safety of the callbacks: if sctplib's [sctp_abort] and
    [sctp_shutdown] only report the end of associations, then a callback that
    arrives in a well-formed state, with everything it triggers at any depth of
    nesting (deletions of associations and garbage collection included), never
    uses a deleted object, a NULL pointer or an erased iterator, never reads
    past the end of an array, and ends in a well-formed state. *)
Theorem callbacks_memory_safe (depth : nat) (cb : Callback) (y : Sys)
    (Hwf : well_formed y) (Hfresh : fresh_announcement y cb) :
  wp (fun f => ~ memory_fault f) (dispatch depth [cb]) (fun _ y' => well_formed y') y.
Proof using Type*.
  destruct (announces cb) eqn:Hcb.
  - destruct depth as [|depth]; cbn [dispatch]; [apply benign_fuel|].
    apply (wp_seq _ _ _ (fun _ y' => well_formed y')); [|by intros [] y' Hwf'].
    destruct cb; try done. apply communicationUp_safe; auto using gentle_dispatch.
  - apply (keeps_gentle [] _ y); [|done|by intros x Hx%not_elem_of_nil].
    apply gentle_dispatch. by repeat constructor.
Qed.
End Dispatch.

(** ** A state the theorem applies to *)

(** A closing shut-down on a system with two associations. *)
Lemma demo_closes_only : sctplib_closes_only (H := demo).
Proof. intros i w. split; repeat constructor. Qed.

Definition demo_two : @Sys demo :=
  final (dispatch 3 [CommunicationUp 5 1 1; CommunicationUp 6 1 1] ;; checkAutoConnect 0)
    (demo_boot udp_flags).

Lemma callbacks_memory_safe_witness :
  well_formed demo_two /\ outcome (dispatch 3 [ShutdownComplete 5]) demo_two = Some tt
  /\ wp (fun f => ~ memory_fault f) (dispatch 3 [ShutdownComplete 5])
       (fun _ y' => well_formed y') demo_two.
Proof.
  assert (Hwf : well_formed demo_two).
  { apply state_check_ok. apply (bool_decide_unpack _). by vm_compute. }
  split; [exact Hwf|]. split; [vm_compute; reflexivity|].
  exact (callbacks_memory_safe demo_closes_only 3 (ShutdownComplete 5) demo_two Hwf I).
Defined.
