(* ===== verification/ApiTable.v ===== *)
(** * The table of descriptors under the calls of the socket API

    What the descriptors of the table are well-typed for, which call may
    change which descriptor, and how a free descriptor is found. *)

From S2P Require Import Prelude MultiMap Memory Notification State Association Socket SocketIO.
From S2P Require Import SocketOps SocketLife SocketAssoc SocketMaster Descriptors WrapperSockets.
From S2P Require Import WrapperIO WrapperOptions WrapperSelect Demo ApiDemo.
Local Open Scope Z_scope.

Abbreviation table := (list ExtSocketDescriptor).

(** ** Well-typed descriptors *)

Definition linger_ok (l : linger) : Prop := 0 <= l_linger l /\ (l_onoff l = 0 \/ l_onoff l = 1).

(** A descriptor of type SCTP has a socket; it has an association only if it
    is connection-oriented, which one of a one-to-one socket always is; its
    linger time is valid. *)
Record well_typed_sctp (d : ExtSocketDescriptor) : Prop := {
  ty_socket : is_Some (SCTPSocketPtr d);
  ty_association : is_Some (SCTPAssociationPtr d) -> ConnectionOriented d = true;
  ty_kind : exists co flags, socket_kind (ed_SocketType d) = Some (co, flags)
                             /\ (co = true -> ConnectionOriented d = true);
  ty_linger : linger_ok (Linger d) }.
Definition well_typed (d : ExtSocketDescriptor) : Prop :=
  ed_Type d = ESDT_SCTP -> well_typed_sctp d.

(** The object a descriptor stands for. *)
Definition same_object (d d' : ExtSocketDescriptor) : Prop :=
  ed_Type d' = ed_Type d /\ SystemSocketID d' = SystemSocketID d
  /\ ed_SocketType d' = ed_SocketType d /\ SCTPSocketPtr d' = SCTPSocketPtr d
  /\ ConnectionOriented d' = ConnectionOriented d.

Definition in_use (d : ExtSocketDescriptor) : Prop := ed_Type d <> ESDT_Invalid.

(** The tables a call on the descriptor [own] may leave behind, when it
    starts with [l0]: only [own] may have changed among the descriptors in use,
    and it still stands for the same object, unless the call is to close it. *)
Record allowed (l0 : table) (own : Z) (closing : bool) (l : table) : Prop := {
  al_length : length l = length l0;
  al_typed : Forall well_typed l;
  al_others : forall j d, l0 !! j = Some d -> in_use d -> Z.of_nat j <> own -> l !! j = Some d;
  al_own : forall j d, l0 !! j = Some d -> in_use d -> Z.of_nat j = own -> closing = false ->
    exists d', l !! j = Some d' /\ same_object d d' }.

Lemma same_object_refl d : same_object d d.
Proof. done. Qed.
Lemma same_object_trans d1 d2 d3 : same_object d1 d2 -> same_object d2 d3 -> same_object d1 d3.
Proof. unfold same_object. intuition congruence. Qed.

Lemma allowed_refl l own closing : Forall well_typed l -> allowed l own closing l.
Proof. intros Hl. split; eauto using same_object_refl. Qed.

Lemma initial_table_typed start : Forall well_typed (initial_table start).
Proof.
  unfold initial_table. apply Forall_lookup. intros i d. rewrite list_lookup_imap.
  destruct (start !! i); [|done]. intros [= <-] E. case_bool_decide; discriminate E.
Qed.

Lemma getSocket_index id i : getSocket id = Some i -> Z.of_nat i = id.
Proof.
  unfold getSocket. destruct (bool_decide (id < _)) eqn:?, (bool_decide (0 <= id)) eqn:?; try done.
  intros [= <-]. apply Z2Nat.id. by apply bool_decide_eq_true in Heqb0.
Qed.

(** ** Keeping a property of the table *)

Abbreviation safely := (wp (fun _ : Fault => True)).

Section Keep.
Context `{!Platform} `{!Kernel}.

Definition on_table (J : table -> Prop) (s s' : Api) : Prop := J (Sockets s) -> J (Sockets s').
#[export] Instance on_table_preorder J : PreOrder (on_table J).
Proof. unfold on_table. split; [intros s|intros s1 s2 s3]; auto. Qed.

Abbreviation keep J := (pres (on_table J)).
Context (J : table -> Prop).

Lemma keep_lift {X} (m : P X) : keep J (lift m).
Proof. intros s. unfold lift. destruct (m (sys s)); [|done]. by intros ?. Qed.
Lemma keep_getErrnoResult r : keep J (getErrnoResult r).
Proof. intros s. unfold getErrnoResult. by destruct (bool_decide _); intros Hl. Qed.
Lemma keep_return_with {X} (x : X) r : keep J (return_with x r).
Proof. unfold return_with. apply (pres_bind _); [apply keep_getErrnoResult|intros; apply (pres_ret _)]. Qed.
Lemma keep_syscall_with {X} (f : W -> Z * X * W) : keep J (syscall_with f).
Proof.
  intros s. unfold syscall_with. destruct (f _) as [[r x] w]. by destruct (bool_decide _); intros ?.
Qed.
Lemma keep_syscall f : keep J (syscall f).
Proof. apply (pres_bind _); [apply keep_syscall_with|intros [? []]; apply (pres_ret _)]. Qed.
Lemma keep_desc i : keep J (desc i).
Proof. intros s. unfold desc. by destruct (Sockets s !! i). Qed.
Lemma keep_read_bytes n b : keep J (read_bytes n b).
Proof. unfold read_bytes. destruct (bool_decide _); [apply (pres_ret _)|apply (pres_stop _)]. Qed.

Lemma keep_safely {X} (m : A X) :
  keep J m <-> forall s, J (Sockets s) -> safely m (fun _ s' => J (Sockets s')) s.
Proof.
  unfold pres, on_table, wp. split; intros Hm s; specialize (Hm s); destruct (m s); auto.
Qed.

(** A descriptor that has been read is well-typed. *)
Lemma keep_bind_desc {X} i (k : ExtSocketDescriptor -> A X) :
  (forall l, J l -> Forall well_typed l) ->
  (forall d, well_typed d -> keep J (k d)) -> keep J (bind (desc i) k).
Proof.
  intros HJ Hk s. unfold bind, desc. destruct (Sockets s !! i) as [d|] eqn:E; [|done].
  destruct (k d s) as [x s'|f] eqn:Ek; [|done]. intros Hl.
  pose proof (Forall_lookup_1 _ _ _ _ (HJ _ Hl) E) as Hd.
  specialize (Hk d Hd s). rewrite Ek in Hk. by apply Hk.
Qed.

Lemma keep_on_descriptor {R} (error : Z -> A R) fd sctp system :
  (forall l, J l -> Forall well_typed l) ->
  (forall z, keep J (error z)) ->
  (forall i d, Z.of_nat i = fd -> well_typed d -> keep J (sctp i d)) ->
  (forall i d, Z.of_nat i = fd -> ed_Type d = ESDT_System -> keep J (system i d)) ->
  keep J (on_descriptor error fd sctp system).
Proof.
  intros HJ He Hc Hs. unfold on_descriptor. destruct (getSocket fd) as [i|] eqn:E; [|done].
  apply getSocket_index in E. apply keep_bind_desc; [done|]. intros d Hd.
  destruct (ed_Type d) eqn:?; auto.
Qed.
End Keep.
Abbreviation keep J := (pres (on_table J)).
#[export] Hint Resolve keep_lift keep_getErrnoResult keep_return_with keep_syscall_with
  keep_syscall keep_desc keep_read_bytes : pres.

(** ** The operations on the table *)

Section Table.
Context `{!Platform} `{!Kernel}.
Variables (l0 : table) (own : Z).
Abbreviation J closing := (allowed l0 own closing).

Lemma allowed_typed closing l : J closing l -> Forall well_typed l.
Proof. apply al_typed. Qed.
Hint Resolve allowed_typed : core.

(** An entry that was free at the beginning of the call may be assigned. *)
Lemma allowed_fill closing l i d :
  J closing l -> (forall d0, l0 !! i = Some d0 -> ~ in_use d0) -> well_typed d ->
  J closing (<[i := d]> l).
Proof.
  intros [Hlen Ht Ho Hw] Hfree Hd. split.
  - by rewrite length_insert.
  - by apply Forall_insert.
  - intros j e He Hu Hj. rewrite list_lookup_insert_ne; [eauto|]. intros <-. by apply (Hfree e).
  - intros j e He Hu Hj Hc. rewrite list_lookup_insert_ne; [eauto|]. intros <-. by apply (Hfree e).
Qed.

(** So may the entry of the descriptor of the call. *)
Lemma allowed_own closing l i d d' :
  J closing l -> l !! i = Some d -> Z.of_nat i = own -> well_typed d' ->
  (closing = false -> same_object d d') -> J closing (<[i := d']> l).
Proof.
  intros [Hlen Ht Ho Hw] Hd Hi Hd' Hs. split.
  - by rewrite length_insert.
  - by apply Forall_insert.
  - intros j e He Hu Hj. rewrite list_lookup_insert_ne; [eauto|]. intros <-. done.
  - intros j e He Hu Hj Hc. assert (j = i) as -> by lia.
    rewrite list_lookup_insert_eq by (by eapply lookup_lt_Some).
    destruct (Hw i e He Hu Hi Hc) as (d1 & Hd1 & Hs1). simplify_eq.
    eexists. split; [done|]. eapply same_object_trans; eauto.
Qed.

Lemma keep_upd_desc closing i f :
  Z.of_nat i = own -> (forall d, well_typed d -> well_typed (f d)) ->
  (closing = false -> forall d, same_object d (f d)) -> keep (J closing) (upd_desc i f).
Proof.
  intros Hi Hf Hs s. unfold upd_desc, bind, desc. destruct (Sockets s !! i) as [d|] eqn:E; [|done].
  simpl. intros Hl. eapply allowed_own; eauto.
  apply Hf. eapply Forall_lookup_1; [|done]. eauto.
Qed.

(** What the search finds: the free descriptor with the highest number. *)
Definition found (l : table) (n : nat) (free : option nat) : Prop :=
  match free with
  | Some i => (i < n)%nat /\ (exists d, l !! i = Some d /\ ~ in_use d)
              /\ forall j d, (i < j < n)%nat -> l !! j = Some d -> in_use d
  | None => forall j d, (j < n)%nat -> l !! j = Some d -> in_use d
  end.

Lemma find_invalid_wp n s :
  wp (fun _ => (length (Sockets s) < n)%nat) (find_invalid n)
     (fun free s' => s' = s /\ found (Sockets s) n free) s.
Proof.
  induction n as [|n IH]; simpl.
  - apply wp_ret. split; [done|]. simpl. lia.
  - unfold wp, bind, desc in *. destruct (Sockets s !! n) as [d|] eqn:Hd.
    2: { apply lookup_ge_None in Hd. lia. }
    case_bool_decide as Ht.
    + split; [done|]. simpl. split; [lia|]. split; [|intros; lia].
      exists d. split; [done|]. unfold in_use. by intros [].
    + destruct (find_invalid n s) as [free s'|f]; [|lia]. destruct IH as [-> Hf].
      split; [done|].
      assert (Hn : forall e, Sockets s !! n = Some e -> in_use e)
        by (intros e He; unfold in_use; congruence).
      destruct free as [i|]; simpl in *.
      * destruct Hf as (? & ? & Hf). split; [lia|]. split; [done|]. intros j e Hj He.
        destruct (decide (j = n)) as [->|]; [auto|]. apply (Hf j); [lia|done].
      * intros j e Hj He.
        destruct (decide (j = n)) as [->|]; [auto|]. apply (Hf j); [lia|done].
Qed.

(** [setSocket] puts the descriptor into a free entry or changes nothing. *)
Definition placed (new : ExtSocketDescriptor) (l l' : table) (r : Z) : Prop :=
  (exists i d, r = Z.of_nat i /\ l !! i = Some d /\ ~ in_use d /\ l' = <[i := new]> l)
  \/ (r = - EMFILE /\ l' = l).

Lemma setSocket_wp new s :
  wp (fun _ => True) (setSocket new)
     (fun r s' => placed new (Sockets s) (Sockets s') r) s.
Proof.
  unfold setSocket. apply wp_bind. unfold wp at 1, lift. destruct (lock _) as [[] y|]; [|done].
  apply wp_bind. unfold wp at 1, gets. set (s1 := set_sys y s). apply wp_bind.
  pose proof (find_invalid_wp (Z.to_nat (Z.min (Z.of_nat MaxSockets)
    (k_getdtablesize (world (sys s1))))) s1) as Hf.
  unfold wp in Hf. unfold wp at 1. destruct (find_invalid _ s1) as [free s2|]; [|done].
  destruct Hf as [-> Hf]. destruct free as [i|]; simpl in Hf.
  - destruct Hf as (_ & (d & Hd & Hu) & _).
    unfold wp, bind, upd_desc, desc, lift. unfold bind. simpl Sockets. rewrite Hd. simpl.
    destruct (unlock _); [|done]. simpl. left. eauto 10.
  - unfold wp, bind, lift. destruct (unlock _); [|done]. simpl. by right.
Qed.

Lemma placed_allowed new l l' r :
  J false l -> well_typed new -> placed new l l' r -> J false l'.
Proof.
  intros Hl Hn [(i & d & _ & Hd & Hu & ->)|[_ ->]]; [|done].
  eapply allowed_fill; [done| |done]. intros d0 Hd0 Hu0.
  destruct (decide (Z.of_nat i = own)) as [Hi|Hi].
  - destruct (al_own _ _ _ _ Hl i d0 Hd0 Hu0 Hi eq_refl) as (d1 & Hd1 & Ht & _).
    simplify_eq. apply Hu. unfold in_use. by rewrite Ht.
  - rewrite (al_others _ _ _ _ Hl i d0 Hd0 Hu0 Hi) in Hd. by simplify_eq.
Qed.
Lemma keep_setSocket new : well_typed new -> keep (J false) (setSocket new).
Proof.
  intros Hn s. pose proof (setSocket_wp new s) as Hw. unfold wp in Hw.
  destruct (setSocket new s) as [r s'|]; [|done]. intros Hl. by eapply placed_allowed.
Qed.

(** Tables that differ at one index. *)
Definition differs_at (i : nat) (l l' : table) : Prop :=
  length l' = length l /\ forall j, j <> i -> l' !! j = l !! j.
Lemma allowed_release closing l l' i d :
  J closing l -> differs_at i l l' -> l' !! i = Some d -> ~ in_use d ->
  (closing = true /\ Z.of_nat i = own) \/ (forall d0, l0 !! i = Some d0 -> ~ in_use d0) ->
  J closing l'.
Proof.
  intros Hl [Hlen Hd] Hi Hu Hc.
  assert (l' = <[i := d]> l) as ->.
  { apply list_eq. intros j. destruct (decide (j = i)) as [->|Hj].
    - rewrite Hi, list_lookup_insert_eq; [done|]. rewrite <- Hlen. by eapply lookup_lt_Some.
    - by rewrite Hd, list_lookup_insert_ne by done. }
  assert (Ht : well_typed d) by (intros E; unfold in_use in Hu; rewrite E in Hu; by destruct Hu).
  destruct Hc as [[-> Hown]|Hfree]; [|by eapply allowed_fill].
  assert (i < length l)%nat as [d1 Hd1]%lookup_lt_is_Some_2.
  { apply lookup_lt_Some in Hi. by rewrite length_insert in Hi. }
  by eapply allowed_own.
Qed.
End Table.

(** ** Closing a descriptor *)

Section Close.
Context `{!Platform} `{!Kernel}.
Variable deliver : list Callback -> P unit.

#[local] Instance differs_at_preorder i : PreOrder (differs_at i).
Proof.
  split.
  - by intros l.
  - intros l1 l2 l3 [L1 D1] [L2 D2]. split; [congruence|]. intros j Hj. by rewrite D2, D1.
Qed.
#[local] Instance differs_preorder i :
  PreOrder (fun s s' => differs_at i (Sockets s) (Sockets s')).
Proof. split; [intros s|intros s1 s2 s3]; [reflexivity|apply transitivity]. Qed.
Abbreviation only i := (pres (fun s s' => differs_at i (Sockets s) (Sockets s'))).

Lemma only_lift {X} i (m : P X) : only i (lift m).
Proof. intros s. unfold lift. by destruct (m (sys s)). Qed.
Lemma only_upd_desc i f : only i (upd_desc i f).
Proof.
  intros s. unfold upd_desc, bind, desc. destruct (Sockets s !! i); [|done]. simpl.
  split; [apply length_insert|]. intros j Hj. by rewrite list_lookup_insert_ne.
Qed.
Hint Resolve only_lift only_upd_desc : pres.
Lemma only_close_association i d : only i (close_association deliver i d).
Proof. unfold close_association. pres_auto. Qed.
Lemma only_close_socket i d : only i (close_socket deliver i d).
Proof. unfold close_socket. pres_auto. Qed.
Lemma only_syscall i f : only i (syscall f).
Proof.
  intros s. pose proof (keep_syscall (fun l => l = Sockets s) f s) as Hk.
  unfold pres, on_table in Hk. destruct (syscall f s) as [r s'|]; [|done]. by rewrite Hk.
Qed.
Hint Resolve only_close_association only_close_socket only_syscall : pres.

(** What [ext_close] does to the table. *)
Definition closed (fd : Z) (l l' : table) : Prop :=
  l' = l \/ exists i d, Z.of_nat i = fd /\ differs_at i l l' /\ l' !! i = Some d /\ ~ in_use d.

Lemma only_then {X B} i (m : A X) (k : X -> A B) Q s :
  only i m -> (forall x s', differs_at i (Sockets s) (Sockets s') -> wp (fun _ => True) (k x) Q s') ->
  wp (fun _ => True) (bind m k) Q s.
Proof.
  intros Hm Hk. specialize (Hm s). unfold wp, bind in *. destruct (m s) as [x s'|]; [|done].
  by apply Hk.
Qed.

Lemma release_wp i s0 s :
  differs_at i (Sockets s0) (Sockets s) ->
  wp (fun _ => True) (upd_desc i (set_Type ESDT_Invalid) ;; lift unlock ;; getErrnoResult 0)
     (fun _ s' => closed (Z.of_nat i) (Sockets s0) (Sockets s')) s.
Proof.
  intros [Hlen Hd]. unfold wp, bind, upd_desc, desc, bind.
  destruct (Sockets s !! i) as [d|] eqn:E; [|done]. simpl. unfold lift.
  destruct (unlock _); [|done]. simpl. right. exists i, (set_Type ESDT_Invalid d).
  split; [done|]. split; [|split].
  - split; [by rewrite length_insert|]. intros j Hj. rewrite list_lookup_insert_ne by done. auto.
  - apply list_lookup_insert_eq. by eapply lookup_lt_Some.
  - unfold in_use. by intros [].
Qed.

Lemma ext_close_wp fd s :
  wp (fun _ => True) (ext_close deliver fd)
     (fun _ s' => closed fd (Sockets s) (Sockets s')) s.
Proof.
  assert (Hkeep : forall {X} (m : A X), (forall J, keep J m) ->
    wp (fun _ => True) m (fun _ s' => closed fd (Sockets s) (Sockets s')) s).
  { intros X m Hm. specialize (Hm (fun l => l = Sockets s) s). unfold wp, on_table in *.
    destruct (m s); [left; auto|done]. }
  unfold ext_close. destruct (getSocket fd) as [i|] eqn:Hi; [|apply Hkeep; intros; auto with pres].
  apply getSocket_index in Hi as <-.
  assert (Hthen : forall {X} (m : A X) (k : X -> A Z) s1, only i m ->
    differs_at i (Sockets s) (Sockets s1) ->
    (forall x s', differs_at i (Sockets s) (Sockets s') -> wp (fun _ => True) (k x)
       (fun _ s'' => closed (Z.of_nat i) (Sockets s) (Sockets s'')) s') ->
    wp (fun _ => True) (bind m k)
       (fun _ s'' => closed (Z.of_nat i) (Sockets s) (Sockets s'')) s1).
  { intros X m k s2 Hm H2 Hk. apply (only_then i); [done|]. intros x s3 H3. apply Hk.
    etransitivity; eassumption. }
  apply wp_bind. unfold wp at 1, lift. destruct (lock _) as [[] y|]; [|done].
  assert (H1 : Sockets (set_sys y s) = Sockets s) by done.
  revert H1. generalize (set_sys y s). intros s1 H1.
  unfold bind at 1, desc at 1. unfold wp at 1. rewrite H1.
  destruct (Sockets s !! i) as [d|] eqn:E; [|done].
  match goal with |- match ?m s1 with _ => _ end => change (wp (fun _ => True) m
    (fun _ s' => closed (Z.of_nat i) (Sockets s) (Sockets s')) s1) end.
  destruct (ed_Type d).
  - unfold wp, bind, lift. destruct (unlock _); [|done]. left. exact H1.
  - do 2 (apply Hthen; [auto with pres|by rewrite H1|]; clear dependent s1; intros _ s1 H1).
    by apply release_wp.
  - do 2 (apply Hthen; [auto with pres|by rewrite H1|]; clear dependent s1; intros _ s1 H1).
    by apply release_wp.
Qed.
End Close.

(** ** The calls *)

Section Calls.
Context `{!Platform} `{!Kernel}.
Variable deliver : list Callback -> P unit.
Variables (memory : SCTPSocket) (blank : ExtSocketDescriptor) (stack : list Z).
Variables (indeterminate_path : SCTP_Path_Status) (past_end fill : StreamDefaultTimeout).

(** Calls that leave the table alone. *)
Section Silent.
Variable J : table -> Prop.

Lemma keep_dispatch {R} (error : Z -> A R) fd sctp system :
  (forall z, keep J (error z)) -> (forall i d, keep J (sctp i d)) ->
  (forall i d, keep J (system i d)) -> keep J (on_descriptor error fd sctp system).
Proof.
  intros He Hc Hs. unfold on_descriptor. destruct (getSocket fd); [|done].
  apply (pres_bind _); [apply keep_desc|]. intros d. destruct (ed_Type d); auto.
Qed.

Ltac silent_step :=
  lazymatch goal with
  | |- pres _ (on_descriptor _ _ _ _) => apply keep_dispatch; intros
  | |- pres _ (with_descriptor _ _ _) => unfold with_descriptor
  | |- _ => pres_step
  end.
Ltac silent := repeat silent_step.

Lemma keep_try_any_ports n p init r : keep J (try_any_ports deliver n p init r).
Proof. revert r. induction n as [|n IH]; intros r; simpl; silent. Qed.
Hint Resolve keep_try_any_ports : pres.
Lemma keep_bindToAny i : keep J (bindToAny deliver i).
Proof. unfold bindToAny. silent. Qed.
Hint Resolve keep_bindToAny : pres.
Lemma keep_unpack_sockaddr n b : keep J (unpack_sockaddr n b).
Proof. revert b. induction n as [|n IH]; intros b; cbn [unpack_sockaddr]; silent. Qed.
Lemma keep_pack_sockaddr_storage l : keep J (pack_sockaddr_storage l).
Proof. induction l; cbn [pack_sockaddr_storage]; silent. Qed.
Hint Resolve keep_unpack_sockaddr keep_pack_sockaddr_storage : pres.
Lemma keep_for_addresses op l : keep J (for_addresses op l).
Proof. induction l; simpl; silent. Qed.
Hint Resolve keep_for_addresses : pres.
Lemma keep_sctp_bindx fd b n f : keep J (sctp_bindx deliver stack fd b n f).
Proof. unfold sctp_bindx, bindx_addresses. silent. Qed.
Hint Resolve keep_sctp_bindx : pres.
Lemma keep_ext_bind fd b n : keep J (ext_bind deliver stack fd b n).
Proof. unfold ext_bind. silent. Qed.
Lemma keep_ext_listen fd n : keep J (ext_listen deliver fd n).
Proof. unfold ext_listen. silent. Qed.
Lemma keep_return_name l n f r : keep J (return_name l n f r).
Proof. unfold return_name. silent. Qed.
Hint Resolve keep_return_name : pres.
Lemma keep_ext_getsockname fd n : keep J (ext_getsockname fd n).
Proof. unfold ext_getsockname. silent. Qed.
Lemma keep_ext_getpeername fd n : keep J (ext_getpeername fd n).
Proof. unfold ext_getpeername. silent. Qed.
Lemma keep_ext_ioctl fd n : keep J (ext_ioctl fd n).
Proof. unfold ext_ioctl. silent. Qed.
Lemma keep_ext_shutdown fd n : keep J (ext_shutdown deliver fd n).
Proof. unfold ext_shutdown. silent. Qed.
Lemma keep_return_addresses l r : keep J (return_addresses l r).
Proof. unfold return_addresses. silent. Qed.
Hint Resolve keep_return_addresses : pres.
Lemma keep_sctp_getlpaddrs fd i b : keep J (sctp_getlpaddrs fd i b).
Proof. unfold sctp_getlpaddrs. silent. Qed.

Lemma keep_recvmsg_singlebuffer fd n m f b r :
  keep J (ext_recvmsg_singlebuffer fd n m f b r).
Proof. unfold ext_recvmsg_singlebuffer. silent. Qed.
Hint Resolve keep_recvmsg_singlebuffer : pres.
Lemma keep_recvmsg_loop fd l m f b r n : keep J (recvmsg_loop fd l m f b r n).
Proof. revert m n. induction l as [|x l IH]; intros m n; cbn [recvmsg_loop]; silent. Qed.
Hint Resolve keep_recvmsg_loop : pres.
Lemma keep_ext_recvmsg2 fd l m f b r : keep J (ext_recvmsg2 fd l m f b r).
Proof. apply keep_recvmsg_loop. Qed.
Hint Resolve keep_ext_recvmsg2 : pres.
Lemma keep_ext_recvmsg fd l m f r : keep J (ext_recvmsg fd l m f r).
Proof. apply keep_recvmsg_loop. Qed.
Hint Resolve keep_ext_recvmsg : pres.
Lemma keep_ext_recvfrom fd n f a b r : keep J (ext_recvfrom stack fd n f a b r).
Proof. unfold ext_recvfrom. silent. Qed.
Hint Resolve keep_ext_recvfrom : pres.
Lemma keep_ext_recv fd n f r : keep J (ext_recv stack fd n f r).
Proof. unfold ext_recv. silent. Qed.
Hint Resolve keep_ext_recv : pres.
Lemma keep_ext_read fd n r : keep J (ext_read stack fd n r).
Proof. unfold ext_read. silent. Qed.
Lemma keep_sctp_recvmsg fd n a b i f r : keep J (sctp_recvmsg stack fd n a b i f r).
Proof. unfold sctp_recvmsg. silent. Qed.

Lemma keep_with_value v n size body :
  (forall b, keep J (body b)) -> keep J (with_value v n size body).
Proof. intros Hb. unfold with_value. silent. Qed.
Lemma keep_with_optval v b body : (forall b, keep J (body b)) -> keep J (with_optval v b body).
Proof. intros Hb. unfold with_optval. silent. Qed.
Ltac option_step :=
  lazymatch goal with
  | |- pres _ (with_value _ _ _ _) => apply keep_with_value; intro
  | |- pres _ (with_optval _ _ _) => apply keep_with_optval; intro
  | |- _ => silent_step
  end.
Ltac option := repeat option_step.
Lemma keep_configure d v n b :
  keep J (configurePeerAddressParams indeterminate_path d v n b).
Proof. unfold configurePeerAddressParams. option. Qed.
Hint Resolve keep_configure : pres.
Lemma keep_getsockopt_sctp d o v n : keep J (getsockopt_sctp indeterminate_path d o v n).
Proof.
  unfold getsockopt_sctp, getAssocStatus, getPeerAddressInfo, getRTOInfo, getDelayedAckTime,
    getAssocInfo. option.
Qed.
Lemma keep_getsockopt_ip d l o v n : keep J (getsockopt_ip d l o v n).
Proof. unfold getsockopt_ip. option. Qed.
Lemma keep_getsockopt_socket d o v n : keep J (getsockopt_socket d o v n).
Proof. unfold getsockopt_socket, get_buffer. option. Qed.
Hint Resolve keep_getsockopt_sctp keep_getsockopt_ip keep_getsockopt_socket : pres.
Lemma keep_ext_getsockopt fd l o v n : keep J (ext_getsockopt indeterminate_path fd l o v n).
Proof. unfold ext_getsockopt. option. Qed.
Lemma keep_setsockopt_ip d l o v n : keep J (setsockopt_ip d l o v n).
Proof. unfold setsockopt_ip, set_on_target. option. Qed.

Lemma keep_addUser u : keep J (addUserSocketNotification u).
Proof. unfold addUserSocketNotification. option. Qed.
Hint Resolve keep_addUser : pres.
Lemma keep_collectFDs sd fd m : keep J (collectFDs sd fd m).
Proof. unfold collectFDs, collect_system, collect_event. option. Qed.
Hint Resolve keep_collectFDs : pres.
Lemma keep_collect_all l f sd : keep J (collect_all l f sd).
Proof. revert sd. induction l as [|x l IH]; intros sd; cbn [collect_all]; option. Qed.
Lemma keep_convert_all l f c : keep J (convert_all l f c).
Proof. revert c. induction l as [|x l IH]; intros c; cbn [convert_all]; option. Qed.
Lemma keep_convert_back l r g s : keep J (convert_back l r g s).
Proof. revert s. induction l as [|x l IH]; intros s; cbn [convert_back]; option. Qed.
Lemma keep_fake_write l s r : keep J (fake_write l s r).
Proof. revert s r. induction l as [|x l IH]; intros s r; cbn [fake_write]; option. Qed.
Hint Resolve keep_collect_all keep_convert_all keep_convert_back keep_fake_write : pres.
Lemma keep_ext_select n f t w : keep J (ext_select n f t w).
Proof. unfold ext_select, select_sctp, select_wait, select_wrapper. option. Qed.
Hint Resolve keep_ext_select : pres.
Lemma keep_ext_poll l t w : keep J (ext_poll l t w).
Proof. unfold ext_poll. option. Qed.
End Silent.
Hint Resolve keep_bindToAny keep_unpack_sockaddr keep_ext_getsockopt keep_configure
  keep_setsockopt_ip : pres.

(** Calls that change the descriptor they are made on, or add one. *)
Section Changing.
Variables (l0 : table) (own : Z).
Abbreviation J := (allowed l0 own false).

(** Assignments that keep a descriptor well-typed and its object. *)
Definition harmless (f : ExtSocketDescriptor -> ExtSocketDescriptor) : Prop :=
  forall d, same_object d (f d) /\ (well_typed d -> well_typed (f d)).
Lemma harmless_Flags v : harmless (set_Flags v).
Proof. intros d. split; [done|]. intros Ht E. by destruct (Ht E). Qed.
Lemma harmless_InitMsg v : harmless (set_InitMsg v).
Proof. intros d. split; [done|]. intros Ht E. by destruct (Ht E). Qed.
Lemma harmless_Linger v : linger_ok v -> harmless (set_Linger v).
Proof. intros Hv d. split; [done|]. intros Ht E. by destruct (Ht E). Qed.

Lemma keep_harmless i f : Z.of_nat i = own -> harmless f -> keep J (upd_desc i f).
Proof. intros Hi Hf. apply keep_upd_desc; [done|apply Hf|intros _; apply Hf]. Qed.

(** Under the assumption that the descriptor is connection-oriented. *)
Definition J_connected (l : table) : Prop :=
  J l /\ forall j d, l !! j = Some d -> Z.of_nat j = own -> ConnectionOriented d = true.
Lemma keep_connected i (f : ExtSocketDescriptor -> ExtSocketDescriptor) :
  Z.of_nat i = own ->
  (forall d, same_object d (f d) /\
     (well_typed d -> ConnectionOriented d = true -> well_typed (f d))) ->
  keep J_connected (upd_desc i f).
Proof.
  intros Hi Hf s. unfold upd_desc, bind, desc. destruct (Sockets s !! i) as [d|] eqn:E; [|done].
  simpl. intros [Hl Hc]. destruct (Hf d) as [Hs Ht]. split.
  - eapply allowed_own; eauto. apply Ht; [|eauto].
    eapply Forall_lookup_1; [|done]. by eapply al_typed.
  - intros j d' Hj Hown. simpl in Hj. assert (j = i) as -> by lia.
    rewrite list_lookup_insert_eq in Hj by (by eapply lookup_lt_Some). simplify_eq.
    destruct Hs as (_ & _ & _ & _ & ->). eauto.
Qed.
Lemma keep_set_association i a : Z.of_nat i = own ->
  keep J_connected (upd_desc i (set_SCTPAssociationPtr a)).
Proof.
  intros Hi. apply keep_connected; [done|]. intros d. split; [done|].
  intros Ht Hc E. by destruct (Ht E).
Qed.

(** A descriptor read under [J], and what follows in both cases. *)
Lemma keep_bind_desc_cases {X} i (k : ExtSocketDescriptor -> A X) :
  Z.of_nat i = own ->
  (forall d, well_typed d -> ConnectionOriented d = false -> keep J (k d)) ->
  (forall d, well_typed d -> ConnectionOriented d = true -> keep J_connected (k d)) ->
  keep J (bind (desc i) k).
Proof.
  intros Hi Hn Hc s. unfold bind, desc. destruct (Sockets s !! i) as [d|] eqn:E; [|done].
  destruct (k d s) as [x s'|f] eqn:Ek; [|done]. intros Hl.
  assert (Hd : well_typed d) by (eapply Forall_lookup_1; [by eapply al_typed|done]).
  destruct (ConnectionOriented d) eqn:Hco.
  - specialize (Hc d Hd Hco s). rewrite Ek in Hc. apply Hc. split; [done|].
    intros j d' Hj Hown. assert (j = i) as -> by lia. by simplify_eq.
  - specialize (Hn d Hd Hco s). rewrite Ek in Hn. by apply Hn.
Qed.

Lemma keep_own {R} (error : Z -> A R) sctp system :
  (forall z, keep J (error z)) ->
  (forall i d, Z.of_nat i = own -> well_typed d -> keep J (sctp i d)) ->
  (forall i d, Z.of_nat i = own -> ed_Type d = ESDT_System -> keep J (system i d)) ->
  keep J (on_descriptor error own sctp system).
Proof. apply keep_on_descriptor. apply al_typed. Qed.

Ltac own_step :=
  lazymatch goal with
  | |- pres _ (on_descriptor _ own _ _) => apply keep_own; intros
  | |- pres _ (with_descriptor own _ _) => unfold with_descriptor
  | |- pres _ (with_optval _ _ _) => apply keep_with_optval; intro
  | |- pres _ (upd_desc _ (set_Flags _)) => apply keep_harmless; [done|apply harmless_Flags]
  | |- pres _ (upd_desc _ (set_InitMsg _)) => apply keep_harmless; [done|apply harmless_InitMsg]
  | |- pres _ (upd_desc _ (set_SCTPAssociationPtr _)) => by apply keep_set_association
  | |- _ => pres_step
  end.
Ltac own_auto := repeat own_step.
(** As far as the next descriptor that is read. *)
Ltac own_until :=
  repeat lazymatch goal with |- pres _ (bind (desc _) _) => fail | |- _ => own_step end.

Lemma keep_ext_fcntl cmd arg : keep J (ext_fcntl own cmd arg).
Proof. unfold ext_fcntl. own_auto. Qed.
Lemma keep_setsockopt_sctp i d o v n :
  Z.of_nat i = own -> keep J (setsockopt_sctp indeterminate_path past_end fill i d o v n).
Proof.
  intros Hi. unfold setsockopt_sctp, setPrimaryAddr, setPeerPrimaryAddr, setRTOInfo,
    setDelayedAckTime, setAssocInfo, setEvents, setDefaultSendParams, set_stream_timeouts_option.
  own_auto.
Qed.
Lemma keep_setsockopt_socket i d o v n :
  Z.of_nat i = own -> keep J (setsockopt_socket i d o v n).
Proof.
  intros Hi. unfold setsockopt_socket, set_on_target.
  do 2 (destruct (bool_decide _); [by own_auto|]). destruct (bool_decide _); [|by own_auto].
  apply keep_with_optval. intros b. cbv zeta.
  destruct (_ || _ || _) eqn:Hl; [by own_auto|]. apply (pres_bind _); [|intros; by own_auto].
  apply keep_harmless; [done|]. apply harmless_Linger.
  rewrite !orb_false_iff, !bool_decide_eq_false in Hl. unfold linger_ok. lia.
Qed.
Lemma keep_ext_setsockopt l o v n :
  keep J (ext_setsockopt indeterminate_path past_end fill own l o v n).
Proof.
  unfold ext_setsockopt. own_auto; first [by apply keep_setsockopt_sctp | by apply keep_setsockopt_socket].
Qed.
Lemma keep_sctp_opt_info i o b n :
  keep J (sctp_opt_info indeterminate_path past_end fill own i o b n).
Proof. unfold sctp_opt_info. own_auto. apply keep_ext_setsockopt. Qed.

(** Connecting. *)
Lemma keep_connect_association i d p l sched : Z.of_nat i = own ->
  keep J_connected (connect_association deliver i d p l sched).
Proof. intros Hi. unfold connect_association. own_auto. Qed.
Lemma keep_ext_connectx b n id sched : keep J (ext_connectx deliver own b n id sched).
Proof.
  unfold ext_connectx. own_until. apply keep_bind_desc_cases; [done| |]; intros e He Hc; rewrite Hc.
  - unfold connect_implicitly. own_auto.
  - destruct (SCTPSocketPtr e); [|own_auto]. destruct (create_all _); [|own_auto].
    by apply keep_connect_association.
Qed.
Lemma keep_ext_connect b n sched : keep J (ext_connect deliver stack own b n sched).
Proof. unfold ext_connect. own_auto. apply keep_ext_connectx. Qed.

(** Sending. *)
Lemma keep_init_message i m b sched : Z.of_nat i = own -> keep J (init_message deliver i m b sched).
Proof.
  intros Hi. unfold init_message. own_until.
  apply keep_bind_desc_cases; [done| |]; intros d Hd ->; own_auto.
Qed.
Lemma keep_control_loop fuel i m c h info sched :
  Z.of_nat i = own -> keep J (control_loop deliver fuel i m c h info sched).
Proof.
  intros Hi. revert h info. induction fuel as [|fuel IH]; intros h info; cbn [control_loop];
    own_auto. by apply keep_init_message.
Qed.
Lemma keep_multi_addresses n i b : keep J (multi_addresses n i b).
Proof. revert i b. induction n as [|n IH]; intros i b; cbn [multi_addresses]; own_auto. Qed.
Hint Resolve keep_multi_addresses : pres.
Lemma keep_sendmsg_singlebuffer b m f s1 s2 s3 :
  keep J (ext_sendmsg_singlebuffer deliver own b m f s1 s2 s3).
Proof.
  unfold ext_sendmsg_singlebuffer, send_message, send_through_socket. own_auto.
  by apply keep_control_loop.
Qed.
Hint Resolve keep_sendmsg_singlebuffer : pres.
Lemma keep_ext_sendmsg l m f s1 s2 s3 : keep J (ext_sendmsg deliver own l m f s1 s2 s3).
Proof. unfold ext_sendmsg. own_auto. Qed.
Hint Resolve keep_ext_sendmsg : pres.
Lemma keep_ext_sendto b f a n s1 s2 : keep J (ext_sendto deliver own b f a n s1 s2).
Proof. unfold ext_sendto. own_auto. Qed.
Hint Resolve keep_ext_sendto : pres.
Lemma keep_ext_send b f s1 s2 : keep J (ext_send deliver own b f s1 s2).
Proof. unfold ext_send. own_auto. Qed.
Hint Resolve keep_ext_send : pres.
Lemma keep_ext_write b s1 s2 : keep J (ext_write deliver own b s1 s2).
Proof. unfold ext_write. own_auto. Qed.

(** New descriptors. *)
Lemma typed_association d a : well_typed d -> well_typed (association_descriptor d a).
Proof.
  intros Hd E. destruct (Hd E) as [Hs _ (co & fl & Hk & _) Hl]. split; try done. by exists co, fl.
Qed.
Lemma typed_system id : well_typed (system_descriptor blank id).
Proof. done. Qed.
Lemma typed_sctp domain type co fl p :
  socket_kind type = Some (co, fl) -> well_typed (sctp_descriptor domain type co p).
Proof.
  intros Hk _. split; simpl; [eauto|by intros [? ?]|by exists co, fl|].
  split; simpl; [lia|by right].
Qed.
Lemma keep_ext_accept a sched : keep J (ext_accept deliver own a sched).
Proof.
  unfold ext_accept. own_until.
  - apply keep_bind_desc; [apply al_typed|]. intros e He. own_auto.
    by apply keep_setSocket, typed_association.
  - apply keep_setSocket. intros E. simpl in E. congruence.
Qed.
Lemma keep_sctp_peeloff id : keep J (sctp_peeloff deliver own id).
Proof.
  unfold sctp_peeloff. destruct (getSocket own); [|own_auto].
  apply keep_bind_desc; [apply al_typed|]. intros d Hd. own_auto.
  by apply keep_setSocket, typed_association.
Qed.
Lemma keep_sctp_isavailable : keep J sctp_isavailable.
Proof. unfold sctp_isavailable. own_auto. Qed.
Hint Resolve keep_sctp_isavailable : pres.
Lemma keep_ext_socket domain type protocol :
  keep J (ext_socket deliver memory blank domain type protocol).
Proof.
  unfold ext_socket. destruct (socket_kind type) as [[co fl]|] eqn:Hk; own_auto;
    solve [by apply keep_setSocket | by apply keep_setSocket, (typed_sctp _ _ _ fl)].
Qed.
Lemma keep_enter_system id : keep J (enter_system blank id).
Proof. unfold enter_system. own_auto. by apply keep_setSocket. Qed.

(** [ext_pipe] has no descriptor of its own; it may close the first of the two
    it has made. *)
Lemma keep_ext_close_fresh i :
  (forall d, l0 !! i = Some d -> ~ in_use d) -> keep J (ext_close deliver (Z.of_nat i)).
Proof.
  intros Hfree. apply keep_safely. intros s Hl.
  eapply wp_weaken; [apply ext_close_wp|]. intros r s' [->|(j & d & Hj & Hd & Hi & Hu)]; [done|].
  assert (j = i) as -> by lia. eapply allowed_release; eauto.
Qed.
Lemma keep_ext_pipe fds :
  (forall j, (j < length l0)%nat -> Z.of_nat j <> own) -> keep J (ext_pipe deliver blank fds).
Proof.
  intros Hown. unfold ext_pipe. apply (pres_bind _); [auto with pres|]. intros [r [id0 id1]].
  destruct (bool_decide (r = 0)); [|own_auto]. apply keep_safely. intros s Hl.
  eapply wp_seq; [apply setSocket_wp|]. intros fd0 s1 Hp. cbv beta in Hp.
  assert (Hl1 : J (Sockets s1)) by (eapply placed_allowed; [exact Hl| |exact Hp]; apply typed_system).
  case_bool_decide as Hneg.
  - clear Hp. revert s1 Hl1. apply keep_safely. own_auto.
  - destruct Hp as [(i & d & -> & Hd & Hu & _)|[-> _]]; [|by destruct Hneg].
    assert (Hfree : forall d0, l0 !! i = Some d0 -> ~ in_use d0).
    { intros d0 Hd0 Hu0. rewrite (al_others _ _ _ _ Hl i d0) in Hd; [by simplify_eq|done|done|].
      apply Hown. by eapply lookup_lt_Some. }
    revert s1 Hl1. apply keep_safely.
    own_auto; first [by apply keep_setSocket | by apply keep_ext_close_fresh].
Qed.
End Changing.

(** *** All of them *)

Inductive Call : Type :=
| CSocket (domain type protocol : Z)
| COpen (pathname : string) (flags mode : Z)
| CCreat (pathname : string) (mode : Z)
| CPipe (fds : Z * Z)
| CClose (fd : Z)
| CBind (fd : Z) (addr : list Z) (len : Z)
| CBindx (fd : Z) (addrs : list Z) (cnt flags : Z)
| CListen (fd backlog : Z)
| CAccept (fd : Z) (addr : option Z) (sched : schedule)
| CPeeloff (fd id : Z)
| CGetsockname (fd : Z) (name : option Z)
| CGetpeername (fd : Z) (name : option Z)
| CGetlpaddrs (fd id : Z) (peer : bool)
| CFcntl (fd cmd arg : Z)
| CIoctl (fd request : Z)
| CShutdown (fd how : Z)
| CConnect (fd : Z) (addr : list Z) (len : Z) (sched : schedule)
| CConnectx (fd : Z) (addrs : list Z) (cnt id : Z) (sched : schedule)
| CRecvmsg (fd : Z) (iov : list Z) (m : MsgHdr) (flags : Z) (rounds : list schedule)
| CRecvfrom (fd len flags : Z) (from : option (list Z)) (fromlen : option Z)
    (rounds : list schedule)
| CRecv (fd len flags : Z) (rounds : list schedule)
| CRead (fd len : Z) (rounds : list schedule)
| CRecvinfo (fd len : Z) (from : option (list Z)) (fromlen : option Z)
    (info : sctp_sndrcvinfo) (flags : Z) (rounds : list schedule)
| CSendmsg (fd : Z) (iov : list (list Z)) (m : MsgHdr) (flags : Z) (s1 s2 s3 : schedule)
| CSendto (fd : Z) (buf : list Z) (flags : Z) (to : option (list Z)) (len : Z)
    (s1 s2 : schedule)
| CSend (fd : Z) (buf : list Z) (flags : Z) (s1 s2 : schedule)
| CWrite (fd : Z) (buf : list Z) (s1 s2 : schedule)
| CSendinfo (fd : Z) (buf : list Z) (name : option (list Z)) (namelen flags : Z)
    (info : sctp_sndrcvinfo) (s1 s2 : schedule)
| CGetsockopt (fd level name : Z) (val : option (list Z)) (len : Z)
| CSetsockopt (fd level name : Z) (val : option (list Z)) (len : Z)
| COptinfo (fd id name : Z) (val : list Z) (len : Z)
| CSelect (n : Z) (fds : FdSets) (timeout : option (Z * Z))
    (waits : list (Condition.WaitResult * P unit))
| CPoll (l : list pollfd) (time : Z) (waits : list (Condition.WaitResult * P unit)).

Definition run (c : Call) : A unit :=
  match c with
  | CSocket domain type protocol => ext_socket deliver memory blank domain type protocol ;; ret tt
  | COpen pathname flags mode => ext_open blank pathname flags mode ;; ret tt
  | CCreat pathname mode => ext_creat blank pathname mode ;; ret tt
  | CPipe fds => ext_pipe deliver blank fds ;; ret tt
  | CClose fd => ext_close deliver fd ;; ret tt
  | CBind fd addr len => ext_bind deliver stack fd addr len ;; ret tt
  | CBindx fd addrs cnt flags => sctp_bindx deliver stack fd addrs cnt flags ;; ret tt
  | CListen fd backlog => ext_listen deliver fd backlog ;; ret tt
  | CAccept fd addr sched => ext_accept deliver fd addr sched ;; ret tt
  | CPeeloff fd id => sctp_peeloff deliver fd id ;; ret tt
  | CGetsockname fd name => ext_getsockname fd name ;; ret tt
  | CGetpeername fd name => ext_getpeername fd name ;; ret tt
  | CGetlpaddrs fd id peer => sctp_getlpaddrs fd id peer ;; ret tt
  | CFcntl fd cmd arg => ext_fcntl fd cmd arg ;; ret tt
  | CIoctl fd request => ext_ioctl fd request ;; ret tt
  | CShutdown fd how => ext_shutdown deliver fd how ;; ret tt
  | CConnect fd addr len sched => ext_connect deliver stack fd addr len sched ;; ret tt
  | CConnectx fd addrs cnt id sched => ext_connectx deliver fd addrs cnt id sched ;; ret tt
  | CRecvmsg fd iov m flags rounds => ext_recvmsg fd iov m flags rounds ;; ret tt
  | CRecvfrom fd len flags from fromlen rounds =>
      ext_recvfrom stack fd len flags from fromlen rounds ;; ret tt
  | CRecv fd len flags rounds => ext_recv stack fd len flags rounds ;; ret tt
  | CRead fd len rounds => ext_read stack fd len rounds ;; ret tt
  | CRecvinfo fd len from fromlen info flags rounds =>
      sctp_recvmsg stack fd len from fromlen info flags rounds ;; ret tt
  | CSendmsg fd iov m flags s1 s2 s3 => ext_sendmsg deliver fd iov m flags s1 s2 s3 ;; ret tt
  | CSendto fd buf flags to len s1 s2 => ext_sendto deliver fd buf flags to len s1 s2 ;; ret tt
  | CSend fd buf flags s1 s2 => ext_send deliver fd buf flags s1 s2 ;; ret tt
  | CWrite fd buf s1 s2 => ext_write deliver fd buf s1 s2 ;; ret tt
  | CSendinfo fd buf name namelen flags info s1 s2 =>
      send_with_info deliver fd buf name namelen flags info s1 s2 ;; ret tt
  | CGetsockopt fd level name val len =>
      ext_getsockopt indeterminate_path fd level name val len ;; ret tt
  | CSetsockopt fd level name val len =>
      ext_setsockopt indeterminate_path past_end fill fd level name val len ;; ret tt
  | COptinfo fd id name val len =>
      sctp_opt_info indeterminate_path past_end fill fd id name val len ;; ret tt
  | CSelect n fds timeout waits => ext_select n fds timeout waits ;; ret tt
  | CPoll l time waits => ext_poll l time waits ;; ret tt
  end.

(** The descriptor a call is made on, -1 if there is none. *)
Definition descriptor_of (c : Call) : Z :=
  match c with
  | CSocket _ _ _ | COpen _ _ _ | CCreat _ _ | CPipe _ | CSelect _ _ _ _ | CPoll _ _ _ => -1
  | CClose fd | CBind fd _ _ | CBindx fd _ _ _ | CListen fd _ | CAccept fd _ _ | CPeeloff fd _
  | CGetsockname fd _ | CGetpeername fd _ | CGetlpaddrs fd _ _ | CFcntl fd _ _ | CIoctl fd _
  | CShutdown fd _ | CConnect fd _ _ _ | CConnectx fd _ _ _ _ | CRecvmsg fd _ _ _ _
  | CRecvfrom fd _ _ _ _ _ | CRecv fd _ _ _ | CRead fd _ _ | CRecvinfo fd _ _ _ _ _ _
  | CSendmsg fd _ _ _ _ _ _ | CSendto fd _ _ _ _ _ _ | CSend fd _ _ _ _ | CWrite fd _ _ _
  | CSendinfo fd _ _ _ _ _ _ _ | CGetsockopt fd _ _ _ _ | CSetsockopt fd _ _ _ _
  | COptinfo fd _ _ _ _ => fd
  end.
Definition closes (c : Call) : bool := match c with CClose _ => true | _ => false end.
Definition run_calls (l : list Call) : A unit := for_each l run.

Lemma keep_close l0 fd : keep (allowed l0 fd true) (ext_close deliver fd).
Proof.
  apply keep_safely. intros s Hl.
  eapply wp_weaken; [apply ext_close_wp|]. intros r s' [->|(i & d & Hi & Hd & Hs & Hu)]; [done|].
  eapply allowed_release; eauto.
Qed.

Lemma keep_run c l0 : keep (allowed l0 (descriptor_of c) (closes c)) (run c).
Proof.
  destruct c; (apply (pres_bind _); [|intros; apply (pres_ret _)]).
  1: apply keep_ext_socket. 1, 2: (unfold ext_open, ext_creat; apply (pres_bind _);
    [apply keep_syscall|intros; apply keep_enter_system]).
  1: by (apply keep_ext_pipe; simpl; lia).
  all: first [ apply keep_close | apply keep_ext_bind | apply keep_sctp_bindx
    | apply keep_ext_listen | apply keep_ext_accept | apply keep_sctp_peeloff
    | apply keep_ext_getsockname | apply keep_ext_getpeername | apply keep_sctp_getlpaddrs
    | apply keep_ext_fcntl | apply keep_ext_ioctl | apply keep_ext_shutdown
    | apply keep_ext_connect | apply keep_ext_connectx | apply keep_ext_recvmsg
    | apply keep_ext_recvfrom | apply keep_ext_recv | apply keep_ext_read
    | apply keep_sctp_recvmsg | apply keep_ext_sendmsg | apply keep_ext_sendto
    | apply keep_ext_send | apply keep_ext_write | apply keep_ext_getsockopt
    | apply keep_ext_setsockopt | apply keep_sctp_opt_info | apply keep_ext_select
    | apply keep_ext_poll ].
Qed.

(** C18. One call changes the table of descriptors in one place only.  Among
    the descriptors in use, every one but that of the call is as it was; that
    of the call, if the call is not [ext_close], still stands for the same
    object (same type, socket and system descriptor); new descriptors take
    entries that were free. *)
Theorem call_frame (c : Call) (s s' : Api) (j : nat) (d : ExtSocketDescriptor)
    (Ht : Forall well_typed (Sockets s)) (Hrun : run c s = Ret tt s')
    (Hd : Sockets s !! j = Some d) (Hu : in_use d) :
  length (Sockets s') = length (Sockets s)
  /\ (Z.of_nat j <> descriptor_of c -> Sockets s' !! j = Some d)
  /\ (closes c = false -> exists d', Sockets s' !! j = Some d' /\ same_object d d').
Proof.
  pose proof (pres_run _ _ _ _ _ (keep_run c (Sockets s)) Hrun (allowed_refl _ _ _ Ht))
    as [Hlen _ Ho Hw].
  split; [done|]. split; [by eauto|]. intros Hc.
  destruct (decide (Z.of_nat j = descriptor_of c)); [by eauto|].
  eauto using same_object_refl.
Qed.

Lemma run_calls_typed l s s' :
  Forall well_typed (Sockets s) -> run_calls l s = Ret tt s' ->
  Forall well_typed (Sockets s') /\ length (Sockets s') = length (Sockets s).
Proof.
  revert s. unfold run_calls. induction l as [|c l IH]; intros s Ht; simpl.
  - unfold ret. by intros [= <-].
  - unfold bind. destruct (run c s) as [[] s1|] eqn:Hc; [|done]. intros Hl.
    pose proof (pres_run _ _ _ _ _ (keep_run c (Sockets s)) Hc (allowed_refl _ _ _ Ht))
      as [Hlen Ht1 _ _].
    rewrite <- Hlen. by apply IH.
Qed.

(** C19. Typing of descriptors.  After any sequence of calls of the API,
    starting with the table the library sets up, every descriptor of type SCTP
    has a socket; if it has an association it is connection-oriented, so that
    the operations that go to "the association, otherwise the socket" never
    pass an association by and always find an object; a descriptor of a
    one-to-one socket is connection-oriented; the linger time is valid. *)
Theorem descriptors_well_typed (start : table) (l : list Call) (s s' : Api)
    (Hstart : Sockets s = initial_table start) (Hrun : run_calls l s = Ret tt s') :
  length (Sockets s') = length start
  /\ forall i d, Sockets s' !! i = Some d -> ed_Type d = ESDT_SCTP ->
     match target d with
     | ToAssociation a => SCTPAssociationPtr d = Some a
     | ToSocket p => SCTPAssociationPtr d = None /\ SCTPSocketPtr d = Some p
     | ToNothing => False
     end
     /\ (ed_SocketType d = SOCK_STREAM -> ConnectionOriented d = true)
     /\ 0 <= l_linger (Linger d) /\ (l_onoff (Linger d) = 0 \/ l_onoff (Linger d) = 1).
Proof.
  assert (Ht : Forall well_typed (Sockets s)) by (rewrite Hstart; apply initial_table_typed).
  destruct (run_calls_typed l s s' Ht Hrun) as [Ht' Hlen].
  split. { rewrite Hlen, Hstart. apply length_imap. }
  intros i d Hd Hty. destruct (Forall_lookup_1 _ _ _ _ Ht' Hd Hty) as [Hs Ha Hk [Hl1 Hl2]].
  split; [|split; [|done]].
  - unfold target. destruct Hs as [p ->].
    destruct (SCTPAssociationPtr d) as [a|] eqn:E; [by rewrite Ha|]. done.
  - intros E. rewrite E in Hk. destruct Hk as (co & fl & [= <- _] & Hco). by apply Hco.
Qed.
End Calls.

(** ** Allocation *)

Section Allocation.
Context `{!Platform} `{!Kernel}.

(** The parts of the state the lock does not touch. *)
Definition unlocked_part (y : Sys) : W * gmap nat SCTPAssociation * gmap nat SCTPSocket :=
  (world y, assocs y, sockets y).
Lemma lock_facts y : 0 <= LockLevel y < 2 ^ 32 - 1 ->
  exists y', lock y = Ret tt y' /\ LockLevel y' = LockLevel y + 1
             /\ unlocked_part y' = unlocked_part y.
Proof.
  intros Hl. unfold lock. eexists. split; [reflexivity|].
  case_bool_decide; simpl; rewrite wrap_small by lia; done.
Qed.
Lemma unlock_facts y : 0 < LockLevel y ->
  exists y', unlock y = Ret tt y' /\ LockLevel y' = LockLevel y - 1
             /\ unlocked_part y' = unlocked_part y.
Proof.
  intros Hl. unfold unlock. rewrite bool_decide_false by lia.
  eexists. split; [reflexivity|]. by case_bool_decide.
Qed.

(** How many entries [setSocket] looks at. *)
Definition usable (s : Api) : nat :=
  Z.to_nat (Z.min (Z.of_nat MaxSockets) (k_getdtablesize (world (sys s)))).

Definition allocates (new : ExtSocketDescriptor) (s : Api) (r : Z) (s' : Api) : Prop :=
  ((exists i, r = Z.of_nat i /\ found (Sockets s) (usable s) (Some i)
              /\ Sockets s' = <[i := new]> (Sockets s))
   \/ (r = - EMFILE /\ found (Sockets s) (usable s) None /\ Sockets s' = Sockets s))
  /\ (lock ;; unlock) (sys s) = Ret tt (sys s')
  /\ unlocked_part (sys s') = unlocked_part (sys s) /\ LockLevel (sys s') = LockLevel (sys s).

Lemma setSocket_run (new : ExtSocketDescriptor) (s : Api) :
  length (Sockets s) = MaxSockets -> 0 <= LockLevel (sys s) < 2 ^ 32 - 1 ->
  exists r s', setSocket new s = Ret r s' /\ allocates new s r s'.
Proof.
  intros Hlen Hlock.
  destruct (lock_facts (sys s) Hlock) as (y & Hrun & Hl & Hy).
  destruct (unlock_facts y ltac:(lia)) as (y' & Hrun' & Hl' & Hy').
  assert (Hu : usable (set_sys y s) = usable s).
  { unfold usable. simpl. by injection Hy as -> _ _. }
  pose proof (find_invalid_wp (usable s) (set_sys y s)) as Hf.
  unfold setSocket. unfold bind at 1, lift at 1. rewrite Hrun.
  unfold bind at 1, gets at 1. fold (usable (set_sys y s)). rewrite Hu.
  unfold bind at 1. unfold wp in Hf. destruct (find_invalid _ _) as [free s1|f].
  2: { simpl in Hf. unfold usable in Hf. lia. }
  destruct Hf as [-> Hf]. simpl Sockets in Hf. destruct free as [i|].
  - destruct (Hf) as (_ & (d & Hd & _) & _).
    unfold bind, upd_desc, bind, desc. simpl Sockets. rewrite Hd. simpl. unfold lift. simpl.
    rewrite Hrun'. eexists _, _. split; [reflexivity|].
    split; [left; by exists i|]. simpl. split; [unfold bind; by rewrite Hrun|]. split; [congruence|lia].
  - unfold bind, lift. simpl. rewrite Hrun'. eexists _, _. split; [reflexivity|].
    split; [by right|]. simpl. split; [unfold bind; by rewrite Hrun|]. split; [congruence|lia].
Qed.

(** Allocation of descriptors.  [setSocket] always returns.  It stores the
    descriptor in the free entry with the highest number below the limit of the
    process, returns that number and changes no other entry; or, when all
    entries below the limit are in use, it returns [-EMFILE] and leaves the
    table as it is.  The world, the objects and the level of the library lock
    are as before. *)
Theorem setSocket_allocates (new : ExtSocketDescriptor) (s : Api)
    (Hlen : length (Sockets s) = MaxSockets) (Hlock : 0 <= LockLevel (sys s) < 2 ^ 32 - 1) :
  exists r s', setSocket new s = Ret r s' /\ allocates new s r s'.
Proof. by apply setSocket_run. Qed.

(** [ext_accept] with a full table.  When a connection has been accepted
    and there is no descriptor left, the association is deleted and its
    notification flags are then set through the NULL pointer: the call never
    returns [-EMFILE], it stops. *)
Theorem accept_full_table (deliver : list Callback -> P unit) (fd : Z) (i p a : nat)
    (addr : option Z) (sched : schedule) (s : Api) (d : ExtSocketDescriptor)
    (remote : option (list Addr)) (y : Sys)
    (Hfd : getSocket fd = Some i) (Hd : Sockets s !! i = Some d) (Hty : ed_Type d = ESDT_SCTP)
    (Hp : SCTPSocketPtr d = Some p)
    (Haccept : accept p true (negb (nonblocking d)) sched (sys s) = Ret (Some a, remote) y)
    (Hlen : length (Sockets s) = MaxSockets) (Hlock : 0 <= LockLevel y < 2 ^ 32 - 1)
    (Hfull : found (Sockets s) (usable (set_sys y s)) None) :
  exists y', (lock ;; unlock) y = Ret tt y'
    /\ ext_accept deliver fd addr sched s =
       match delete_SCTPAssociation deliver a y' with
       | Ret _ _ => Stop NullDereference
       | Stop f => Stop f
       end.
Proof.
  destruct (setSocket_run (association_descriptor d a) (set_sys y s) Hlen Hlock)
    as (r & s' & Hrun & [(j & -> & Hj & _)|(-> & _ & Hs)] & Hy & _).
  { destruct Hj as (Hj & (e & He & Hfree) & _). destruct Hfree. by apply (Hfull j). }
  exists (sys s'). split; [done|].
  unfold ext_accept, on_descriptor. rewrite Hfd. unfold bind, desc at 1. rewrite Hd, Hty.
  unfold desc. rewrite Hd, Hp. unfold lift at 1. rewrite Haccept. cbv zeta. unfold bind.
  rewrite Hrun, bool_decide_true by done. unfold lift.
  by destruct (delete_SCTPAssociation _ _ _).
Qed.
End Allocation.

(** ** Witnesses *)

Abbreviation demo_run := (run demo_deliver demo_memory demo_blank demo_stack demo_path demo_timeout
  demo_timeout).
Abbreviation demo_calls := (run_calls demo_deliver demo_memory demo_blank demo_stack demo_path
  demo_timeout demo_timeout).

Lemma demo_table_typed : Forall well_typed demo_table.
Proof.
  apply Forall_insert; [apply Forall_insert; [apply initial_table_typed|]|].
  - by apply (typed_sctp 2 SOCK_DGRAM false (set_flag SSF_GlobalQueue SSF_AutoConnect)).
  - by apply typed_association, (typed_sctp 2 SOCK_STREAM true 0).
Qed.

Lemma call_frame_witness :
  let s' := api_final (demo_run (CSetsockopt 5 SOL_SOCKET SO_LINGER
              (Some (write_linger {| l_onoff := 1; l_linger := 7 |})) 8)) (demo_api demo_table) in
  Sockets s' !! 4%nat = Some udp_descriptor
  /\ exists d, Sockets s' !! 5%nat = Some d /\ same_object tcp_descriptor d.
Proof.
  set (c := CSetsockopt _ _ _ _ _). cbv zeta.
  assert (Hrun : demo_run c (demo_api demo_table)
                 = Ret tt (api_final (demo_run c) (demo_api demo_table)))
    by (apply api_run; vm_compute; reflexivity).
  split.
  - destruct (call_frame demo_deliver demo_memory demo_blank demo_stack demo_path demo_timeout demo_timeout c
      (demo_api demo_table) _ 4 udp_descriptor
      demo_table_typed Hrun eq_refl ltac:(discriminate)) as (_ & H & _). apply H. discriminate.
  - destruct (call_frame demo_deliver demo_memory demo_blank demo_stack demo_path demo_timeout demo_timeout c
      (demo_api demo_table) _ 5 tcp_descriptor
      demo_table_typed Hrun eq_refl ltac:(discriminate)) as (_ & _ & H). by apply H.
Defined.

Definition witness_calls : list (@Call demo) :=
  [CSocket 2 SOCK_STREAM IPPROTO_SCTP; CFcntl 1023 F_SETFL O_NONBLOCK;
   CSocket 2 SOCK_STREAM 6; CClose 0].
Definition witness_state : @Api demo := api_final (demo_calls witness_calls) (demo_api boot_table).

Lemma witness_start :
  Sockets (demo_api boot_table) = initial_table (replicate MaxSockets demo_blank).
Proof. simpl Sockets. unfold boot_table. reflexivity. Qed.
Lemma witness_run : demo_calls witness_calls (demo_api boot_table) = Ret tt witness_state.
Proof.
  unfold witness_state. apply (api_run (demo_calls witness_calls) (demo_api boot_table) tt).
  vm_compute. reflexivity.
Qed.
Lemma witness_entry :
  (fun d => (ed_Type d, target d)) <$> Sockets witness_state !! 1023%nat
  = Some (ESDT_SCTP, ToSocket 2).
Proof. vm_compute. reflexivity. Qed.

Lemma descriptors_well_typed_witness :
  exists d, Sockets witness_state !! 1023%nat = Some d /\ target d = ToSocket 2
            /\ (ed_SocketType d = SOCK_STREAM -> ConnectionOriented d = true).
Proof.
  destruct (descriptors_well_typed demo_deliver demo_memory demo_blank demo_stack demo_path
    demo_timeout demo_timeout (replicate MaxSockets demo_blank) witness_calls (demo_api boot_table)
    witness_state witness_start witness_run) as [_ H].
  pose proof witness_entry as Hd.
  specialize (H 1023%nat). destruct (Sockets witness_state !! 1023%nat) as [d|]; [|discriminate Hd].
  injection Hd as Ht Htarget. destruct (H d eq_refl Ht) as (_ & Hc & _).
  exists d. split; [reflexivity|]. split; [exact Htarget|exact Hc].
Defined.

Lemma setSocket_allocates_witness :
  exists r s', setSocket udp_descriptor (demo_api demo_table) = Ret r s'
    /\ Sockets s' !! Z.to_nat r = Some udp_descriptor.
Proof.
  destruct (setSocket_allocates udp_descriptor (demo_api demo_table)
    ltac:(vm_compute; reflexivity) ltac:(simpl; lia))
    as (r & s' & Hrun & [(i & -> & (_ & (d & Hd & _) & _) & Hs)|(_ & Hf & _)] & _).
  - exists (Z.of_nat i), s'. split; [exact Hrun|]. rewrite Hs, Nat2Z.id.
    apply list_lookup_insert_eq. exact (lookup_lt_Some _ _ _ Hd).
  - exfalso. refine (Hf 7%nat _ _ eq_refl eq_refl). vm_compute. lia.
Defined.

(** A process that may use no more than eight descriptors: 3 and 6, 7 are
    taken as well, and association 5 has come up on the listening socket. *)
Definition full_table : list ExtSocketDescriptor :=
  replicate MaxSockets (sctp_descriptor 2 SOCK_STREAM true 0).
Definition waiting_api : @Api demo :=
  {| sys := final (dispatch 2 [CommunicationUp 5 1 1]) (demo_boot tcp_flags);
     Sockets := full_table; errno := 0 |}.
Definition accepted : @Sys demo :=
  final (accept 0 true true []) (sys waiting_api).

Lemma waiting_accept :
  accept 0 true true [] (sys waiting_api) = Ret (Some 1%nat, Some [("10.0.0.1"%string, 7)]) accepted.
Proof. unfold accepted. apply (run_final (accept 0 true true [])). vm_compute. reflexivity. Qed.

Lemma accept_full_table_witness :
  ext_accept demo_deliver 4 None [] waiting_api = Stop NullDereference.
Proof.
  destruct (accept_full_table demo_deliver 4 4 0 1 None [] waiting_api
    (sctp_descriptor 2 SOCK_STREAM true 0) _ accepted eq_refl eq_refl eq_refl eq_refl
    waiting_accept ltac:(apply length_replicate) ltac:(vm_compute; split; congruence))
    as (y' & Hy & ->).
  { intros j d _ Hd. apply lookup_replicate in Hd as [-> _]. discriminate. }
  assert (y' = final (lock ;; unlock) accepted) as -> by (unfold final; by rewrite Hy).
  vm_compute. reflexivity.
Defined.
