(* ===== verification/ApiMessages.v ===== *)
(** * Messages through the socket API

    Packed addresses, the control messages that carry [sctp_sndrcvinfo], and
    the loop over the buffers of a receive call. *)

From S2P Require Import Prelude MultiMap Memory Notification State Association Socket SocketIO.
From S2P Require Import SocketOps SocketLife SocketAssoc SocketMaster Descriptors WrapperSockets.
From S2P Require Import WrapperIO Demo ApiDemo ApiTable.
Local Open Scope Z_scope.

(** ** Packed addresses *)

(** The bytes of an address that belong to it. *)
Definition address_bytes (a : list Z) : list Z :=
  take (default 0%nat (sockaddr_size (sa_family a))) a.
(** A stored address of a known family. *)
Definition stored (a : list Z) : Prop :=
  exists n, sockaddr_size (sa_family a) = Some n /\ (n <= length a)%nat.

Lemma sockaddr_size_range f n : sockaddr_size f = Some n -> (16 <= n <= 28)%nat.
Proof.
  unfold sockaddr_size. do 2 (case_bool_decide; [intros [= <-]; lia|]). done.
Qed.

Lemma get_app off n a b : (off + n <= length a)%nat -> get off n (a ++ b) = get off n a.
Proof. intros Hl. unfold get. rewrite drop_app_le, take_app_le; [done| |lia]. rewrite length_drop. lia. Qed.

Lemma stored_bytes a rest : stored a ->
  sa_family (address_bytes a ++ rest) = sa_family a
  /\ (16 <= length (address_bytes a) <= length (address_bytes a ++ rest))%nat
  /\ sockaddr_size (sa_family a) = Some (length (address_bytes a)).
Proof.
  intros (n & Hn & Hl). pose proof (sockaddr_size_range _ _ Hn).
  unfold address_bytes. rewrite Hn. simpl default.
  assert (Hlen : length (take n a) = n) by (rewrite length_take; lia).
  rewrite length_app, Hlen. split; [|split; [lia|done]].
  unfold sa_family. rewrite get_app by lia. apply get_take. lia.
Qed.

Section Packing.
Context {S : Type}.

Lemma pack_run (addrs : list (list Z)) (s : S) :
  Forall stored addrs -> pack_sockaddr_storage addrs s = Ret (concat (address_bytes <$> addrs)) s.
Proof.
  induction 1 as [|a addrs (n & Hn & Hl) _ IH]; [done|].
  simpl. unfold address_bytes at 1. rewrite Hn. unfold bind. by rewrite IH.
Qed.

Lemma unpack_run (addrs : list (list Z)) rest (s : S) :
  Forall stored addrs ->
  unpack_sockaddr (length addrs) (concat (address_bytes <$> addrs) ++ rest) s
  = Ret (address_bytes <$> addrs) s.
Proof.
  induction 1 as [|a addrs Ha _ IH]; [done|].
  cbn [length unpack_sockaddr fmap list_fmap concat]. rewrite <- app_assoc.
  destruct (stored_bytes a (concat (address_bytes <$> addrs) ++ rest) Ha) as (Hf & Hl & Hs).
  unfold bind at 1, read_bytes at 1. rewrite bool_decide_true by lia. unfold ret at 1.
  rewrite Hf, Hs. unfold bind, read_bytes. rewrite bool_decide_true by lia. unfold ret at 1.
  rewrite take_app_length, drop_app_length. by rewrite IH.
Qed.
End Packing.

(** C22. Packed addresses.  The block of packed addresses that
    [sctp_getladdrs] and [sctp_getpaddrs] build is one that [sctp_bindx] and
    [sctp_connectx] read back: unpacking as many addresses as were packed gives
    the bytes of these addresses, in order, whatever follows the block.  An
    address of another family than IPv4 and IPv6 ends the process, on both
    sides. *)
Theorem packed_addresses {S : Type} (addrs : list (list Z)) (rest : list Z) (s : S)
    (Ha : Forall stored addrs) :
  (exists block, pack_sockaddr_storage addrs s = Ret block s
     /\ unpack_sockaddr (length addrs) (block ++ rest) s = Ret (address_bytes <$> addrs) s)
  /\ forall bad more, sockaddr_size (sa_family bad) = None -> (2 <= length bad)%nat ->
     pack_sockaddr_storage (addrs ++ bad :: more) s = Stop ProcessAbort
     /\ unpack_sockaddr (length (addrs ++ bad :: more))
          (concat (address_bytes <$> addrs) ++ bad ++ rest) s = Stop ProcessAbort.
Proof.
  split; [eexists; split; [by apply pack_run|by apply unpack_run]|].
  intros bad more Hbad Hlen. induction Ha as [|a addrs Ha Hall IH].
  - cbn [app length pack_sockaddr_storage unpack_sockaddr fmap list_fmap concat].
    rewrite Hbad. split; [done|]. unfold bind at 1, read_bytes at 1.
    rewrite bool_decide_true by (rewrite length_app; lia). unfold ret at 1.
    unfold sa_family in *. rewrite get_app by lia. by rewrite Hbad.
  - destruct IH as [IHp IHu]. split.
    + cbn [app pack_sockaddr_storage]. destruct Ha as (n & -> & _). unfold bind. by rewrite IHp.
    + cbn [app length unpack_sockaddr fmap list_fmap concat]. rewrite <- app_assoc.
      destruct (stored_bytes a (concat (address_bytes <$> addrs) ++ bad ++ rest) Ha)
        as (Hf & Hl & Hs).
      unfold bind at 1, read_bytes at 1. rewrite bool_decide_true by lia. unfold ret at 1.
      rewrite Hf, Hs. unfold bind, read_bytes. rewrite bool_decide_true by lia. unfold ret at 1.
      rewrite drop_app_length. by rewrite IHu.
Qed.

Lemma packed_addresses_witness :
  let v4 := [2; 0; 19; 136; 10; 0; 0; 1] ++ replicate 120 0 in
  exists block, pack_sockaddr_storage [v4] tt = Ret block tt /\ length block = 16%nat
    /\ unpack_sockaddr 1 (block ++ [99]) tt = Ret [take 16 v4] tt.
Proof.
  cbv zeta. set (v4 := [2; 0; 19; 136; 10; 0; 0; 1] ++ replicate 120 0).
  assert (H : Forall stored [v4]).
  { constructor; [|constructor]. exists 16%nat. split; [reflexivity|]. apply leb_complete. reflexivity. }
  destruct (packed_addresses [v4] [99] tt H) as [(block & Hp & Hu) _].
  exists block. split; [exact Hp|]. split; [|exact Hu].
  vm_compute in Hp. injection Hp as <-. reflexivity.
Defined.

(** ** The information of a message as a control message *)

Lemma get_split_head n v b : get 0 n (le_split n v ++ b) = v mod 2 ^ (8 * Z.of_nat n).
Proof.
  unfold get. rewrite drop_0, take_app_le by (by rewrite length_le_split).
  rewrite take_ge by (by rewrite length_le_split). apply le_combine_split.
Qed.
Lemma get_split_skip off n m v b :
  (m <= off)%nat -> get off n (le_split m v ++ b) = get (off - m) n b.
Proof.
  intros Hm. unfold get. rewrite drop_app_ge by (by rewrite length_le_split).
  by rewrite length_le_split.
Qed.
Ltac read_fields :=
  repeat (rewrite get_split_skip by lia; cbn [Nat.sub]); rewrite get_split_head.

Definition info_ok (i : sctp_sndrcvinfo) : Prop :=
  0 <= sinfo_stream i < 2 ^ 16 /\ 0 <= sinfo_ssn i < 2 ^ 16 /\ 0 <= sinfo_flags i < 2 ^ 32
  /\ 0 <= sinfo_ppid i < 2 ^ 32 /\ 0 <= sinfo_context i < 2 ^ 32
  /\ 0 <= sinfo_timetolive i < 2 ^ 32 /\ 0 <= sinfo_tsn i < 2 ^ 32
  /\ 0 <= sinfo_cumtsn i < 2 ^ 32 /\ 0 <= sinfo_assoc_id i < 2 ^ 32.

Lemma read_write_sndrcvinfo i rest : info_ok i -> read_sndrcvinfo (write_sndrcvinfo i ++ rest) = i.
Proof.
  intros (H1 & H2 & H3 & H4 & H5 & H6 & H7 & H8 & H9).
  unfold read_sndrcvinfo, write_sndrcvinfo. rewrite <- !app_assoc.
  destruct i as [f1 f2 f3 f4 f5 f6 f7 f8 f9]; cbn [sinfo_stream sinfo_ssn sinfo_flags sinfo_ppid sinfo_context sinfo_timetolive
    sinfo_tsn sinfo_cumtsn sinfo_assoc_id] in *.
  f_equal; read_fields; by apply Z.mod_small.
Qed.

Lemma length_info_control i : length (info_control i) = 48%nat.
Proof.
  unfold info_control, control_message, write_sndrcvinfo. rewrite !length_app, !length_le_split. done.
Qed.

(** The fields of a control message with one [sctp_sndrcvinfo]. *)
Lemma control_fields len i rest :
  0 <= len < 2 ^ 64 ->
  let b := control_message len IPPROTO_SCTP SCTP_SNDRCV (write_sndrcvinfo i) ++ rest in
  rd cmsg_len b = len /\ rd cmsg_level b = IPPROTO_SCTP /\ rd cmsg_type b = SCTP_SNDRCV
  /\ CData b 0 = write_sndrcvinfo i ++ rest.
Proof.
  intros Hlen. unfold control_message, rd, CData. rewrite <- !app_assoc. simpl f_off. simpl f_len.
  split; [|split; [|split]].
  1-3: read_fields; by apply Z.mod_small.
  rewrite !app_assoc, <- (app_assoc _ (write_sndrcvinfo i)).
  apply drop_app_length'. rewrite !length_app, !length_le_split. done.
Qed.

Section Control.
Context `{!Platform} `{!Kernel}.
Variable deliver : list Callback -> P unit.

(** The control block of one message is parsed to that message. *)
Lemma control_loop_info fuel i m info sched :
  msg_controllen m = CSpace sizeof_sctp_sndrcvinfo -> info_ok info ->
  control_loop deliver (S (S fuel)) i m (info_control info) (Some 0%nat) None sched
  = ret (inr (Some info)).
Proof.
  intros Hm Hi. unfold info_control.
  destruct (control_fields (CLength sizeof_sctp_sndrcvinfo) info []) as (Hl & Hv & Ht & Hd);
    [by vm_compute|].
  rewrite !app_nil_r in *.
  assert (Hnext : CNextHeader (control_message (CLength sizeof_sctp_sndrcvinfo) IPPROTO_SCTP
                    SCTP_SNDRCV (write_sndrcvinfo info)) (msg_controllen m) 0 = None).
  { unfold CNextHeader. rewrite drop_0, Hl, Hm. done. }
  cbn [control_loop]. rewrite Hnext, drop_0, Hv, Ht, Hl, Hd. simpl.
  rewrite <- (app_nil_r (write_sndrcvinfo info)) at 1. by rewrite read_write_sndrcvinfo.
Qed.

Lemma bindToAny_sockets i s r s1 : bindToAny deliver i s = Ret r s1 -> Sockets s1 = Sockets s.
Proof.
  intros Hrun. apply (pres_run _ _ _ _ _ (keep_bindToAny deliver (fun l => l = Sockets s) i) Hrun).
  reflexivity.
Qed.

(** A message that carries one [sctp_sndrcvinfo]. *)
Lemma send_with_info_run fd i d data name namelen flags info cs ss s r s1 :
  getSocket fd = Some i -> Sockets s !! i = Some d -> ed_Type d = ESDT_SCTP -> info_ok info ->
  bindToAny deliver i s = Ret r s1 ->
  send_with_info deliver fd data name namelen flags info cs ss s
  = send_message deliver d data
      {| msg_name := name; msg_namelen := namelen; msg_control := Some (info_control info);
         msg_controllen := CSpace sizeof_sctp_sndrcvinfo; msg_flags := flags |}
      0 (Some info) cs ss s1.
Proof.
  intros Hfd Hd Hty Hi Hbind. unfold send_with_info, ext_sendmsg, ext_sendmsg_singlebuffer,
    with_descriptor, on_descriptor. rewrite Hfd. unfold bind at 1, desc at 1. rewrite Hd, Hty.
  unfold bind at 1. rewrite Hbind. cbn [msg_control msg_controllen from_option id].
  rewrite length_info_control. change (CFirstHeader _ _) with (Some 0%nat).
  unfold bind at 1. rewrite control_loop_info by done. unfold ret at 1.
  unfold bind, desc. by rewrite (bindToAny_sockets _ _ _ _ Hbind), Hd.
Qed.

(** C23. The parameters of [sctp_send].  What the caller puts into the
    [sctp_sndrcvinfo] reaches the send operation: the control message that
    [sctp_send] writes is parsed back by [sendmsg] without loss.  The message
    goes to the association of the descriptor, or else through the socket, with
    the stream, the payload protocol, and the flags of the information joined
    with those of the call; the time to live is taken from it only if the flag
    for it is set; the defaults of the association are not used. *)
Theorem sctp_send_parameters (fd : Z) (i : nat) (d : ExtSocketDescriptor) (data : list Z)
    (info : sctp_sndrcvinfo) (flags : Z) (cs ss : schedule) (s : Api) (r : Z) (s1 : Api)
    (Hfd : getSocket fd = Some i) (Hd : Sockets s !! i = Some d) (Hty : ed_Type d = ESDT_SCTP)
    (Hinfo : info_ok info) (Hbind : bindToAny deliver i s = Ret r s1) :
  let f := Z.lor flags (sinfo_flags info) in
  let f := if nonblocking d then set_flag f MSG_DONTWAIT else f in
  let ttl := if has_flag (sinfo_flags info) MSG_PR_SCTP_TTL then sinfo_timetolive info
             else SCTP_INFINITE_LIFETIME in
  sctp_send deliver fd data info flags cs ss s =
  match SCTPAssociationPtr d, SCTPSocketPtr d with
  | Some a, _ =>
      let* result := lift (assoc_sendTo a (Some data) f (sinfo_stream info) (sinfo_ppid info) ttl
                             false None ss) in
      getErrnoResult result
  | None, Some p =>
      let* '(result, _) := lift (sock_sendTo deliver p (Some data) f (sinfo_assoc_id info)
          (sinfo_stream info) (sinfo_ppid info) ttl (sinit_max_attempts (InitMsg d))
          (sinit_max_init_timeo (InitMsg d)) false None (sinit_num_ostreams (InitMsg d)) cs ss) in
      getErrnoResult result
  | None, None => getErrnoResult (- EBADF)
  end s1.
Proof.
  cbv zeta. unfold sctp_send. rewrite (send_with_info_run _ _ _ _ _ _ _ _ _ _ _ _ _ Hfd Hd Hty Hinfo Hbind).
  unfold send_message, send_flags, info_member, time_to_live. cbn [msg_name msg_flags].
  destruct (SCTPAssociationPtr d) as [a|]; [done|]. destruct (SCTPSocketPtr d) as [p|]; [|done].
  unfold send_through_socket, bind, info_member, time_to_live. unfold lift at 1.
  rewrite bool_decide_false by done. unfold lift.
  by destruct (sock_sendTo _ _ _ _ _ _ _ _ _ _ _ _ _ _ _) as [[??]|].
Qed.
End Control.

Definition demo_info : sctp_sndrcvinfo :=
  {| sinfo_stream := 3; sinfo_ssn := 0; sinfo_flags := 0; sinfo_ppid := 9; sinfo_context := 0;
     sinfo_timetolive := 0; sinfo_tsn := 0; sinfo_cumtsn := 0; sinfo_assoc_id := 0 |}.

Lemma sctp_send_parameters_witness :
  bindToAny demo_deliver 5 (demo_api demo_table) = Ret 0 (api_final (bindToAny demo_deliver 5) (demo_api demo_table))
  /\ api_result (sctp_send demo_deliver 5 [104; 105] demo_info 0 [] []) (demo_api demo_table) = Some 2.
Proof.
  assert (Hb : bindToAny demo_deliver 5 (demo_api demo_table)
    = Ret 0 (api_final (bindToAny demo_deliver 5) (demo_api demo_table))).
  { apply (api_run (bindToAny demo_deliver 5) (demo_api demo_table) 0). vm_compute. reflexivity. }
  split; [exact Hb|]. unfold api_result.
  rewrite (sctp_send_parameters demo_deliver 5 5 tcp_descriptor [104; 105] demo_info 0 [] []
    (demo_api demo_table) 0 _ eq_refl eq_refl eq_refl ltac:(repeat split; simpl; lia) Hb).
  vm_compute. reflexivity.
Defined.

(** ** Receiving with the information of the message *)

Section Receive.
Context `{HP : !Platform} `{HK : !Kernel}.
Variable stack : list Z.

Definition received_ok (assocID : Z) (r : RecvArgs) : Prop :=
  0 <= ra_streamID r < 2 ^ 16 /\ 0 <= ra_ssn r < 2 ^ 16 /\ 0 <= ra_protoID r < 2 ^ 32
  /\ 0 <= ra_tsn r < 2 ^ 32 /\ 0 <= assocID < 2 ^ 32.

(** The control block a receive call fills is read back to what was written. *)
Lemma fill_control_read nf assocID r b :
  (48 <= length b)%nat -> received_ok assocID r ->
  let c := fill_control nf 0 assocID r (Some b) (CSpace sizeof_sctp_sndrcvinfo) in
  control_info c.1 c.2 =
    if has_flag nf SCTP_RECVDATAIOEVNT then Some (received_info 0 assocID r) else None.
Proof.
  intros Hb Hr. unfold fill_control. rewrite bool_decide_true, andb_true_r by done.
  destruct (has_flag nf SCTP_RECVDATAIOEVNT); [|done]. cbn [fst snd]. unfold control_info.
  change (CFirstHeader _ _) with (Some 0%nat). cbv iota beta.
  rewrite drop_0. unfold put_bytes. rewrite take_0. cbn [app].
  destruct (control_fields (CSpace sizeof_sctp_sndrcvinfo) (received_info 0 assocID r)
    (drop (0 + length (control_message (CSpace sizeof_sctp_sndrcvinfo) IPPROTO_SCTP SCTP_SNDRCV
       (write_sndrcvinfo (received_info 0 assocID r)))) b)) as (-> & -> & -> & ->); [by vm_compute|].
  change (CSpace sizeof_sctp_sndrcvinfo) with 48. change (CLength sizeof_sctp_sndrcvinfo) with 48.
  rewrite !bool_decide_true by done. cbn [andb].
  rewrite read_write_sndrcvinfo; [done|]. destruct Hr as (?&?&?&?&?).
  unfold info_ok. cbn. lia.
Qed.

(** One receive call on a descriptor of SCTP that succeeds. *)
Lemma recvmsg_singlebuffer_run fd i d len m flags b rounds s result r nf id y :
  getSocket fd = Some i -> Sockets s !! i = Some d -> ed_Type d = ESDT_SCTP ->
  receive_target d len (receive_flags d (msg_flags m) flags b) rounds (sys s)
    = Ret (result, r, nf, id) y ->
  0 <= result -> 0 <= ra_bufferSize r < 2 ^ 31 ->
  exists h, ext_recvmsg_singlebuffer fd len m flags b rounds s
    = Ret (ra_bufferSize r,
           {| rm_data := ra_buffer r; rm_iov_len := ra_bufferSize r; rm_header := h |}) (set_sys y s)
    /\ msg_flags h = ra_flags r
    /\ (msg_control h, msg_controllen h)
       = fill_control nf flags id r (msg_control m) (msg_controllen m).
Proof.
  intros Hfd Hd Hty Hrun Hres Hsize. unfold ext_recvmsg_singlebuffer, on_descriptor. rewrite Hfd.
  unfold bind at 1, desc at 1. rewrite Hd, Hty. unfold bind at 1, lift at 1. rewrite Hrun.
  cbv beta iota zeta. rewrite (bool_decide_true (0 <= result)) by done.
  rewrite s32_small by lia. rewrite (bool_decide_true (0 <= ra_bufferSize r)) by lia.
  destruct (fill_control _ _ _ _ _ _) as [c n] eqn:Hc.
  unfold return_with, getErrnoResult, bind, ret. rewrite bool_decide_false by lia.
  eexists. split; [reflexivity|]. done.
Qed.

(** C24. [sctp_recvmsg].  When data arrives on a descriptor whose receiver
    wants to know about it, the caller gets the stream, the sequence numbers,
    the payload protocol and the association ID of the message, as the socket
    layer delivered them; without that subscription its information is left as
    it was.  Data, length and flags are those of the socket layer. *)
Theorem sctp_recvmsg_info (fd : Z) (i : nat) (d : ExtSocketDescriptor) (len : Z)
    (from : option (list Z)) (fromlen : option Z) (info : sctp_sndrcvinfo) (flags : Z)
    (rounds : list schedule) (s : Api) (result : Z) (r : RecvArgs) (nf id : Z) (y : Sys)
    (Hfd : getSocket fd = Some i) (Hd : Sockets s !! i = Some d) (Hty : ed_Type d = ESDT_SCTP)
    (Hrun : receive_target d len (receive_flags d flags 0 true) rounds (sys s)
            = Ret (result, r, nf, id) y)
    (Hres : 0 <= result) (Hsize : 0 < ra_bufferSize r < 2 ^ 31) (Hr : received_ok id r)
    (Hstack : (48 <= length stack)%nat) :
  exists name, sctp_recvmsg stack fd len from fromlen info flags rounds s
    = Ret (ra_bufferSize r, ra_buffer r, name,
           if has_flag nf SCTP_RECVDATAIOEVNT then received_info 0 id r else info,
           ra_flags r) (set_sys y s).
Proof.
  unfold sctp_recvmsg, ext_recvmsg, ext_recvmsg2. cbn [recvmsg_loop].
  destruct (recvmsg_singlebuffer_run fd i d len
    {| msg_name := from; msg_namelen := default 0 fromlen; msg_control := Some (take 48 stack);
       msg_controllen := CSpace sizeof_sctp_sndrcvinfo; msg_flags := flags |} 0 true rounds s
    result r nf id y Hfd Hd Hty Hrun Hres ltac:(lia)) as (h & Hone & Hf & Hc).
  unfold bind at 1 2. rewrite Hone. cbn [rm_header rm_data rm_iov_len fst snd].
  rewrite (bool_decide_true (0 < ra_bufferSize r)) by lia.
  rewrite Z.add_0_l, s32_small by lia.
  rewrite (bool_decide_false (ra_bufferSize r = 0)) by lia. cbn [andb].
  rewrite (bool_decide_false (ra_bufferSize r < _)) by lia. cbn [andb].
  unfold bind, ret. rewrite (bool_decide_true (0 < ra_bufferSize r)) by lia.
  cbn [msg_control msg_controllen] in Hc.
  pose proof (fill_control_read nf id r (take 48 stack)
    ltac:(rewrite length_take; lia) Hr) as Hi. cbv zeta in Hi. rewrite <- Hc in Hi. cbn [fst snd] in Hi.
  rewrite Hi, Hf. cbn [concat]. rewrite app_nil_r. eexists.
  by destruct (has_flag nf SCTP_RECVDATAIOEVNT).
Qed.

(** The length such a call stores in the vector is its result. *)
Lemma singlebuffer_length fd i d len m flags b rounds s n got s1 :
  getSocket fd = Some i -> Sockets s !! i = Some d -> ed_Type d = ESDT_SCTP ->
  ext_recvmsg_singlebuffer fd len m flags b rounds s = Ret (n, got) s1 -> 0 < n ->
  n = s32 (rm_iov_len got).
Proof.
  intros Hfd Hd Hty. unfold ext_recvmsg_singlebuffer, on_descriptor. rewrite Hfd.
  unfold bind at 1, desc at 1. rewrite Hd, Hty. unfold bind at 1, lift at 1.
  destruct (receive_target _ _ _ _ _) as [[[[result r] nf] id] y|]; [|done].
  cbv beta iota zeta. unfold return_with, getErrnoResult, bind, modify, ret.
  destruct (fill_control _ _ _ _ _ _) as [c k].
  case_bool_decide; case_bool_decide; intros Hrun Hn; simplify_eq/=; lia.
Qed.

(** The end of a record is not the end of a receive call.  A receive call
    with several buffers goes on with the next buffer after every buffer that
    got data, also when the data was shorter than the buffer and complete
    ([MSG_EOR]): the test for this compares the result with the length the
    call itself has stored in the vector.  So the next message is appended. *)
Theorem record_end_ignored (fd : Z) (i : nat) (d : ExtSocketDescriptor) (len : Z) (iov : list Z)
    (m : MsgHdr) (flags : Z) (b : bool) (rounds : list schedule) (before : Z) (s : Api)
    (n : Z) (got : Received_message) (s1 : Api)
    (Hfd : getSocket fd = Some i) (Hd : Sockets s !! i = Some d) (Hty : ed_Type d = ESDT_SCTP)
    (Hone : ext_recvmsg_singlebuffer fd len m flags b rounds s = Ret (n, got) s1) (Hn : 0 < n)
    (Hbefore : 0 <= before) (Hsum : before + n < 2 ^ 31) :
  recvmsg_loop fd (len :: iov) m flags b rounds before s
  = (let* '(total, data, h) := recvmsg_loop fd iov (rm_header got) flags b rounds (before + n) in
     ret (total, rm_data got :: data, h)) s1.
Proof.
  cbn [recvmsg_loop]. unfold bind at 1. rewrite Hone. cbn [fst snd].
  rewrite <- (singlebuffer_length _ _ _ _ _ _ _ _ _ _ _ _ Hfd Hd Hty Hone Hn).
  rewrite (bool_decide_true (0 < n)) by lia. rewrite s32_small by lia.
  rewrite (bool_decide_false (before + n = 0)) by lia. cbn [andb].
  by rewrite (bool_decide_false (n < n)) by lia.
Qed.
End Receive.

(** ** Witnesses *)

(** Two messages of five bytes wait at the one-to-many socket. *)
Definition data_api : @Api demo :=
  {| sys := final (dispatch 2 [DataArrive 5 3 5 0 0 9 0; DataArrive 5 3 5 0 0 9 0])
       (set_world (with_data {[ 5 := [104; 101; 108; 108; 111; 119; 111; 114; 108; 100] ]}
          demo_connected : @W demo) demo_up);
     Sockets := demo_table; errno := 0 |}.
Definition plain_header : MsgHdr :=
  {| msg_name := None; msg_namelen := 0; msg_control := None; msg_controllen := 0; msg_flags := 0 |}.
Definition first_message : @P demo (Z * RecvArgs * Z * Z) :=
  receive_target udp_descriptor 16 (receive_flags udp_descriptor 0 0 true) [[]].
Definition first_args : @RecvArgs demo :=
  {| ra_buffer := [104; 101; 108; 108; 111]; ra_bufferSize := 5; ra_flags := MSG_EOR;
     ra_assocID := 5; ra_streamID := 3; ra_protoID := 9; ra_ssn := 0; ra_tsn := 0;
     ra_address := Some ("10.0.0.1"%string, 7) |}.
Lemma first_message_run :
  first_message (sys data_api) = Ret (5, first_args, 1, 5) (final first_message (sys data_api)).
Proof.
  apply (run_final first_message (sys data_api) (5, first_args, 1, 5)).
  vm_cast_no_check (eq_refl (Some (5, first_args, 1, 5))).
Qed.
Lemma data_socket : Sockets data_api !! 4%nat = Some udp_descriptor.
Proof. vm_cast_no_check (eq_refl (Some udp_descriptor)). Qed.

Lemma sctp_recvmsg_info_witness :
  exists name s', sctp_recvmsg demo_stack 4 16 None None zero_info 0 [[]] data_api
    = Ret (5, [104; 101; 108; 108; 111], name,
           {| sinfo_stream := 3; sinfo_ssn := 0; sinfo_flags := 0; sinfo_ppid := 9;
              sinfo_context := 0; sinfo_timetolive := 0; sinfo_tsn := 0; sinfo_cumtsn := 0;
              sinfo_assoc_id := 5 |}, MSG_EOR) s'.
Proof.
  destruct (sctp_recvmsg_info demo_stack 4 4 udp_descriptor 16 None None zero_info 0 [[]] data_api
    5 first_args 1 5 _ eq_refl eq_refl eq_refl first_message_run ltac:(lia)
    ltac:(simpl; lia) ltac:(repeat split; simpl; lia) ltac:(vm_compute; lia)) as (name & E).
  exists name. eexists. exact E.
Defined.

Definition first_buffer : @A demo (Z * @Received_message) :=
  ext_recvmsg_singlebuffer 4 16 plain_header 0 true [[]].
Definition first_received : Received_message :=
  {| rm_data := [104; 101; 108; 108; 111]; rm_iov_len := 5;
     rm_header := {| msg_name := None; msg_namelen := 0; msg_control := None;
                     msg_controllen := 0; msg_flags := MSG_EOR |} |}.
Lemma first_buffer_run :
  ext_recvmsg_singlebuffer 4 16 plain_header 0 true [[]] data_api
    = Ret (5, first_received) (api_final first_buffer data_api).
Proof.
  apply (api_run first_buffer data_api (5, first_received)).
  vm_cast_no_check (eq_refl (Some (5, first_received))).
Qed.

(** The rest of a call with two buffers of 16 bytes. *)
Definition second_buffer : @A demo (Z * list (list Z) * MsgHdr) :=
  let* '(total, data, h) :=
    recvmsg_loop 4 [16] (rm_header first_received) 0 true [[]] (0 + 5) in
  ret (total, rm_data first_received :: data, h).
Definition both_received : Z * list (list Z) * MsgHdr :=
  (10, [[104; 101; 108; 108; 111]; [119; 111; 114; 108; 100]], rm_header first_received).
Lemma second_buffer_run :
  second_buffer (api_final first_buffer data_api)
    = Ret both_received (api_final second_buffer (api_final first_buffer data_api)).
Proof.
  apply (api_run second_buffer (api_final first_buffer data_api) both_received).
  vm_cast_no_check (eq_refl (Some both_received)).
Qed.

(** One call with two buffers of 16 bytes returns both messages. *)
Lemma record_end_ignored_witness :
  exists s', recvmsg_loop 4 [16; 16] plain_header 0 true [[]] 0 data_api = Ret both_received s'.
Proof.
  pose proof (record_end_ignored 4 4 udp_descriptor 16 [16] plain_header 0 true [[]] 0 data_api
    5 first_received (api_final first_buffer data_api) eq_refl data_socket eq_refl first_buffer_run
    eq_refl ltac:(discriminate) eq_refl) as E.
  exists (api_final second_buffer (api_final first_buffer data_api)).
  exact (eq_trans E second_buffer_run).
Defined.
