(* ===== verification/Addresses.v ===== *)
(** * Properties of addresses

    Conversion to socket addresses of the system and back, the text of
    addresses, their order, and the Internet checksum. *)

From Stdlib Require Import String Ascii.
From stdpp Require Import strings.
From S2P Require Import Prelude Memory Strings Tools State.
From S2P Require Import Socket SocketOps SocketMaster InternetAddress SocketAddress.
Local Open Scope Z_scope.

(** ** Well-formed objects *)

Record internet_ok (a : InternetAddress) : Prop := {
  io_length : length (AddrSpec a) = 16%nat;
  io_bytes : bytes_ok (AddrSpec a);
  io_port : 0 <= Port a < 2 ^ 16;
  io_scope : 0 <= ScopeID a < 2 ^ 16 }.

(** A name that is terminated, as [init] and [setSystemAddress] leave it. *)
Record unix_ok (a : UnixAddress) : Prop := {
  uo_length : length (Name a) = 109%nat;
  uo_bytes : bytes_ok (Name a);
  uo_end : get 108 1 (Name a) = 0 }.

(** ** System addresses *)

Lemma take_drop_take off n k (b : list Z) :
  (off + n <= k)%nat -> take n (drop off (take k b)) = take n (drop off b).
Proof.
  intros H. apply list_eq. intros i. rewrite !lookup_take, !lookup_drop.
  case_decide; [|done]. rewrite lookup_take. by rewrite decide_True by lia.
Qed.
Lemma take_drop_put_ne off n off' bs b :
  (off' + length bs <= length b)%nat -> (off + n <= off' \/ off' + length bs <= off)%nat ->
  take n (drop off (put_bytes off' bs b)) = take n (drop off b).
Proof.
  intros Hl H. apply list_eq. intros i. rewrite !lookup_take, !lookup_drop.
  case_decide; [|done]. rewrite lookup_put_bytes by lia. by rewrite decide_False by lia.
Qed.

Ltac bytes_len :=
  repeat first [rewrite length_put_bytes | rewrite length_put | rewrite length_le_split];
  try lia.

Ltac field_range :=
  unfold AF_INET6, AF_INET, AF_UNIX; cbn -[Z.le Z.lt]; lia.

Section System.
Context (UseIPv6 : bool).
Variable buffer : list Z.
Hypothesis Hlen : length buffer = 128%nat.
Hypothesis Hok : bytes_ok buffer.

Lemma inet6_system a :
  internet_ok a ->
  exists b, getSystemAddress UseIPv6 a buffer 128 AF_INET6 = (28, b)
    /\ bytes_ok b /\ length b = 128%nat /\ get 0 2 b = AF_INET6 /\ get 2 2 b = Port a
    /\ get 24 4 b = ScopeID a /\ take 16 (drop 8 b) = AddrSpec a.
Proof.
  intros [Hl Hb Hp Hs]. unfold getSystemAddress. change (AF_INET6 =? AF_UNSPEC) with false.
  cbv zeta iota beta. change (AF_INET6 =? AF_INET6) with true.
  change (sizeof_sockaddr_in6 <=? 128) with true. cbv iota.
  set (b1 := put 0 2 AF_INET6 buffer). set (b2 := put 4 4 0 b1).
  set (b3 := put 2 2 (Port a) b2). set (b4 := put 24 4 (ScopeID a) b3).
  assert (L1 : length b1 = 128%nat) by (subst b1; bytes_len).
  assert (L2 : length b2 = 128%nat) by (subst b2; bytes_len).
  assert (L3 : length b3 = 128%nat) by (subst b3; bytes_len).
  assert (L4 : length b4 = 128%nat) by (subst b4; bytes_len).
  exists (put_bytes 8 (AddrSpec a) b4).
  split; [done|]. split; [apply put_bytes_ok; [done|]; subst b4 b3 b2 b1; by repeat apply put_ok|].
  split; [by rewrite length_put_bytes by lia|].
  rewrite !get_put_bytes_ne by lia. subst b4. rewrite get_put_same by lia.
  rewrite (get_put_ne 24), (get_put_ne 24) by lia. subst b3.
  rewrite get_put_same, (get_put_ne 2) by lia. subst b2. rewrite (get_put_ne 4) by lia.
  subst b1. rewrite get_put_same by lia.
  rewrite !Z.mod_small by field_range.
  do 3 (split; [done|]). rewrite <- Hl at 1. apply take_drop_put_same. bytes_len.
Qed.

Lemma inet_system a :
  internet_ok a ->
  if isIPv4 a then
    exists b, getSystemAddress UseIPv6 a buffer 128 AF_INET = (16, b)
      /\ bytes_ok b /\ length b = 128%nat /\ get 0 2 b = AF_INET /\ get 2 2 b = Port a
      /\ take 4 (drop 4 b) = take 4 (drop 12 (AddrSpec a))
  else (getSystemAddress UseIPv6 a buffer 128 AF_INET).1 = 0.
Proof.
  intros [Hl Hb Hp Hs]. unfold getSystemAddress. change (AF_INET =? AF_UNSPEC) with false.
  cbv zeta iota beta. change (AF_INET =? AF_INET6) with false. change (AF_INET =? AF_INET) with true.
  change (sizeof_sockaddr_in <=? 128) with true. cbv iota.
  destruct (isIPv4 a); [|done].
  set (b1 := put 0 2 AF_INET buffer). set (b2 := put 2 2 (Port a) b1).
  assert (L1 : length b1 = 128%nat) by (subst b1; bytes_len).
  assert (L2 : length b2 = 128%nat) by (subst b2; bytes_len).
  set (h := take 4 (drop 12 (AddrSpec a))).
  assert (Lh : length h = 4%nat) by (subst h; rewrite length_take, length_drop; lia).
  exists (put_bytes 4 h b2). split; [done|].
  split. { apply put_bytes_ok; [by apply Forall_take, Forall_drop|]. subst b2 b1. by repeat apply put_ok. }
  split; [by rewrite length_put_bytes by lia|].
  rewrite !get_put_bytes_ne by lia. subst b2. rewrite get_put_same, (get_put_ne 2) by lia.
  subst b1. rewrite get_put_same by lia. rewrite !Z.mod_small by field_range.
  do 2 (split; [done|]). rewrite <- Lh at 1. apply take_drop_put_same. bytes_len.
Qed.

Lemma unix_system a :
  unix_ok a ->
  exists b, unix_getSystemAddress a buffer 128 AF_UNIX = (110, b)
    /\ bytes_ok b /\ length b = 128%nat /\ get 0 2 b = AF_UNIX
    /\ take 108 (drop 2 b) = take 108 (Name a).
Proof.
  intros [Hl Hb _]. unfold unix_getSystemAddress. cbn [orb]. rewrite Z.eqb_refl, orb_true_r.
  change (sizeof_sockaddr_un <=? 128) with true. cbv iota.
  set (b1 := put 0 2 AF_UNIX buffer). set (h := take 108 (Name a)).
  assert (L1 : length b1 = 128%nat) by (subst b1; bytes_len).
  assert (Lh : length h = 108%nat) by (subst h; rewrite length_take; lia).
  exists (put_bytes 2 h b1). split; [done|].
  split. { apply put_bytes_ok; [by apply Forall_take|]. by apply put_ok. }
  split; [by rewrite length_put_bytes by lia|].
  rewrite get_put_bytes_ne by lia. subst b1. rewrite get_put_same by lia.
  rewrite Z.mod_small by field_range. split; [done|].
  rewrite <- Lh at 1. apply take_drop_put_same. bytes_len.
Qed.
End System.

(** An IPv4 address is determined by its last four bytes. *)
Lemma get_zero_bytes off n b :
  (off + n <= length b)%nat -> bytes_ok b -> get off n b = 0 ->
  take n (drop off b) = replicate n 0.
Proof.
  revert off b. induction n as [|n IH]; intros off b Hl Hb H; [done|].
  change (S n) with (1 + n)%nat in H |- *. rewrite get_split in H by lia.
  pose proof (get_range off 1 b ltac:(lia) Hb). pose proof (get_range (off + 1) n b ltac:(lia) Hb).
  rewrite <- take_take_drop, drop_drop. rewrite (IH (off + 1)%nat) by (lia || done || nia).
  simpl. f_equal.
  assert (Hfirst : get off 1 b = 0) by nia. unfold get in Hfirst.
  destruct (drop off b) as [|x l] eqn:E.
  { apply (f_equal length) in E. rewrite length_drop in E. simpl in E. lia. }
  simpl in *. f_equal. lia.
Qed.

Lemma mapped_spec a :
  internet_ok a -> IN6_IS_ADDR_V4MAPPED a = true ->
  AddrSpec a = mapped (take 4 (drop 12 (AddrSpec a))).
Proof.
  intros [Hl Hb _ _] H. unfold IN6_IS_ADDR_V4MAPPED, Host32 in H.
  change (4 * Z.to_nat 0)%nat with 0%nat in H. change (4 * Z.to_nat 1)%nat with 4%nat in H.
  change (4 * Z.to_nat 2)%nat with 8%nat in H.
  rewrite !andb_true_iff, !Z.eqb_eq in H. destruct H as [[H0 H4] H8].
  change (htonl 65535) with 4294901760 in H8.
  assert (H10 : get 8 2 (AddrSpec a) = 0 /\ get 10 2 (AddrSpec a) = 65535).
  { change 4%nat with (2 + 2)%nat in H8. rewrite get_split in H8 by lia.
    pose proof (get_range 8 2 (AddrSpec a) ltac:(lia) Hb) as R1.
    pose proof (get_range 10 2 (AddrSpec a) ltac:(lia) Hb) as R2. simpl in R1, R2, H8.
    change (8 + 2)%nat with 10%nat in H8. lia. }
  destruct H10 as [H10 H11].
  destruct (AddrSpec a) as [|x0 [|x1 [|x2 [|x3 [|x4 [|x5 [|x6 [|x7 [|x8 [|x9 [|x10 [|x11
    [|x12 [|x13 [|x14 [|x15 [|]]]]]]]]]]]]]]]]]; try done.
  apply get_zero_bytes in H0, H4, H10; try done; try (simpl; lia).
  simpl in H0, H4, H10. simplify_eq. unfold mapped. simpl.
  unfold get in H11. simpl in H11. unfold bytes_ok in Hb. rewrite !Forall_cons in Hb.
  unfold is_byte in Hb.
  assert (x10 = 255 /\ x11 = 255) as [-> ->] by lia. done.
Qed.

Lemma unspecified_zero a :
  internet_ok a -> IN6_IS_ADDR_UNSPECIFIED a = true -> take 4 (drop 12 (AddrSpec a)) = [0; 0; 0; 0].
Proof.
  intros [Hl Hb _ _] H. unfold IN6_IS_ADDR_UNSPECIFIED, Host32 in H.
  rewrite !andb_true_iff, !Z.eqb_eq in H. destruct H as [_ H].
  apply get_zero_bytes in H; [exact H|simpl; lia|done].
Qed.

(** ** Round trip through a socket address *)

Definition address_ok (a : SocketAddress) : Prop :=
  match a with
  | Internet a => internet_ok a /\ Valid a = true
  | Unix a => unix_ok a /\ unix_isValid a = true
  end.
(** The families an address can be written in. *)
Definition has_family (a : SocketAddress) (family : Z) : Prop :=
  match a with
  | Internet a => family = AF_INET6 \/ (family = AF_INET /\ isIPv4 a = true)
  | Unix _ => family = AF_UNIX
  end.
(** The host that is read back: [isIPv4] takes the unspecified address [::] for
    an IPv4 address, and an IPv4 address is read back as an IPv4-mapped one. *)
Definition host_read_back (family : Z) (a : InternetAddress) : list Z :=
  if (family =? AF_INET) && IN6_IS_ADDR_UNSPECIFIED a then mapped [0; 0; 0; 0] else AddrSpec a.
(** The same host, but for that, and port, and the same scope if the family has
    scopes. *)
Definition same_endpoint (family : Z) (a b : SocketAddress) : Prop :=
  match a, b with
  | Internet a, Internet b =>
      AddrSpec b = host_read_back family a /\ Port b = Port a /\ (family = AF_INET6 -> ScopeID b = ScopeID a)
  | Unix a, Unix b => c_string (Name b) = c_string (Name a)
  | _, _ => False
  end.

Lemma c_string_take n b : get n 1 b = 0 -> (n < length b)%nat ->
  c_string (take n b ++ [0]) = c_string b.
Proof.
  revert b. induction n as [|n IH]; intros [|x b] H Hl; simpl in *; try lia.
  - unfold get in H. simpl in H. assert (x = 0) as -> by lia. done.
  - case_match; [done|]. f_equal. apply IH; [exact H|lia].
Qed.
Lemma c_string_app_zero b rest : c_string (b ++ 0 :: rest) = c_string (b ++ [0]).
Proof. induction b as [|x b IH]; simpl; [done|]. case_match; [done|]. by rewrite IH. Qed.

Section RoundTrip.
Context `{HR : !Resolver} (UseIPv6 : bool).
Variables (blank : InternetAddress) (blank_unix : UnixAddress) (blank_buffer : list Z).
Hypothesis Hlen : length blank_buffer = 128%nat.
Hypothesis Hok : bytes_ok blank_buffer.
Hypothesis Hunix : length (Name blank_unix) = 109%nat.
Notation storage_bytes := (storage_bytes UseIPv6 blank_buffer).
Notation create_from_sockaddr := (create_from_sockaddr blank blank_unix).

Lemma storage_take a family n b :
  address_getSystemAddress UseIPv6 a blank_buffer 128 family = (n, b) -> bytes_ok b ->
  storage_bytes a family = take (Z.to_nat n) b.
Proof. intros E Hb. unfold SocketAddress.storage_bytes. rewrite E. apply cells_id. by apply Forall_take. Qed.

Lemma internet_round_trip a family flags n :
  internet_ok a -> Valid a = true -> has_family (Internet a) family ->
  exists b, create_from_sockaddr flags (storage_bytes (Internet a) family) n = Some b
            /\ same_endpoint family (Internet a) b.
Proof.
  intros Ha Hv [->|[-> Hm]].
  - destruct (inet6_system UseIPv6 blank_buffer Hlen Hok a Ha) as (b & E & Hb & Hl & H0 & H2 & H24 & H8).
    rewrite (storage_take (Internet a) _ 28 b E Hb). unfold create_from_sockaddr. cbv zeta.
    rewrite get_take, H0 by lia. change (AF_INET6 =? AF_INET6) with true. rewrite orb_true_r.
    unfold init_sockaddr, setSystemAddress. rewrite !get_take, H0, H2, H24 by lia.
    change (AF_INET6 =? AF_INET) with false. change (AF_INET6 =? AF_INET6) with true. simpl.
    eexists. split; [done|]. destruct Ha. simpl. rewrite take_drop_take, H8 by lia.
    rewrite wrap_small by lia. done.
  - pose proof (inet_system UseIPv6 blank_buffer Hlen Hok a Ha) as H.
    rewrite Hm in H. destruct H as (b & E & Hb & Hl & H0 & H2 & H4).
    rewrite (storage_take (Internet a) _ 16 b E Hb). unfold create_from_sockaddr. cbv zeta.
    rewrite get_take, H0 by lia. change (AF_INET =? AF_INET) with true. cbn [orb].
    unfold init_sockaddr, setSystemAddress. rewrite !get_take, H0, H2 by lia.
    change (AF_INET =? AF_INET) with true. simpl.
    eexists. split; [done|]. simpl. rewrite take_drop_take, H4 by lia.
    unfold host_read_back. change (AF_INET =? AF_INET) with true. cbn [andb].
    destruct (IN6_IS_ADDR_UNSPECIFIED a) eqn:Hz.
    + rewrite (unspecified_zero a Ha Hz). split; [done|]. split; [done|]. intros E6. discriminate E6.
    + unfold isIPv4 in Hm. rewrite Hz, orb_false_r in Hm.
      split; [symmetry; by apply mapped_spec|]. split; [done|]. intros E6. discriminate E6.
Qed.

Lemma unix_round_trip a flags n :
  unix_ok a -> unix_isValid a = true ->
  exists b, create_from_sockaddr flags (storage_bytes (Unix a) AF_UNIX) n = Some b
            /\ same_endpoint AF_UNIX (Unix a) b.
Proof.
  intros Ha Hv.
  destruct (unix_system blank_buffer Hlen Hok a Ha) as (b & E & Hb & Hl & H0 & H2).
  destruct Ha as [HL HB HE].
  rewrite (storage_take (Unix a) _ 110 b E Hb). unfold create_from_sockaddr. cbv zeta.
  rewrite get_take, H0 by lia. change (AF_UNIX =? AF_INET) with false.
  change (AF_UNIX =? AF_INET6) with false. change (AF_UNIX =? AF_UNIX) with true. cbn [orb].
  unfold unix_setSystemAddress. rewrite get_take, H0 by (cbn; lia). change (AF_UNIX =? AF_UNIX) with true.
  cbn [snd]. rewrite take_drop_take, H2 by lia.
  assert (EN : put 108 1 0 (put_bytes 0 (take 108 (Name a)) (Name blank_unix)) = take 108 (Name a) ++ [0]).
  { unfold put, put_bytes. simpl take at 2. rewrite app_nil_l, length_take, HL.
    change (Nat.min 108 109) with 108%nat. rewrite take_app_le by (rewrite length_take; lia).
    rewrite take_ge by (rewrite length_take; lia). change (le_split 1 0) with [0].
    rewrite drop_app_ge by (rewrite length_take, HL; simpl; lia). rewrite length_take, HL.
    rewrite drop_drop, (drop_ge (Name blank_unix)) by (simpl; lia). by rewrite app_nil_r. }
  rewrite EN. unfold unix_isValid, unix_isNull in *. cbn [Name].
  assert (EG : get 0 1 (take 108 (Name a) ++ [0]) = get 0 1 (Name a)).
  { unfold get. rewrite !drop_0. f_equal. rewrite take_app_le by (rewrite length_take; lia).
    rewrite take_take. done. }
  rewrite EG, Hv. eexists. split; [done|]. simpl. by apply c_string_take; [|lia].
Qed.

(** C26. Socket addresses.  An address written to a [sockaddr_storage] and read
    back by [createSocketAddress] is the same endpoint: host and port, for
    IPv6 also the scope, or the name of the Unix socket.  Every Internet
    address can be written in the family AF_INET6.  In AF_INET only those that
    [isIPv4] accepts can, and another one is refused there, with nothing written;
    [isIPv4] accepts the IPv4-mapped addresses and [::], and [::] alone does not
    come back from AF_INET as it was, but as ::ffff:0.0.0.0, with its port. *)
Theorem sockaddr_round_trip (a : SocketAddress) (family flags n : Z) (Ha : address_ok a) :
  (has_family a family ->
   exists b, create_from_sockaddr flags (storage_bytes a family) n = Some b
             /\ same_endpoint family a b)
  /\ forall i, a = Internet i -> isIPv4 i = false -> storage_bytes a AF_INET = [].
Proof.
  split.
  - intros Hf. destruct a as [a|a]; destruct Ha as [Ha Hv].
    + by apply internet_round_trip.
    + simpl in Hf. subst. by apply unix_round_trip.
  - intros i -> Hi. destruct Ha as [Ha Hv].
    pose proof (inet_system UseIPv6 blank_buffer Hlen Hok i Ha) as H. rewrite Hi in H.
    unfold SocketAddress.storage_bytes, address_getSystemAddress.
    destruct (getSystemAddress _ _ _ _ _) as [k b]. simpl in H. by subst.
Qed.
End RoundTrip.

(** ** Witnesses *)

(** A resolver that knows no names. *)
#[refine] Instance demo_resolver : Resolver := {|
  getaddrinfo node service hints := None;
  getnameinfo b := None;
  if_indextoname i := if i =? 2 then Some "eth0"%string else None;
  nodename := None |}.
Proof. done. Defined.

Definition demo_buffer : list Z := replicate 128 170.
Definition demo_memory : InternetAddress :=
  {| AddrSpec := replicate 16 170; InternetAddress.Port := 7; ScopeID := 9; Valid := false; Format := 0 |}.
Definition demo_name : UnixAddress := {| Name := replicate 109 170 |}.
(** 10.0.0.1:5000, fe80::1%eth0 port 80, and unix:/tmp/x. *)
Definition demo_inet : InternetAddress :=
  {| AddrSpec := mapped [10; 0; 0; 1]; InternetAddress.Port := htons 5000; ScopeID := 0;
     Valid := true; Format := PF_Default |}.
Definition demo_inet6 : InternetAddress :=
  {| AddrSpec := [254; 128] ++ replicate 13 0 ++ [1]; InternetAddress.Port := htons 80; ScopeID := 2;
     Valid := true; Format := PF_Default |}.
Definition demo_any : InternetAddress :=
  {| AddrSpec := replicate 16 0; InternetAddress.Port := htons 80; ScopeID := 0; Valid := true;
     Format := PF_Default |}.
Definition demo_unix : UnixAddress := unix_init (Some "unix:/tmp/x"%string) demo_name.

Ltac bytes_check := repeat (constructor; [split; [apply Z.leb_le|apply Z.ltb_lt]; reflexivity|]); constructor.
Lemma demo_inet_ok : internet_ok demo_inet.
Proof. split; [reflexivity|bytes_check|by vm_compute|by vm_compute]. Qed.
Lemma demo_inet6_ok : internet_ok demo_inet6.
Proof. split; [reflexivity|bytes_check|by vm_compute|by vm_compute]. Qed.
Lemma demo_any_ok : internet_ok demo_any.
Proof. split; [reflexivity|bytes_check|by vm_compute|by vm_compute]. Qed.
Lemma demo_buffer_ok : bytes_ok demo_buffer.
Proof. by apply Forall_replicate. Qed.

Lemma sockaddr_round_trip_witness :
  (exists b, create_from_sockaddr demo_memory demo_name 0
               (storage_bytes true demo_buffer (Internet demo_inet) AF_INET) 16 = Some b
             /\ same_endpoint AF_INET (Internet demo_inet) b)
  /\ storage_bytes true demo_buffer (Internet demo_inet6) AF_INET = []
  /\ (exists b, create_from_sockaddr demo_memory demo_name 0
                 (storage_bytes true demo_buffer (Internet demo_any) AF_INET) 16 = Some (Internet b)
             /\ AddrSpec demo_any = replicate 16 0 /\ AddrSpec b = mapped [0; 0; 0; 0])
  /\ exists b, create_from_sockaddr demo_memory demo_name 0
                 (storage_bytes true demo_buffer (Internet demo_inet6) AF_INET6) 28 = Some b
             /\ same_endpoint AF_INET6 (Internet demo_inet6) b.
Proof.
  split; [|split; [|split]].
  - apply (sockaddr_round_trip true demo_memory demo_name demo_buffer eq_refl demo_buffer_ok eq_refl
      (Internet demo_inet) AF_INET 0 16 (conj demo_inet_ok eq_refl)).
    right. split; reflexivity.
  - apply (proj2 (sockaddr_round_trip true demo_memory demo_name demo_buffer eq_refl demo_buffer_ok
      eq_refl (Internet demo_inet6) AF_INET 0 16 (conj demo_inet6_ok eq_refl)) demo_inet6); reflexivity.
  - destruct (proj1 (sockaddr_round_trip true demo_memory demo_name demo_buffer eq_refl demo_buffer_ok
      eq_refl (Internet demo_any) AF_INET 0 16 (conj demo_any_ok eq_refl)) (or_intror (conj eq_refl eq_refl)))
      as ([b|b] & E & Hb); [|destruct Hb].
    exists b. split; [exact E|]. split; [reflexivity|]. rewrite (proj1 Hb). reflexivity.
  - apply (sockaddr_round_trip true demo_memory demo_name demo_buffer eq_refl demo_buffer_ok eq_refl
      (Internet demo_inet6) AF_INET6 0 28 (conj demo_inet6_ok eq_refl)).
    left. reflexivity.
Defined.

(** ** Copies of Unix addresses *)

(** [init(const UnixAddress&)] hands the name without "unix:" to the parser of
    names, which demands it: the copy of an address has no name, unless the
    path itself begins with "unix:". *)
Lemma unix_copy_loses_name (a blank : UnixAddress) :
  length (Name blank) = 109%nat ->
  string_eq (left (Some (c_string (Name a))) 5) (Some "unix:"%string) = false ->
  unix_isValid (unix_duplicate a blank) = false.
Proof.
  intros Hl Hp. unfold unix_duplicate, unix_init_copy, unix_init. rewrite Hp.
  assert (Hr : unix_isValid (unix_reset blank) = false).
  { unfold unix_isValid, unix_isNull, unix_reset. cbn [Name]. rewrite get_put_same by lia. reflexivity. }
  by destruct (_ <? _).
Qed.
Example unix_copy_ex :
  unix_getAddressString demo_unix 0 = "unix:/tmp/x"%string
  /\ unix_getAddressString (unix_duplicate demo_unix demo_name) 0 = "(invalid)"%string.
Proof. split; reflexivity. Qed.
