(* ===== verification/AddressText.v ===== *)
(** * The text of addresses is unambiguous

    The socket layer compares addresses by their text ([sctpsocket.cc], the
    search for the association to a destination).  A scanner reads the groups
    of an IPv6 address back from its text; with it two addresses of the same
    text are shown to be the same. *)

From Stdlib Require Import String Ascii.
From stdpp Require Import strings.
From S2P Require Import Prelude Memory Strings Tools State.
From S2P Require Import Socket SocketOps SocketMaster SocketAssoc InternetAddress SocketAddress Addresses.
Local Open Scope Z_scope.

(** ** Strings *)

Lemma app_assoc_s (s t u : string) : (s +:+ t) +:+ u = s +:+ (t +:+ u).
Proof. induction s as [|c s IH]; [done|]. change (String c ((s +:+ t) +:+ u) = String c (s +:+ (t +:+ u))). by rewrite IH. Qed.
Lemma length_app_s (s t : string) : String.length (s +:+ t) = (String.length s + String.length t)%nat.
Proof. induction s as [|c s IH]; [done|]. change (S (String.length (s +:+ t)) = S (String.length s + String.length t)). by rewrite IH. Qed.
Lemma app_nil_s (s : string) : s +:+ "" = s.
Proof. induction s as [|c s IH]; [done|]. change (String c (s +:+ "") = String c s). by rewrite IH. Qed.
Lemma app_cons_s c (s t : string) : String c s +:+ t = String c (s +:+ t).
Proof. done. Qed.

Lemma cons_inj_s c (s t : string) : String c "" +:+ s = String c "" +:+ t -> s = t.
Proof. intros E. by injection E. Qed.

(** The text has no such character. *)
Fixpoint no_char (c : ascii) (s : string) : Prop :=
  match s with EmptyString => True | String d s => d <> c /\ no_char c s end.
Lemma no_char_app c s t : no_char c (s +:+ t) <-> no_char c s /\ no_char c t.
Proof. induction s as [|d s IH]; simpl; [tauto|]. rewrite IH. tauto. Qed.

(** What follows the last occurrence of a character. *)
Lemma last_part c s1 t1 s2 t2 :
  no_char c t1 -> no_char c t2 ->
  s1 +:+ String c t1 = s2 +:+ String c t2 -> t1 = t2.
Proof.
  intros H1 H2. revert s2. induction s1 as [|d s1 IH]; intros [|e s2] E.
  - by injection E.
  - injection E as -> E. subst t1. rewrite no_char_app in H1. simpl in H1. tauto.
  - injection E as -> E. subst t2. rewrite no_char_app in H2. simpl in H2. tauto.
  - injection E as _ E. by apply (IH s2).
Qed.

(** ** Numbers *)

Lemma print_digits_app fuel base n rest t :
  print_digits fuel base n rest +:+ t = print_digits fuel base n (rest +:+ t).
Proof.
  revert n rest. induction fuel as [|fuel IH]; intros n rest; [done|].
  cbn [print_digits]. case_match; [done|]. apply IH.
Qed.

Lemma digit_value_digit base d : 0 <= d < base -> base <= 16 -> digit_value base (digit d) = Some d.
Proof.
  intros Hd Hb.
  assert (Hall : forallb (fun d => match digit_value 16 (digit d) with
    | Some x => (x =? d) | None => false end) (seqZ 0 16) = true) by (vm_compute; done).
  rewrite forallb_forall in Hall.
  assert (In d (seqZ 0 16)) as Hin by (apply list_elem_of_In, elem_of_seqZ; lia).
  specialize (Hall d Hin). unfold digit_value in *. cbv zeta in *.
  match type of Hall with (match (if ?x <? 16 then _ else _) with _ => _ end) = true =>
    set (value := x) in * end.
  destruct (value <? 16); [|done]. apply Z.eqb_eq in Hall. rewrite Hall.
  by rewrite (proj2 (Z.ltb_lt d base)) by lia.
Qed.

(** Reading the digits of a number. *)
Lemma read_print base : 1 < base <= 16 -> forall fuel n rest acc,
  0 <= n < base ^ Z.of_nat fuel -> (0 < fuel)%nat ->
  exists k, 0 <= k /\ n < base ^ k
    /\ read_digits base (print_digits fuel base n rest) acc
       = read_digits base rest (acc * base ^ k + n).
Proof.
  intros Hb fuel. induction fuel as [|fuel IH]; intros n rest acc Hn Hf; [lia|].
  cbn [print_digits]. pose proof (Z.mod_pos_bound n base ltac:(lia)) as Hm.
  pose proof (Z.div_mod n base ltac:(lia)) as Hd.
  assert (Hstep : forall x, read_digits base (String (digit (n mod base)) rest) x
                            = read_digits base rest (x * base + n mod base)).
  { intros x. cbn [read_digits]. by rewrite digit_value_digit by lia. }
  destruct (n / base =? 0) eqn:E; [apply Z.eqb_eq in E|apply Z.eqb_neq in E].
  - exists 1. rewrite Hstep. split; [lia|]. split; [nia|]. f_equal. nia.
  - assert (Hn' : 0 <= n / base < base ^ Z.of_nat fuel).
    { split; [apply Z.div_pos; lia|]. apply Z.div_lt_upper_bound; [lia|].
      replace (base * base ^ Z.of_nat fuel) with (base ^ Z.of_nat (S fuel)); [lia|].
      by rewrite Nat2Z.inj_succ, Z.pow_succ_r by lia. }
    destruct (IH (n / base) (String (digit (n mod base)) rest) acc Hn') as (k & Hk & Hlt & ->).
    { destruct fuel; [|lia]. simpl in Hn'. lia. }
    exists (k + 1). rewrite Hstep. split; [lia|]. rewrite Z.pow_add_r, Z.pow_1_r by lia.
    split; [nia|]. f_equal. nia.
Qed.

(** The characters a number can be printed with do not begin the rest. *)
Definition stops (base : Z) (s : string) : Prop :=
  match s with EmptyString => True | String c _ => digit_value base c = None end.
Lemma read_digits_stop base s acc : stops base s -> read_digits base s acc = (acc, s).
Proof. destruct s as [|c s]; simpl; [done|]. by intros ->. Qed.

Lemma read_unsigned base n rest :
  1 < base <= 16 -> 0 <= n < 2 ^ 64 -> stops base rest ->
  read_digits base (print_unsigned base n +:+ rest) 0 = (n, rest).
Proof.
  intros Hb Hn Hs. unfold print_unsigned. rewrite print_digits_app.
  destruct (read_print base Hb 64 n ("" +:+ rest) 0) as (k & _ & _ & ->); [|lia|].
  { split; [lia|]. apply Z.lt_le_trans with (2 ^ 64); [lia|]. apply Z.pow_le_mono_l. lia. }
  by rewrite read_digits_stop.
Qed.

Lemma number_inj base n m s t :
  1 < base <= 16 -> 0 <= n < 2 ^ 64 -> 0 <= m < 2 ^ 64 -> stops base s -> stops base t ->
  print_unsigned base n +:+ s = print_unsigned base m +:+ t -> n = m /\ s = t.
Proof.
  intros Hb Hn Hm Hs Ht E. apply (f_equal (fun x => read_digits base x 0)) in E.
  rewrite !read_unsigned in E by done. by simplify_eq.
Qed.
Lemma int_inj n m s t :
  0 <= n < 2 ^ 64 -> 0 <= m < 2 ^ 64 -> stops 10 s -> stops 10 t ->
  print_int n +:+ s = print_int m +:+ t -> n = m /\ s = t.
Proof.
  intros Hn Hm. unfold print_int. rewrite !(proj2 (Z.ltb_ge _ 0)) by lia.
  by apply number_inj.
Qed.

Lemma print_unsigned_cons base n : exists c s, print_unsigned base n = String c s.
Proof.
  unfold print_unsigned. assert (H : forall fuel n rest, exists c s,
    print_digits (S fuel) base n rest = String c s).
  { induction fuel as [|fuel IH]; intros m rest; cbn [print_digits]; case_match; eauto. }
  apply H.
Qed.

Lemma no_char_digits c fuel n rest :
  digit_value 10 c = None -> no_char c rest -> no_char c (print_digits fuel 10 n rest).
Proof.
  intros Hc. revert n rest. induction fuel as [|fuel IH]; intros n rest Hr; [done|]. cbn [print_digits].
  assert (Hd : digit (n mod 10) <> c).
  { intros <-. pose proof (Z.mod_pos_bound n 10 ltac:(lia)).
    by rewrite digit_value_digit in Hc by lia. }
  case_match; [done|]. by apply IH.
Qed.
Lemma no_char_int c n : digit_value 10 c = None -> 0 <= n -> no_char c (print_int n).
Proof.
  intros Hc Hn. unfold print_int. rewrite (proj2 (Z.ltb_ge _ 0)) by lia. by apply no_char_digits.
Qed.

(** ** IPv4 addresses *)

Lemma four_digits x :
  0 <= x < 2 ^ 32 ->
  x = byte_of x 3 * 2 ^ 24 + byte_of x 2 * 2 ^ 16 + byte_of x 1 * 2 ^ 8 + byte_of x 0.
Proof.
  intros Hx. rewrite !byte_of_eq by lia.
  change (256 ^ 0) with 1. change (256 ^ 1) with 256.
  change (256 ^ 2) with (256 * 256). change (256 ^ 3) with (256 * 256 * 256).
  rewrite Z.div_1_r, <- !Z.div_div by lia.
  set (a := x / 256). set (b := a / 256). set (c := b / 256).
  pose proof (Z.div_mod x 256 ltac:(lia)). pose proof (Z.div_mod a 256 ltac:(lia)).
  pose proof (Z.div_mod b 256 ltac:(lia)).
  rewrite (Z.mod_small c) by (subst c b a; rewrite !Z.div_div by lia;
    split; [apply Z.div_pos|apply Z.div_lt_upper_bound]; lia).
  subst c b a. lia.
Qed.
Lemma translate32_range x : 0 <= translate32 x < 2 ^ 32.
Proof.
  rewrite translate32_eq. pose proof (byte_of_range x 0). pose proof (byte_of_range x 1).
  pose proof (byte_of_range x 2). pose proof (byte_of_range x 3). lia.
Qed.
Lemma translate32_involutive x : 0 <= x < 2 ^ 32 -> translate32 (translate32 x) = x.
Proof.
  intros Hx. pose proof (four_digits _ (translate32_range x)) as E.
  set (y := translate32 x) in *. pose proof (translate32_eq x) as Ex. fold y in Ex.
  rewrite (four_digits x), (translate32_eq y) by done.
  pose proof (byte_of_range x 0). pose proof (byte_of_range x 1). pose proof (byte_of_range x 2).
  pose proof (byte_of_range x 3). pose proof (byte_of_range y 0). pose proof (byte_of_range y 1).
  pose proof (byte_of_range y 2). pose proof (byte_of_range y 3). lia.
Qed.
Lemma translate32_inj x y :
  0 <= x < 2 ^ 32 -> 0 <= y < 2 ^ 32 -> translate32 x = translate32 y -> x = y.
Proof.
  intros Hx Hy E. rewrite !translate32_eq in E. rewrite (four_digits x), (four_digits y) by done.
  pose proof (byte_of_range x 0). pose proof (byte_of_range x 1). pose proof (byte_of_range x 2).
  pose proof (byte_of_range x 3). pose proof (byte_of_range y 0). pose proof (byte_of_range y 1).
  pose proof (byte_of_range y 2). pose proof (byte_of_range y 3). lia.
Qed.

Lemma print_ipv4_bytes x :
  print_ipv4 x = (print_int (byte_of x 3) +:+ "." +:+ print_int (byte_of x 2) +:+ "." +:+
                  print_int (byte_of x 1) +:+ "." +:+ print_int (byte_of x 0))%string.
Proof.
  unfold print_ipv4, byte_of. rewrite !Z.shiftr_land. done.
Qed.

Lemma print_ipv4_inj x y s t :
  0 <= x < 2 ^ 32 -> 0 <= y < 2 ^ 32 -> stops 10 s -> stops 10 t ->
  print_ipv4 x +:+ s = print_ipv4 y +:+ t -> x = y /\ s = t.
Proof.
  intros Hx Hy Hs Ht E. rewrite !print_ipv4_bytes, !app_assoc_s in E.
  assert (R : forall z k, 0 <= byte_of z k < 2 ^ 64) by (intros z k; pose proof (byte_of_range z k); lia).
  do 3 (apply int_inj in E as [? E]; [|apply R|apply R|done|done];
        injection E as E; fold String.append in E).
  apply int_inj in E as [? E]; [|apply R|apply R|done|done].
  split; [|done]. rewrite (four_digits x), (four_digits y) by done. congruence.
Qed.

Lemma print_ipv4_bracket x s t : print_ipv4 x +:+ s <> "[" +:+ t.
Proof.
  rewrite print_ipv4_bytes, !app_assoc_s. pose proof (byte_of_range x 3).
  pose proof (no_char_int "[" (byte_of x 3) eq_refl ltac:(lia)) as Hn. unfold print_int in *.
  rewrite (proj2 (Z.ltb_ge _ 0)) in * by lia.
  destruct (print_unsigned_cons 10 (byte_of x 3)) as (c & r & E). rewrite E in *.
  intros [= Hc _]. by destruct Hn.
Qed.

(** ** IPv6 addresses *)

(** The groups, as the text is printed from them. *)
Definition groups (a : InternetAddress) : list Z := group a <$> [0; 1; 2; 3; 4; 5; 6; 7].

(** Groups after the compressed ones. *)
Fixpoint plain (vs : list Z) : string :=
  match vs with
  | [] => EmptyString
  | v :: vs' => (print_unsigned 16 v +:+ (match vs' with [] => "" | _ => ":" end) +:+ plain vs')%string
  end.
Fixpoint zeros (vs : list Z) : nat :=
  match vs with v :: vs' => if v =? 0 then S (zeros vs') else O | [] => O end.
(** Groups before; [first] if nothing has been printed. *)
Fixpoint compressed_text (first : bool) (vs : list Z) : string :=
  match vs with
  | [] => EmptyString
  | v :: vs' =>
      if negb (v =? 0) || bool_decide (zeros vs' = 0%nat)
      then (print_unsigned 16 v +:+ (match vs' with [] => "" | _ => ":" end)
            +:+ compressed_text false vs')%string
      else
        let rest := drop (zeros vs') vs' in
        ((if first || bool_decide (rest = []) then ":" else "")
         +:+ (match rest with [] => "" | _ => ":" end) +:+ plain rest)%string
  end.

(** What the text consists of: numbers, and colons that follow no number. *)
Fixpoint tokens (first : bool) (vs : list Z) : list (option Z) :=
  match vs with
  | [] => []
  | v :: vs' =>
      if negb (v =? 0) || bool_decide (zeros vs' = 0%nat) then Some v :: tokens false vs'
      else
        let rest := drop (zeros vs') vs' in
        (if first || bool_decide (rest = []) then [None] else [])
        ++ (match rest with [] => [] | _ => [None] end) ++ (Some <$> rest)
  end.

(** The scanner. *)
Fixpoint scan (s : string) (current : option Z) : list (option Z) * string :=
  match s with
  | EmptyString => (match current with Some n => [Some n] | None => [] end, s)
  | String c s' =>
      match digit_value 16 c with
      | Some d => scan s' (Some (default 0 current * 16 + d))
      | None =>
          if Ascii.eqb c ":" then
            let '(l, rest) := scan s' None in (current :: l, rest)
          else (match current with Some n => [Some n] | None => [] end, s)
      end
  end.

Lemma scan_digits s : forall cur n rest,
  read_digits 16 s (default 0 cur) = (n, rest) -> rest <> s ->
  scan s cur = scan rest (Some n).
Proof.
  induction s as [|c s IH]; intros cur n rest; cbn [read_digits scan]; [by intros [= <- <-]|].
  destruct (digit_value 16 c) as [d|] eqn:E; [|by intros [= <- <-]].
  intros H _. destruct (decide (rest = s)) as [->|Hne].
  - destruct s as [|c' s']; [by injection H as <-|]. cbn [read_digits] in H.
    destruct (digit_value 16 c') eqn:E'; [|by injection H as <-].
    exfalso. assert (Hlen : forall s a, (String.length (read_digits 16 s a).2 <= String.length s)%nat).
    { induction s as [|e s IHs]; intros b; simpl; [done|]. case_match; simpl; [|done].
      specialize (IHs (b * 16 + z0)). lia. }
    specialize (Hlen s' ((default 0 cur * 16 + d) * 16 + z)). rewrite H in Hlen. simpl in Hlen. lia.
  - by apply IH.
Qed.

Lemma scan_number n rest :
  0 <= n < 2 ^ 16 -> stops 16 rest -> scan (print_unsigned 16 n +:+ rest) None = scan rest (Some n).
Proof.
  intros Hn Hs. apply scan_digits.
  - apply read_unsigned; by (lia || done).
  - destruct (print_unsigned_cons 16 n) as (c & s & ->). intros E.
    apply (f_equal String.length) in E. rewrite app_cons_s in E. simpl in E.
    rewrite length_app_s in E. lia.
Qed.

(** A text that ends an address. *)
Definition ends (s : string) : Prop :=
  match s with EmptyString => True | String c _ => digit_value 16 c = None /\ c <> ":"%char end.
Lemma ends_stops s : ends s -> stops 16 s.
Proof. destruct s; simpl; tauto. Qed.
Lemma scan_end s cur :
  ends s -> scan s cur = (match cur with Some n => [Some n] | None => [] end, s).
Proof.
  destruct s as [|c s]; cbn [scan ends]; [done|]. intros [-> Hc].
  destruct (Ascii.eqb_spec c ":"); by subst.
Qed.
Lemma scan_colon s cur : scan (":" +:+ s) cur = (cur :: (scan s None).1, (scan s None).2).
Proof. change (":" +:+ s) with (String ":" s). cbn [scan]. simpl. by destruct (scan s None). Qed.

Definition group_range (vs : list Z) : Prop := Forall (fun v => 0 <= v < 2 ^ 16) vs.

Lemma scan_plain vs rest :
  group_range vs -> ends rest -> scan (plain vs +:+ rest) None = (Some <$> vs, rest).
Proof.
  intros Hv Hr. induction Hv as [|v vs Hv0 Hv IH]; cbn [plain].
  - by rewrite scan_end.
  - rewrite !app_assoc_s. destruct vs as [|w vs].
    + rewrite scan_number, scan_end by (done || by apply ends_stops). done.
    + rewrite scan_number by done. rewrite scan_colon, IH. done.
Qed.

Lemma group_range_drop n vs : group_range vs -> group_range (drop n vs).
Proof. apply Forall_drop. Qed.

Lemma scan_compressed first vs rest :
  group_range vs -> ends rest ->
  scan (compressed_text first vs +:+ rest) None = (tokens first vs, rest).
Proof.
  intros Hv Hr. revert first. induction Hv as [|v vs Hv0 Hv IH]; intros first; cbn [compressed_text tokens].
  - by rewrite scan_end.
  - destruct (_ || _).
    + rewrite !app_assoc_s. destruct vs as [|w vs].
      * rewrite scan_number by (done || by apply ends_stops). by rewrite scan_end.
      * rewrite scan_number by done. by rewrite scan_colon, IH.
    + pose proof (group_range_drop (zeros vs) vs Hv) as Hd. cbv zeta.
      destruct (drop (zeros vs) vs) as [|w l].
      * rewrite bool_decide_true, orb_true_r by done. rewrite !app_assoc_s, scan_colon. 
        by rewrite scan_end.
      * rewrite bool_decide_false, orb_false_r by done. rewrite !app_assoc_s. destruct first.
        -- rewrite !scan_colon, scan_plain by done. done.
        -- rewrite (scan_colon (plain (w :: l) +:+ rest)), scan_plain by done. done.
Qed.

(** The tokens determine the groups. *)
Lemma zeros_split vs : vs = replicate (zeros vs) 0 ++ drop (zeros vs) vs.
Proof.
  induction vs as [|v vs IH]; [done|]. cbn [zeros]. destruct (v =? 0) eqn:E; [|done].
  apply Z.eqb_eq in E. subst. simpl. by f_equal.
Qed.
Definition numbers (l : list (option Z)) : list Z := omap id l.
Lemma numbers_Some l : numbers (Some <$> l) = l.
Proof. unfold numbers. induction l as [|x l IH]; simpl; [done|]. by f_equal. Qed.

Lemma tokens_inj first vs ws :
  length vs = length ws -> tokens first vs = tokens first ws -> vs = ws.
Proof.
  revert first ws. induction vs as [|v vs IH]; intros first [|w ws] Hl E; try done.
  cbn [tokens] in E. injection Hl as Hl.
  destruct (negb (v =? 0) || bool_decide (zeros vs = 0%nat)) eqn:Hv,
           (negb (w =? 0) || bool_decide (zeros ws = 0%nat)) eqn:Hw.
  - injection E as -> E. f_equal. by eapply IH.
  - exfalso. cbv zeta in E. destruct first, (drop (zeros ws) ws); simpl in E; done.
  - exfalso. cbv zeta in E. destruct first, (drop (zeros vs) vs); simpl in E; done.
  - apply orb_false_iff in Hv as [Hv _]. apply orb_false_iff in Hw as [Hw _].
    apply negb_false_iff, Z.eqb_eq in Hv, Hw. subst. f_equal.
    cbv zeta in E. apply (f_equal numbers) in E. unfold numbers in E. rewrite !omap_app in E.
    assert (Hn : forall (b : bool), omap id (if b then [None] else []) = ([] : list Z)) by by intros [].
    assert (Hm : forall l : list Z, omap id (match l with [] => [] | _ => [None] end) = ([] : list Z))
      by by intros [].
    rewrite !Hn, !Hm in E. simpl in E. fold (numbers (Some <$> drop (zeros vs) vs)) in E.
    fold (numbers (Some <$> drop (zeros ws) ws)) in E. rewrite !numbers_Some in E.
    rewrite (zeros_split vs), (zeros_split ws), E. f_equal. f_equal.
    pose proof (f_equal length (zeros_split vs)) as L1.
    pose proof (f_equal length (zeros_split ws)) as L2.
    rewrite length_app, length_replicate in L1, L2. rewrite E in L1. lia.
Qed.

(** The groups of an address. *)
Lemma group_range_at a i : 0 <= group a i < 2 ^ 16.
Proof. apply translate16_range. Qed.
Lemma groups_range a : group_range (groups a).
Proof. apply Forall_fmap, Forall_true. intros i. apply group_range_at. Qed.
Lemma drop_groups a i :
  0 <= i < 8 -> drop (Z.to_nat i) (groups a) = group a i :: drop (Z.to_nat (i + 1)) (groups a).
Proof.
  intros Hi.
  assert (i = 0 \/ i = 1 \/ i = 2 \/ i = 3 \/ i = 4 \/ i = 5 \/ i = 6 \/ i = 7) as H by lia.
  repeat (destruct H as [->|H]; [reflexivity|]). subst i. reflexivity.
Qed.
Lemma drop_groups_nil a i : 0 <= i <= 8 -> drop (Z.to_nat i) (groups a) = [] <-> i = 8.
Proof.
  intros Hi. split; [|by intros ->].
  intros E. destruct (decide (i = 8)); [done|]. rewrite drop_groups in E by lia. done.
Qed.

Lemma host16_zero a i :
  internet_ok a -> 0 <= i < 8 -> (Host16 a i =? 0) = (group a i =? 0).
Proof.
  intros [Hl Hb _ _] Hi.
  assert (0 <= Host16 a i < 2 ^ 16) by (unfold Host16; apply (get_range _ 2); [lia|done]).
  apply eq_true_iff_eq. rewrite !Z.eqb_eq. unfold group, ntohs. split; [by intros ->|].
  intros E. apply (f_equal translate16) in E. by rewrite translate16_involutive in E.
Qed.

Lemma end_of_zeros_eq a fuel j :
  internet_ok a -> 0 <= j <= 8 -> (Z.to_nat (8 - j) <= fuel)%nat ->
  end_of_zeros a fuel j = j + Z.of_nat (zeros (drop (Z.to_nat j) (groups a))).
Proof.
  intros Ha. revert j. induction fuel as [|fuel IH]; intros j Hj Hf.
  - assert (j = 8) as -> by lia. done.
  - cbn [end_of_zeros]. destruct (j <? 8) eqn:E; [apply Z.ltb_lt in E|apply Z.ltb_ge in E].
    + rewrite host16_zero by (done || lia). rewrite drop_groups by lia. cbn [zeros].
      destruct (group a j =? 0); simpl negb; cbv iota; [|lia]. rewrite IH by lia. lia.
    + assert (j = 8) as -> by lia. done.
Qed.

Lemma separator a i :
  0 <= i < 8 ->
  (if (i <? 7)%Z then ":" else "")%string
  = (match drop (Z.to_nat (i + 1)) (groups a) with [] => "" | _ => ":" end)%string.
Proof.
  intros Hi. destruct (drop (Z.to_nat (i + 1)) (groups a)) as [|v l] eqn:E.
  - apply drop_groups_nil in E; [|lia]. assert (i = 7) as -> by lia. done.
  - rewrite (proj2 (Z.ltb_lt _ _)); [done|]. destruct (decide (i = 7)) as [->|]; [done|lia].
Qed.

Lemma print_groups_text a fuel i (c : bool) :
  internet_ok a -> 0 <= i <= 8 -> (Z.to_nat (8 - i) < fuel)%nat ->
  print_groups a fuel 8 i c
  = (if c then plain else compressed_text (i =? 0)) (drop (Z.to_nat i) (groups a)).
Proof.
  intros Ha. revert i c. induction fuel as [|fuel IH]; intros i c Hi Hf; [lia|].
  cbn [print_groups]. destruct (i <? 8) eqn:E; [apply Z.ltb_lt in E|apply Z.ltb_ge in E].
  2: { assert (i = 8) as -> by lia. by destruct c. }
  rewrite drop_groups by lia. cbv zeta. fold (group a i).
  assert (Hnext : (i + 1 =? 0) = false) by (apply Z.eqb_neq; lia).
  destruct c.
  - rewrite orb_true_r. cbn [orb]. rewrite (separator a), IH by lia. done.
  - cbn [compressed_text]. rewrite orb_false_r.
    set (vs := drop (Z.to_nat (i + 1)) (groups a)).
    destruct (negb (group a i =? 0)) eqn:E0; cbn [orb].
    { rewrite (separator a), IH, Hnext by lia. done. }
    destruct (i =? 7) eqn:E7.
    { apply Z.eqb_eq in E7. subst i. rewrite IH by lia. done. }
    apply Z.eqb_neq in E7. rewrite end_of_zeros_eq by (done || lia). fold vs.
    destruct (decide (zeros vs = 0%nat)) as [Hz|Hz].
    { rewrite (proj2 (Z.eqb_eq _ _)), bool_decide_true by lia.
      rewrite (separator a), IH, Hnext by lia. done. }
    rewrite (proj2 (Z.eqb_neq _ _)), bool_decide_false by lia.
    set (j := i + 1 + Z.of_nat (zeros vs)).
    assert (Hj : 0 <= j <= 8 /\ drop (Z.to_nat j) (groups a) = drop (zeros vs) vs).
    { pose proof (f_equal length (zeros_split vs)) as L. rewrite length_app, length_replicate in L.
      assert (length vs = (8 - Z.to_nat (i + 1))%nat) by (subst vs; by rewrite length_drop).
      split; [subst j; lia|]. subst vs j. rewrite drop_drop. f_equal. lia. }
    destruct Hj as [Hj Hd]. rewrite <- Hd.
    assert (Hnil : bool_decide (drop (Z.to_nat j) (groups a) = []) = (j =? 8)).
    { apply eq_true_iff_eq. rewrite bool_decide_eq_true, Z.eqb_eq. by apply drop_groups_nil. }
    rewrite Hnil, (separator a) by (subst j; lia).
    rewrite IH by (subst j; lia). replace (j - 1 + 1) with j by lia. done.
Qed.

(** The groups determine the address. *)
Lemma le_combine_inj b c :
  bytes_ok b -> bytes_ok c -> length b = length c -> le_combine b = le_combine c -> b = c.
Proof.
  intros Hb. revert c. induction Hb as [|x b Hx Hb IH]; intros [|y c] Hc Hl E; try done.
  inversion Hc as [|? ? Hy Hc']; subst. simpl in E. unfold is_byte in Hx, Hy.
  assert (x = y) as -> by lia. f_equal. apply IH; [done|simpl in Hl; lia|lia].
Qed.
Lemma groups_inj a b :
  internet_ok a -> internet_ok b -> groups a = groups b -> AddrSpec a = AddrSpec b.
Proof.
  intros Ha Hb E.
  assert (Hg : forall i, 0 <= i < 8 -> Host16 a i = Host16 b i).
  { intros i Hi. apply (f_equal (fun l => head (drop (Z.to_nat i) l))) in E.
    rewrite (drop_groups a), (drop_groups b) in E by lia. simpl in E. injection E as Ei. unfold group, ntohs in Ei. apply (f_equal translate16) in Ei.
    destruct Ha as [Hla Hba _ _], Hb as [Hlb Hbb _ _].
    assert (0 <= Host16 a i < 2 ^ 16) by (apply (get_range _ 2); [lia|done]).
    assert (0 <= Host16 b i < 2 ^ 16) by (apply (get_range _ 2); [lia|done]).
    by rewrite !translate16_involutive in Ei. }
  destruct Ha as [Hla Hba _ _], Hb as [Hlb Hbb _ _].
  apply list_eq. intros k. destruct (decide (k < 16)%nat) as [Hk|Hk].
  2: { by rewrite !lookup_ge_None_2 by lia. }
  pose proof (Nat.div_mod k 2 ltac:(lia)) as Hd. pose proof (Nat.mod_upper_bound k 2 ltac:(lia)).
  specialize (Hg (Z.of_nat (k / 2)) ltac:(lia)). unfold Host16, get in Hg. rewrite Nat2Z.id in Hg.
  apply le_combine_inj in Hg; [|by apply Forall_take, Forall_drop..|
    rewrite !length_take, !length_drop; lia].
  apply (f_equal (lookup (k mod 2)%nat)) in Hg. rewrite !lookup_take, !lookup_drop in Hg.
  rewrite !decide_True in Hg by lia. by replace (2 * (k / 2) + k mod 2)%nat with k in Hg by lia.
Qed.

Lemma not_all_zero a :
  internet_ok a -> IN6_IS_ADDR_UNSPECIFIED a = false -> groups a <> replicate 8 0.
Proof.
  intros Ha Hu E. set (z := with_AddrSpec (replicate 16 0) a).
  assert (Hz : internet_ok z).
  { destruct Ha. split; try done. apply Forall_replicate. by split. }
  assert (H0 : AddrSpec a = replicate 16 0) by (apply (groups_inj a z); [done|done|rewrite E; reflexivity]).
  unfold IN6_IS_ADDR_UNSPECIFIED, Host32 in Hu. rewrite H0 in Hu. discriminate Hu.
Qed.

(** The text of the groups has at least two characters. *)
Lemma tokens_two vs :
  length vs = 8%nat -> vs <> replicate 8 0 -> (2 <= length (tokens true vs))%nat.
Proof.
  destruct vs as [|v vs]; [done|]. intros Hl Hz. injection Hl as Hl. cbn [tokens].
  destruct (negb (v =? 0) || bool_decide (zeros vs = 0%nat)) eqn:Hv.
  - destruct vs as [|w vs]; [done|]. cbn [tokens]. destruct (negb (w =? 0) || _); [simpl; lia|].
    cbv zeta. destruct (drop (zeros vs) vs); [rewrite bool_decide_true by done|]; simpl; lia.
  - cbv zeta. apply orb_false_iff in Hv as [Hv _]. apply negb_false_iff, Z.eqb_eq in Hv. subst.
    pose proof (zeros_split vs) as Hs. destruct (drop (zeros vs) vs) as [|w l].
    + destruct Hz. rewrite app_nil_r in Hs. pose proof (f_equal length Hs) as L.
      rewrite length_replicate, Hl in L. rewrite <- L in Hs. rewrite Hs. reflexivity.
    + simpl. lia.
Qed.
Lemma scan_two s l : scan s None = (l, EmptyString) -> (2 <= length l)%nat -> char_at s 1 <> NUL.
Proof.
  intros E Hl E1.
  destruct s as [|c [|d s]].
  - injection E as <-. simpl in Hl. lia.
  - cbn [scan] in E. destruct (digit_value 16 c); [injection E as <-; simpl in Hl; lia|].
    destruct (Ascii.eqb c ":"); simplify_eq/=; lia.
  - unfold char_at in E1. simpl in E1. subst d. cbn [scan] in E.
    change (digit_value 16 NUL) with (@None Z) in E. cbn [Ascii.eqb NUL] in E.
    destruct (digit_value 16 c) as [z|]; [done|]. by destruct (Ascii.eqb c ":").
Qed.

Lemma groups_text a :
  internet_ok a -> IN6_IS_ADDR_UNSPECIFIED a = false ->
  let g := print_groups a 9 8 0 false in
  g = compressed_text true (groups a) /\ Ascii.eqb (char_at g 1) NUL = false.
Proof.
  intros Ha Hu. cbv zeta. rewrite print_groups_text by (done || lia).
  change (0 =? 0) with true. rewrite drop_0. split; [done|].
  destruct (Ascii.eqb_spec (char_at (compressed_text true (groups a)) 1) NUL) as [E|]; [|done].
  exfalso. revert E. apply (scan_two _ (tokens true (groups a))).
  - rewrite <- (app_nil_s (compressed_text true (groups a))).
    apply scan_compressed; [apply groups_range|done].
  - apply tokens_two; [done|]. by apply not_all_zero.
Qed.

Section Text.
Context `{HR : !Resolver} (UseIPv6 : bool).
Variable blank : list Z.

(** What follows the groups. *)
Definition tail_text (a : InternetAddress) : string :=
  ((if isLinkLocal a then "%" +:+ default "(BAD!)" (if_indextoname (ScopeID a)) else "")
   +:+ "]:" +:+ print_int (getPort a))%string.

Lemma compare_text a :
  internet_ok a -> Valid a = true ->
  getAddressString UseIPv6 a PF_Compare blank
  = (if isIPv4 a then print_ipv4 (ntohl (Host32 a 3)) +:+ ":" +:+ print_int (getPort a)
     else "[" +:+ compressed_text true (groups a) +:+ tail_text a)%string.
Proof.
  intros Ha Hv. unfold getAddressString. rewrite Hv. cbn [negb].
  change (has_flag PF_Compare PF_Hostname) with false. change (has_flag PF_Compare PF_Address) with true.
  change (has_flag PF_Compare PF_Legacy) with true. change (has_flag PF_Compare PF_HidePort) with false.
  rewrite andb_false_r. cbn [orb negb andb]. rewrite bool_decide_true by done. cbn [negb andb].
  destruct (isIPv4 a) eqn:H4; cbn [negb].
  - done.
  - unfold isIPv4 in H4. apply orb_false_iff in H4 as [Hm Hu].
    assert (H6 : isIPv6 a = true) by (unfold isIPv6; by rewrite Hm).
    unfold print_ipv6. rewrite H6. cbv zeta.
    change (has_flag PF_Compare PF_HidePort) with false. cbn [negb].
    destruct (groups_text a Ha Hu) as [Hg Hn]. cbv zeta in Hn, Hg. rewrite Hn, Hg.
    unfold tail_text. change (8 =? 6)%Z with false.
    cbn [andb]. done.
Qed.

Lemma ends_tail a : ends (tail_text a).
Proof. unfold tail_text. by destruct (isLinkLocal a). Qed.
Lemma tail_port a b : tail_text a = tail_text b -> getPort a = getPort b.
Proof.
  intros E. unfold tail_text in E.
  assert (Hp : forall c, 0 <= getPort c < 2 ^ 16) by (intros c; apply translate16_range).
  set (x := (if isLinkLocal a then _ else _)%string) in E.
  set (y := (if isLinkLocal b then _ else _)%string) in E.
  change ("]:" +:+ print_int (getPort a))%string with ("]" +:+ String ":" (print_int (getPort a)))%string in E.
  change ("]:" +:+ print_int (getPort b))%string with ("]" +:+ String ":" (print_int (getPort b)))%string in E.
  rewrite <- !app_assoc_s in E. pose proof (Hp a). pose proof (Hp b).
  apply last_part in E; [|apply no_char_int; by (done || lia)..].
  rewrite <- (app_nil_s (print_int (getPort a))), <- (app_nil_s (print_int (getPort b))) in E.
  apply int_inj in E as [E _]; [done|lia|lia|done|done].
Qed.

Lemma host32_range a i : internet_ok a -> 0 <= i < 4 -> 0 <= Host32 a i < 2 ^ 32.
Proof. intros [Hl Hb _ _] Hi. unfold Host32. apply (get_range _ 4); [lia|done]. Qed.

(** An IPv4 address is mapped or not specified; its number decides. *)
Lemma ipv4_spec a :
  internet_ok a -> isIPv4 a = true ->
  AddrSpec a = mapped (le_split 4 (Host32 a 3)) \/ (AddrSpec a = replicate 16 0 /\ Host32 a 3 = 0).
Proof.
  intros Ha H4. destruct (IN6_IS_ADDR_V4MAPPED a) eqn:Hm.
  - left. rewrite (mapped_spec a Ha Hm) at 1. f_equal. destruct Ha as [Hl Hb _ _].
    unfold Host32, get. change (4 * Z.to_nat 3)%nat with 12%nat.
    apply le_combine_inj.
    + by apply Forall_take, Forall_drop.
    + apply le_split_ok.
    + rewrite length_le_split, length_take, length_drop. lia.
    + rewrite le_combine_split, Z.mod_small; [done|].
      pose proof (le_combine_range (take 4 (drop 12 (AddrSpec a)))) as Hr.
      rewrite length_take, length_drop, Hl in Hr. apply Hr. by apply Forall_take, Forall_drop.
  - right. unfold isIPv4 in H4. rewrite Hm in H4. cbn [orb] in H4.
    unfold IN6_IS_ADDR_UNSPECIFIED in H4. rewrite !andb_true_iff, !Z.eqb_eq in H4.
    destruct H4 as [[[H0 H1] H2] H3]. split; [|done]. destruct Ha as [Hl Hb _ _].
    unfold Host32 in H0, H1, H2, H3.
    change (4 * Z.to_nat 0)%nat with 0%nat in H0. change (4 * Z.to_nat 1)%nat with 4%nat in H1.
    change (4 * Z.to_nat 2)%nat with 8%nat in H2. change (4 * Z.to_nat 3)%nat with 12%nat in H3.
    apply get_zero_bytes in H0, H1, H2, H3; try done; try lia.
    replace (AddrSpec a) with (take 4 (drop 0 (AddrSpec a)) ++ take 4 (drop 4 (AddrSpec a))
      ++ take 4 (drop 8 (AddrSpec a)) ++ take 4 (drop 12 (AddrSpec a))).
    { by rewrite H0, H1, H2, H3. }
    destruct (AddrSpec a) as [|x0 [|x1 [|x2 [|x3 [|x4 [|x5 [|x6 [|x7 [|x8 [|x9 [|x10 [|x11
      [|x12 [|x13 [|x14 [|x15 [|]]]]]]]]]]]]]]]]]; done.
Qed.

(** The text by which the socket layer compares addresses. *)
Definition comparison_text (a : InternetAddress) : string :=
  getAddressString UseIPv6 a PF_Compare blank.

(** C27. The text of an address, as the socket layer compares addresses by it,
    identifies the endpoint: two valid addresses with the same text have the
    same port and the same host, up to the two forms of the unspecified
    address; only the scope of a link-local address can be lost, when its
    interface has no name. *)
Theorem address_text_unambiguous (a b : InternetAddress)
    (Ha : internet_ok a) (Hb : internet_ok b) (Hva : Valid a = true) (Hvb : Valid b = true)
    (E : comparison_text a = comparison_text b) :
  getPort a = getPort b
  /\ (AddrSpec a = AddrSpec b \/ (isUnspecified a = true /\ isUnspecified b = true)).
Proof.
  unfold comparison_text in E. rewrite !compare_text in E by done.
  assert (Hp : forall c, 0 <= getPort c < 2 ^ 16) by (intros c; apply translate16_range).
  pose proof (Hp a). pose proof (Hp b).
  destruct (isIPv4 a) eqn:H4a, (isIPv4 b) eqn:H4b.
  - apply print_ipv4_inj in E as [Eh E]; [|apply translate32_range..|done|done].
    apply translate32_inj in Eh; [|by apply host32_range..].
    injection E as E. fold String.append in E.
    rewrite <- (app_nil_s (print_int (getPort a))), <- (app_nil_s (print_int (getPort b))) in E.
    apply int_inj in E as [E _]; [|lia|lia|done|done]. split; [done|].
    destruct (ipv4_spec a Ha H4a) as [Sa|[Sa Ia]], (ipv4_spec b Hb H4b) as [Sb|[Sb Ib]].
    + left. congruence.
    + right. rewrite <- Eh in Ib. rewrite Ib in Sa. unfold isUnspecified, Host16.
      rewrite Sa, Sb. done.
    + right. rewrite Eh in Ia. rewrite Ia in Sb. unfold isUnspecified, Host16.
      rewrite Sa, Sb. done.
    + left. congruence.
  - by apply print_ipv4_bracket in E.
  - symmetry in E. by apply print_ipv4_bracket in E.
  - apply cons_inj_s in E. unfold isIPv4 in H4a, H4b. apply orb_false_iff in H4a as [_ Hua]. apply orb_false_iff in H4b as [_ Hub].
    apply (f_equal (fun s => scan s None)) in E. cbv beta in E.
    rewrite !scan_compressed in E by (apply groups_range || apply ends_tail).
    pose proof (f_equal fst E) as Et. pose proof (f_equal snd E) as Er. cbn [fst snd] in Et, Er.
    apply tokens_inj in Et; [|done].
    split; [by apply tail_port|]. left. by apply groups_inj.
Qed.
End Text.

(** The same address from a different source: fe80::1 with another format. *)
Lemma address_text_unambiguous_witness :
  let a := demo_inet6 in
  let b := setPrintFormat 0 demo_inet6 in
  comparison_text true demo_buffer a = "[fe80::1%eth0]:80"%string
  /\ getPort a = getPort b
  /\ (AddrSpec a = AddrSpec b \/ (isUnspecified a = true /\ isUnspecified b = true)).
Proof.
  cbv zeta. split; [reflexivity|].
  apply (address_text_unambiguous true demo_buffer demo_inet6 (setPrintFormat 0 demo_inet6)).
  - exact demo_inet6_ok.
  - destruct demo_inet6_ok. split; assumption.
  - reflexivity.
  - reflexivity.
  - reflexivity.
Defined.
