(* ===== verification/Checksum.v ===== *)
(** * The Internet checksum and the order of addresses *)

From S2P Require Import Prelude Memory Tools InternetAddress.
Local Open Scope Z_scope.

(** ** The Internet checksum *)

(** The 16-bit words of the buffer in network byte order; a last odd byte is
    the high byte of a word. *)
Fixpoint be_words (buf : list Z) : list Z :=
  match buf with
  | x :: y :: buf => (x * 256 + y) :: be_words buf
  | [x] => [x * 256]
  | [] => []
  end.
Definition sum_words (l : list Z) : Z := foldr Z.add 0 l.

(** Induction over a buffer in steps of two bytes. *)
Lemma pairs_ind (P : list Z -> Prop) :
  P [] -> (forall x, P [x]) -> (forall x y l, P l -> P (x :: y :: l)) -> forall l, P l.
Proof.
  intros H0 H1 H2 l. enough (P l /\ forall x, P (x :: l)) by tauto.
  induction l as [|y l [IH1 IH2]]; split; auto.
Qed.

Lemma word_at x y : is_byte x -> is_byte y -> ntohs (le_combine [x; y]) = x * 256 + y.
Proof.
  intros Hx Hy. unfold is_byte in *. unfold ntohs. cbn [le_combine].
  replace (x + 256 * (y + 256 * 0)) with (y * 256 + x) by lia. by rewrite translate16_digits.
Qed.
Lemma word_last x : is_byte x -> htons x = x * 256.
Proof.
  intros Hx. unfold is_byte in Hx. unfold htons.
  replace x with (0 * 256 + x) at 1 by lia. rewrite translate16_digits by lia. lia.
Qed.

Lemma add_carry_spec s x :
  0 <= s <= 0xffff -> 0 <= x <= 0xffff ->
  0 <= add_carry s x <= 0xffff /\ exists c, add_carry s x = s + x - 0xffff * c.
Proof.
  intros Hs Hx. unfold add_carry. rewrite wrap_small by lia.
  destruct (s + x >? 65535) eqn:E; rewrite Z.gtb_ltb in E.
  - apply Z.ltb_lt in E. split; [lia|]. exists 1. lia.
  - apply Z.ltb_ge in E. split; [lia|]. exists 0. lia.
Qed.

Lemma checksum_spec buf : forall s,
  bytes_ok buf -> 0 <= s <= 0xffff ->
  0 <= calculateChecksum buf s <= 0xffff
  /\ exists c, calculateChecksum buf s = s + sum_words (be_words buf) - 0xffff * c.
Proof.
  induction buf as [|x|x y buf IH] using pairs_ind; intros s Hb Hs; cbn [calculateChecksum be_words].
  - split; [done|]. exists 0. cbn. lia.
  - inversion Hb as [|? ? Hx]; subst. rewrite word_last by done. unfold is_byte in Hx.
    destruct (add_carry_spec s (x * 256)) as [Hr [c Hc]]; [done|lia|]. split; [done|].
    exists c. cbn. lia.
  - inversion Hb as [|? ? Hx Hb']; subst. inversion Hb' as [|? ? Hy Hb'']; subst.
    rewrite word_at by done. unfold is_byte in Hx, Hy.
    destruct (add_carry_spec s (x * 256 + y)) as [Hr [c Hc]]; [done|lia|].
    destruct (IH _ Hb'' Hr) as [Hr' [c' Hc']]. split; [done|]. exists (c + c').
    cbn [sum_words foldr]. fold (sum_words (be_words buf)). rewrite Hc', Hc. lia.
Qed.

Lemma checksum_app buf rest s :
  Nat.Even (length buf) -> calculateChecksum (buf ++ rest) s
    = calculateChecksum rest (calculateChecksum buf s).
Proof.
  revert s. induction buf as [|x|x y buf IH] using pairs_ind; intros s He; cbn [app calculateChecksum].
  - done.
  - by apply Nat.even_spec in He.
  - apply IH. apply Nat.even_spec in He. by apply Nat.even_spec.
Qed.

Lemma wrapChecksum_eq s : 0 <= s <= 0xffff -> wrapChecksum s = translate16 (0xffff - s).
Proof.
  intros Hs. unfold wrapChecksum, htons. f_equal. change 0xffff with (Z.ones 16) at 1.
  rewrite Z.land_ones by lia. unfold Z.lnot. 
  rewrite <- (Z.mod_add _ 1) by lia. rewrite Z.mod_small; change (2 ^ 16) with 65536; lia.
Qed.

(** The checksum.  [calculateChecksum] is the ones' complement sum of the
    words of the buffer in network byte order: it fits into 16 bits and is
    congruent to the plain sum modulo 65535.  A packet of even length that is
    followed by the wrapped checksum of its bytes sums to 65535, which is how a
    receiver checks it. *)
Theorem checksum_correct (buf : list Z) (sum : Z) (Hb : bytes_ok buf) (Hs : 0 <= sum <= 0xffff) :
  0 <= calculateChecksum buf sum <= 0xffff
  /\ calculateChecksum buf sum mod 0xffff = (sum + sum_words (be_words buf)) mod 0xffff
  /\ (Nat.Even (length buf) ->
      calculateChecksum (buf ++ le_split 2 (wrapChecksum (calculateChecksum buf sum))) sum = 0xffff).
Proof.
  destruct (checksum_spec buf sum Hb Hs) as [Hr [c Hc]]. split; [done|]. split.
  - rewrite Hc. replace (sum + _ - 65535 * c) with (sum + sum_words (be_words buf) + (- c) * 65535) by lia.
    apply Z.mod_add. lia.
  - intros He. rewrite checksum_app by done. set (s := calculateChecksum buf sum) in *.
    rewrite wrapChecksum_eq by done.
    destruct (two_digits (65535 - s)) as (x & y & E & Hx & Hy); [lia|]. rewrite E.
    rewrite translate16_digits by done. 
    assert (Hsplit : le_split 2 (y * 256 + x) = [x; y]).
    { cbn [le_split]. rewrite Z.div_add_l by lia. rewrite (Z.div_small x) by done.
      rewrite Z.add_0_r, (Z.mod_small y) by done.
      by rewrite Z.add_comm, Z.mod_add, Z.mod_small by lia. }
    rewrite Hsplit. cbn [calculateChecksum]. rewrite word_at by done. rewrite <- E.
    unfold add_carry. rewrite wrap_small by lia. replace (s + (65535 - s)) with 65535 by lia. done.
Qed.

Lemma checksum_correct_witness :
  calculateChecksum [0x45; 0; 0; 0x1c; 0xff; 0xff; 0x40; 1] 0 = 0x851d
  /\ calculateChecksum ([0x45; 0; 0; 0x1c; 0xff; 0xff; 0x40; 1] ++ le_split 2 (wrapChecksum
       (calculateChecksum [0x45; 0; 0; 0x1c; 0xff; 0xff; 0x40; 1] 0))) 0 = 0xffff.
Proof.
  split; [reflexivity|].
  apply (checksum_correct [0x45; 0; 0; 0x1c; 0xff; 0xff; 0x40; 1] 0).
  - repeat (constructor; [split; [apply Z.leb_le|apply Z.ltb_lt]; reflexivity|]). constructor.
  - lia.
  - exists 4%nat. reflexivity.
Defined.

(** ** The order of addresses *)

Lemma first_difference_converse (b : bool) f g n i :
  first_difference Z.gtb Z.ltb b f g n i = first_difference Z.ltb Z.gtb b g f n i.
Proof.
  revert i. induction n as [|n IH]; intros i; [done|]. cbn [first_difference].
  by rewrite !Z.gtb_ltb, IH.
Qed.
Lemma first_difference_total (b c : bool) f g n i :
  b = false \/ c = false ->
  first_difference Z.ltb Z.gtb b f g n i = false \/ first_difference Z.ltb Z.gtb c g f n i = false.
Proof.
  intros H. revert i. induction n as [|n IH]; intros i; [done|]. cbn [first_difference].
  rewrite !Z.gtb_ltb. destruct (Z.ltb_spec (f i) (g i)), (Z.ltb_spec (g i) (f i)); try lia; auto.
Qed.
Lemma first_difference_trans (b c d : bool) f g h n i :
  (b = false -> c = false -> d = false) ->
  first_difference Z.ltb Z.gtb b g f n i = false ->
  first_difference Z.ltb Z.gtb c h g n i = false ->
  first_difference Z.ltb Z.gtb d h f n i = false.
Proof.
  intros H. revert i. induction n as [|n IH]; intros i; cbn [first_difference]; [auto|].
  rewrite !Z.gtb_ltb.
  destruct (Z.ltb_spec (f i) (g i)), (Z.ltb_spec (g i) (f i)), (Z.ltb_spec (g i) (h i)),
    (Z.ltb_spec (h i) (g i)), (Z.ltb_spec (f i) (h i)), (Z.ltb_spec (h i) (f i)); try lia; try done.
  apply IH.
Qed.

(** The operators of portable addresses are an order and its converse, as
    [quickSort] needs them. *)
#[export] Instance pa_comparison : Comparison pa_lt pa_gt.
Proof.
  split; unfold not_less, pa_lt, pa_gt.
  - intros p q. by rewrite first_difference_converse, Z.gtb_ltb.
  - intros p q. apply first_difference_total. rewrite !Z.ltb_ge. lia.
  - intros p q r. apply first_difference_trans. rewrite !Z.ltb_ge. lia.
Qed.

(** The operator [<] of Internet addresses is such an order; the operator [>]
    is not its converse, because it compares the ports in network byte order. *)
Lemma address_comparison : Comparison address_lt (fun a b => address_lt b a).
Proof.
  split; unfold not_less, address_lt.
  - done.
  - intros a b. apply first_difference_total. rewrite !Z.ltb_ge. lia.
  - intros a b c. apply first_difference_trans. rewrite !Z.ltb_ge. lia.
Qed.
Example address_gt_not_converse :
  let a := {| AddrSpec := replicate 16 0; Port := htons 1; ScopeID := 0; Valid := true; Format := 0 |} in
  let b := {| AddrSpec := replicate 16 0; Port := htons 256; ScopeID := 0; Valid := true; Format := 0 |} in
  address_lt a b = true /\ address_gt b a = false /\ address_gt a b = true.
Proof. repeat split; reflexivity. Qed.
