(* ===== verification/SelectConditions.v ===== *)
(** * Conditions that are watched for a time (condition.cc, as [ext_select]
    uses it)

    The graph of the conditions while a call watches some of them: what an
    update, an added parent, a wait and the events of other threads do to the
    flags and the parents, and the invariant [collected] of the graph with the
    conditions of a [SelectData] above the watched ones. *)

From S2P Require Import Prelude MultiMap Memory Notification State Association Socket SocketIO.
From S2P Require Import SocketOps SocketLife SocketMaster Descriptors WrapperSockets WrapperSelect.
From S2P Require Import Runs Construction.
From S2P Require Condition.
Local Open Scope Z_scope.

#[local] Existing Instances Condition.same_parents_equiv Condition.graph_ok_proper.

Abbreviation cmap := (gmap cid (Condition.Cond cid)).
Abbreviation watch := (Z * UpdateConditionType)%type.
Abbreviation graph := (Condition.graph_ok cond_rank).
Abbreviation flag_of h k :=
  (@fmap option _ _ _ (@Condition.Fired cid _ _) (@lookup cid (Condition.Cond cid) cmap _ k h)).
Abbreviation parents_of h k :=
  (@fmap option _ _ _ (@Condition.ParentSet cid _ _)
     (@lookup cid (Condition.Cond cid) cmap _ k h)).
Abbreviation reaches h := (rtc (Condition.parent h)).

(** ** What the operations of the conditions do *)

(** The flag of [c] becomes [b], those above may have been set with it. *)
Definition marks (c : cid) (b : bool) (h h' : cmap) : Prop :=
  Condition.same_parents h h'
  /\ flag_of h' c = Some b
  /\ forall k : cid, k <> c -> ~ (b = true /\ reaches h c k) ->
       flag_of h' k = flag_of h k.

(** [addParent]: the new edge, and the event that is passed on along it. *)
Record linked (c p : cid) (b : bool) (h h' : cmap) : Prop := {
  lk_parents : forall k : cid, parents_of h' k =
    union (if decide (c = k) then {[p]} else ∅) <$> parents_of h k;
  lk_reached : forall k : cid, is_Some (h !! k) -> b = true -> reaches h p k ->
    flag_of h' k = Some true;
  lk_others : forall k : cid, ~ (b = true /\ reaches h p k) ->
    flag_of h' k = flag_of h k }.

Lemma reach_rank (h : cmap) k q : graph h -> reaches h k q -> (cond_rank q <= cond_rank k)%nat.
Proof.
  intros Hg. induction 1 as [|k p q Hp _ IH]; [done|].
  pose proof (Condition.graph_rank _ _ Hg _ _ Hp). lia.
Qed.
(** ** The conditions of a [SelectData] above the watched ones *)

Section Collected.
Variables (A : nat) (h0 : cmap) (cond : watch -> cid) (ready : watch -> bool).
Hypothesis Hgraph : graph h0.
Hypothesis Hfresh : forall k, h0 !! (A, k) = None.
Hypothesis Hrank : forall w, cond_rank (cond w) = 2%nat.

Definition select_parents (k : CondKind) : option (gset cid) :=
  match k with
  | SelectRead | SelectWrite | SelectExcept => Some {[(A, SelectGlobal)]}
  | SelectGlobal => Some ∅
  | _ => None
  end.

Definition added (ws : list watch) (k : cid) : gset cid :=
  list_to_set ((fun w => (A, select_kind w.2)) <$> filter (fun w => cond w = k) ws).

(** [h] is [h0] with the conditions at [A], after those of [ws] have been
    collected. *)
Record collected (ws : list watch) (h : cmap) : Prop := {
  co_parents : forall k, parents_of h k =
    if decide (k.1 = A) then select_parents k.2
    else union (added ws k) <$> parents_of h0 k;
  co_flags : forall w, w ∈ ws -> flag_of h (cond w) = Some (ready w);
  co_global : flag_of h (A, SelectGlobal) = Some (existsb ready ws) }.

Lemma elem_of_added ws k p :
  p ∈ added ws k <-> exists w, w ∈ ws /\ cond w = k /\ p = (A, select_kind w.2).
Proof.
  unfold added. rewrite elem_of_list_to_set, list_elem_of_fmap. split.
  - intros (w & -> & Hw). apply list_elem_of_filter in Hw as [Hk Hw]. by exists w.
  - intros (w & Hw & Hk & ->). exists w. split; [done|]. by apply list_elem_of_filter.
Qed.

Lemma added_app ws w k :
  added (ws ++ [w]) k = added ws k ∪ (if decide (cond w = k) then {[(A, select_kind w.2)]} else ∅).
Proof.
  apply set_eq. intros p. rewrite elem_of_union, !elem_of_added.
  case_decide; set_unfold; naive_solver.
Qed.

Lemma cond_apart w : h0 !! cond w <> None -> (cond w).1 <> A.
Proof. intros Hl E. apply Hl. destruct (cond w) as [a k]. simpl in E. subst a. apply Hfresh. Qed.

Lemma collected_live ws h k :
  collected ws h -> k.1 <> A -> is_Some (h !! k) <-> is_Some (h0 !! k).
Proof.
  intros Hc Hk. pose proof (co_parents _ _ Hc k) as E. rewrite decide_False in E by done.
  destruct (h !! k), (h0 !! k); simplify_eq/=; split; eauto; by intros [? [=]].
Qed.

Lemma collected_member ws h k :
  collected ws h -> k ∈ [SelectRead; SelectWrite; SelectExcept; SelectGlobal] -> is_Some (h !! (A, k)).
Proof.
  intros Hc Hk. pose proof (co_parents _ _ Hc (A, k)) as E. rewrite decide_True in E by done.
  destruct (h !! (A, k)); [by eexists|]. simpl in E.
  repeat (apply elem_of_cons in Hk as [->|Hk]; [discriminate E|]).
  by apply not_elem_of_nil in Hk.
Qed.

Lemma collected_edge ws h k p :
  collected ws h -> Condition.parent h k p ->
  (k.1 = A /\ k.2 <> SelectGlobal /\ p = (A, SelectGlobal) /\ cond_rank k = 1%nat)
  \/ (k.1 <> A /\ (p ∈ added ws k \/ Condition.parent h0 k p)).
Proof.
  intros Hc (c & Hk & Hp). pose proof (co_parents _ _ Hc k) as E. rewrite Hk in E. simpl in E.
  destruct (decide (k.1 = A)) as [Ha|Ha].
  - left. destruct k as [a k]. simpl in *. subst a. unfold cond_rank. simpl.
    destruct k; simplify_eq/=; rewrite E in Hp; set_solver.
  - right. split; [done|]. destruct (h0 !! k) as [c0|] eqn:E0; simplify_eq/=.
    rewrite E in Hp. apply elem_of_union in Hp as [?|?]; [by left|].
    right. by exists c0.
Qed.

Lemma old_parent_apart k p : Condition.parent h0 k p -> p.1 <> A.
Proof.
  intros Hp E. destruct (Condition.graph_closed _ _ Hgraph _ _ Hp) as [c Hc].
  destruct p as [a q]. simpl in E. subst a. by rewrite Hfresh in Hc.
Qed.

Lemma collected_graph ws h : collected ws h -> graph h.
Proof.
  intros Hc. split; intros k p Hp; destruct (collected_edge _ _ _ _ Hc Hp)
    as [(Ha & _ & -> & Hr)|[Ha [Hadd|Hold]]].
  - eapply collected_member; [done|]. set_solver.
  - apply elem_of_added in Hadd as (w & _ & _ & ->). eapply collected_member; [done|].
    destruct w as [? []]; set_solver.
  - apply (collected_live _ _ _ Hc); [by eapply old_parent_apart|].
    by apply (Condition.graph_closed _ _ Hgraph k).
  - rewrite Hr. unfold cond_rank. simpl. lia.
  - apply elem_of_added in Hadd as (w & _ & <- & ->). rewrite Hrank.
    destruct w as [? []]; unfold cond_rank; simpl; lia.
  - by apply (Condition.graph_rank _ _ Hgraph).
Qed.

(** What is above a condition that is not collected: neither another watched
    condition nor one of the [SelectData]. *)
Lemma reach_outside ws h k k' :
  collected ws h -> reaches h k k' -> k.1 <> A -> (cond_rank k <= 2)%nat ->
  (forall w, w ∈ ws -> cond w <> k) ->
  k'.1 <> A /\ (k' = k \/ (cond_rank k' < 2)%nat).
Proof.
  intros Hc Hr. induction Hr as [k|k p k' Hp _ IH]; intros Ha Hrk Hnot; [by auto|].
  destruct (collected_edge _ _ _ _ Hc Hp) as [[? _]|[_ [Hadd|Hold]]]; [done| |].
  - apply elem_of_added in Hadd as (w & Hw & E & _). by destruct (Hnot w Hw).
  - pose proof (Condition.graph_rank _ _ Hgraph _ _ Hold).
    destruct IH as [Ha' [->|?]].
    + by eapply old_parent_apart.
    + lia.
    + intros w _ E. pose proof (Hrank w). rewrite E in *. lia.
    + split; [done|right; lia].
    + split; [done|by right].
Qed.

(** What is above a condition of the [SelectData]. *)
Lemma reach_member ws h k k' :
  collected ws h -> k.1 = A -> reaches h k k' -> k' = k \/ k' = (A, SelectGlobal).
Proof.
  intros Hc Ha Hr. revert Ha. induction Hr as [k|k p k' Hp _ IH]; intros Ha; [by left|].
  destruct (collected_edge _ _ _ _ Hc Hp) as [(_ & _ & -> & _)|[? _]]; [|done].
  destruct IH as [->| ->]; [done|by right|by right].
Qed.

(** The events that reach a watched condition are those that did before. *)
Lemma reach_watched ws h e w :
  collected ws h -> reaches h e (cond w) <-> reaches h0 e (cond w).
Proof.
  intros Hc. assert (Hmax : forall p, (cond_rank p < 2)%nat -> ~ reaches h p (cond w)).
  { intros p Hp Hr%(reach_rank _ _ _ (collected_graph _ _ Hc)). pose proof (Hrank w). lia. }
  split; intros Hr.
  - remember (cond w) as c eqn:E. induction Hr as [|k p q Hp Hr IH]; [reflexivity|]. subst q.
    destruct (collected_edge _ _ _ _ Hc Hp) as [(_ & _ & -> & _)|[_ [Hadd|Hold]]].
    + exfalso. apply (Hmax (A, SelectGlobal)); [unfold cond_rank; simpl; lia|done].
    + exfalso. apply elem_of_added in Hadd as (v & _ & _ & ->).
      apply (Hmax (A, select_kind v.2)); [destruct v as [? []]; unfold cond_rank; simpl; lia|done].
    + eapply rtc_l; [done|]. by apply IH.
  - clear Hmax. induction Hr as [|k p q Hp Hr IH]; [reflexivity|]. eapply rtc_l; [|done].
    destruct Hp as (d & Hd & Hp). pose proof (co_parents _ _ Hc k) as E. rewrite decide_False in E.
    + rewrite Hd in E. destruct (h !! k) as [d'|] eqn:Ed; simplify_eq/=. exists d'.
      split; [done|]. rewrite E. set_solver.
    + intros Ek. destruct k as [a k]. simpl in Ek. subst a. by rewrite Hfresh in Hd.
Qed.

(** One more watched condition: its flag is brought up to date, then it is
    linked. *)
Lemma collected_marks ws w h h1 :
  collected ws h -> is_Some (h0 !! cond w) -> (forall v, v ∈ ws -> cond v <> cond w) ->
  marks (cond w) (ready w) h h1 -> collected ws h1.
Proof.
  intros Hc Hw Hnew (Hs & _ & Ho).
  assert (Ha : (cond w).1 <> A) by (apply cond_apart; by destruct Hw as [? ->]).
  assert (Hout : forall k, reaches h (cond w) k -> k.1 <> A /\ (k = cond w \/ (cond_rank k < 2)%nat)).
  { intros k Hr. eapply reach_outside; [done..| |done]. by rewrite Hrank. }
  split.
  - intros k. rewrite <- (Hs k). apply (co_parents _ _ Hc).
  - intros v Hv. rewrite Ho; [by apply (co_flags _ _ Hc)|by apply Hnew|].
    intros [_ [_ [E|Hr]]%Hout]; [by apply (Hnew v)|]. rewrite Hrank in Hr. lia.
  - rewrite Ho; [by apply (co_global _ _ Hc)| |].
    + intros E. by rewrite <- E in Ha.
    + intros [_ [E _]%Hout]. done.
Qed.

Lemma collected_link ws w h1 h2 :
  collected ws h1 -> is_Some (h0 !! cond w) -> flag_of h1 (cond w) = Some (ready w) ->
  linked (cond w) (A, select_kind w.2) (ready w) h1 h2 -> collected (ws ++ [w]) h2.
Proof.
  intros Hc Hw Hf [Hp Hr Ho].
  assert (Ha : (cond w).1 <> A) by (apply cond_apart; by destruct Hw as [? ->]).
  split.
  - intros k. rewrite Hp, (co_parents _ _ Hc k). destruct (decide (k.1 = A)) as [Hk|Hk].
    + rewrite decide_False by congruence. destruct (select_parents k.2); simpl; [|done].
      by rewrite (left_id_L ∅ (∪)).
    + rewrite added_app. destruct (h0 !! k); simpl; [|done]. f_equal.
      case_decide; set_solver.
  - intros v Hv. rewrite Ho.
    + apply elem_of_app in Hv as [Hv|Hv%list_elem_of_singleton]; [by apply (co_flags _ _ Hc)|by subst v].
    + intros [_ Hv']. pose proof (Hrank v) as Hrv.
      destruct (reach_member _ _ (A, select_kind w.2) _ Hc eq_refl Hv') as [E|E]; rewrite E in Hrv;
        destruct w as [? []]; discriminate Hrv.
  - rewrite existsb_app. simpl. rewrite orb_false_r. destruct (ready w) eqn:Ew.
    + rewrite orb_true_r. apply Hr; [eapply collected_member; [done|set_solver]|done|].
      apply rtc_once. pose proof (co_parents _ _ Hc (A, select_kind w.2)) as E.
      rewrite decide_True in E by done.
      destruct (h1 !! (A, select_kind w.2)) as [d|] eqn:Ed; [|destruct w as [? []]; discriminate E].
      exists d. split; [done|]. destruct w as [? []]; simplify_eq/=; rewrite E; set_solver.
    + rewrite orb_false_r, Ho; [apply (co_global _ _ Hc)|]. by intros [? _].
Qed.

End Collected.

(** ** The operations of the conditions, as the call uses them *)

Section ConditionRuns.
Context `{!Platform}.
Implicit Types (c p k q : cid) (h : cmap).

Lemma fires_unreached c h h' k :
  Condition.fires c h h' -> ~ reaches h c k ->
  flag_of h' k = flag_of h k.
Proof.
  intros [Hs Hf] Hn. pose proof (Condition.same_parents_dom _ _ k Hs) as Hd.
  destruct (h !! k) as [d|] eqn:E, (h' !! k) as [d'|] eqn:E'; simpl;
    [| by destruct (proj1 Hd ltac:(by eexists)) | by destruct (proj2 Hd ltac:(by eexists)) | done].
  f_equal. specialize (Hf _ _ _ E E'). destruct (Condition.Fired d'), (Condition.Fired d); naive_solver.
Qed.

Lemma fires_reached c h h' k :
  Condition.fires c h h' -> is_Some (h !! k) -> reaches h c k ->
  flag_of h' k = Some true.
Proof.
  intros [Hs Hf] Hk Hr. destruct (proj1 (Condition.same_parents_dom _ _ k Hs) Hk) as [d' E'].
  destruct Hk as [d E]. rewrite E'. simpl. f_equal. apply (Hf _ _ _ E E'). by right.
Qed.

Lemma fires_marks c h h' : is_Some (h !! c) -> Condition.fires c h h' -> marks c true h h'.
Proof.
  intros Hc Hf. split; [apply Hf|]. split; [by eapply fires_reached|].
  intros k _ Hn. eapply fires_unreached; [done|]. naive_solver.
Qed.

Lemma marks_fires c b h h1 h2 :
  is_Some (h !! c) -> marks c b h h1 -> Condition.fires c h1 h2 -> marks c true h h2.
Proof.
  intros Hc (Hs & Hb & Ho) Hf.
  assert (Hc1 : is_Some (h1 !! c)) by (by apply (Condition.same_parents_dom _ _ c Hs)).
  destruct (fires_marks _ _ _ Hc1 Hf) as (Hs2 & Hb2 & Ho2).
  split; [by transitivity h1|]. split; [done|]. intros k Hk Hn.
  rewrite Ho2, Ho; [done..| |done|].
  - intros [_ Hr]. by apply Hn.
  - intros [_ Hr]. apply Hn. split; [done|].
    eapply Condition.rtc_parent_proper; [|done]. by symmetry.
Qed.

Lemma clear_marks c (d : Condition.Cond cid) h :
  h !! c = Some d ->
  marks c false h
    (<[c := {| Condition.Fired := false; Condition.ParentSet := Condition.ParentSet d |}]> h).
Proof.
  intros Hc. split; [|split].
  - intros k. destruct (decide (c = k)) as [<-|Hne];
      [by rewrite lookup_insert_eq, Hc | by rewrite lookup_insert_ne].
  - by rewrite lookup_insert_eq.
  - intros k Hk _. by rewrite lookup_insert_ne.
Qed.

(** [getUpdateCondition]: level-triggered. *)
Lemma runs_update l (b : bool) c y :
  conditions_ok y -> live_condition y c ->
  exists cs, runs l ((if b then broadcast c else (fired c ;; ret tt)) ;; ret c) y c l
               (set_conditions cs y)
    /\ marks c b (condition_map y) (Condition.conds cs).
Proof.
  intros Hok Hc. destruct b.
  - destruct (runs_broadcast l c y Hok Hc) as (cs & Hr & Hf). exists cs.
    split; [eapply runs_bind; [exact Hr|apply runs_ret]|]. by apply fires_marks.
  - destruct Hc as [d Hd]. eexists. split.
    + eapply runs_bind; [eapply runs_bind; [by apply runs_fired|apply runs_ret]|].
      cbv beta. unfold clear_fired. rewrite Hd. apply runs_ret.
    + by apply clear_marks.
Qed.

Lemma runs_signal l c y :
  conditions_ok y -> live_condition y c ->
  exists cs, runs l (signal c) y tt l (set_conditions cs y)
    /\ Condition.fires c (condition_map y) (Condition.conds cs).
Proof.
  intros Hok Hc.
  destruct (Condition.signal_fires cond_rank cond_fuel c (conditions y)) as (s' & Hrun & Hf);
    [done | done | destruct c as [? []]; unfold cond_rank, cond_fuel; simpl; lia |].
  exists s'. split; [by apply runs_on_conditions|]. done.
Qed.

(** The parents below the new edge are not changed by it. *)
Lemma reach_below c (d : Condition.Cond cid) p h k :
  graph h -> (cond_rank p < cond_rank c)%nat ->
  reaches (<[c := d]> h) p k <-> reaches h p k.
Proof.
  intros Hg. assert (Hedge : forall q k, (cond_rank q < cond_rank c)%nat ->
    Condition.parent (<[c := d]> h) q k <-> Condition.parent h q k).
  { intros q j Hq. unfold Condition.parent. rewrite lookup_insert_ne; [done|]. intros ->. lia. }
  intros Hp. split; intros Hr; revert Hp; induction Hr as [|q j k Hq _ IH]; intros Hp;
    try reflexivity.
  - apply Hedge in Hq; [|done]. pose proof (Condition.graph_rank _ _ Hg _ _ Hq).
    eapply rtc_l; [done|]. apply IH. lia.
  - pose proof (Condition.graph_rank _ _ Hg _ _ Hq).
    eapply rtc_l; [by apply Hedge|]. apply IH. lia.
Qed.

Lemma insert_edge c p (d : Condition.Cond cid) h k :
  h !! c = Some d ->
  parents_of (<[c := {| Condition.Fired := Condition.Fired d;
    Condition.ParentSet := {[p]} ∪ Condition.ParentSet d |}]> h) k =
    union (if decide (c = k) then {[p]} else ∅) <$> parents_of h k.
Proof.
  intros Hc. destruct (decide (c = k)) as [<-|Hne].
  - by rewrite lookup_insert_eq, Hc.
  - rewrite lookup_insert_ne by done. destruct (h !! k); simpl; [|done]. by rewrite union_empty_l_L.
Qed.

Lemma addParent_eq (fuel : nat) c p (d : Condition.Cond cid) (s : Condition.CState cid) :
  Condition.conds s !! c = Some d ->
  Condition.addParent fuel c (Some p) s =
  when (Condition.Fired d) (Condition.broadcast fuel p)
    (Condition.set_cond c {| Condition.Fired := Condition.Fired d;
       Condition.ParentSet := {[p]} ∪ Condition.ParentSet d |} s).
Proof.
  intros Hc. unfold Condition.addParent, Condition.set_ParentSet, Condition.load_cond, bind, modify.
  rewrite Hc. simpl. rewrite Hc. simpl. by rewrite lookup_insert_eq.
Qed.

Lemma runs_addParent l c p d y :
  conditions_ok y -> condition_map y !! c = Some d -> live_condition y p ->
  (cond_rank p < cond_rank c)%nat ->
  exists cs, runs l (addParent c p) y tt l (set_conditions cs y)
    /\ linked c p (Condition.Fired d) (condition_map y) (Condition.conds cs).
Proof.
  intros Hok Hc Hp Hr. set (h := condition_map y) in *.
  set (d1 := {| Condition.Fired := Condition.Fired d;
                Condition.ParentSet := {[p]} ∪ Condition.ParentSet d |}).
  set (cs1 := Condition.set_cond c d1 (conditions y)).
  assert (Hrun : forall r s, when (Condition.Fired d) (Condition.broadcast cond_fuel p) cs1 = Ret r s ->
            runs l (addParent c p) y r l (set_conditions s y)).
  { intros r s E. apply runs_on_conditions. by rewrite (addParent_eq _ _ _ d). }
  assert (Hlive1 : forall k, is_Some (h !! k) <-> is_Some (Condition.conds cs1 !! k)).
  { intros k. simpl. change (Condition.conds (conditions y)) with h. rewrite lookup_insert_is_Some'. split; [by right|].
    intros [<-|?]; [by eexists|done]. }
  assert (Hg1 : graph (Condition.conds cs1)).
  { split; intros k q (c0 & Hc0 & Hq); simpl in Hc0; change (Condition.conds (conditions y)) with h in Hc0;
      (destruct (decide (c = k)) as [<-|Hne];
        [rewrite lookup_insert_eq in Hc0; simplify_eq; simpl in Hq; apply elem_of_union in Hq as [Hq|Hq];
          [apply elem_of_singleton in Hq as ->|]
        | rewrite lookup_insert_ne in Hc0 by done]);
      rewrite <- ?Hlive1; try done;
      first [apply (Condition.graph_closed _ _ Hok) with (k := c); by exists d
            |apply (Condition.graph_closed _ _ Hok) with (k := k); by exists c0
            |apply (Condition.graph_rank _ _ Hok); by exists d
            |apply (Condition.graph_rank _ _ Hok); by exists c0]. }
  assert (Hflags : forall k, flag_of (Condition.conds cs1) k = flag_of h k).
  { intros k. simpl. change (Condition.conds (conditions y)) with h. destruct (decide (c = k)) as [<-|Hne];
      [by rewrite lookup_insert_eq, Hc | by rewrite lookup_insert_ne]. }
  assert (Hparents : forall k, parents_of (Condition.conds cs1) k =
    union (if decide (c = k) then {[p]} else ∅) <$> parents_of h k) by (intros k; by apply insert_edge).
  destruct (Condition.Fired d).
  - destruct (Condition.visit_fires Condition.broadcast Condition.PthreadBroadcast
      (fun _ _ => eq_refl) cond_rank cond_fuel p cs1 Hg1) as (s' & Hb & Hf);
      [by apply Hlive1 | destruct p as [? []]; unfold cond_rank, cond_fuel; simpl; lia |].
    exists s'. split; [by apply Hrun|]. split.
    + intros k. rewrite <- (proj1 Hf k). apply Hparents.
    + intros k Hk _ Hk'. apply (fires_reached _ _ _ _ Hf); [by apply Hlive1|].
      by apply (reach_below c d1 p h k Hok Hr).
    + intros k Hn. rewrite (fires_unreached _ _ _ _ Hf), Hflags; [done|].
      intros Hk. apply Hn. split; [done|]. by apply (reach_below c d1 p h k Hok Hr).
  - exists cs1. split; [by apply Hrun|]. split.
    + apply Hparents.
    + done.
    + intros k _. by apply Hflags.
Qed.
End ConditionRuns.

(** ** Waiting, and what the other threads do meanwhile *)

Section Waiting.
Context `{!Platform}.
Implicit Types (c p k q : cid) (h : cmap).

Lemma runs_events (l : Z) (events : list cid) : forall y,
  conditions_ok y -> (forall c, c ∈ events -> live_condition y c) ->
  exists cs, runs l (for_each events broadcast) y tt l (set_conditions cs y)
    /\ Condition.fires_any events (condition_map y) (Condition.conds cs).
Proof.
  induction events as [|c events IH]; intros y Hok Hlive; cbn [for_each].
  - exists (conditions y). split; [|apply Condition.fires_any_nil].
    eapply runs_eq; [apply runs_ret|done|done|by destruct y].
  - destruct (runs_broadcast l c y Hok) as (cs1 & R1 & F1); [apply Hlive; by left|].
    destruct (IH (set_conditions cs1 y)) as (cs2 & R2 & F2).
    + unfold conditions_ok. by rewrite <- (proj1 F1).
    + intros k Hk. apply (Condition.same_parents_dom _ _ k (proj1 F1)). apply Hlive. by right.
    + exists cs2. split; [eapply runs_bind; [exact R1|exact R2]|].
      by eapply Condition.fires_any_cons.
Qed.

Lemma runs_consume (l : Z) c y :
  live_condition y c ->
  exists cs, runs l (on_conditions (Condition.set_Fired false c)) y tt l (set_conditions cs y)
    /\ marks c false (condition_map y) (Condition.conds cs).
Proof.
  intros [d Hd]. eexists. split.
  - apply runs_on_conditions. by apply (Condition.set_Fired_run _ _ _ d).
  - by apply clear_marks.
Qed.

Lemma runs_peekFired (l : Z) c (b : bool) y :
  flag_of (condition_map y) c = Some b -> runs l (peekFired c) y b l y.
Proof.
  intros Hf. replace y with (set_conditions (conditions y) y) at 2 by (by destruct y).
  apply runs_on_conditions. unfold Condition.peekFired, Condition.load_cond, bind.
  unfold condition_map in Hf. destruct (Condition.conds (conditions y) !! c) as [d|]; [|done].
  simpl in *. by injection Hf as ->.
Qed.

(** A wait in which the events of [events] are announced, unless the condition
    is fired already.  Only the flag of the condition itself is consumed. *)
Lemma runs_wait (l : Z) (forever : bool) c (b : bool) (events : list cid)
    (r : Condition.WaitResult) y :
  conditions_ok y -> flag_of (condition_map y) c = Some b ->
  (forall e, e ∈ events -> live_condition y e) ->
  r = Condition.WaitOk \/ (r = Condition.WaitTimeout /\ forever = false) ->
  exists woken cs h, runs l (wait_for forever c [(r, for_each events broadcast)]) y woken l
      (set_conditions cs y)
    /\ Condition.fires_any (if b then [] else events) (condition_map y) h
    /\ Condition.same_parents h (Condition.conds cs)
    /\ forall k, k <> c -> flag_of (Condition.conds cs) k = flag_of h k.
Proof.
  intros Hok Hb Hev Hr. cbn [wait_for].
  assert (Hlive : live_condition y c).
  { unfold live_condition. change (is_Some (condition_map y !! c)).
    destruct (condition_map y !! c); [by eexists|done]. }
  assert (Hconsume : forall y1, live_condition y1 c -> exists cs,
    runs l (on_conditions (Condition.set_Fired false c) ;; ret true) y1 true l (set_conditions cs y1)
    /\ Condition.same_parents (condition_map y1) (Condition.conds cs)
    /\ forall k, k <> c -> flag_of (Condition.conds cs) k = flag_of (condition_map y1) k).
  { intros y1 H1. destruct (runs_consume l c y1 H1) as (cs & R & Hs & _ & Ho). exists cs.
    split_and!; [eapply runs_bind; [exact R|apply runs_ret]|done|].
    intros k Hk. apply Ho; [done|]. by intros [? _]. }
  destruct b.
  - destruct (Hconsume y Hlive) as (cs & R & Hs & Ho). exists true, cs, (condition_map y).
    split_and!; [|apply Condition.fires_any_nil|done|done].
    eapply runs_bind; [by apply runs_peekFired|exact R].
  - destruct (runs_events l events y Hok Hev) as (cs1 & R1 & F1).
    destruct Hr as [-> |[-> ->]].
    + destruct (Hconsume (set_conditions cs1 y)) as (cs & R & Hs & Ho).
      { by apply (Condition.same_parents_dom _ _ c (proj1 F1)). }
      exists true, cs, (Condition.conds cs1). split_and!; [|done|done|done].
      eapply runs_bind; [by apply runs_peekFired|]. cbv beta iota.
      eapply runs_bind; [exact R1|exact R].
    + exists false, cs1, (Condition.conds cs1). split_and!; [|done|done|done].
      eapply runs_bind; [by apply runs_peekFired|]. cbv beta iota.
      eapply runs_bind; [exact R1|apply runs_ret].
Qed.

End Waiting.

