(* ===== verification/SelectRuns.v ===== *)
(** * What [ext_select] reports (sctpsocketwrapper.cc)

    The call collects the update conditions of the watched descriptors under
    the conditions of a [SelectData], waits for the global one of them, and
    harvests the flags.  The theorem of this file says which descriptors it
    reports, for descriptors of SCTP, and that it leaves the conditions as it
    has found them. *)

From S2P Require Import Prelude MultiMap Memory Notification State Association Socket SocketIO.
From S2P Require Import SocketOps SocketLife SocketMaster Descriptors WrapperSockets WrapperSelect.
From S2P Require Import Runs Construction SelectConditions Demo ApiDemo.
From S2P Require Condition.
Local Open Scope Z_scope.

#[local] Existing Instances Condition.same_parents_equiv Condition.graph_ok_proper.

(** ** Collecting the conditions *)

Section Collecting.
Context `{!Platform} `{!Kernel}.

Definition update_kind (t : UpdateConditionType) : CondKind :=
  match t with UCT_Read => ReadUpdate | UCT_Write => WriteUpdate | UCT_Except => ExceptUpdate end.

Definition descriptor_of (s : Api) (fd : Z) : option ExtSocketDescriptor :=
  match getSocket fd with Some i => Sockets s !! i | None => None end.

(** The update condition of a descriptor of SCTP: the association's if it has
    one, otherwise the socket's. *)
Definition owner (d : ExtSocketDescriptor) : nat :=
  match SCTPAssociationPtr d, SCTPSocketPtr d with
  | Some a, _ => a
  | None, Some p => p
  | None, None => 0
  end.
Definition condition_of (s : Api) (w : watch) : cid :=
  (match descriptor_of s w.1 with Some d => owner d | None => 0%nat end, update_kind w.2).

(** The state of the descriptor when the call starts. *)
Definition association_ready (t : UpdateConditionType) (o : SCTPAssociation) : bool :=
  match t with
  | UCT_Read => a_ReadReady o | UCT_Write => a_WriteReady o | UCT_Except => a_HasException o
  end.
Definition socket_ready (t : UpdateConditionType) (p : SCTPSocket) : bool :=
  match t with
  | UCT_Read => s_ReadReady p | UCT_Write => s_WriteReady p | UCT_Except => s_HasException p
  end.
Definition ready_now (s : Api) (w : watch) : bool :=
  match descriptor_of s w.1 with
  | Some d =>
      match SCTPAssociationPtr d, SCTPSocketPtr d with
      | Some a, _ => from_option (association_ready w.2) false (assocs (sys s) !! a)
      | None, Some p =>
          (bool_decide (w.2 = UCT_Write) && negb (ConnectionOriented d))
          || from_option (socket_ready w.2) false (sockets (sys s) !! p)
      | None, None => false
      end
  | None => false
  end.

(** An open descriptor of SCTP. *)
Definition selectable (s : Api) (w : watch) : Prop :=
  exists d, descriptor_of s w.1 = Some d /\ ed_Type d = ESDT_SCTP
    /\ match SCTPAssociationPtr d, SCTPSocketPtr d with
       | Some a, _ => is_Some (assocs (sys s) !! a)
       | None, Some p => is_Some (sockets (sys s) !! p)
       | None, None => False
       end
    /\ live_condition (sys s) (condition_of s w).

Definition set_of (t : UpdateConditionType) (fds : FdSets) : option (gset Z) :=
  match t with UCT_Read => readfds fds | UCT_Write => writefds fds | UCT_Except => exceptfds fds end.
Definition watched_at (fds : FdSets) (fd : Z) : list watch :=
  filter (fun w => SAFE_FD_ISSET w.1 (set_of w.2 fds) = true)
    [(fd, UCT_Read); (fd, UCT_Write); (fd, UCT_Except)].
(** What a call for the first [n] descriptors watches, in the order it
    collects it. *)
Definition watched (n : Z) (fds : FdSets) : list watch :=
  seqZ 0 (Z.min n FD_SETSIZE) ≫= watched_at fds.

(** ** Runs of the calls of the API *)

Definition at_level (l : Z) (ce old : bool) (s : Api) : Api := set_sys (relock l ce old (sys s)) s.
Definition aruns {X} (l : Z) (m : A X) (s : Api) (x : X) (l' : Z) (s' : Api) : Prop :=
  forall ce old, exists old', m (at_level l ce old s) = Ret x (at_level l' ce old' s').

Lemma aruns_ret {X} l (x : X) s : aruns l (ret x) s x l s.
Proof. intros ce old. by exists old. Qed.

Lemma aruns_bind {X Y} l (m : A X) (k : X -> A Y) s x l1 s1 z l2 s2 :
  aruns l m s x l1 s1 -> aruns l1 (k x) s1 z l2 s2 -> aruns l (bind m k) s z l2 s2.
Proof.
  intros Hm Hk ce old. destruct (Hm ce old) as [old1 E1]. destruct (Hk ce old1) as [old2 E2].
  exists old2. unfold bind. by rewrite E1.
Qed.

Lemma aruns_lift {X} l (m : P X) s x l' y :
  runs l m (sys s) x l' y -> aruns l (lift m) s x l' (set_sys y s).
Proof.
  intros Hm ce old. destruct (Hm ce old) as [old' E]. exists old'.
  unfold lift, at_level. simpl. by rewrite E.
Qed.

Lemma aruns_desc l i d s : Sockets s !! i = Some d -> aruns l (desc i) s d l s.
Proof. intros Hd ce old. exists old. unfold desc, at_level. simpl. by rewrite Hd. Qed.

Lemma aruns_nonnegative l r s : 0 <= r -> aruns l (getErrnoResult r) s r l s.
Proof. intros Hr. unfold getErrnoResult. rewrite bool_decide_false by lia. apply aruns_ret. Qed.
End Collecting.

Section Collect.
Context `{!Platform} `{!Kernel}.
Variable s : Api.
Abbreviation base := (next_address (sys s)).
Abbreviation h0 := (condition_map (sys s)).
Abbreviation gathered := (collected base h0 (condition_of s) (ready_now s)).
Hypothesis Hok : conditions_ok (sys s).
Hypothesis Hfresh : forall k, h0 !! (base, k) = None.

(** During the call only the conditions and the next address differ. *)
Definition during (cs : Condition.CState cid) : Sys :=
  set_conditions cs (set_next_address (S base) (sys s)).
Definition entry_for (w : watch) : ConditionEntry :=
  {| ce_fd := w.1; ce_type := w.2; ce_condition := condition_of s w;
     ce_parent := (base, select_kind w.2) |}.
Definition data (ws : list watch) : SelectData :=
  {| sd_address := base; sd_Conditions := entry_for <$> ws; sd_UserCallbacks := [] |}.

Lemma condition_rank (w : watch) : cond_rank (condition_of s w) = 2%nat.
Proof. by destruct w as [? []]. Qed.
#[local] Hint Resolve condition_rank : core.

Lemma gathered_ok (ws : list watch) (cs : Condition.CState cid) : gathered ws (Condition.conds cs) -> conditions_ok (during cs).
Proof. intros Hc. by eapply (collected_graph base h0 (condition_of s) (ready_now s)). Qed.

Lemma gathered_live (ws : list watch) (cs : Condition.CState cid) (w : watch) :
  gathered ws (Condition.conds cs) -> selectable s w -> live_condition (during cs) (condition_of s w).
Proof.
  intros Hc (d & _ & _ & _ & Hl). eapply (collected_live base h0); [exact Hc| |exact Hl].
  eapply (cond_apart base h0); [done|]. destruct Hl as [c Hc']. unfold condition_map. by rewrite Hc'.
Qed.

Lemma assoc_update_eq a t :
  assoc_getUpdateCondition a t =
  (let* o := assoc a in
   (if association_ready t o then broadcast (a, update_kind t)
    else (fired (a, update_kind t) ;; ret tt)) ;; ret (a, update_kind t)).
Proof. by destruct t. Qed.
Lemma sock_update_eq p t :
  sock_getUpdateCondition p t =
  (let* o := sock p in
   (if socket_ready t o then broadcast (p, update_kind t)
    else (fired (p, update_kind t) ;; ret tt)) ;; ret (p, update_kind t)).
Proof. by destruct t. Qed.

(** The last step: the condition is linked and entered. *)
Lemma runs_add_condition (l : Z) (w : watch) (ws : list watch) (cs : Condition.CState cid) :
  gathered ws (Condition.conds cs) -> selectable s w -> Z.of_nat (length ws) < FD_SETSIZE ->
  flag_of (Condition.conds cs) (condition_of s w) = Some (ready_now s w) ->
  exists cs', runs l (let* sd := add_condition (data ws) w.1 w.2 (condition_of s w) in ret (sd, 0))
      (during cs) (data (ws ++ [w]), 0) l (during cs')
    /\ gathered (ws ++ [w]) (Condition.conds cs').
Proof.
  intros Hc Hw Hroom Hf.
  destruct (Condition.conds cs !! condition_of s w) as [d|] eqn:Ed; simplify_eq/=.
  destruct (runs_addParent l (condition_of s w) (base, select_kind w.2) d (during cs))
    as (cs' & Hrun & Hlink).
  - by eapply gathered_ok.
  - done.
  - eapply collected_member; [done|]. destruct w as [? []]; set_solver.
  - rewrite condition_rank. destruct w as [? []]; unfold cond_rank; simpl; lia.
  - exists cs'. split.
    + unfold add_condition. cbn [sd_Conditions data]. rewrite length_fmap.
      rewrite bool_decide_true by done. cbn [sd_address].
      eapply runs_bind; [eapply runs_bind; [exact Hrun|apply runs_ret]|].
      cbv beta. eapply runs_eq; [apply runs_ret| |done|done].
      unfold data. by rewrite fmap_app.
    + eapply (collected_link base h0); [done|done|done|exact Hc| | |].
      * destruct Hw as (? & _ & _ & _ & Hl). exact Hl.
      * rewrite Ed. simpl. by rewrite Hf.
      * rewrite <- Hf. exact Hlink.
Qed.

Lemma runs_collect_SCTP (l : Z) (w : watch) (d : ExtSocketDescriptor) (ws : list watch) (cs : Condition.CState cid) :
  gathered ws (Condition.conds cs) -> descriptor_of s w.1 = Some d -> selectable s w ->
  (forall v, v ∈ ws -> condition_of s v <> condition_of s w) ->
  Z.of_nat (length ws) < FD_SETSIZE ->
  exists cs', runs l (collectSCTP_FDs (data ws) w.1 d w.2) (during cs) (data (ws ++ [w]), 0)
      l (during cs')
    /\ gathered (ws ++ [w]) (Condition.conds cs').
Proof.
  intros Hc Hd Hw Hnew Hroom. pose proof (gathered_live _ _ _ Hc Hw) as Hlive.
  pose proof (gathered_ok _ _ Hc) as Hg.
  destruct Hw as (d' & Hd' & Hsctp & Hobj & Hl). pose proof Hd' as E. rewrite Hd in E.
  injection E as <-.
  assert (Hw : selectable s w) by (exists d; done).
  assert (Hcond : condition_of s w = (owner d, update_kind w.2)) by (unfold condition_of; by rewrite Hd).
  assert (Hstep : forall cs1, marks (condition_of s w) (ready_now s w) (Condition.conds cs)
      (Condition.conds cs1) -> gathered ws (Condition.conds cs1)
      /\ flag_of (Condition.conds cs1) (condition_of s w) = Some (ready_now s w)).
  { intros cs1 Hm. split; [|apply Hm]. by eapply (collected_marks base h0). }
  assert (Hrest : forall cs1, marks (condition_of s w) (ready_now s w) (Condition.conds cs)
      (Condition.conds cs1) -> exists cs',
      runs l (let* sd := add_condition (data ws) w.1 w.2 (condition_of s w) in ret (sd, 0))
        (during cs1) (data (ws ++ [w]), 0) l (during cs')
      /\ gathered (ws ++ [w]) (Condition.conds cs')).
  { intros cs1 [H1 H2]%Hstep. by apply runs_add_condition. }
  assert (Hupdate : forall b : bool, exists cs1,
      runs l ((if b then broadcast (condition_of s w) else (fired (condition_of s w) ;; ret tt)) ;;
              ret (condition_of s w)) (during cs) (condition_of s w) l (during cs1)
      /\ marks (condition_of s w) b (Condition.conds cs) (Condition.conds cs1)).
  { intros b. exact (runs_update l b _ _ Hg Hlive). }
  unfold ready_now in *. rewrite Hd in *. unfold collectSCTP_FDs, owner in *.
  destruct (SCTPAssociationPtr d) as [a|] eqn:Ea.
  - destruct Hobj as [o Ho]. rewrite Ho in *. simpl in Hrest.
    destruct (Hupdate (association_ready w.2 o)) as (cs1 & Hrun & Hm).
    destruct (Hrest cs1 Hm) as (cs' & Hrun' & Hc'). exists cs'. split; [|done].
    rewrite assoc_update_eq. eapply runs_bind.
    { eapply runs_bind; [apply runs_assoc; exact Ho|]. cbv beta. rewrite <- Hcond. exact Hrun. }
    exact Hrun'.
  - destruct (SCTPSocketPtr d) as [p|] eqn:Ep; [|done].
    destruct Hobj as [o Ho]. rewrite Ho in *. simpl in Hrest.
    destruct (Hupdate (socket_ready w.2 o)) as (cs1 & Hrun & Hm).
    set (udp := bool_decide (w.2 = UCT_Write) && negb (ConnectionOriented d)) in *.
    assert (Hsig : exists cs2, runs l (when udp (signal (condition_of s w))) (during cs1) tt l
        (during cs2) /\ marks (condition_of s w) (udp || socket_ready w.2 o) (Condition.conds cs)
          (Condition.conds cs2)).
    { destruct udp; [|exists cs1; split; [apply runs_ret|done]].
      assert (Hl1 : live_condition (during cs1) (condition_of s w)).
      { by apply (Condition.same_parents_dom _ _ _ (proj1 Hm)). }
      assert (Hg1 : conditions_ok (during cs1)).
      { unfold conditions_ok. by rewrite <- (proj1 Hm). }
      destruct (runs_signal l _ _ Hg1 Hl1) as (cs2 & Hr2 & Hf2).
      exists cs2. split; [exact Hr2|]. by eapply marks_fires. }
    destruct Hsig as (cs2 & Hrun2 & Hm2).
    destruct (Hrest cs2 Hm2) as (cs' & Hrun' & Hc'). exists cs'. split; [|done].
    rewrite sock_update_eq. eapply runs_bind.
    { eapply runs_bind; [apply runs_sock; exact Ho|]. cbv beta. rewrite <- Hcond. exact Hrun. }
    cbv beta. eapply runs_bind; [exact Hrun2|]. exact Hrun'.
Qed.

(** ** The first half of the call *)

Definition holding (cs : Condition.CState cid) : Api := set_sys (during cs) s.

(** What has been collected, and what may still be. *)
Definition room (ws : list watch) : Prop :=
  Forall (selectable s) ws /\ NoDup (condition_of s <$> ws)
  /\ Z.of_nat (length ws) <= FD_SETSIZE.

Lemma room_prefix ws vs : room (ws ++ vs) -> room ws.
Proof.
  intros (H1 & H2 & H3). rewrite fmap_app, length_app in *.
  apply Forall_app in H1 as [? _]. apply NoDup_app in H2 as [? _]. split_and!; [done..|lia].
Qed.

Lemma room_next ws w :
  room (ws ++ [w]) -> selectable s w
  /\ (forall v, v ∈ ws -> condition_of s v <> condition_of s w)
  /\ Z.of_nat (length ws) < FD_SETSIZE.
Proof.
  intros (H1 & H2 & H3). rewrite fmap_app, length_app in *. simpl in *.
  apply Forall_app in H1 as [_ H1]. apply NoDup_app in H2 as (_ & H2 & _).
  split_and!; [by inversion H1| |lia].
  intros v Hv E. apply (H2 (condition_of s v)).
  - by apply list_elem_of_fmap_2.
  - rewrite E. by left.
Qed.

(** One descriptor and type, if its bit is set. *)
Lemma aruns_collect_event (l : Z) (fd mask event : Z) (t : UpdateConditionType) (fds : FdSets) (d : ExtSocketDescriptor)
    (ws : list watch) (cs : Condition.CState cid) :
  let new := if SAFE_FD_ISSET fd (set_of t fds) then [(fd, t)] else [] in
  has_flag mask event = SAFE_FD_ISSET fd (set_of t fds) ->
  gathered ws (Condition.conds cs) -> descriptor_of s fd = Some d -> room (ws ++ new) ->
  exists cs', aruns l (collect_event fd mask event d t (data ws, 0)) (holding cs)
      (data (ws ++ new), 0) l (holding cs')
    /\ gathered (ws ++ new) (Condition.conds cs').
Proof.
  intros new Hflag Hc Hd Hroom. unfold collect_event. rewrite Hflag.
  destruct (SAFE_FD_ISSET fd (set_of t fds)); subst new.
  - destruct (room_next _ _ Hroom) as (H1 & H2 & H3).
    destruct (runs_collect_SCTP l (fd, t) d ws cs Hc Hd H1 H2 H3) as (cs' & Hrun & Hc').
    exists cs'. split; [|done]. eapply (aruns_lift l _ (holding cs)). exact Hrun.
  - rewrite app_nil_r. exists cs. split; [apply aruns_ret|done].
Qed.

Lemma watched_at_split fds fd :
  watched_at fds fd =
  (if SAFE_FD_ISSET fd (set_of UCT_Read fds) then [(fd, UCT_Read)] else []) ++
  (if SAFE_FD_ISSET fd (set_of UCT_Write fds) then [(fd, UCT_Write)] else []) ++
  (if SAFE_FD_ISSET fd (set_of UCT_Except fds) then [(fd, UCT_Except)] else []).
Proof.
  unfold watched_at. rewrite !filter_cons, filter_nil. cbn [fst snd].
  repeat case_decide; by repeat case_match.
Qed.

Lemma event_mask_spec fds fd :
  has_flag (event_mask fds fd) POLLIN = SAFE_FD_ISSET fd (set_of UCT_Read fds)
  /\ has_flag (event_mask fds fd) POLLOUT = SAFE_FD_ISSET fd (set_of UCT_Write fds)
  /\ has_flag (event_mask fds fd) POLLERR = SAFE_FD_ISSET fd (set_of UCT_Except fds)
  /\ (event_mask fds fd = 0 <-> watched_at fds fd = []).
Proof.
  rewrite watched_at_split. unfold event_mask. cbn [set_of].
  destruct (SAFE_FD_ISSET fd (readfds fds)), (SAFE_FD_ISSET fd (writefds fds)),
    (SAFE_FD_ISSET fd (exceptfds fds)); split_and!; try reflexivity; split; done.
Qed.

Lemma aruns_collectFDs (l : Z) (fds : FdSets) (fd : Z) (ws : list watch) (cs : Condition.CState cid) :
  watched_at fds fd <> [] ->
  gathered ws (Condition.conds cs) -> room (ws ++ watched_at fds fd) ->
  exists cs', aruns l (collectFDs (data ws) fd (event_mask fds fd)) (holding cs)
      (data (ws ++ watched_at fds fd), 0) l (holding cs')
    /\ gathered (ws ++ watched_at fds fd) (Condition.conds cs').
Proof.
  intros Hne Hc Hroom. destruct (event_mask_spec fds fd) as (Er & Ew & Ee & _).
  assert (Hsel : exists i d, getSocket fd = Some i /\ Sockets s !! i = Some d
    /\ ed_Type d = ESDT_SCTP /\ descriptor_of s fd = Some d).
  { destruct (watched_at fds fd) as [|w rest] eqn:E; [done|].
    assert (Hw : w ∈ watched_at fds fd) by (rewrite E; by left).
    apply list_elem_of_filter in Hw as [_ Hw].
    assert (w.1 = fd) as Hfd by (set_unfold; naive_solver).
    destruct Hroom as [Hsel _]. apply Forall_app in Hsel as [_ Hsel].
    inversion Hsel as [|? ? (d & Hd & Ht & _) _]; subst. rewrite <- ?Hfd in *.
    unfold descriptor_of in *. destruct (getSocket w.1) as [i|]; [|done]. by exists i, d. }
  destruct Hsel as (i & d & Hi & Hs & Ht & Hd). rewrite watched_at_split in *.
  set (n1 := if SAFE_FD_ISSET fd (set_of UCT_Read fds) then _ else _) in *.
  set (n2 := if SAFE_FD_ISSET fd (set_of UCT_Write fds) then _ else _) in *.
  set (n3 := if SAFE_FD_ISSET fd (set_of UCT_Except fds) then _ else _) in *.
  rewrite !(assoc_L (++)) in *.
  destruct (aruns_collect_event l fd _ POLLIN UCT_Read fds d ws cs Er Hc Hd) as (cs1 & R1 & C1).
  { do 2 eapply room_prefix. exact Hroom. }
  destruct (aruns_collect_event l fd _ POLLOUT UCT_Write fds d _ cs1 Ew C1 Hd) as (cs2 & R2 & C2).
  { eapply room_prefix. exact Hroom. }
  destruct (aruns_collect_event l fd _ POLLERR UCT_Except fds d _ cs2 Ee C2 Hd Hroom)
    as (cs3 & R3 & C3).
  exists cs3. split; [|exact C3]. unfold collectFDs. rewrite Hi.
  eapply aruns_bind; [by apply aruns_desc|]. cbv beta. rewrite Ht.
  eapply aruns_bind; [exact R1|]. cbv beta. eapply aruns_bind; [exact R2|]. cbv beta.
  eapply aruns_bind; [exact R3|]. cbv beta. eapply aruns_bind; [by apply aruns_nonnegative|].
  apply aruns_ret.
Qed.

Lemma aruns_collect_all (l : Z) (fds : FdSets) (fdl : list Z) : forall (ws : list watch) (cs : Condition.CState cid),
  gathered ws (Condition.conds cs) -> room (ws ++ (fdl ≫= watched_at fds)) ->
  exists cs', aruns l (collect_all fdl fds (data ws)) (holding cs)
      (data (ws ++ (fdl ≫= watched_at fds)), 0) l (holding cs')
    /\ gathered (ws ++ (fdl ≫= watched_at fds)) (Condition.conds cs').
Proof.
  induction fdl as [|fd fdl IH]; intros ws cs Hc Hroom.
  - exists cs. cbn. rewrite app_nil_r. split; [apply aruns_ret|done].
  - rewrite bind_cons in *. cbn [collect_all]. destruct (event_mask_spec fds fd) as (_ & _ & _ & E0).
    case_bool_decide as Em.
    + apply E0 in Em. rewrite Em in *. by apply IH.
    + rewrite (assoc_L (++)) in *.
      destruct (aruns_collectFDs l fds fd ws cs) as (cs1 & R1 & C1); [naive_solver|done| |].
      { by eapply room_prefix. }
      destruct (IH _ _ C1 Hroom) as (cs2 & R2 & C2). exists cs2. split; [|done].
      eapply aruns_bind; [exact R1|]. cbv beta iota. rewrite bool_decide_true by done. exact R2.
Qed.

(** The conditions of a new [SelectData]. *)
Lemma runs_new_Condition (l : Z) (c : cid) (y : Sys) :
  runs l (new_Condition c) y tt l
    (set_conditions (Condition.set_cond c (quiescent ∅) (conditions y)) y).
Proof.
  apply runs_on_conditions.
  unfold Condition.new_Condition, Condition.addParent, Condition.set_Fired, Condition.load_cond,
    bind, modify, ret, Condition.set_cond. simpl. rewrite lookup_insert_eq. simpl.
  by rewrite insert_insert_eq.
Qed.

Lemma runs_addParent_quiescent (l : Z) (c p : cid) ps (y : Sys) :
  condition_map y !! c = Some (quiescent ps) ->
  runs l (addParent c p) y tt l
    (set_conditions (Condition.set_cond c (quiescent ({[p]} ∪ ps)) (conditions y)) y).
Proof. intros Hc. apply runs_on_conditions. by rewrite (addParent_eq _ _ _ _ _ Hc). Qed.

Lemma runs_new_SelectData (l : Z) :
  exists cs, runs l new_SelectData (sys s) (data []) l (during cs) /\ gathered [] (Condition.conds cs).
Proof.
  eexists. split.
  - unfold new_SelectData.
    eapply runs_bind; [apply runs_gets; intros; by apply (relock_proj next_address)|]. cbv beta.
    eapply runs_bind.
    { apply (runs_modify l (set_next_address (S base))). intros. by apply (relock_set (set_next_address _)). }
    cbv beta. eapply runs_bind; [cbn [for_each]|cbv beta; eapply runs_bind; [cbn [for_each]|]].
    + repeat (eapply runs_bind; [apply runs_new_Condition|]; cbv beta). apply runs_ret.
    + do 3 (eapply runs_bind;
        [eapply runs_addParent_quiescent; unfold condition_map; cbn;
         by rewrite ?(lookup_insert_ne _ (base, _) (base, _)), lookup_insert_eq by done|]; cbv beta).
      apply runs_ret.
    + eapply runs_eq; [apply runs_ret|reflexivity..].
  - split.
    + intros [a k]. cbn. repeat (rewrite lookup_insert; case_decide; simplify_eq/=);
        rewrite ?decide_True, ?(right_id_L ∅ (∪)) by done; try done.
      change (Condition.conds (conditions (sys s))) with h0. case_decide; subst.
      * rewrite Hfresh. by destruct k.
      * destruct (h0 !! (a, k)); simpl; [|done]. f_equal. unfold added. simpl. set_solver.
    + intros w Hw. by apply not_elem_of_nil in Hw.
    + cbn. by rewrite ?(lookup_insert_ne _ (base, _) (base, _)), lookup_insert_eq by done.
Qed.

(** ** The wait *)

Lemma runs_select_wait (l : Z) (ws : list watch) (cs : Condition.CState cid) timeout
    (events : list cid) (r : Condition.WaitResult) :
  gathered ws (Condition.conds cs) -> ws <> [] ->
  (forall e, e ∈ events -> live_condition (sys s) e) ->
  r = Condition.WaitOk \/ (r = Condition.WaitTimeout /\ timeout <> None) ->
  exists (f : watch -> bool) cs', aruns l (select_wait (data ws) timeout [(r, for_each events broadcast)])
      (holding cs) (0, timeout) l (holding cs')
    /\ Condition.same_parents (Condition.conds cs) (Condition.conds cs')
    /\ forall w, w ∈ ws -> flag_of (Condition.conds cs') (condition_of s w) = Some (f w)
         /\ (f w = true <-> ready_now s w = true \/
               (existsb (ready_now s) ws = false /\
                exists e, e ∈ events /\ reaches h0 e (condition_of s w))).
Proof.
  intros Hc Hne Hev Hr.
  assert (Hlive : forall e, e ∈ events -> live_condition (during cs) e).
  { intros e He. destruct (Hev e He) as [d Hd]. eapply (collected_live base h0); [exact Hc| |by eexists].
    intros E. destruct e as [a k]. simpl in E. subst a. pose proof (Hfresh k) as Hn.
    unfold condition_map in Hn. congruence. }
  destruct (runs_wait l (bool_decide (timeout = None)) (base, SelectGlobal)
    (existsb (ready_now s) ws) events r (during cs)) as (woken & cs' & h & R & [Hs Hf] & Hs' & Ho).
  - by eapply gathered_ok.
  - apply (co_global _ _ _ _ _ _ Hc).
  - done.
  - destruct Hr as [->|[-> Ht]]; [by left|right]. split; [done|]. by apply bool_decide_false.
  - exists (fun w => default false (flag_of (Condition.conds cs') (condition_of s w))), cs'.
    split_and!.
    + unfold select_wait. cbn [sd_Conditions data].
      rewrite (bool_decide_false (entry_for <$> ws = [])) by (by intros ?%fmap_nil_inv).
      cbn [negb orb sd_address]. eapply aruns_bind.
      { eapply (aruns_lift l _ (holding cs)). exact R. }
      apply aruns_ret.
    + by transitivity h.
    + intros w Hw. pose proof (co_flags _ _ _ _ _ _ Hc w Hw) as E0.
      assert (Hne2 : condition_of s w <> (base, SelectGlobal)) by (destruct w as [? []]; intros [=]).
      rewrite (Ho _ Hne2). change (condition_map (during cs)) with (Condition.conds cs) in *.
      destruct (Condition.conds cs !! condition_of s w) as [d|] eqn:Ed; [|done].
      destruct (proj1 (Condition.same_parents_dom _ _ (condition_of s w) Hs)) as [d' Ed'];
        [by eexists|]. rewrite Ed'. simpl in *. split; [done|]. injection E0 as <-.
      rewrite (Hf _ _ _ Ed Ed'). apply or_iff_compat_l.
      destruct (existsb (ready_now s) ws).
      * split; [intros (e & He & _); by apply not_elem_of_nil in He|by intros [? _]].
      * split; [intros (e & He & Hre); split; [done|]; exists e; split; [done|];
                by apply (reach_watched base h0 _ _ Hok Hfresh condition_rank ws _ e w Hc)
               |intros [_ (e & He & Hre)]; exists e; split; [done|];
                by apply (reach_watched base h0 _ _ Hok Hfresh condition_rank ws _ e w Hc)].
Qed.

(** ** The second half *)

Definition unlink (w : watch) (c : Condition.Cond cid) : Condition.Cond cid :=
  {| Condition.Fired := false;
     Condition.ParentSet := Condition.ParentSet c ∖ {[(base, select_kind w.2)]} |}.
Definition report (ws : list watch) (fds : FdSets) : FdSets :=
  foldl (fun fds w => set_type w.2 w.1 fds) fds ws.

Lemma runs_release (l : Z) (w : watch) (b : bool) y :
  flag_of (condition_map y) (condition_of s w) = Some b ->
  exists cs, runs l (let* f := fired (condition_of s w) in
        removeParent (condition_of s w) (base, select_kind w.2) ;; ret f) y b l (set_conditions cs y)
    /\ Condition.conds cs = alter (unlink w) (condition_of s w) (condition_map y).
Proof.
  intros Hf. set (c := condition_of s w) in *. unfold condition_map in *.
  destruct (Condition.conds (conditions y) !! c) as [d|] eqn:Ed; [|done]. simpl in Hf.
  eexists. split.
  - eapply runs_bind; [by apply runs_fired|]. cbv beta. unfold clear_fired. rewrite Ed.
    eapply runs_bind.
    { apply runs_on_conditions.
      unfold Condition.removeParent, Condition.set_ParentSet, Condition.load_cond,
        Condition.set_cond, bind, modify.
      cbn. do 2 (rewrite lookup_insert_eq; cbn). reflexivity. }
    cbv beta. injection Hf as <-. apply runs_ret.
  - cbn. rewrite insert_insert_eq. apply map_eq. intros k. rewrite lookup_alter.
    case_decide as E; [subst k; by rewrite lookup_insert_eq, Ed|by rewrite lookup_insert_ne].
Qed.

Lemma runs_harvest (l : Z) (f : watch -> bool) (ws : list watch) : forall fds n y,
  NoDup (condition_of s <$> ws) ->
  (forall w, w ∈ ws -> flag_of (condition_map y) (condition_of s w) = Some (f w)) ->
  exists cs, runs l (harvest_conditions (entry_for <$> ws) fds n) y
      (report (filter (fun w => f w = true) ws) fds,
       n + Z.of_nat (length (filter (fun w => f w = true) ws))) l (set_conditions cs y)
    /\ (forall k, parents_of (Condition.conds cs) k =
          (fun ps => ps ∖ added base (condition_of s) ws k) <$> parents_of (condition_map y) k)
    /\ (forall w, w ∈ ws -> flag_of (Condition.conds cs) (condition_of s w) = Some false)
    /\ (forall k, k ∉ condition_of s <$> ws ->
          flag_of (Condition.conds cs) k = flag_of (condition_map y) k).
Proof.
  induction ws as [|w ws IH]; intros fds n y Hnd Hf.
  - exists (conditions y). split_and!.
    + eapply runs_eq; [apply runs_ret|by rewrite Z.add_0_r|done|by destruct y].
    + intros k. unfold added. simpl. unfold condition_map.
      destruct (Condition.conds (conditions y) !! k); simpl; [|done]. f_equal. set_solver.
    + intros w Hw. by apply not_elem_of_nil in Hw.
    + done.
  - rewrite fmap_cons in *. inversion Hnd as [|? ? Hnew Hnd']; subst.
    destruct (runs_release l w (f w) y) as (cs1 & R1 & E1); [apply Hf; by left|].
    destruct (IH (if f w then set_type w.2 w.1 fds else fds) (if f w then n + 1 else n)
                (set_conditions cs1 y)) as (cs2 & R2 & P2 & F2 & O2); [done| |].
    { intros v Hv. unfold condition_map. cbn [conditions set_conditions]. rewrite E1.
      rewrite lookup_alter_ne; [apply Hf; by right|]. intros E. apply Hnew. rewrite E.
      by apply list_elem_of_fmap_2. }
    change (condition_map (set_conditions cs1 y)) with (Condition.conds cs1) in *.
    exists cs2. split_and!.
    + cbn [harvest_conditions]. intros ce old. destruct (R1 ce old) as [o1 E].
      destruct (R2 ce o1) as [o2 E']. exists o2. revert E. unfold bind. cbn [entry_for ce_condition ce_parent].
      destruct (fired (condition_of s w) (relock l ce old y)) as [b z|]; [|done].
      destruct (removeParent (condition_of s w) (base, select_kind w.2) z) as [[] z'|]; [|done].
      unfold ret. intros [= -> ->]. cbn [ce_type ce_fd]. rewrite filter_cons.
      destruct (f w); simpl; cbn [set_conditions] in *; rewrite E'; [|done].
      do 2 f_equal. lia.
    + intros k. rewrite P2, E1, lookup_alter. unfold added. rewrite filter_cons.
      destruct (decide (condition_of s w = k)) as [Ek|Ek].
      * subst k. destruct (condition_map y !! condition_of s w); simpl; [|done]. f_equal. set_solver.
      * done.
    + intros v Hv. apply elem_of_cons in Hv as [->|Hv]; [|by apply F2].
      rewrite O2, E1, lookup_alter_eq by done.
      pose proof (Hf w ltac:(by left)) as Ew. by destruct (condition_map y !! condition_of s w).
    + intros k Hk. apply not_elem_of_cons in Hk as [Hk Hk']. rewrite O2, E1 by done.
      by rewrite lookup_alter_ne.
Qed.

(** ** The sets *)

Definition given (t : UpdateConditionType) (fds : FdSets) : bool :=
  match set_of t fds with Some _ => true | None => false end.

Lemma isset_set_type (fd fd' : Z) (t t' : UpdateConditionType) (fds : FdSets) :
  SAFE_FD_ISSET fd (set_of t (set_type t' fd' fds)) =
    SAFE_FD_ISSET fd (set_of t fds) || (bool_decide ((fd, t) = (fd', t')) && given t fds)
  /\ given t (set_type t' fd' fds) = given t fds.
Proof.
  destruct fds as [r w e]. unfold given, SAFE_FD_ISSET.
  destruct t, t'; cbn; unfold set_fd;
    (split;
      [ rewrite ?(bool_decide_false ((fd, _) = (fd', _))) by congruence; rewrite ?orb_false_r; try done
      | done || (destruct r, w, e; done) ]).
  all: match goal with |- context [_ <$> ?o] => destruct o as [v|] end; cbn; [|by rewrite ?andb_false_r].
  all: rewrite andb_true_r, <- bool_decide_or; apply bool_decide_ext; set_solver.
Qed.

Lemma isset_report (fd : Z) (t : UpdateConditionType) (ws : list watch) : forall fds,
  SAFE_FD_ISSET fd (set_of t (report ws fds)) =
    SAFE_FD_ISSET fd (set_of t fds) || (bool_decide ((fd, t) ∈ ws) && given t fds).
Proof.
  induction ws as [|[fd' t'] ws IH]; intros fds; cbn [report foldl].
  - rewrite bool_decide_false by apply not_elem_of_nil. by rewrite orb_false_r.
  - change (foldl _ ?g ws) with (report ws g).
    destruct (isset_set_type fd fd' t t' fds) as [E1 E2]. rewrite IH. cbn [fst snd]. rewrite E1, E2.
    rewrite <- orb_assoc, <- andb_orb_distrib_l, <- bool_decide_or. do 2 f_equal.
    apply bool_decide_ext. by rewrite elem_of_cons.
Qed.

Lemma given_clear (t : UpdateConditionType) (l : list Z) (fds : FdSets) :
  given t (clear_in_all l fds) = given t fds.
Proof. by destruct fds as [[] [] []], t. Qed.

Lemma isset_clear (fd : Z) (t : UpdateConditionType) (l : list Z) (fds : FdSets) :
  SAFE_FD_ISSET fd (set_of t (clear_in_all l fds)) =
    SAFE_FD_ISSET fd (set_of t fds) && negb (bool_decide (fd ∈ l)).
Proof.
  destruct fds as [r w e]. unfold SAFE_FD_ISSET, clear_in_all, clear_fds. cbn.
  destruct t; cbn; [destruct r as [v|]|destruct w as [v|]|destruct e as [v|]]; cbn;
    try done; rewrite <- bool_decide_not, <- bool_decide_and; apply bool_decide_ext; set_solver.
Qed.

Lemma elem_of_watched (n : Z) (fds : FdSets) (w : watch) :
  w ∈ watched n fds <->
  0 <= w.1 < Z.min n FD_SETSIZE /\ SAFE_FD_ISSET w.1 (set_of w.2 fds) = true.
Proof.
  unfold watched. rewrite list_elem_of_bind. destruct w as [fd t]. cbn [fst snd]. split.
  - intros (fd' & Hw & Hfd). apply list_elem_of_filter in Hw as [Hset Hw].
    apply elem_of_seqZ in Hfd. cbn in Hset.
    assert (fd = fd') as -> by (set_unfold; naive_solver). split; [lia|done].
  - intros [Hr Hset]. exists fd. split; [|apply elem_of_seqZ; lia].
    apply list_elem_of_filter. split; [done|]. destruct t; set_solver.
Qed.

(** Whether a bit was in the range of the call. *)
Definition in_range (n fd : Z) : bool := bool_decide (0 <= fd < Z.min n FD_SETSIZE).

Lemma reported_bits (n fd : Z) (t : UpdateConditionType) (fds : FdSets) (f : watch -> bool) :
  SAFE_FD_ISSET fd (set_of t (clear_in_all [] (report (filter (fun w => f w = true) (watched n fds))
    (clear_in_all (ce_fd <$> (entry_for <$> watched n fds)) fds)))) =
  SAFE_FD_ISSET fd (set_of t fds) && (negb (in_range n fd) || f (fd, t)).
Proof.
  rewrite isset_clear, isset_report, isset_clear, given_clear.
  rewrite (bool_decide_false (fd ∈ [])) by apply not_elem_of_nil. cbn [negb]. rewrite andb_true_r.
  assert (Hfds : fd ∈ ce_fd <$> (entry_for <$> watched n fds) <->
    exists t, (fd, t) ∈ watched n fds).
  { rewrite <- list_fmap_compose, list_elem_of_fmap. split.
    - intros ([fd' t'] & -> & Hw). by exists t'.
    - intros [t' Hw]. by exists (fd, t'). }
  assert (Hin : forall t', (fd, t') ∈ watched n fds <-> in_range n fd = true /\
    SAFE_FD_ISSET fd (set_of t' fds) = true).
  { intros t'. rewrite elem_of_watched. unfold in_range. by rewrite bool_decide_eq_true. }
  assert (Hgiven : SAFE_FD_ISSET fd (set_of t fds) = true -> given t fds = true).
  { unfold SAFE_FD_ISSET, given. by destruct (set_of t fds). }
  assert (Hrep : bool_decide ((fd, t) ∈ filter (fun w => f w = true) (watched n fds)) =
    in_range n fd && SAFE_FD_ISSET fd (set_of t fds) && f (fd, t)).
  { apply eq_true_iff_eq. rewrite bool_decide_eq_true, list_elem_of_filter, Hin, !andb_true_iff.
    tauto. }
  rewrite Hrep. destruct (SAFE_FD_ISSET fd (set_of t fds)) eqn:Eset.
  - rewrite (Hgiven eq_refl). destruct (in_range n fd) eqn:Er.
    + rewrite (bool_decide_true (fd ∈ _)) by (apply Hfds; exists t; by apply Hin).
      cbn. by rewrite andb_true_r.
    + rewrite (bool_decide_false (fd ∈ _)); [done|]. intros [t' Ht']%Hfds. by apply Hin in Ht' as [? _].
  - by rewrite andb_false_r.
Qed.

(** ** The whole call *)

Lemma runs_delete_SelectData (l : Z) (ws : list watch) y :
  exists cs, runs l (delete_SelectData (data ws)) y tt l (set_conditions cs y)
    /\ forall k, Condition.conds cs !! k =
         if decide (k.1 = base /\ is_Some (select_parents base k.2)) then None
         else condition_map y !! k.
Proof.
  eexists. split.
  - unfold delete_SelectData. cbn [for_each sd_address data].
    repeat (eapply runs_bind;
      [apply (runs_modify l (fun y => set_conditions _ y)); intros; symmetry;
       rewrite (relock_proj conditions) by done; symmetry; by apply (relock_set (set_conditions _))|];
      cbv beta).
    eapply runs_eq; [apply runs_ret|reflexivity..].
  - intros [a k]. cbn. rewrite !lookup_delete. unfold condition_map.
    repeat (case_decide; simplify_eq/=); try done;
      match goal with
      | Hn : ~ (base = base /\ _) |- _ => destruct Hn; split; [done|by eexists]
      | Hs : a = base /\ is_Some _ |- _ =>
          destruct Hs as [-> [ps Hs]]; by destruct k; simplify_eq/=
      end.
Qed.

Lemma unlinked_parents (ws : list watch) (h h' : cmap) :
  gathered ws h ->
  (forall k, parents_of h' k = (fun ps => ps ∖ added base (condition_of s) ws k) <$> parents_of h k) ->
  forall k, k.1 <> base -> parents_of h' k = parents_of h0 k.
Proof.
  intros Hc Hp k Hk. rewrite Hp, (co_parents _ _ _ _ _ _ Hc k), decide_False by done.
  destruct (h0 !! k) as [c|] eqn:Ec; simpl; [|done]. f_equal.
  assert (Hdis : forall p, p ∈ added base (condition_of s) ws k -> p ∉ Condition.ParentSet c).
  { intros p Hadd Hold. apply elem_of_added in Hadd as (w & _ & _ & ->).
    by apply (old_parent_apart base h0 Hok Hfresh k (base, select_kind w.2)); [by exists c|]. }
  set_solver.
Qed.

Lemma aruns_select (n : Z) fds timeout (events : list cid) (r : Condition.WaitResult) :
  watched n fds <> [] -> room (watched n fds) ->
  (forall e, e ∈ events -> live_condition (sys s) e) ->
  r = Condition.WaitOk \/ (r = Condition.WaitTimeout /\ timeout <> None) ->
  exists (f : watch -> bool) cs,
    let reported := filter (fun w => f w = true) (watched n fds) in
    aruns 0 (select_sctp n fds timeout [(r, for_each events broadcast)]) s
      (Z.of_nat (length reported),
       (clear_in_all [] (report reported (clear_in_all (ce_fd <$> (entry_for <$> watched n fds)) fds)),
        timeout)) 0 (holding cs)
    /\ Condition.same_parents h0 (Condition.conds cs)
    /\ forall w, w ∈ watched n fds ->
         flag_of (Condition.conds cs) (condition_of s w) = Some false
         /\ (f w = true <-> ready_now s w = true \/
               (existsb (ready_now s) (watched n fds) = false /\
                exists e, e ∈ events /\ reaches h0 e (condition_of s w))).
Proof.
  intros Hne Hroom Hev Hr. set (ws := watched n fds) in *.
  destruct (runs_new_SelectData 1) as (cs0 & R0 & C0).
  destruct (aruns_collect_all 1 fds (seqZ 0 (Z.min n FD_SETSIZE)) [] cs0 C0 Hroom) as (cs1 & R1 & C1).
  cbn [app] in R1, C1. change (seqZ 0 (Z.min n FD_SETSIZE) ≫= watched_at fds) with ws in *.
  destruct (runs_select_wait 0 ws cs1 timeout events r C1 Hne Hev Hr) as (f & cs2 & R2 & S2 & F2).
  destruct (runs_harvest 1 f ws (clear_in_all (ce_fd <$> (entry_for <$> ws)) fds) 0 (during cs2))
    as (cs3 & R3 & P3 & F3 & O3); [apply Hroom|intros w Hw; by apply F2|].
  destruct (runs_delete_SelectData 0 ws (during cs3)) as (cs4 & R4 & D4).
  change (condition_map (during cs2)) with (Condition.conds cs2) in *.
  change (condition_map (during cs3)) with (Condition.conds cs3) in *.
  exists f, cs4. intros reported. split_and!.
  - unfold select_sctp.
    eapply aruns_bind; [apply (aruns_lift 0), runs_lock; unfold level_ok; lia|]. cbv beta.
    eapply aruns_bind; [apply (aruns_lift 1); exact R0|]. cbv beta.
    eapply aruns_bind; [exact R1|]. cbv beta iota. rewrite bool_decide_true by done.
    eapply aruns_bind.
    { eapply aruns_bind; [apply (aruns_lift 1 _ (holding cs1)), (runs_unlock 0); lia|]. cbv beta.
      eapply aruns_bind; [exact R2|]. cbv beta.
      eapply aruns_bind; [apply (aruns_lift 0 _ (holding cs2)), runs_lock; unfold level_ok; lia|].
      apply aruns_ret. }
    cbv beta iota.
    eapply aruns_bind.
    { apply (aruns_lift 1 _ (holding cs2)). unfold select_harvest.
      eapply runs_bind; [exact R3|]. cbv beta iota. apply runs_ret. }
    cbv beta iota.
    eapply aruns_bind; [apply (aruns_lift 1 _ (holding cs3)), (runs_unlock 0); lia|]. cbv beta.
    rewrite bool_decide_false by lia. eapply aruns_bind.
    { unfold return_with. eapply aruns_bind; [apply aruns_nonnegative; lia|]. apply aruns_ret. }
    cbv beta. eapply aruns_bind; [apply (aruns_lift 0 _ (holding cs3)); exact R4|]. apply aruns_ret.
  - intros k. rewrite D4. destruct (decide (k.1 = base)) as [Hk|Hk].
    + destruct k as [a k]. cbn in Hk. subst a. rewrite Hfresh. case_decide as Hd; [done|].
      rewrite P3, <- (S2 (base, k)), (co_parents _ _ _ _ _ _ C1 (base, k)), decide_True by done.
      cbn [snd] in *. destruct (select_parents base k); [|done]. destruct Hd. split; [done|by eexists].
    + rewrite decide_False by naive_solver.
      symmetry. apply (unlinked_parents ws (Condition.conds cs1)); [done| |done].
      intros j. rewrite P3. by rewrite (S2 j).
  - intros w Hw. split; [|by apply F2]. rewrite D4, decide_False; [by apply F3|].
    intros [Hb [? Hs]]. by destruct w as [? []].
Qed.
End Collect.

Section SelectTheorem.
Context `{!Platform} `{!Kernel}.

(** C20. [ext_select] with a running event thread, on open descriptors of SCTP
    with different update conditions, while the other threads announce the
    [events] if the call has to wait: a watched descriptor is reported exactly
    if it was ready when the call started, or nothing was ready and one of the
    events reaches its update condition.  The result is the number of reported
    descriptors and types; a bit of a set stays exactly if it is reported or
    outside of the range of the call; the flags of the watched conditions are
    consumed, and no condition is left with a pointer to the call's own ones,
    which are destroyed: everything but the flags and the next free address
    is as before. *)
Theorem select_reports (n : Z) (fds : FdSets) (timeout : option (Z * Z)) (events : list cid)
    (r : Condition.WaitResult) (s : Api)
    (Hrunning : ThreadRunning (sys s) = true)
    (Hok : conditions_ok (sys s))
    (Hfresh : forall k, ~ live_condition (sys s) (next_address (sys s), k))
    (Hsome : watched n fds <> [])
    (Hselectable : Forall (selectable s) (watched n fds))
    (Hdistinct : NoDup (condition_of s <$> watched n fds))
    (Hroom : Z.of_nat (length (watched n fds)) <= FD_SETSIZE)
    (Hevents : forall e, e ∈ events -> live_condition (sys s) e)
    (Hresult : r = Condition.WaitOk \/ (r = Condition.WaitTimeout /\ timeout <> None)) :
  exists (reported : watch -> bool) fds' s',
    aruns 0 (ext_select n fds timeout [(r, for_each events broadcast)]) s
      (Z.of_nat (length (filter (fun w => reported w = true) (watched n fds))), (fds', timeout)) 0 s'
    /\ (forall w, w ∈ watched n fds ->
          (reported w = true <-> ready_now s w = true \/
             (existsb (ready_now s) (watched n fds) = false /\
              exists e, e ∈ events /\ reaches (condition_map (sys s)) e (condition_of s w))))
    /\ (forall fd t, SAFE_FD_ISSET fd (set_of t fds') =
          SAFE_FD_ISSET fd (set_of t fds) && (negb (in_range n fd) || reported (fd, t)))
    /\ (forall w, w ∈ watched n fds -> ~ is_fired (sys s') (condition_of s w))
    /\ Condition.same_parents (condition_map (sys s)) (condition_map (sys s'))
    /\ s' = set_sys (set_conditions (conditions (sys s'))
              (set_next_address (S (next_address (sys s))) (sys s))) s.
Proof.
  assert (Hno : forall k, condition_map (sys s) !! (next_address (sys s), k) = None).
  { intros k. apply eq_None_not_Some. apply Hfresh. }
  destruct (aruns_select s Hok Hno n fds timeout events r) as (f & cs & R & Hs & Hw);
    [done|by split_and!|done|done|].
  eexists f, _, (holding s cs). split_and!.
  - unfold ext_select. eapply aruns_bind.
    { apply (aruns_lift 0), runs_gets. intros. by apply (relock_proj ThreadRunning). }
    cbv beta. rewrite Hrunning. replace (set_sys (sys s) s) with s by (by destruct s). exact R.
  - intros w Hin. by apply Hw.
  - intros fd t. by apply reported_bits.
  - intros w Hin (d & Hd & Hf). destruct (Hw w Hin) as [E _].
    change (Condition.conds cs !! condition_of s w = Some d) in Hd. rewrite Hd in E.
    simpl in E. congruence.
  - exact Hs.
  - done.
Qed.
End SelectTheorem.

(** Descriptor 4, a one-to-many socket, and descriptor 5, an association of it,
    both watched for reading and descriptor 5 for exceptions; nothing is ready
    until a notification arrives on the association. *)
Definition demo_fds : FdSets :=
  {| readfds := Some (list_to_set [4; 5; 2000]); writefds := None; exceptfds := Some {[5]} |}.

Lemma demo_watched : watched 6 demo_fds = [(4, UCT_Read); (5, UCT_Read); (5, UCT_Except)].
Proof. by vm_compute. Qed.

Lemma demo_edges c p : Condition.parent (condition_map demo_up) c p ->
  c = (1%nat, InQueueUpdate) /\ p = (1%nat, ReadUpdate).
Proof.
  assert (Hg : map_Forall (fun k c => set_Forall (fun q => k = (1%nat, InQueueUpdate)
      /\ q = (1%nat, ReadUpdate)) (Condition.ParentSet c)) (condition_map demo_up)).
  { apply (bool_decide_unpack _). by vm_compute. }
  intros (d & Hd & Hp). exact (Hg c d Hd p Hp).
Qed.

Lemma select_reports_witness :
  exists f fds' s',
    aruns 0 (ext_select 6 demo_fds None [(Condition.WaitOk, for_each [(1%nat, InQueueUpdate)] broadcast)])
      (demo_api demo_table)
      (Z.of_nat (length (filter (fun w => f w = true) (watched 6 demo_fds))), (fds', None)) 0 s'
    /\ f (5, UCT_Read) = true /\ f (4, UCT_Read) = false
    /\ SAFE_FD_ISSET 5 (readfds fds') = true /\ SAFE_FD_ISSET 4 (readfds fds') = false
    /\ SAFE_FD_ISSET 2000 (readfds fds') = true.
Proof.
  destruct (select_reports 6 demo_fds None [(1%nat, InQueueUpdate)] Condition.WaitOk
    (demo_api demo_table)) as (f & fds' & s' & R & Hw & Hb & _).
  - reflexivity.
  - exact demo_up_conditions_ok.
  - intros k [d Hd]. by destruct k.
  - by rewrite demo_watched.
  - rewrite demo_watched. repeat constructor; (eexists; split_and!; [reflexivity|reflexivity|..];
      [by eexists|apply (bool_decide_unpack _); by vm_compute]).
  - rewrite demo_watched. apply (bool_decide_unpack _). by vm_compute.
  - rewrite demo_watched. vm_compute. congruence.
  - intros e He. apply elem_of_cons in He as [->|He]; [by eexists|by apply not_elem_of_nil in He].
  - by left.
  - rewrite demo_watched in Hw. exists f, fds', s'. split; [exact R|].
    assert (H5 : f (5, UCT_Read) = true).
    { apply Hw; [right; by left|]. right. split; [by vm_compute|].
      exists (1%nat, InQueueUpdate). split; [by left|]. apply rtc_once.
      eexists. split; [reflexivity|]. apply (bool_decide_unpack _). by vm_compute. }
    assert (H4 : f (4, UCT_Read) = false).
    { destruct (f (4, UCT_Read)) eqn:E; [|done].
      apply Hw in E as [E|(_ & e & He & Hr)]; [by vm_compute in E| |by left].
      apply elem_of_cons in He as [->|He]; [|by apply not_elem_of_nil in He].
      inversion Hr as [|? p ? Hp Hr']; subst. apply demo_edges in Hp as [_ ->].
      inversion Hr' as [|? p ? Hp Hr'']; subst. by apply demo_edges in Hp as [? _]. }
    split_and!; [exact H5|exact H4|..].
    + change (readfds fds') with (set_of UCT_Read fds'). rewrite Hb, H5. by vm_compute.
    + change (readfds fds') with (set_of UCT_Read fds'). rewrite Hb, H4. by vm_compute.
    + change (readfds fds') with (set_of UCT_Read fds'). rewrite Hb. by vm_compute.
Defined.
