(* ===== verification/Terminal.v ===== *)
(** * The terminal program: sctpterminal.cc and sctpinfoprinter.cc

    The thread that copies the lines of the standard input to the association
    and the one that shows what arrives, as functions of the text on the
    standard input and of what [receiveMsg] and [sendMsg] return, and the text that is printed for
    notifications and control data.  Text is a [string]; the data of messages
    is a list of bytes. *)

From Stdlib Require Import String Ascii.
From stdpp Require Import strings.
From S2P Require Import Prelude Memory Notification State Strings Descriptors WrapperIO.
From S2P Require Import InternetAddress AddressText SocketMessage Servers.
Local Open Scope Z_scope.

(** ** [sscanf] with the conversions %d, %x and %n *)

(** A character of the format, a number of base 10 or 16, or the position. *)
Inductive Directive : Set := Literal (c : ascii) | Number (base : Z) | Position.

Definition sign_of (s : string) : bool * string :=
  match s with
  | String c s' => if Ascii.eqb c "-" then (true, s') else if Ascii.eqb c "+" then (false, s')
                   else (false, s)
  | EmptyString => (false, s)
  end.
Definition hex_prefix (s : string) : string :=
  match s with
  | String c (String x s') => if Ascii.eqb c "0" && Ascii.eqb (tolower x) "x" then s' else s
  | _ => s
  end.
(** One number: its bits as an [unsigned int], and the rest of the text.  The
    number is read with 64 bits, signed for %d and unsigned for %x. *)
Definition convert (base : Z) (s : string) : option (Z * string) :=
  let '(negative, s) := sign_of (skip_space s) in
  let digits := if base =? 16 then hex_prefix s else s in
  match digits with
  | String c _ =>
      match digit_value base c with
      | Some _ =>
          let '(n, rest) := read_digits base digits 0 in
          let signed := if negative : bool then - n else n in
          Some (u32 (if base =? 16 then (if 2 ^ 64 - 1 <? n then 2 ^ 64 - 1 else signed)
                     else clamp64 signed), rest)
      | None => None
      end
  | EmptyString => None
  end.

(** The number of conversions, and the values stored for them and for %n; the
    text has [length] characters in all.  (At the end of the text before the
    first conversion the function returns -1, here 0; all calls compare the
    result with 1 or 2.) *)
Fixpoint sscanf (format : list Directive) (length : Z) (s : string) : Z * list Z :=
  match format with
  | [] => (0, [])
  | Literal c :: format =>
      match s with
      | String c' s => if Ascii.eqb c c' then sscanf format length s else (0, [])
      | EmptyString => (0, [])
      end
  | Number base :: format =>
      match convert base s with
      | Some (v, s) => let '(n, values) := sscanf format length s in (n + 1, v :: values)
      | None => (0, [])
      end
  | Position :: format =>
      let '(n, values) := sscanf format length s in (n, (length - strlen s) :: values)
  end.

(** ["#%d/$%x:%n"], ["#%d/%x:%n"] and ["#%d:%n"] *)
Definition format_dollar : list Directive :=
  [Literal "#"; Number 10; Literal "/"; Literal "$"; Number 16; Literal ":"; Position].
Definition format_plain : list Directive :=
  [Literal "#"; Number 10; Literal "/"; Number 16; Literal ":"; Position].
Definition format_stream : list Directive := [Literal "#"; Number 10; Literal ":"; Position].

(** ** Colours *)

Definition getANSIColor (number : Z) : Z :=
  let color := Z.rem number 15 in
  let a := Z.rem color 8 in
  let b := Z.quot color 8 in
  30 + a + (if 0 <? b then 60 else 0).
Definition NOTIFICATION_COLOR : Z := 10.
Definition CONTROL_COLOR : Z := 12.
Definition ERROR_COLOR : Z := 9.
Definition INFO_COLOR : Z := 11.
Definition ESC : string := String "027" EmptyString.
Definition BEL : string := String "007" EmptyString.
Definition endl : string := String "010" EmptyString.
Definition color (ColorMode : bool) (number : Z) : string :=
  if ColorMode then ESC +:+ "[" +:+ print_int (getANSIColor number) +:+ "m" else "".

(** ** [printNotification] and [printControl] *)

Definition line (label value : string) : string := label +:+ value +:+ endl.
Definition unsigned (f : field) (b : list Z) : string := print_unsigned 10 (rd f b).
Definition sac_text (n : list Z) : string :=
  line "   Type    = SCTP_ASSOC_CHANGE" "" +:+ line "   Length  = " (unsigned sn_length n)
  +:+ line "   Flags   = " ("$" +:+ padded 4 (rd sn_flags n))
  +:+ line "   State   = " (unsigned sac_state n) +:+ line "   Error   = " (unsigned sac_error n)
  +:+ line "   OutStrs = " (unsigned sac_outbound_streams n)
  +:+ line "   InStrs  = " (unsigned sac_inbound_streams n)
  +:+ line "   AssocID = #" (unsigned sac_assoc_id n).
Definition sse_text (n : list Z) : string :=
  line "   Type    = SCTP_SHUTDOWN_EVENT" "" +:+ line "   Length  = " (unsigned sn_length n)
  +:+ line "   Flags   = " ("$" +:+ padded 4 (rd sn_flags n))
  +:+ line "   AssocID = #" (unsigned sse_assoc_id n).
Definition sn_text (n : list Z) : string :=
  line "   Type   = " (unsigned sn_type n) +:+ line "   Length = " (unsigned sn_length n)
  +:+ line "   Flags  = " ("$" +:+ padded 4 (rd sn_flags n)).

Definition printNotification (PrintNotifications ColorMode : bool) (n : list Z) : string :=
  if negb PrintNotifications then ""
  else
    (if ColorMode then color true NOTIFICATION_COLOR +:+ "Notification:" +:+ endl else "")
    +:+ (if rd sn_type n =? SCTP_ASSOC_CHANGE then sac_text n
         else if rd sn_type n =? SCTP_SHUTDOWN_EVENT then sse_text n
         else sn_text n)
    +:+ color ColorMode 0.

Definition sndrcv_text (i : sctp_sndrcvinfo) : string :=
  line "   SCTP_SNDRCV" "" +:+ line "    AssocID    = #" (print_unsigned 10 (sinfo_assoc_id i))
  +:+ line "    Stream     = #" (print_unsigned 10 (sinfo_stream i))
  +:+ line "    Flags      = " ("$" +:+ padded 4 (sinfo_flags i))
  +:+ line "    PPID       = " ("$" +:+ padded 8 (ntohl (sinfo_ppid i)))
  +:+ line "    SSN        = " (print_unsigned 10 (sinfo_ssn i))
  +:+ line "    TSN        = " (print_unsigned 10 (sinfo_tsn i))
  +:+ line "    TimeToLive = " (print_unsigned 10 (sinfo_timetolive i)).
Definition other_text (header : list Z) : string :=
  "   Level #" +:+ print_int (s32 (rd cmsg_level header)) +:+ ", Type #"
  +:+ print_int (s32 (rd cmsg_type header)) +:+ ". Length is " +:+ unsigned cmsg_len header +:+ "."
  +:+ endl.
(** The loop over the headers; each one is at least 16 bytes long. *)
Fixpoint control_text (fuel : nat) (control : list Z) (controllen : Z) (cmsg : option nat)
    : option string :=
  match cmsg, fuel with
  | None, _ => Some ""
  | Some _, O => None
  | Some c, S fuel =>
      let header := drop c control in
      rest ← control_text fuel control controllen (CNextHeader control controllen c);
      Some ((if (rd cmsg_level header =? IPPROTO_SCTP) && (rd cmsg_type header =? SCTP_SNDRCV)
             then sndrcv_text (read_sndrcvinfo (CData control c)) else other_text header) +:+ rest)
  end.
Definition control_fuel (controllen : Z) : nat := S (Z.to_nat (controllen / sizeof_cmsghdr)).
Definition printControl (PrintControl ColorMode : bool) (control : option (list Z)) (controllen : Z)
    : option string :=
  if negb PrintControl then Some ""
  else
    match CFirstHeader control controllen, control with
    | Some c, Some b =>
        if sizeof_cmsghdr <=? controllen then
          text ← control_text (control_fuel controllen) b controllen (Some c);
          Some ((if ColorMode then color true CONTROL_COLOR +:+ "Control Data:" +:+ endl else "")
                +:+ text +:+ color ColorMode 0)
        else Some ""
    | _, _ => Some ""
    end.

(** ** The threads *)

Record Console : Type := { cout : string; cerr : string; sent : list Sent }.
Definition T (X : Type) : Type := M Console X.
Definition print (s : string) : T unit :=
  modify (fun c => {| cout := cout c +:+ s; cerr := cerr c; sent := sent c |}).
Definition print_error (s : string) : T unit :=
  modify (fun c => {| cout := cout c; cerr := cerr c +:+ s; sent := sent c |}).
Definition hand_over (m : Sent) : T unit :=
  modify (fun c => {| cout := cout c; cerr := cerr c; sent := sent c ++ [m] |}).

(** The options of the program. *)
Record Options : Set := {
  ColorMode : bool;
  PrintControl : bool;
  PrintNotifications : bool;
  Incoming : Z;
  Outgoing : Z;
  Unreliable : Z }.

(** *** [EchoThread] *)

(** The text of a message of [dataLength] bytes in the buffer of the thread:
    the characters are signed, those below the blank are removed at the end and
    become dots elsewhere.  The end of the text is written behind the data. *)
Definition text_of (data : list Z) : string :=
  string_of_list_ascii ((fun c => ascii_of_N (Z.to_N c)) <$> data).
Definition sizeof_buffer : Z := 16384.
Definition shown (data : list Z) : list Z :=
  (fun c => if s8 c <? 32 then 46 else c) <$> take (length data - trailing (reverse data)) data.
(** What is shown in front of a message if there is more than one stream. *)
Definition prefix (streamID protoID : Z) : string :=
  if protoID =? 0 then "#" +:+ print_int streamID +:+ ": "
  else "#" +:+ print_int streamID +:+ "/$" +:+ padded 8 protoID +:+ ": ".
Definition show_data (o : Options) (streamID protoID : Z) (buffer : list Z) (dataLength : Z) : T unit :=
  print (color (ColorMode o) (streamID + 1)) ;;
  when (1 <? Incoming o) (print (prefix streamID protoID)) ;;
  if sizeof_buffer <=? dataLength then stop OutOfBounds
  else
    print (text_of (shown (take (Z.to_nat dataLength) buffer)) +:+ endl) ;;
    print (color (ColorMode o) 0).

(** The message of an iteration: without a control buffer no control data
    comes back. *)
Definition terminal_message (r : Receipt) : SocketMessage :=
  setFlags (receivedFlags r)
    (setBuffer (dataBuffer r) sizeof_buffer
      (new_SocketMessage sizeof_sctp_sndrcvinfo [] (replicate 48 0))).

(** One iteration of the loop; the thread goes on with [true]. *)
Definition echo_round (o : Options) (r : Receipt) : T bool :=
  let m := terminal_message r in
  if dataLength r <=? 0 then ret false
  else
    let* text := of_option OutOfFuel
      (printControl (PrintControl o) (ColorMode o)
         (if SocketMessage.msg_control m then Some (Control m) else None)
         (SocketMessage.msg_controllen m)) in
    print text ;;
    let* '(_, streamID, protoID) :=
      of_option OutOfFuel (control_ids 3 m (getFirstHeader m) (0, 0, 0)) in
    (if has_flag (getFlags m) MSG_NOTIFICATION
     then print (printNotification (PrintNotifications o) (ColorMode o) (dataBuffer r))
     else show_data o streamID protoID (dataBuffer r) (dataLength r)) ;;
    ret true.

(** *** [CopyThread] *)

(** The characters of a line, at most [room] of them, the text behind them, and
    whether the end of the input was met. *)
Fixpoint read_line (room : nat) (stdin : string) : string * string * bool :=
  match room, stdin with
  | O, _ => (EmptyString, stdin, false)
  | S _, EmptyString => (EmptyString, EmptyString, true)
  | S room, String c stdin =>
      if Ascii.eqb c "010" then (String c EmptyString, stdin, false)
      else let '(str, rest, eof) := read_line room stdin in (String c str, rest, eof)
  end.
(** What the program sees of a buffer: the characters up to the first NUL. *)
Fixpoint until_null (s : string) : string :=
  match s with
  | EmptyString => EmptyString
  | String c s => if Ascii.eqb c "000" then EmptyString else String c (until_null s)
  end.
(** The result of [fgets] with that of the following [feof]. *)
Inductive Input : Set := EndOfInput | Line (str : string) (eof : bool).
Definition sizeof_str : nat := Nat.pow 2 13.
Definition fgets (size : nat) (stdin : string) : Input * string :=
  let '(str, rest, eof) := read_line (size - 1) stdin in
  (if String.eqb str EmptyString then EndOfInput else Line (until_null str) eof, rest).

(** The variables of the thread that live over the iterations. *)
Record Copy : Set := { stream : Z; ppid : Z }.

(** The values a call of [sscanf] has stored, for the variables in its order. *)
Definition store3 (values : list Z) (v : Z * Z * Z) : Z * Z * Z :=
  match values with
  | [] => v
  | [a] => (a, v.1.2, v.2)
  | [a; b] => (a, b, v.2)
  | a :: b :: c :: _ => (a, b, c)
  end.
Definition store2 (values : list Z) (v : Z * Z * Z) : Z * Z * Z :=
  match values with
  | [] => v
  | [a] => (a, v.1.2, v.2)
  | a :: b :: _ => (a, v.1.2, b)
  end.

(** Stream, PPID, position of the text, and whether a setting was given. *)
Definition scan_line (str : string) (c : Copy) : (Z * Z * Z) * bool :=
  let scan format := sscanf format (strlen str) str in
  let '(n, values) := scan format_dollar in
  let v := store3 values (stream c, ppid c, 0) in
  if n <? 2 then
    let '(n, values) := scan format_plain in
    let v := store3 values v in
    if n <? 2 then
      let '(n, values) := scan format_stream in
      let v := store2 values v in
      if n <? 1 then ((v.1, 0), false) else (v, true)
    else (v, true)
  else (v, true).

(** The control data of a message: the members in the order of their
    assignment; both branches for unreliable streams do the same. *)
Definition fill_copy (p : nat) (stream ppid : Z) (control : list Z) : list Z :=
  put (p + 16) 4 0 (put (p + 4) 4 MSG_PR_SCTP_TTL (put (p + 8) 4 (htonl ppid)
    (put (p + 4) 4 MSG_PR_SCTP_TTL (put p 2 (u16 stream) (put (p + 28) 4 0 control))))).
Definition copy_message (stream ppid : Z) (data : list Z) : T Sent :=
  let m := setBuffer data (Z.of_nat (length data))
             (new_SocketMessage sizeof_sctp_sndrcvinfo [] (replicate 48 0)) in
  match addHeader sizeof_sctp_sndrcvinfo 32 IPPROTO_SCTP SCTP_SNDRCV m with
  | Ret (Some p) m =>
      ret {| sent_data := data;
             sent_control := take (Z.to_nat (SocketMessage.msg_controllen m))
                               (fill_copy p stream ppid (Control m)) |}
  | Ret None _ => stop NullDereference
  | Stop f => stop f
  end.

(** The data of a line: its end is made a line feed and then the end again, and
    counted. *)
Definition line_data (toSend : string) : list Z := characters toSend ++ [0].

(** One iteration; [None]: the association is shut down and the thread ends.
    [result] is what [sendMsg] returns. *)
Definition copy_round (o : Options) (input : Input) (result : Z) (c : Copy) : T (option Copy) :=
  match input with
  | EndOfInput | Line _ true => ret None
  | Line str false =>
      let '((stream, ppid, position), update) := scan_line str c in
      let toSend := copy str position (strlen str) in
      let* stream :=
        if Outgoing o <=? stream then
          print_error (color (ColorMode o) ERROR_COLOR +:+ (if ColorMode o then BEL else "")
            +:+ "*** Bad stream setting! Using #0. ***" +:+ endl +:+ color (ColorMode o) 0) ;;
          ret 0
        else ret stream in
      when update
        (print (color (ColorMode o) INFO_COLOR +:+ "Via stream #" +:+ print_int (s32 stream)
           +:+ ", protocol $" +:+ padded 8 ppid +:+ "..." +:+ color (ColorMode o) 0)) ;;
      when (0 <? strlen toSend)
        (let* m := copy_message stream ppid (line_data toSend) in
         hand_over m ;;
         when (result <? 0)
           (print_error (color (ColorMode o) ERROR_COLOR +:+ (if ColorMode o then BEL else "")
              +:+ "*** sendMsg() error #" +:+ print_int result +:+ "! ***" +:+ endl
              +:+ color (ColorMode o) 0))) ;;
      ret (Some {| stream := stream; ppid := ppid |})
  end.

(** One iteration with its [fgets]; [sendMsg] is the result of the n-th call. *)
Definition copy_step (o : Options) (sendMsg : nat -> Z) (stdin : string) (c : Copy)
    : T (option (string * Copy)) :=
  let '(input, rest) := fgets sizeof_str stdin in
  let* calls := gets (fun k => length (sent k)) in
  let* next := copy_round o input (sendMsg calls) c in
  ret ((fun c => (rest, c)) <$> next).
(** The thread: each iteration reads at least one character. *)
Fixpoint copy_lines (o : Options) (sendMsg : nat -> Z) (fuel : nat) (stdin : string) (c : Copy) : T unit :=
  match fuel with
  | O => stop OutOfFuel
  | S fuel =>
      let* next := copy_step o sendMsg stdin c in
      match next with
      | Some (rest, c) => copy_lines o sendMsg fuel rest c
      | None => ret tt
      end
  end.
Definition copy_run (o : Options) (sendMsg : nat -> Z) (stdin : string) : T unit :=
  copy_lines o sendMsg (S (String.length stdin)) stdin {| stream := 0; ppid := 0 |}.

(** ** Reading numbers back *)

Lemma hex_digit_plain c : digit_value 16 c <> None ->
  is_space c = false /\ Ascii.eqb c "-" = false /\ Ascii.eqb c "+" = false
  /\ Ascii.eqb (tolower c) "x" = false.
Proof.
  assert (Hall : forallb (fun n => let c := ascii_of_nat n in
    match digit_value 16 c with
    | Some _ => negb (is_space c) && negb (Ascii.eqb c "-") && negb (Ascii.eqb c "+")
                && negb (Ascii.eqb (tolower c) "x")
    | None => true end) (seq 0 256) = true) by (vm_compute; done).
  rewrite forallb_forall in Hall. specialize (Hall (nat_of_ascii c)).
  intros Hd. cbv zeta in Hall. rewrite ascii_nat_embedding in Hall.
  destruct (digit_value 16 c); [|done].
  specialize (Hall ltac:(apply in_seq; pose proof (nat_ascii_bounded c); lia)).
  rewrite !andb_true_iff, !negb_true_iff in Hall. tauto.
Qed.

Lemma digit_value_16 base c : base <= 16 -> digit_value base c <> None -> digit_value 16 c <> None.
Proof.
  intros Hb. unfold digit_value. cbv zeta.
  match goal with |- (if ?d <? _ then _ else _) <> _ -> _ => set (v := d) end.
  destruct (Z.ltb_spec v base), (Z.ltb_spec v 16); done || lia.
Qed.

(** The text begins with digits, the first two of them not "0x". *)
Fixpoint only_digits (base : Z) (s : string) : Prop :=
  match s with EmptyString => True | String c s => digit_value base c <> None /\ only_digits base s end.
Lemma only_digits_print base n : 1 < base <= 16 -> only_digits base (print_unsigned base n).
Proof.
  intros Hb. unfold print_unsigned. assert (Hr : only_digits base "") by done. revert Hr.
  generalize EmptyString at 1 2. generalize 64%nat as fuel. intros fuel. revert n.
  induction fuel as [|fuel IH]; intros n rest Hr; [done|]. cbn [print_digits].
  assert (Hd : only_digits base (String (digit (n mod base)) rest)).
  { split; [|done]. pose proof (Z.mod_pos_bound n base ltac:(lia)). by rewrite digit_value_digit by lia. }
  case_match; [done|]. by apply IH.
Qed.
Lemma digit_value_zero base : 1 < base -> digit_value base "0" = Some 0.
Proof.
  intros Hb. change (digit_value base "0") with (if 0 <? base then Some 0 else None).
  by rewrite (proj2 (Z.ltb_lt 0 base)) by lia.
Qed.
Lemma only_digits_zeros base k s : 1 < base ->
  only_digits base s -> only_digits base (String.concat "" (replicate k "0"%string) +:+ s).
Proof.
  intros Hb Hs. induction k as [|k IH]; [done|].
  assert (E : String.concat "" (replicate (S k) "0"%string)
    = String "0" (String.concat "" (replicate k "0"%string))) by (by destruct k).
  rewrite E, app_cons_s. split; [|done]. by rewrite digit_value_zero.
Qed.
Lemma read_zeros base k s : 1 < base ->
  read_digits base (String.concat "" (replicate k "0"%string) +:+ s) 0 = read_digits base s 0.
Proof.
  intros Hb. induction k as [|k IH]; [done|].
  assert (E : String.concat "" (replicate (S k) "0"%string)
    = String "0" (String.concat "" (replicate k "0"%string))) by (by destruct k).
  rewrite E, app_cons_s. cbn [read_digits]. by rewrite digit_value_zero.
Qed.

(** A number of at least one digit (two for base 16) is read back. *)
Lemma convert_digits base digits rest n :
  base = 10 \/ base = 16 -> only_digits base digits ->
  (if Z.eqb base 16 then 2 <= String.length digits else 1 <= String.length digits)%nat ->
  read_digits base (digits +:+ rest) 0 = (n, rest) -> 0 <= n < 2 ^ 32 ->
  convert base (digits +:+ rest) = Some (n, rest).
Proof.
  intros Hb Hd Hl Hr Hn. unfold convert.
  assert (Hb16 : base <= 16) by lia.
  destruct digits as [|c digits]; [destruct (Z.eqb base 16); simpl in Hl; lia|].
  destruct Hd as [Hc Hd]. rewrite app_cons_s in *.
  destruct (hex_digit_plain c (digit_value_16 _ _ Hb16 Hc)) as (H1 & H2 & H3 & _).
  cbn [skip_space]. rewrite H1. cbn [sign_of]. rewrite H2, H3.
  assert (Hhex : (if base =? 16 then hex_prefix (String c (digits +:+ rest))
                  else String c (digits +:+ rest)) = String c (digits +:+ rest)).
  { destruct (base =? 16); [|done]. destruct digits as [|x digits]; [simpl in Hl; lia|].
    destruct Hd as [Hx _]. rewrite app_cons_s. cbn [hex_prefix].
    destruct (hex_digit_plain x (digit_value_16 _ _ Hb16 Hx)) as (_ & _ & _ & ->).
    by rewrite andb_false_r. }
  rewrite Hhex. destruct (digit_value base c) as [d|] eqn:E; [|done]. rewrite Hr.
  do 2 f_equal. unfold u32, clamp64. rewrite (proj2 (Z.ltb_ge _ n)) by lia.
  destruct (base =? 16); [apply wrap_small; lia|].
  replace (Z.max _ _) with n by lia. apply wrap_small. lia.
Qed.

Lemma convert_int n rest : 0 <= n < 2 ^ 32 -> stops 10 rest ->
  convert 10 (print_int n +:+ rest) = Some (n, rest).
Proof.
  intros Hn Hs. unfold print_int. rewrite (proj2 (Z.ltb_ge n 0)) by lia.
  apply convert_digits; [by left|by apply only_digits_print| |by apply read_unsigned; [lia|lia|]|done].
  destruct (print_unsigned_cons 10 n) as (c & s & ->). simpl. lia.
Qed.
Lemma convert_padded n rest : 0 <= n < 2 ^ 32 -> stops 16 rest ->
  convert 16 (padded 8 n +:+ rest) = Some (n, rest).
Proof.
  intros Hn Hs. unfold padded. apply convert_digits; [by right| | | |done].
  - apply only_digits_zeros; [lia|]. by apply only_digits_print.
  - change (Z.eqb 16 16) with true. cbv iota. rewrite length_app_s.
    assert (E : forall k, String.length (String.concat "" (replicate k "0"%string)) = k).
    { induction k as [|k IH]; [done|]. rewrite <- IH at 2. by destruct k. }
    rewrite E. lia.
  - rewrite app_assoc_s, read_zeros by lia. apply read_unsigned; [lia|lia|done].
Qed.

(** ** A displayed line as input *)

Lemma strlen_app s t : strlen (s +:+ t) = strlen s + strlen t.
Proof. unfold strlen. rewrite length_app_s. lia. Qed.
Lemma substring_behind s t n : (String.length t <= n)%nat ->
  String.substring (String.length s) n (s +:+ t) = t.
Proof.
  intros Hn. induction s as [|c s IH].
  - cbn [String.length]. change ("" +:+ t) with t. revert n Hn.
    induction t as [|c t IH]; intros [|n] Hn; simpl in *; try done; [lia|].
    f_equal. apply IH. lia.
  - rewrite app_cons_s. exact IH.
Qed.
Lemma copy_behind s t : copy (s +:+ t) (strlen s) (strlen (s +:+ t)) = t.
Proof.
  unfold copy, strlen. rewrite !Nat2Z.id. apply substring_behind. rewrite length_app_s. lia.
Qed.

Lemma sscanf_stream f n st rest : 0 <= st < 2 ^ 32 -> stops 10 rest ->
  sscanf (Literal "#" :: Number 10 :: f) n ("#" +:+ print_int st +:+ rest)
  = let '(k, values) := sscanf f n rest in (k + 1, st :: values).
Proof.
  intros Hst Hs.
  change (sscanf (Literal "#" :: Number 10 :: f) n ("#" +:+ print_int st +:+ rest))
    with (match convert 10 (print_int st +:+ rest) with
          | Some (v, s) => let '(k, values) := sscanf f n s in (k + 1, v :: values)
          | None => (0, []) end).
  by rewrite convert_int.
Qed.
Lemma sscanf_ppid f n pp rest : 0 <= pp < 2 ^ 32 -> stops 16 rest ->
  sscanf (Literal "/" :: Literal "$" :: Number 16 :: f) n ("/$" +:+ padded 8 pp +:+ rest)
  = let '(k, values) := sscanf f n rest in (k + 1, pp :: values).
Proof.
  intros Hpp Hs.
  change (sscanf (Literal "/" :: Literal "$" :: Number 16 :: f) n ("/$" +:+ padded 8 pp +:+ rest))
    with (match convert 16 (padded 8 pp +:+ rest) with
          | Some (v, s) => let '(k, values) := sscanf f n s in (k + 1, v :: values)
          | None => (0, []) end).
  by rewrite convert_padded.
Qed.

#[local] Arguments strlen : simpl never.

(** What is shown in front of a message, typed in front of a line, selects
    stream and PPID of the message; without a PPID it is kept. *)
Lemma scan_displayed (st pp : Z) (text : string) (c : Copy) :
  0 <= st < 2 ^ 32 -> 0 <= pp < 2 ^ 32 ->
  exists head, prefix st pp +:+ text = head +:+ (" " +:+ text)
    /\ scan_line (prefix st pp +:+ text) c
       = (((st, if pp =? 0 then ppid c else pp), strlen head), true).
Proof.
  intros Hst Hpp. unfold prefix, scan_line. destruct (Z.eqb_spec pp 0) as [->|Hne].
  - exists ("#" +:+ print_int st +:+ ":"). rewrite !app_assoc_s.
    change (": " +:+ text) with (":" +:+ " " +:+ text). split; [done|].
    set (str := "#" +:+ print_int st +:+ ":" +:+ " " +:+ text).
    assert (E : forall f n, sscanf (Literal "#" :: Number 10 :: f) n str
      = let '(k, values) := sscanf f n (":" +:+ " " +:+ text) in (k + 1, st :: values))
      by (intros f n; by apply sscanf_stream).
    unfold format_dollar, format_plain, format_stream. rewrite !E. cbn. do 2 f_equal.
    unfold str. rewrite !strlen_app. cbn [store2 store3 fst snd]. f_equal. lia.
  - exists ("#" +:+ print_int st +:+ "/$" +:+ padded 8 pp +:+ ":"). rewrite !app_assoc_s.
    change (": " +:+ text) with (":" +:+ " " +:+ text). split; [done|].
    unfold format_dollar. rewrite sscanf_stream by done. rewrite sscanf_ppid by done.
    cbn. do 2 f_equal. rewrite !strlen_app. cbn [store3]. f_equal. lia.
Qed.

(** ** Printable text *)

Fixpoint printable (s : string) : Prop :=
  match s with EmptyString => True | String c s => 32 <= code c < 127 /\ printable s end.

Lemma code_byte c : Z.of_nat (nat_of_ascii c) = code c.
Proof. unfold code, nat_of_ascii. lia. Qed.
Lemma characters_cons c s : characters (String c s) = code c :: characters s.
Proof. unfold characters. cbn. by rewrite code_byte. Qed.
Lemma characters_app s t : characters (s +:+ t) = characters s ++ characters t.
Proof.
  induction s as [|c s IH]; [done|]. rewrite app_cons_s, !characters_cons, IH. done.
Qed.
Lemma text_of_characters s : text_of (characters s) = s.
Proof.
  unfold text_of, characters. rewrite <- list_fmap_compose.
  rewrite (list_fmap_ext _ id).
  - rewrite list_fmap_id. apply string_of_list_ascii_of_string.
  - intros i c _. unfold compose, id. rewrite code_byte. unfold code. rewrite N2Z.id.
    apply ascii_N_embedding.
Qed.
Lemma printable_bytes s : printable s -> Forall (fun c => 32 <= c < 127) (characters s).
Proof.
  induction s as [|c s IH]; [constructor|]. intros [Hc Hs]. rewrite characters_cons.
  constructor; [done|]. by apply IH.
Qed.

Lemma s8_printable c : 32 <= c < 127 -> (s8 c <? 32) = false.
Proof. intros Hc. unfold s8. rewrite (proj2 (Z.ltb_lt c 128)) by lia. apply Z.ltb_ge. lia. Qed.

Lemma only_digits_printable base s : base <= 16 -> only_digits base s -> printable s.
Proof.
  assert (Hall : forallb (fun n => match digit_value 16 (ascii_of_nat n) with
    | Some _ => (32 <=? code (ascii_of_nat n)) && (code (ascii_of_nat n) <? 127)
    | None => true end) (seq 0 256) = true) by (vm_compute; done).
  rewrite forallb_forall in Hall. intros Hb. induction s as [|c s IH]; [done|]. intros [Hd Hs].
  split; [|by apply IH]. apply digit_value_16 in Hd; [|done].
  specialize (Hall (nat_of_ascii c)). rewrite ascii_nat_embedding in Hall.
  destruct (digit_value 16 c); [|done].
  specialize (Hall ltac:(apply in_seq; pose proof (nat_ascii_bounded c); lia)).
  apply andb_true_iff in Hall. rewrite Z.leb_le, Z.ltb_lt in Hall. lia.
Qed.
Lemma printable_app s t : printable s -> printable t -> printable (s +:+ t).
Proof.
  intros Hs Ht. induction s as [|c s IH]; [done|]. destruct Hs. rewrite app_cons_s. split; auto.
Qed.
Lemma printable_prefix st pp : 0 <= st -> printable (prefix st pp).
Proof.
  intros Hst. assert (Hint : printable (print_int st)).
  { unfold print_int. rewrite (proj2 (Z.ltb_ge st 0)) by lia.
    apply (only_digits_printable 10); [lia|by apply only_digits_print]. }
  assert (Hpad : printable (padded 8 pp)).
  { unfold padded. apply (only_digits_printable 16); [lia|].
    apply only_digits_zeros; [lia|]. by apply only_digits_print. }
  assert (Hlit : printable "#" /\ printable ": " /\ printable "/$")
    by (repeat split; vm_compute; congruence).
  destruct Hlit as (H1 & H2 & H3).
  unfold prefix. destruct (pp =? 0); [eauto using printable_app|].
  apply printable_app; [exact H1|]. apply printable_app; [exact Hint|].
  apply printable_app; [exact H3|]. by apply printable_app.
Qed.

(** ** Reading lines *)

Lemma printable_eqb c d : 32 <= code c < 127 -> code d < 32 -> Ascii.eqb c d = false.
Proof. intros Hc Hd. apply Ascii.eqb_neq. intros ->. lia. Qed.
Lemma until_null_printable s t : printable s -> until_null (s +:+ t) = s +:+ until_null t.
Proof.
  induction s as [|c s IH]; [done|]. intros [Hc Hs]. rewrite !app_cons_s. cbn [until_null].
  rewrite (printable_eqb c "000") by (done || vm_compute; lia). by rewrite IH.
Qed.
(** A line that fits is read to its end, a longer one in pieces. *)
Lemma read_line_fits room s rest : printable s -> (String.length s < room)%nat ->
  read_line room (s +:+ endl +:+ rest) = (s +:+ endl, rest, false).
Proof.
  revert room. induction s as [|c s IH]; intros [|room] Hp Hl; cbn [String.length] in Hl; try lia; [done|].
  destruct Hp as [Hc Hp]. rewrite !app_cons_s. cbn [read_line].
  rewrite (printable_eqb c "010") by (done || vm_compute; lia). by rewrite IH by (done || lia).
Qed.
Lemma read_line_long s rest : printable s -> read_line (String.length s) (s +:+ rest) = (s, rest, false).
Proof.
  induction s as [|c s IH]; [by destruct rest|]. intros [Hc Hs]. rewrite app_cons_s. cbn [String.length read_line].
  rewrite (printable_eqb c "010") by (done || vm_compute; lia). by rewrite IH.
Qed.
Lemma fgets_line s rest : printable s -> strlen s + 1 < Z.of_nat sizeof_str ->
  fgets sizeof_str (s +:+ endl +:+ rest) = (Line (s +:+ endl) false, rest).
Proof.
  intros Hs Hl. unfold fgets, strlen in *. rewrite read_line_fits by (done || lia).
  rewrite until_null_printable by done. by destruct s.
Qed.
Lemma fgets_long s rest : printable s -> strlen s + 1 = Z.of_nat sizeof_str ->
  fgets sizeof_str (s +:+ rest) = (Line s false, rest).
Proof.
  intros Hs Hl. unfold fgets, strlen in *. replace (sizeof_str - 1)%nat with (String.length s) by lia.
  rewrite read_line_long by done. pose proof (until_null_printable s "" Hs) as E.
  rewrite !app_nil_s in E. rewrite E. destruct s; [|done]. exfalso. revert Hl. vm_compute. lia.
Qed.

(** The thread ends with the input. *)
Lemma read_line_consumes room stdin str rest eof : (0 < room)%nat -> stdin <> EmptyString ->
  read_line room stdin = (str, rest, eof) ->
  str <> EmptyString /\ (String.length rest < String.length stdin)%nat.
Proof.
  intros Hr Hs. destruct room as [|room]; [lia|]. destruct stdin as [|c stdin]; [done|].
  cbn [read_line String.length].
  assert (Hle : forall n t, (String.length (read_line n t).1.2 <= String.length t)%nat).
  { induction n as [|n IH]; intros [|d t]; cbn [read_line]; try (simpl; lia).
    destruct (Ascii.eqb d "010"); cbn [String.length fst snd]; [lia|]. specialize (IH t).
    destruct (read_line n t) as [[? ?] ?]. simpl in *. lia. }
  destruct (Ascii.eqb c "010").
  - intros [= <- <- <-]. split; [done|lia].
  - specialize (Hle room stdin). destruct (read_line room stdin) as [[l r'] e]. intros [= <- <- <-].
    simpl in Hle. split; [done|lia].
Qed.
Lemma fgets_consumes stdin : match (fgets sizeof_str stdin).1 with
  | EndOfInput => True
  | Line _ _ => (String.length (fgets sizeof_str stdin).2 < String.length stdin)%nat end.
Proof.
  unfold fgets. destruct (decide (stdin = EmptyString)) as [->|Hne]; [done|].
  destruct (read_line (sizeof_str - 1) stdin) as [[str rest] eof] eqn:E.
  apply read_line_consumes in E as [Hs Hl]; [|vm_compute; lia|done].
  by destruct (String.eqb_spec str EmptyString).
Qed.

(** The line end is not shown, printable text is. *)
Lemma shown_line data : Forall (fun c => 32 <= c < 127) data -> shown (data ++ [10; 0]) = data.
Proof.
  intros Hd. unfold shown. rewrite reverse_app. change (reverse [10; 0]) with [0; 10].
  cbn [app trailing s8]. change (s8 0 <? 32) with true. change (s8 10 <? 32) with true. cbv iota.
  assert (Ht : trailing (reverse data) = 0%nat).
  { destruct (reverse data) as [|c l] eqn:E; [done|]. cbn [trailing].
    assert (Hc : 32 <= c < 127).
    { apply (proj1 (Forall_forall _ _) Hd). rewrite <- elem_of_reverse, E. by left. }
    by rewrite s8_printable. }
  rewrite Ht, length_app. cbn [length]. rewrite Nat.add_sub. rewrite take_app_length.
  rewrite <- (list_fmap_id data) at 2. apply list_fmap_ext. intros i c Hc.
  by rewrite (s8_printable c (Forall_lookup_1 _ _ _ _ Hd Hc)).
Qed.

(** ** The message of a line *)

Lemma get_drop k off n b : get off n (drop k b) = get (k + off) n b.
Proof. unfold get. by rewrite drop_drop. Qed.

Lemma copy_message_sent (st pp : Z) data k :
  0 <= st < 2 ^ 16 -> 0 <= pp < 2 ^ 32 ->
  exists m, copy_message st pp data k = Ret m k /\ sent_data m = data
    /\ sent_info m = {| sinfo_stream := st; sinfo_ssn := 0; sinfo_flags := MSG_PR_SCTP_TTL;
         sinfo_ppid := htonl pp; sinfo_context := 0; sinfo_timetolive := 0; sinfo_tsn := 0;
         sinfo_cumtsn := 0; sinfo_assoc_id := 0 |}.
Proof.
  intros Hst Hpp. unfold copy_message.
  set (m0 := setBuffer _ _ _).
  assert (E : addHeader sizeof_sctp_sndrcvinfo 32 IPPROTO_SCTP SCTP_SNDRCV m0
    = Ret (Some 16%nat) (set_control 48 None (write_header 0 48 IPPROTO_SCTP SCTP_SNDRCV (replicate 48 0)) m0))
    by reflexivity.
  rewrite E. eexists. split; [reflexivity|]. split; [reflexivity|].
  unfold sent_info, read_sndrcvinfo. cbn [sent_control set_control SocketMessage.msg_controllen Control].
  set (w := write_header _ _ _ _ _). change (Z.to_nat 48) with 48%nat.
  assert (Hw : length w = 48%nat) by reflexivity.
  assert (Hlen : length (fill_copy 16 st pp w) = 48%nat).
  { unfold fill_copy. repeat (rewrite length_put by mem_len). exact Hw. }
  rewrite take_ge by lia. rewrite !get_drop. unfold fill_copy. cbn [Nat.add]. unfold sizeof_sctp_sndrcvinfo.
  assert (Hu : u16 st mod 2 ^ (8 * Z.of_nat 2) = st).
  { change (8 * Z.of_nat 2) with 16. unfold wrap. by rewrite !Z.mod_small by (rewrite ?Z.mod_small; lia). }
  assert (Hp : htonl pp mod 2 ^ (8 * Z.of_nat 4) = htonl pp) by (apply Z.mod_small, translate32_range).
  f_equal; mem_get; first [exact Hu|exact Hp|reflexivity].
Qed.

Lemma copy_message_total st pp data k : exists m, copy_message st pp data k = Ret m k.
Proof.
  unfold copy_message. set (m0 := setBuffer _ _ _).
  assert (E : addHeader sizeof_sctp_sndrcvinfo 32 IPPROTO_SCTP SCTP_SNDRCV m0
    = Ret (Some 16%nat) (set_control 48 None (write_header 0 48 IPPROTO_SCTP SCTP_SNDRCV (replicate 48 0)) m0))
    by reflexivity.
  rewrite E. by eexists.
Qed.
Lemma copy_round_total o input result c k : exists next k', copy_round o input result c k = Ret next k'.
Proof.
  destruct input as [|str []]; [by do 2 eexists..|]. unfold copy_round.
  destruct (scan_line str c) as [[[st pp] position] update].
  set (data := line_data _). set (long := 0 <? _).
  unfold bind, print_error, print, modify, ret, hand_over, when.
  destruct (Outgoing o <=? st), update, long; cbn; try (by do 2 eexists);
    unfold bind; edestruct copy_message_total as [m ->]; unfold when;
    destruct (result <? 0); by do 2 eexists.
Qed.
Theorem copy_run_ends (o : Options) (sendMsg : nat -> Z) (stdin : string) (k : Console) :
  exists k', copy_run o sendMsg stdin k = Ret tt k'.
Proof.
  unfold copy_run. generalize {| stream := 0; ppid := 0 |} as c.
  assert (Hf : (String.length stdin < S (String.length stdin))%nat) by lia.
  revert Hf. generalize (S (String.length stdin)) as fuel. intros fuel. revert stdin k.
  induction fuel as [|fuel IH]; intros stdin k Hf c; [lia|]. cbn [copy_lines]. unfold copy_step.
  pose proof (fgets_consumes stdin) as Hc. destruct (fgets sizeof_str stdin) as [input rest].
  unfold bind at 1 2. cbn [gets]. unfold bind at 1.
  destruct (copy_round_total o input (sendMsg (length (sent k))) c k) as (next & k1 & E). rewrite E.
  cbn [ret]. destruct next as [c'|]; cbn [fmap option_fmap option_map]; [|by eexists].
  apply IH. destruct input as [|str eof]; [by simplify_eq/=|]. simpl in Hc. lia.
Qed.

(** The loop over the control headers ends with the fuel of [printControl]. *)
Lemma control_text_total fuel : forall control controllen c,
  (Z.to_nat ((controllen - Z.of_nat c) / 16) < fuel)%nat ->
  is_Some (control_text fuel control controllen (Some c)).
Proof.
  induction fuel as [|fuel IH]; intros control controllen c Hf; [lia|]. cbn [control_text].
  assert (Hn : is_Some (control_text fuel control controllen (CNextHeader control controllen c))).
  { unfold CNextHeader. set (len := rd cmsg_len (drop c control)).
    case_bool_decide as H1; [by destruct fuel; eexists|].
    case_bool_decide as H2; [by destruct fuel; eexists|].
    case_bool_decide as H3; [by destruct fuel; eexists|].
    apply IH. pose proof (align_ge len) as Ha. unfold sizeof_cmsghdr in *.
    rewrite Z2Nat.id by lia.
    pose proof (Z.div_le_mono (controllen - (Z.of_nat c + CMSG_ALIGN len)) (controllen - Z.of_nat c + -1 * 16) 16
      ltac:(lia) ltac:(lia)) as Hd.
    rewrite Z.div_add in Hd by lia.
    assert (0 <= (controllen - (Z.of_nat c + CMSG_ALIGN len)) / 16) by (apply Z.div_pos; lia). lia. }
  destruct Hn as [t ->]. by eexists.
Qed.

Lemma printControl_total p m control controllen : is_Some (printControl p m control controllen).
Proof.
  unfold printControl. destruct p; cbn [negb]; [|by eexists].
  destruct (CFirstHeader control controllen) as [c|] eqn:E; [|by eexists].
  destruct control as [b|]; [|by eexists].
  assert (c = 0%nat) as -> by (unfold CFirstHeader in E; case_bool_decide; by simplify_eq).
  destruct (Z.leb_spec sizeof_cmsghdr controllen); [|by eexists].
  destruct (control_text_total (control_fuel controllen) b controllen 0) as [t ->]; [|by eexists].
  unfold control_fuel, sizeof_cmsghdr. rewrite Z.sub_0_r. lia.
Qed.

(** Showing a message of printable text with a line end. *)
Lemma echo_line (o : Options) (text : string) (k : Console) :
  printable text -> strlen text + 2 < sizeof_buffer ->
  exists k', echo_round o {| dataLength := strlen text + 2; dataBuffer := characters text ++ [10; 0];
                             receivedFlags := 0 |} k = Ret true k'
    /\ cout k' = cout k +:+ color (ColorMode o) 1 +:+ (if 1 <? Incoming o then prefix 0 0 else "")
                   +:+ text +:+ endl +:+ color (ColorMode o) 0
    /\ cerr k' = cerr k /\ sent k' = sent k.
Proof.
  intros Ht Hl. set (r := {| dataLength := _; dataBuffer := _; receivedFlags := _ |}).
  assert (Hlen : 0 <= strlen text) by (unfold strlen; lia).
  unfold echo_round. cbn [dataLength r]. rewrite (proj2 (Z.leb_gt _ 0)) by lia.
  change (SocketMessage.msg_controllen (terminal_message r)) with 0.
  change (SocketMessage.msg_control (terminal_message r)) with false. cbv iota.
  assert (E : printControl (PrintControl o) (ColorMode o) None 0 = Some "") by (by destruct (PrintControl o)).
  rewrite E. cbn [of_option].
  change (control_ids 3 (terminal_message r) (getFirstHeader (terminal_message r)) (0, 0, 0))
    with (Some (0, 0, 0)). cbn [of_option].
  change (getFlags (terminal_message r)) with 0. change (has_flag 0 MSG_NOTIFICATION) with false.
  cbv iota. unfold show_data. rewrite (proj2 (Z.leb_gt sizeof_buffer _)) by lia.
  assert (Hd : take (Z.to_nat (strlen text + 2)) (dataBuffer r) = characters text ++ [10; 0]).
  { apply take_ge. cbn [dataBuffer r]. rewrite length_app, length_characters. cbn [length].
    unfold strlen. lia. }
  rewrite Hd, shown_line by (by apply printable_bytes). rewrite text_of_characters.
  unfold bind, print, modify, ret, when. cbn [cout cerr sent].
  destruct (1 <? Incoming o); eexists; (split; [reflexivity|]); cbn [cout cerr sent];
    (split; [|done]); rewrite !app_assoc_s; by rewrite ?app_nil_s.
Qed.


Definition terminal_options : Options :=
  {| ColorMode := false; PrintControl := false; PrintNotifications := false; Incoming := 128;
     Outgoing := 128; Unreliable := 0 |}.
Definition no_console : Console := {| cout := ""; cerr := ""; sent := [] |}.
