(* ===== verification/PortScanner.v ===== *)
(** * The port scanner: sctpportscanner.cc

    The main loop opens up to [simultaneous] sockets, each connecting to the
    next port of the range, waits for an event, and closes the sockets that
    have become ready or have timed out.  A round of the loop is a function of
    what the calls of the socket API and the clock return.  The messages of the
    program are the log of the scan. *)

From S2P Require Import Prelude Descriptors.
Local Open Scope Z_scope.

(** ** State *)

(** An entry of [clientSocket], [port] and [timeout]; NULL is [None].  The
    other two arrays are only read where there is a socket. *)
Record Slot : Set := { sl_fd : Z; sl_port : Z; sl_timeout : Z }.

(** The messages about a port. *)
Inductive Message : Set :=
| Trying (port : Z) | Active (port : Z) | Unused (port : Z) | Inactive (port : Z).

Record Scan : Type := {
  slots : list (option Slot);
  nextPort : Z;
  running : Z;
  success : list bool;
  log : list Message }.

(** ** The calls of a round *)

(** The calls for a new socket: its descriptor, the results of the two options
    and of [bindx], of [connect] with the error, and the time. *)
Record Attempt : Set := {
  at_fd : Z;
  at_initmsg : Z;
  at_bound : bool;
  at_events : Z;
  at_connected : bool;
  at_error : Z;
  at_time : Z }.
(** One iteration: the new sockets in their order, the result of [ext_select]
    and the descriptors it leaves in the set, the results of [ext_write], the
    times at which the sockets are looked at, and [breakDetected]. *)
Record Round : Type := {
  r_attempts : list Attempt;
  r_result : Z;
  r_ready : gset Z;
  r_write : Z -> Z;
  r_clock : nat -> Z;
  r_break : bool }.

(** ** The loop *)

Section Scanner.
Variables (endPort connectTimeout : Z).

(** [exit(1)] is [None]. *)
Definition attempt_ok (a : Attempt) : bool :=
  (0 <=? at_initmsg a) && at_bound a && (0 <=? at_events a)
  && (at_connected a || (at_error a =? EINPROGRESS)).

(** The first part: the free slots from the left, while there are ports. *)
Fixpoint open_sockets (free : list (option Slot)) (attempts : list Attempt) (next run : Z)
    (messages : list Message)
  : option (list (option Slot) * Z * Z * list Message) :=
  match free with
  | [] => Some ([], next, run, messages)
  | Some sl :: free =>
      '(l, next, run, messages) ← open_sockets free attempts next run messages;
      Some (Some sl :: l, next, run, messages)
  | None :: free' =>
      if next <=? endPort then
        match attempts with
        | [] => None
        | a :: attempts =>
            if attempt_ok a then
              let sl := {| sl_fd := at_fd a; sl_port := next;
                           sl_timeout := wrap 64 (connectTimeout + at_time a) |} in
              '(l, next, run, messages) ←
                open_sockets free' attempts (next + 1) (run + 1) (messages ++ [Trying next]);
              Some (Some sl :: l, next, run, messages)
            else None
        end
      else Some (free, next, run, messages)
  end.

(** The second part, with a positive result of [ext_select]: a test message is
    written to each descriptor in the set, and its socket is closed. *)
Fixpoint close_ready (r : Round) (l : list (option Slot)) (s : Scan) : list (option Slot) * Scan :=
  match l with
  | [] => ([], s)
  | None :: l => let '(l, s) := close_ready r l s in (None :: l, s)
  | Some sl :: l =>
      if bool_decide (sl_fd sl ∈ r_ready r) then
        let active := 0 <? r_write r (sl_fd sl) in
        let '(l, s) := close_ready r l
          {| slots := slots s; nextPort := nextPort s; running := running s - 1;
             success := if active then <[Z.to_nat (sl_port sl) := true]> (success s) else success s;
             log := log s ++ [if active then Active (sl_port sl) else Unused (sl_port sl)] |} in
        (None :: l, s)
      else let '(l, s) := close_ready r l s in (Some sl :: l, s)
  end.

(** Otherwise the sockets whose time is over are closed. *)
Fixpoint close_late (r : Round) (i : nat) (l : list (option Slot)) (s : Scan)
  : list (option Slot) * Scan :=
  match l with
  | [] => ([], s)
  | None :: l => let '(l, s) := close_late r (S i) l s in (None :: l, s)
  | Some sl :: l =>
      if sl_timeout sl <=? r_clock r i then
        let '(l, s) := close_late r (S i) l
          {| slots := slots s; nextPort := nextPort s; running := running s - 1;
             success := success s; log := log s ++ [Inactive (sl_port sl)] |} in
        (None :: l, s)
      else let '(l, s) := close_late r (S i) l s in (Some sl :: l, s)
  end.

Definition close_sockets (r : Round) (s : Scan) : Scan :=
  let '(l, s) := if 0 <? r_result r then close_ready r (slots s) s
                 else close_late r 0 (slots s) s in
  {| slots := l; nextPort := nextPort s; running := running s; success := success s;
     log := log s |}.

Definition open_round (r : Round) (s : Scan) : option Scan :=
  '(l, next, run, messages) ←
    open_sockets (slots s) (r_attempts r) (nextPort s) (running s) (log s);
  Some {| slots := l; nextPort := next; running := run; success := success s; log := messages |}.
Definition scan_round (r : Round) (s : Scan) : option Scan :=
  s ← open_round r s; Some (close_sockets r s).

(** [do ... while]: whether the loop has ended after these rounds. *)
Definition go_on (r : Round) (s : Scan) : bool :=
  negb (r_break r) && ((nextPort s <=? endPort) || (0 <? running s)).
Fixpoint scan_loop (rounds : list Round) (s : Scan) : option (bool * Scan) :=
  match rounds with
  | [] => Some (false, s)
  | r :: rounds =>
      s ← scan_round r s;
      if go_on r s then scan_loop rounds s else Some (true, s)
  end.

(** Before the loop; the ports of the summary. *)
Definition initial_scan (simultaneous startPort : Z) : Scan :=
  {| slots := replicate (Z.to_nat simultaneous) None; nextPort := startPort; running := 0;
     success := replicate (Z.to_nat (endPort + 1)) false; log := [] |}.
Definition summary (s : Scan) : list Z :=
  filter (fun p => success s !! Z.to_nat p = Some true) (seqZ 1 endPort).
End Scanner.

(** The limits the arguments are forced into. *)
Definition clamp_ports (startPort endPort : Z) : Z * Z :=
  let clamp p := let p := if p <? 1 then 1 else p in if 65535 <? p then 65535 else p in
  let startPort := clamp startPort in
  let endPort := clamp endPort in
  (if endPort <? startPort then endPort else startPort, endPort).
Definition clamp_timeout (connectTimeout : Z) : Z :=
  if 300000000 <? connectTimeout then 300000000 else connectTimeout.
Definition clamp_simultaneous (n : Z) : Z :=
  let n := if n <? 1 then 1 else n in if 512 <? n then 512 else n.

(** ** What the log says *)

Definition tried (l : list Message) : list Z :=
  omap (fun m => match m with Trying p => Some p | _ => None end) l.
Definition verdicts (l : list Message) : list Z :=
  omap (fun m => match m with Trying _ => None | Active p | Unused p | Inactive p => Some p end) l.
Definition open_ports (l : list (option Slot)) : list Z := omap (fmap sl_port) l.

#[export] Instance Message_eq_dec : EqDecision Message.
Proof. solve_decision. Defined.

Lemma tried_app l l' : tried (l ++ l') = tried l ++ tried l'.
Proof. apply omap_app. Qed.
Lemma verdicts_app l l' : verdicts (l ++ l') = verdicts l ++ verdicts l'.
Proof. apply omap_app. Qed.
Lemma tried_Trying l : tried (Trying <$> l) = l.
Proof. induction l as [|p l IH]; [done|]. cbn. by f_equal. Qed.
Lemma verdicts_Trying l : verdicts (Trying <$> l) = [].
Proof. by induction l. Qed.

Lemma open_ports_le l : (length (open_ports l) <= length l)%nat.
Proof.
  unfold open_ports. induction l as [|[sl|] l IH]; cbn [length omap list_omap fmap option_fmap option_map] in *; cbn; lia.
Qed.

Section Proofs.
Variables (endPort connectTimeout startPort : Z) (simultaneous : nat).
Hypothesis Hrange : 1 <= startPort <= endPort.

(** The new sockets take the next ports. *)
Definition attempts_ok (n : nat) (l : list Attempt) : Prop :=
  (n <= length l)%nat /\ Forall (fun a => attempt_ok a = true) l.

Lemma open_sockets_run free : forall attempts next run messages,
  attempts_ok (length free) attempts -> next <= endPort + 1 ->
  exists l n, open_sockets endPort connectTimeout free attempts next run messages
      = Some (l, next + n, run + n, messages ++ (Trying <$> seqZ next n))
    /\ 0 <= n /\ next + n <= endPort + 1 /\ length l = length free
    /\ open_ports l ≡ₚ open_ports free ++ seqZ next n
    /\ (next + n = endPort + 1 \/ length (open_ports l) = length l).
Proof.
  induction free as [|[sl|] free IH]; intros attempts next run messages [Hn Ha] Hnext; cbn [open_sockets].
  - exists [], 0. rewrite !Z.add_0_r. rewrite seqZ_nil by lia. rewrite fmap_nil, !app_nil_r.
    split_and!; try done. by right.
  - destruct (IH attempts next run messages) as (l & n & E & H1 & H2 & H3 & H4 & H5).
    { split; [cbn in Hn; lia|done]. } { done. }
    exists (Some sl :: l), n. rewrite E. do 3 (split; [done|]). split; [by cbn; rewrite H3|].
    change (open_ports (Some sl :: l)) with (sl_port sl :: open_ports l).
    change (open_ports (Some sl :: free)) with (sl_port sl :: open_ports free).
    split; [by rewrite H4|]. destruct H5 as [?|H5]; [by left|right]; cbn; by rewrite H5.
  - destruct (Z.leb_spec next endPort) as [Hle|Hgt].
    + destruct attempts as [|a attempts]; [cbn in Hn; lia|].
      apply Forall_cons in Ha as [Ha Ha']. rewrite Ha.
      destruct (IH attempts (next + 1) (run + 1) (messages ++ [Trying next]))
        as (l & n & E & H1 & H2 & H3 & H4 & H5).
      { split; [cbn in Hn; lia|done]. } { lia. }
      exists (Some {| sl_fd := at_fd a; sl_port := next; sl_timeout := wrap 64 (connectTimeout + at_time a) |} :: l), (n + 1).
      rewrite E. replace (next + 1 + n) with (next + (n + 1)) by lia.
      replace (run + 1 + n) with (run + (n + 1)) by lia.
      assert (Eq : seqZ next (n + 1) = next :: seqZ (next + 1) n).
      { rewrite seqZ_cons by lia. f_equal; f_equal; lia. }
      rewrite Eq, fmap_cons. rewrite <- (assoc_L (++)). split; [done|]. do 2 (split; [lia|]). split; [by cbn; rewrite H3|].
      match goal with |- open_ports (Some ?sl :: l) ≡ₚ _ /\ _ =>
        change (open_ports (Some sl :: l)) with (next :: open_ports l) end.
      change (open_ports (None :: free)) with (open_ports free).
      split; [rewrite H4; by rewrite Permutation_middle|].
      destruct H5 as [?|H5]; [left; lia|right]; cbn; by rewrite H5.
    + exists (None :: free), 0. rewrite !Z.add_0_r. rewrite seqZ_nil by lia.
      rewrite fmap_nil, !app_nil_r. split_and!; try done; try lia.
Qed.

(** The two ways to close sockets. *)
Record closes (l : list (option Slot)) (s : Scan) (l' : list (option Slot)) (s' : Scan)
    (ms : list Message) : Prop := {
  cl_log : log s' = log s ++ ms;
  cl_tried : tried ms = [];
  cl_ports : verdicts ms ++ open_ports l' ≡ₚ open_ports l;
  cl_running : running s' = running s - Z.of_nat (length (verdicts ms));
  cl_next : nextPort s' = nextPort s;
  cl_slots : length l' = length l;
  cl_length : length (success s') = length (success s);
  cl_success : forall p, 0 <= p <= endPort ->
    success s' !! Z.to_nat p = (fun b => bool_decide (Active p ∈ ms) || b) <$> success s !! Z.to_nat p }.

Lemma closes_nil s : closes [] s [] s [].
Proof.
  split; try done; [by rewrite app_nil_r|cbn; lia|].
  intros p _. rewrite bool_decide_false by apply not_elem_of_nil. by destruct (success s !! Z.to_nat p).
Qed.
Lemma closes_keep o l s l' s' ms : closes l s l' s' ms -> closes (o :: l) s (o :: l') s' ms.
Proof.
  intros [H1 H2 H3 H4 H5 H6 H7 H8]. split; try done; [|by cbn; rewrite H6].
  destruct o as [sl|]; [|exact H3].
  change (open_ports (Some sl :: l)) with (sl_port sl :: open_ports l).
  change (open_ports (Some sl :: l')) with (sl_port sl :: open_ports l').
  rewrite <- Permutation_middle. by rewrite H3.
Qed.
(** One socket is closed with a verdict. *)
Lemma closes_one sl l s l' s' m b ms :
  verdicts [m] = [sl_port sl] -> 0 <= sl_port sl <= endPort -> (b = true <-> m = Active (sl_port sl)) ->
  closes l {| slots := slots s; nextPort := nextPort s; running := running s - 1;
              success := if b : bool then <[Z.to_nat (sl_port sl) := true]> (success s) else success s;
              log := log s ++ [m] |} l' s' ms ->
  closes (Some sl :: l) s (None :: l') s' (m :: ms).
Proof.
  intros Hv Hp Hb [H1 H2 H3 H4 H5 H6 H7 H8]. cbn [log running nextPort success] in *. split.
  - by rewrite H1, <- (assoc_L (++)).
  - change (m :: ms) with ([m] ++ ms). rewrite tried_app, H2, app_nil_r. by destruct m.
  - change (m :: ms) with ([m] ++ ms). rewrite verdicts_app, Hv.
    change (open_ports (None :: l')) with (open_ports l').
    change (open_ports (Some sl :: l)) with (sl_port sl :: open_ports l). cbn. by rewrite H3.
  - rewrite H4. change (m :: ms) with ([m] ++ ms). rewrite verdicts_app, Hv. cbn [length app]. lia.
  - done.
  - by cbn; rewrite H6.
  - rewrite H7. destruct b; [apply length_insert|done].
  - intros p Hr. rewrite H8 by done. destruct b.
    + destruct (decide (sl_port sl = p)) as [<-|Hne].
      * rewrite (bool_decide_true (_ ∈ m :: ms)) by (rewrite (proj1 Hb eq_refl); by left).
        destruct (success s !! Z.to_nat (sl_port sl)) eqn:E.
        -- rewrite list_lookup_insert_eq by (by eapply lookup_lt_Some). cbn. by rewrite orb_true_r.
        -- rewrite list_insert_ge by (by apply lookup_ge_None). by rewrite E.
      * rewrite list_lookup_insert_ne by lia.
        destruct (success s !! Z.to_nat p); [|done]. cbn. do 2 f_equal. apply bool_decide_ext.
        rewrite elem_of_cons. rewrite (proj1 Hb eq_refl). naive_solver.
    + destruct (success s !! Z.to_nat p); [|done]. cbn. do 2 f_equal. apply bool_decide_ext.
      rewrite elem_of_cons. split; [by right|]. intros [E|?]; [|done]. subst m. cbn in Hv.
      assert (sl_port sl = p) as E by congruence. subst p. naive_solver.
Qed.

Definition ports_ok (l : list (option Slot)) : Prop := Forall (fun p => 0 <= p <= endPort) (open_ports l).

Lemma close_ready_closes r l : forall s, ports_ok l ->
  exists ms, closes l s (close_ready r l s).1 (close_ready r l s).2 ms.
Proof.
  induction l as [|[sl|] l IH]; intros s Hl; cbn [close_ready].
  - exists []. apply closes_nil.
  - apply Forall_cons in Hl as [Hp Hl]. case_bool_decide.
    + set (s1 := {| slots := _ |}). destruct (IH s1 Hl) as [ms Hms].
      destruct (close_ready r l s1) as [l' s'] eqn:E. cbn [fst snd] in *. eexists. subst s1.
      eapply (closes_one sl l s l' s' _ (0 <? r_write r (sl_fd sl))); [|done| |exact Hms].
      * by case_match.
      * by case_match.
    + destruct (IH s Hl) as [ms Hms]. destruct (close_ready r l s). exists ms. by apply closes_keep.
  - destruct (IH s Hl) as [ms Hms]. destruct (close_ready r l s). exists ms. by apply closes_keep.
Qed.

Lemma close_late_closes r l : forall i s, ports_ok l ->
  exists ms, closes l s (close_late r i l s).1 (close_late r i l s).2 ms.
Proof.
  induction l as [|[sl|] l IH]; intros i s Hl; cbn [close_late].
  - exists []. apply closes_nil.
  - apply Forall_cons in Hl as [Hp Hl]. destruct (sl_timeout sl <=? r_clock r i).
    + set (s1 := {| slots := _ |}). destruct (IH (S i) s1 Hl) as [ms Hms].
      destruct (close_late r (S i) l s1) as [l' s'] eqn:E. cbn [fst snd] in *. eexists. subst s1.
      by eapply (closes_one sl l s l' s' _ false); [|done| |exact Hms].
    + destruct (IH (S i) s Hl) as [ms Hms]. destruct (close_late r (S i) l s). exists ms. by apply closes_keep.
  - destruct (IH (S i) s Hl) as [ms Hms]. destruct (close_late r (S i) l s). exists ms. by apply closes_keep.
Qed.

(** ** The invariant of the loop *)

Record scan_inv (s : Scan) : Prop := {
  in_next : startPort <= nextPort s <= endPort + 1;
  in_tried : tried (log s) = seqZ startPort (nextPort s - startPort);
  in_ports : verdicts (log s) ++ open_ports (slots s) ≡ₚ tried (log s);
  in_running : running s = Z.of_nat (length (open_ports (slots s)));
  in_slots : length (slots s) = simultaneous;
  in_length : length (success s) = Z.to_nat (endPort + 1);
  in_success : forall p, 0 <= p <= endPort ->
    success s !! Z.to_nat p = Some (bool_decide (Active p ∈ log s)) }.

(** The ports without a verdict: those not tried and those of the open sockets. *)
Definition unresolved (s : Scan) : Z :=
  endPort + 1 - startPort - Z.of_nat (length (verdicts (log s))).
Lemma unresolved_eq s : scan_inv s -> unresolved s = (endPort + 1 - nextPort s) + running s.
Proof.
  intros Hi. pose proof (Permutation_length (in_ports _ Hi)) as E.
  rewrite (in_tried _ Hi), length_app, length_seqZ in E. unfold unresolved.
  rewrite (in_running _ Hi). pose proof (in_next _ Hi). lia.
Qed.

Lemma initial_inv : scan_inv (initial_scan endPort (Z.of_nat simultaneous) startPort).
Proof.
  assert (E : forall n, open_ports (replicate n None) = []) by (intros n; by induction n).
  split; cbn [initial_scan nextPort log slots running success].
  - lia.
  - by rewrite Z.sub_diag.
  - by rewrite E.
  - by rewrite E.
  - by rewrite length_replicate, Nat2Z.id.
  - apply length_replicate.
  - intros p Hp. rewrite bool_decide_false by apply not_elem_of_nil.
    apply lookup_replicate. split; [done|lia].
Qed.

Lemma in_ports_ok s : scan_inv s -> ports_ok (slots s).
Proof.
  intros Hi. apply Forall_forall. intros p Hp.
  assert (Hin : p ∈ tried (log s)) by (rewrite <- (in_ports _ Hi); apply elem_of_app; by right).
  rewrite (in_tried _ Hi) in Hin. apply elem_of_seqZ in Hin. pose proof (in_next _ Hi). lia.
Qed.

(** After the first part of a round. *)
Lemma open_inv attempts s :
  scan_inv s -> attempts_ok simultaneous attempts ->
  exists s1, open_sockets endPort connectTimeout (slots s) attempts (nextPort s) (running s) (log s)
      = Some (slots s1, nextPort s1, running s1, log s1)
    /\ success s1 = success s /\ scan_inv s1 /\ verdicts (log s1) = verdicts (log s)
    /\ (nextPort s1 = endPort + 1 \/ length (open_ports (slots s1)) = simultaneous).
Proof.
  intros Hi Ha. pose proof (in_next _ Hi) as Hn.
  destruct (open_sockets_run (slots s) attempts (nextPort s) (running s) (log s))
    as (l & n & E & H1 & H2 & H3 & H4 & H5).
  { by rewrite (in_slots _ Hi). } { lia. }
  exists {| slots := l; nextPort := nextPort s + n; running := running s + n; success := success s;
            log := log s ++ (Trying <$> seqZ (nextPort s) n) |}.
  split; [exact E|]. split; [done|]. cbn [slots nextPort running success log].
  assert (Hv : verdicts (log s ++ (Trying <$> seqZ (nextPort s) n)) = verdicts (log s)).
  { by rewrite verdicts_app, verdicts_Trying, app_nil_r. }
  split; [|split; [exact Hv|by rewrite <- (in_slots _ Hi), <- H3]].
  split; cbn [slots nextPort running success log].
  - lia.
  - rewrite tried_app, tried_Trying, (in_tried _ Hi).
    replace (nextPort s + n - startPort) with (nextPort s - startPort + n) by lia.
    rewrite seqZ_app by lia. do 2 f_equal. lia.
  - rewrite Hv, tried_app, tried_Trying, H4, (assoc_L (++)). by rewrite (in_ports _ Hi).
  - rewrite (Permutation_length H4), length_app, length_seqZ, (in_running _ Hi). lia.
  - by rewrite H3, (in_slots _ Hi).
  - apply (in_length _ Hi).
  - intros p Hp. rewrite (in_success _ Hi) by done. f_equal. apply bool_decide_ext.
    rewrite elem_of_app. split; [by left|]. intros [?|Hm]; [done|].
    by apply list_elem_of_fmap in Hm as (? & [=] & _).
Qed.

Lemma close_inv r s :
  scan_inv s -> scan_inv (close_sockets r s)
  /\ nextPort (close_sockets r s) = nextPort s
  /\ running s - running (close_sockets r s)
     = Z.of_nat (length (verdicts (log (close_sockets r s)))) - Z.of_nat (length (verdicts (log s))).
Proof.
  intros Hi. pose proof (in_ports_ok _ Hi) as Hp.
  assert (Hc : exists l s' ms, (if 0 <? r_result r then close_ready r (slots s) s
    else close_late r 0 (slots s) s) = (l, s') /\ closes (slots s) s l s' ms).
  { destruct (0 <? r_result r).
    - destruct (close_ready_closes r (slots s) s Hp) as [ms Hms]. do 3 eexists.
      split; [apply surjective_pairing|exact Hms].
    - destruct (close_late_closes r (slots s) 0 s Hp) as [ms Hms]. do 3 eexists.
      split; [apply surjective_pairing|exact Hms]. }
  destruct Hc as (l & s' & ms & E & [H1 H2 H3 H4 H5 H6 H7 H8]).
  unfold close_sockets. rewrite E. cbn [slots nextPort running success log].
  split; [|split; [done|rewrite H4, H1, verdicts_app, length_app; lia]].
  split; cbn [slots nextPort running success log].
  - rewrite H5. apply (in_next _ Hi).
  - by rewrite H1, H5, tried_app, H2, app_nil_r, (in_tried _ Hi).
  - rewrite H1, verdicts_app, tried_app, H2, app_nil_r, <- (assoc_L (++)), H3. apply (in_ports _ Hi).
  - rewrite H4, (in_running _ Hi), <- (Permutation_length H3), length_app. lia.
  - by rewrite H6, (in_slots _ Hi).
  - by rewrite H7, (in_length _ Hi).
  - intros p Hr. rewrite H8, (in_success _ Hi) by done. cbn. f_equal. rewrite H1.
    rewrite <- bool_decide_or. apply bool_decide_ext. rewrite elem_of_app. tauto.
Qed.

Definition round_ok (r : Round) : Prop := attempts_ok simultaneous (r_attempts r).

Lemma open_round_run r s : scan_inv s -> round_ok r ->
  exists s1, open_round endPort connectTimeout r s = Some s1 /\ scan_inv s1
    /\ unresolved s1 = unresolved s
    /\ (nextPort s1 = endPort + 1 \/ length (open_ports (slots s1)) = simultaneous).
Proof.
  intros Hi Hr. destruct (open_inv _ _ Hi Hr) as (s1 & E & Es & Hi1 & Hv & Hfull).
  exists s1. split_and!; [|done| |done].
  - unfold open_round. rewrite E. cbn. rewrite <- Es. by destruct s1.
  - unfold unresolved. by rewrite Hv.
Qed.

(** The loop goes on while a port has no verdict. *)
Lemma go_on_unresolved r s : scan_inv s -> r_break r = false -> go_on endPort r s = (0 <? unresolved s).
Proof.
  intros Hi Hb. unfold go_on. rewrite Hb, (unresolved_eq _ Hi). cbn. pose proof (in_next _ Hi).
  pose proof (in_running _ Hi). apply eq_true_iff_eq.
  rewrite orb_true_iff, Z.leb_le, !Z.ltb_lt. lia.
Qed.

Lemma scan_loop_inv rounds : forall s,
  scan_inv s -> Forall round_ok rounds -> Forall (fun r => r_break r = false) rounds ->
  exists finished s', scan_loop endPort connectTimeout rounds s = Some (finished, s') /\ scan_inv s'
    /\ (finished = true -> unresolved s' = 0).
Proof.
  induction rounds as [|r rounds IH]; intros s Hi Hok Hnb; cbn [scan_loop].
  - exists false, s. by split_and!.
  - apply Forall_cons in Hok as [Hr Hok]. apply Forall_cons in Hnb as [Hb Hnb].
    destruct (open_round_run r s Hi Hr) as (s0 & E & Hi0 & _).
    destruct (close_inv r s0 Hi0) as (Hi1 & _). set (s1 := close_sockets r s0) in *.
    unfold scan_round. rewrite E. cbn [mbind option_bind]. fold s1.
    rewrite go_on_unresolved by done. destruct (Z.ltb_spec 0 (unresolved s1)) as [Hu|Hu].
    + by apply IH.
    + exists true, s1. split_and!; [done|done|]. intros _.
      pose proof (unresolved_eq _ Hi1). pose proof (in_next _ Hi1). pose proof (in_running _ Hi1). lia.
Qed.

(** ** The time the loop takes *)

(** What the system does during the rounds, from the time [t] on.  The times a
    round reads lie between those of the rounds before and after it, and no
    deadline exceeds 64 bits.  A positive result of [ext_select] leaves the
    descriptor of an open socket in the set; otherwise the call has waited for
    its 250 ms before the sockets are looked at. *)
Definition wait_time : Z := 250000.
Fixpoint environment (t : Z) (rounds : list Round) (s : Scan) : Prop :=
  match rounds with
  | [] => True
  | r :: rounds =>
      match open_round endPort connectTimeout r s with
      | None => True
      | Some s1 => exists t1 t2, t <= t1 <= t2 /\ t1 + connectTimeout < 2 ^ 64
          /\ Forall (fun a => t <= at_time a <= t1) (r_attempts r)
          /\ (if 0 <? r_result r
              then exists sl, Some sl ∈ slots s1 /\ sl_fd sl ∈ r_ready r
              else forall i, (i < length (slots s1))%nat -> t1 + wait_time <= r_clock r i <= t2)
          /\ environment t2 rounds (close_sockets r s1)
      end
  end.

(** No deadline is more than the time-out away. *)
Definition due_by (limit : Z) (o : option Slot) : Prop :=
  match o with Some sl => sl_timeout sl <= limit | None => True end.

Lemma open_sockets_due t t1 free : forall attempts next run messages l next' run' messages',
  open_sockets endPort connectTimeout free attempts next run messages = Some (l, next', run', messages') ->
  0 <= t -> 0 <= connectTimeout -> t1 + connectTimeout < 2 ^ 64 ->
  Forall (fun a => t <= at_time a <= t1) attempts ->
  Forall (due_by (t1 + connectTimeout)) free ->
  Forall (due_by (t1 + connectTimeout)) l /\ forall sl, Some sl ∈ free -> Some sl ∈ l.
Proof.
  induction free as [|[sl|] free IH]; intros attempts next run messages l next' run' messages'
    Hrun Ht Hc Hw Ha Hd; cbn [open_sockets] in Hrun.
  - by injection Hrun as <- _ _ _.
  - destruct (open_sockets endPort connectTimeout free attempts next run messages) as [[[[l0 n0] r0] m0]|] eqn:E;
      [|done]. cbn in Hrun. injection Hrun as <- _ _ _.
    apply Forall_cons in Hd as [Hsl Hd]. destruct (IH _ _ _ _ _ _ _ _ E) as [H1 H2]; [done..|].
    split; [by constructor|]. intros sl'. rewrite !elem_of_cons. naive_solver.
  - apply Forall_cons in Hd as [_ Hd]. destruct (next <=? endPort); cycle 1.
    { injection Hrun as <- _ _ _. split; [by constructor|done]. }
    destruct attempts as [|a attempts]; [done|]. apply Forall_cons in Ha as [Ha Ha'].
    destruct (attempt_ok a); [|done].
    destruct (open_sockets endPort connectTimeout free attempts (next + 1) (run + 1) (messages ++ [Trying next]))
      as [[[[l0 n0] r0] m0]|] eqn:E; [|done]. cbn in Hrun. injection Hrun as <- _ _ _.
    destruct (IH _ _ _ _ _ _ _ _ E) as [H1 H2]; [done..|].
    split; [constructor; [|done]|].
    + cbn. rewrite wrap_small by lia. lia.
    + intros sl. rewrite !elem_of_cons. naive_solver.
Qed.

Lemma close_ready_progress r l : forall s,
  running (close_ready r l s).2 <= running s
  /\ ((exists sl, Some sl ∈ l /\ sl_fd sl ∈ r_ready r) -> running (close_ready r l s).2 < running s)
  /\ forall o, o ∈ (close_ready r l s).1 -> o = None \/ o ∈ l.
Proof.
  induction l as [|[sl|] l IH]; intros s; cbn [close_ready].
  - split_and!; [done| |by right]. intros (sl & H & _). by apply not_elem_of_nil in H.
  - case_bool_decide as Hb.
    + set (s1 := {| slots := _ |}). destruct (IH s1) as (H1 & _ & H3). destruct (close_ready r l s1) as [l' s'].
      cbn [fst snd] in *. assert (E1 : running s1 = running s - 1) by done.
      split_and!; [lia|intros _; lia|]. intros o. rewrite !elem_of_cons. specialize (H3 o). naive_solver.
    + destruct (IH s) as (H1 & H2 & H3). destruct (close_ready r l s) as [l' s']. cbn [fst snd] in *.
      split_and!; [done| |].
      * intros (sl' & Hin & Hr). apply H2. exists sl'. split; [|done].
        apply elem_of_cons in Hin as [[= ->]|Hin]; [done|done].
      * intros o. rewrite !elem_of_cons. specialize (H3 o). naive_solver.
  - destruct (IH s) as (H1 & H2 & H3). destruct (close_ready r l s) as [l' s']. cbn [fst snd] in *.
    split_and!; [done| |].
    + intros (sl' & Hin & Hr). apply H2. exists sl'. split; [|done].
      by apply elem_of_cons in Hin as [[=]|Hin].
    + intros o. rewrite !elem_of_cons. specialize (H3 o). naive_solver.
Qed.

Lemma close_late_progress r l : forall i s,
  running (close_late r i l s).2 <= running s
  /\ (running (close_late r i l s).2 < running s
      \/ (close_late r i l s).1 = l
         /\ forall j sl, l !! j = Some (Some sl) -> r_clock r (i + j) < sl_timeout sl)
  /\ forall o, o ∈ (close_late r i l s).1 -> o = None \/ o ∈ l.
Proof.
  induction l as [|[sl|] l IH]; intros i s; cbn [close_late].
  - split_and!; [done| |by right]. by right.
  - destruct (Z.leb_spec (sl_timeout sl) (r_clock r i)) as [Hb|Hb].
    + set (s1 := {| slots := _ |}). destruct (IH (S i) s1) as (H1 & _ & H3).
      destruct (close_late r (S i) l s1) as [l' s']. cbn [fst snd] in *.
      assert (E1 : running s1 = running s - 1) by done.
      split_and!; [lia|left; lia|]. intros o. rewrite !elem_of_cons. specialize (H3 o). naive_solver.
    + destruct (IH (S i) s) as (H1 & H2 & H3). destruct (close_late r (S i) l s) as [l' s']. cbn [fst snd] in *.
      split_and!; [done| |].
      * destruct H2 as [H2|[-> H2]]; [by left|right]. split; [done|]. intros [|j] sl' Hj.
        -- injection Hj as <-. by rewrite Nat.add_0_r.
        -- rewrite Nat.add_succ_r. by apply H2.
      * intros o. rewrite !elem_of_cons. specialize (H3 o). naive_solver.
  - destruct (IH (S i) s) as (H1 & H2 & H3). destruct (close_late r (S i) l s) as [l' s']. cbn [fst snd] in *.
    split_and!; [done| |].
    + destruct H2 as [H2|[-> H2]]; [by left|right]. split; [done|]. intros [|j] sl' Hj; [done|].
      rewrite Nat.add_succ_r. by apply H2.
    + intros o. rewrite !elem_of_cons. specialize (H3 o). naive_solver.
Qed.

(** A round that gives no verdict has waited, and no deadline is over yet. *)
Lemma close_progress r s t1 t2 :
  (if 0 <? r_result r then exists sl, Some sl ∈ slots s /\ sl_fd sl ∈ r_ready r
   else forall i, (i < length (slots s))%nat -> t1 + wait_time <= r_clock r i <= t2) ->
  (running (close_sockets r s) < running s
   \/ slots (close_sockets r s) = slots s /\ running (close_sockets r s) = running s
      /\ forall sl, Some sl ∈ slots s -> t1 + wait_time < sl_timeout sl /\ t1 + wait_time <= t2)
  /\ forall limit, Forall (due_by limit) (slots s) -> Forall (due_by limit) (slots (close_sockets r s)).
Proof.
  intros Hr. unfold close_sockets.
  assert (Hdue : forall limit (l : list (option Slot)), (forall o, o ∈ l -> o = None \/ o ∈ slots s) ->
    Forall (due_by limit) (slots s) -> Forall (due_by limit) l).
  { intros limit l Hl Hf. apply Forall_forall. intros o Ho.
    destruct (Hl o Ho) as [->|Hin]; [done|]. by apply (proj1 (Forall_forall _ _) Hf). }
  destruct (0 <? r_result r).
  - destruct (close_ready_progress r (slots s) s) as (_ & H2 & H3).
    destruct (close_ready r (slots s) s) as [l' s']. cbn [fst snd slots running] in *.
    split; [left; by apply H2|]. intros limit. by apply Hdue.
  - destruct (close_late_progress r (slots s) 0 s) as (H1 & H2 & H3).
    destruct (close_late r 0 (slots s) s) as [l' s']. cbn [fst snd slots running] in *.
    split; [|intros limit; by apply Hdue]. destruct (decide (running s' < running s)) as [?|Hge]; [by left|right].
    destruct H2 as [?|[-> H2]]; [lia|]. split; [done|]. split; [lia|]. intros sl Hin.
    apply list_elem_of_lookup in Hin as [j Hj]. specialize (H2 j sl Hj).
    destruct (Hr j); [by eapply lookup_lt_Some|]. cbn in H2. lia.
Qed.

(** The number of rounds that may pass before a verdict. *)
Definition patience : Z := connectTimeout / wait_time + 1.
Lemma patience_spec : 0 <= connectTimeout -> 1 <= patience /\ connectTimeout <= wait_time * patience.
Proof.
  intros Hc. unfold patience, wait_time. pose proof (Z.div_pos connectTimeout 250000 ltac:(lia) ltac:(lia)).
  pose proof (Z.mul_succ_div_gt connectTimeout 250000 ltac:(lia)). lia.
Qed.

(** With [b] rounds left for the next verdict. *)
Lemma scan_loop_ends rounds : forall s t b,
  (0 < simultaneous)%nat -> 0 <= connectTimeout -> 0 <= t -> scan_inv s ->
  Forall round_ok rounds -> Forall (fun r => r_break r = false) rounds -> environment t rounds s ->
  Forall (due_by (t + connectTimeout)) (slots s) ->
  1 <= b <= patience ->
  b = patience \/ (exists sl, Some sl ∈ slots s /\ sl_timeout sl <= t + wait_time * b) ->
  0 < unresolved s -> (unresolved s - 1) * patience + b <= Z.of_nat (length rounds) ->
  exists s', scan_loop endPort connectTimeout rounds s = Some (true, s').
Proof.
  induction rounds as [|r rounds IH]; intros s t b Hsim Hc Ht Hi Hok Hnb Henv Hdue Hb Hslot Hu Hlen;
    cbn [scan_loop length] in *; [nia|].
  apply Forall_cons in Hok as [Hr Hok]. apply Forall_cons in Hnb as [Hbr Hnb].
  destruct (open_round_run r s Hi Hr) as (s1 & E & Hi1 & Eu & Hfull).
  cbn [environment] in Henv. rewrite E in Henv.
  destruct Henv as (t1 & t2 & Ht1 & Hw & Hat & Hsel & Henv).
  destruct (patience_spec Hc) as [Hp1 Hp2].
  (* the open sockets *)
  assert (Hopen : Forall (due_by (t1 + connectTimeout)) (slots s1)
                  /\ forall sl, Some sl ∈ slots s -> Some sl ∈ slots s1).
  { unfold open_round in E. destruct (open_sockets _ _ _ _ _ _ _) as [[[[l n] run] ms]|] eqn:Eo; [|done].
    cbn in E. injection E as <-. cbn [slots]. eapply open_sockets_due; [exact Eo|exact Ht|done..|].
    eapply Forall_impl; [exact Hdue|]. intros [sl|]; cbn; lia. }
  destruct Hopen as [Hdue1 Hin1].
  assert (Hslot1 : exists sl, Some sl ∈ slots s1 /\ sl_timeout sl <= t1 + wait_time * b).
  { destruct Hslot as [->|(sl & Hin & Hsl)]; [|exists sl; split; [auto|lia]].
    assert (Hne : open_ports (slots s1) <> []).
    { intros E0. pose proof (unresolved_eq _ Hi1) as E1. rewrite (in_running _ Hi1), E0 in E1.
      destruct Hfull as [Hend|Hfull]; [cbn in E1; lia|]. rewrite E0 in Hfull. cbn in Hfull. lia. }
    destruct (open_ports (slots s1)) as [|q l] eqn:Eq; [done|].
    assert (Hq : q ∈ open_ports (slots s1)) by (rewrite Eq; left).
    apply list_elem_of_omap in Hq as ([sl|] & Hin & Hq); [|done]. exists sl. split; [done|].
    pose proof (proj1 (Forall_forall _ _) Hdue1 _ Hin) as Hd. cbn in Hd. lia. }
  destruct Hslot1 as (sl & Hin & Hsl).
  destruct (close_progress r s1 t1 t2 Hsel) as [Hprog Hdue2].
  specialize (Hdue2 _ Hdue1). destruct (close_inv r s1 Hi1) as (Hi2 & Hn2 & Hrun2).
  set (s2 := close_sockets r s1) in *.
  assert (Hun : unresolved s2 = unresolved s1 - (running s1 - running s2)) by (unfold unresolved; lia).
  unfold scan_round. rewrite E. cbn [mbind option_bind]. fold s2.
  rewrite go_on_unresolved by done. destruct (Z.ltb_spec 0 (unresolved s2)) as [Hu2|Hu2]; [|by eexists].
  assert (Hdue3 : Forall (due_by (t2 + connectTimeout)) (slots s2)).
  { eapply Forall_impl; [exact Hdue2|]. intros [o|]; cbn; lia. }
  destruct Hprog as [Hless|(Es & Er & Hlate)].
  - apply (IH s2 t2 patience); try done; [lia|by left|nia].
  - specialize (Hlate sl Hin). assert (2 <= b) by nia.
    apply (IH s2 t2 (b - 1)); try done; [lia|lia| |nia].
    right. exists sl. rewrite Es. split; [done|]. unfold wait_time in *. lia.
Qed.
End Proofs.

(** C37. The port scanner, for a valid range of ports and as long as its calls
    succeed and there is no break.  At any time the ports tried are those from
    the first one on, each once and in order; a tried port has exactly one
    verdict, or is that of an open socket, of which there are never more than
    [simultaneous]; the summary names exactly the ports found active.  When the
    loop ends, all ports of the range have been tried and have a verdict.  And
    it ends: a positive result of [ext_select] gives a verdict, and a socket
    whose deadline is over is closed in the next round in which [ext_select]
    has found nothing for 250 ms, so that there is a verdict within
    [connectTimeout] / 250 ms + 1 rounds. *)
Theorem port_scan_complete (startPort endPort connectTimeout t : Z) (simultaneous : nat) (rounds : list Round)
    (Hrange : 1 <= startPort <= endPort) (Hsim : (0 < simultaneous)%nat)
    (Hok : Forall (round_ok simultaneous) rounds)
    (Hbreak : Forall (fun r => r_break r = false) rounds) :
  exists finished s,
    scan_loop endPort connectTimeout rounds (initial_scan endPort (Z.of_nat simultaneous) startPort)
      = Some (finished, s)
    /\ tried (log s) = seqZ startPort (nextPort s - startPort)
    /\ verdicts (log s) ++ open_ports (slots s) ≡ₚ tried (log s)
    /\ (length (open_ports (slots s)) <= simultaneous)%nat
    /\ (forall p, p ∈ summary endPort s <-> Active p ∈ log s)
    /\ (finished = true -> verdicts (log s) ≡ₚ seqZ startPort (endPort + 1 - startPort))
    /\ (0 <= connectTimeout -> 0 <= t ->
        environment endPort connectTimeout t rounds (initial_scan endPort (Z.of_nat simultaneous) startPort) ->
        (endPort + 1 - startPort) * (connectTimeout / 250000 + 1) <= Z.of_nat (length rounds) ->
        finished = true).
Proof.
  pose proof (initial_inv endPort startPort simultaneous Hrange) as Hi0.
  destruct (scan_loop_inv endPort connectTimeout startPort simultaneous Hrange rounds _ Hi0 Hok Hbreak)
    as (fin & s & E & Hi & Hf).
  exists fin, s. split_and!; [exact E|apply Hi|apply Hi| | | |].
  - rewrite <- (in_slots _ _ _ _ Hi). apply open_ports_le.
  - intros p. unfold summary. rewrite list_elem_of_filter, elem_of_seqZ.
    assert (Hact : Active p ∈ log s -> startPort <= p <= endPort).
    { intros Hin. assert (Hv : p ∈ verdicts (log s)) by (apply list_elem_of_omap; by exists (Active p)).
      assert (Ht : p ∈ tried (log s)).
      { rewrite <- (in_ports _ _ _ _ Hi). apply elem_of_app. by left. }
      rewrite (in_tried _ _ _ _ Hi) in Ht. apply elem_of_seqZ in Ht. pose proof (in_next _ _ _ _ Hi). lia. }
    split.
    + intros [Hs Hp]. rewrite (in_success _ _ _ _ Hi) in Hs by lia. injection Hs as Hs.
      by apply bool_decide_eq_true in Hs.
    + intros Hin. specialize (Hact Hin). split; [|lia]. rewrite (in_success _ _ _ _ Hi) by lia.
      by rewrite bool_decide_true.
  - intros ->. specialize (Hf eq_refl). rewrite (unresolved_eq _ _ _ _ Hi) in Hf.
    pose proof (in_next _ _ _ _ Hi). pose proof (in_running _ _ _ _ Hi) as Hr.
    assert (Hn : open_ports (slots s) = []) by (apply length_zero_iff_nil; lia).
    pose proof (in_ports _ _ _ _ Hi) as Hp. rewrite Hn, app_nil_r in Hp. rewrite Hp, (in_tried _ _ _ _ Hi).
    by replace (nextPort s) with (endPort + 1) by lia.
  - intros Hc Ht Henv Hlen.
    destruct (patience_spec connectTimeout Hc) as [Hp1 _].
    destruct (scan_loop_ends endPort connectTimeout startPort simultaneous Hrange rounds _ t
      (patience connectTimeout) Hsim Hc Ht Hi0 Hok Hbreak Henv) as [s' E'].
    + by apply Forall_replicate.
    + lia.
    + by left.
    + unfold unresolved. cbn. lia.
    + unfold unresolved, patience, wait_time in *. cbn [verdicts omap list_omap log initial_scan length]. nia.
    + congruence.
Qed.

(** Two ports with one socket at a time and a time-out of 200 ms: the first
    accepts the test message, the second times out. *)
Definition demo_attempt (time : Z) : Attempt :=
  {| at_fd := 5; at_initmsg := 0; at_bound := true; at_events := 0; at_connected := false;
     at_error := EINPROGRESS; at_time := time |}.
Definition demo_active : Round :=
  {| r_attempts := [demo_attempt 1000]; r_result := 1; r_ready := {[5]}; r_write := fun _ => 5;
     r_clock := fun _ => 0; r_break := false |}.
Definition demo_late : Round :=
  {| r_attempts := [demo_attempt 2000]; r_result := 0; r_ready := ∅; r_write := fun _ => -1;
     r_clock := fun _ => 252000; r_break := false |}.
Example demo_scan :
  (fun x => (x.1, log x.2, summary 8 x.2)) <$>
    scan_loop 8 200000 [demo_active; demo_late] (initial_scan 8 1 7)
  = Some (true, [Trying 7; Active 7; Trying 8; Inactive 8], [7]).
Proof. by vm_compute. Qed.

Lemma demo_environment : environment 8 200000 1000 [demo_active; demo_late] (initial_scan 8 1 7).
Proof.
  exists 1000, 2000. split_and!; [lia|lia|lia|repeat constructor; cbn; lia| |].
  - exists {| sl_fd := 5; sl_port := 7; sl_timeout := 201000 |}. split; [by left|]. set_solver.
  - exists 2000, 252000. split_and!; [lia|lia|lia|repeat constructor; cbn; lia| |done].
    cbn. unfold wait_time. lia.
Qed.

Lemma port_scan_complete_witness :
  exists finished s,
    scan_loop 8 200000 [demo_active; demo_late] (initial_scan 8 1 7) = Some (finished, s)
    /\ finished = true /\ verdicts (log s) ≡ₚ [7; 8].
Proof.
  destruct (port_scan_complete 7 8 200000 1000 1 [demo_active; demo_late] ltac:(lia) ltac:(lia))
    as (fin & s & E & _ & _ & _ & _ & Hf & Hend);
    [repeat (constructor; [split; [cbn; lia|by repeat constructor]|]); constructor|by repeat constructor|].
  exists fin, s. split; [exact E|].
  assert (Hfin : fin = true) by (apply Hend; [lia|lia|exact demo_environment|by vm_compute]).
  split; [exact Hfin|]. exact (Hf Hfin).
Defined.
