(* ===== verification/Randomizer.v ===== *)
(** * Random numbers and floating-point functions (randomizer.cc,
    randomizer.icc, tools.cc, tools.icc)

    The generator of the class [Randomizer] and the functions that calculate
    with [double], which is the binary64 format of the Standard Library's
    [SpecFloat]. *)

From Stdlib Require Import SpecFloat String.
From stdpp Require Import strings.
From S2P Require Import Prelude SocketOps Strings.
Local Open Scope Z_scope.

(** ** [double] *)

Definition double : Set := spec_float.
Definition double_of (z : Z) : double := binary_normalize 53 1024 z 0 false.
Definition fdiv (x y : double) : double := SFdiv 53 1024 x y.
Definition fmul (x y : double) : double := SFmul 53 1024 x y.
Definition fadd (x y : double) : double := SFadd 53 1024 x y.
Definition fsub (x y : double) : double := SFsub 53 1024 x y.

(** The integer below and above a number, and the one towards zero; none for
    an infinity or no number. *)
Definition magnitude_floor (m : positive) (e : Z) : Z :=
  if 0 <=? e then Z.pos m * 2 ^ e else Z.pos m / 2 ^ (- e).
Definition magnitude_ceil (m : positive) (e : Z) : Z :=
  if 0 <=? e then Z.pos m * 2 ^ e else - (- Z.pos m / 2 ^ (- e)).
Definition ceil (x : double) : option Z :=
  match x with
  | S754_zero _ => Some 0
  | S754_finite s m e => Some (if s then - magnitude_floor m e else magnitude_ceil m e)
  | _ => None
  end.
Definition trunc (x : double) : option Z :=
  match x with
  | S754_zero _ => Some 0
  | S754_finite s m e => Some (if s then - magnitude_floor m e else magnitude_floor m e)
  | _ => None
  end.
(** A conversion to an integer type is undefined out of its range. *)
Definition to_range (lo hi : Z) (z : option Z) : option Z :=
  match z with Some z => if (lo <=? z) && (z <=? hi) then Some z else None | None => None end.
Definition to_cardinal : option Z -> option Z := to_range 0 (2 ^ 32 - 1).
Definition to_int64 : option Z -> option Z := to_range (- 2 ^ 63) (2 ^ 63 - 1).

(** ** tools.cc, tools.icc *)

Definition frame_size (payloadBytesPerSecond framesPerSecond : Z) : option Z :=
  to_cardinal (ceil (fdiv (double_of payloadBytesPerSecond) (double_of framesPerSecond))).
(** [calculatePacketsPerSecond] *)
Definition calculatePacketsPerSecond
    (payloadBytesPerSecond framesPerSecond maxPacketSize headerLength : Z) : option Z :=
  frameSize ← frame_size payloadBytesPerSecond framesPerSecond;
  a ← to_cardinal (ceil (fdiv (double_of frameSize) (double_of (u32 (maxPacketSize - headerLength)))));
  b ← to_cardinal (ceil (fdiv (double_of payloadBytesPerSecond) (double_of frameSize)));
  Some (u32 (a * b)).
(** [calculateBytesPerSecond] *)
Definition calculateBytesPerSecond
    (payloadBytesPerSecond framesPerSecond maxPacketSize headerLength : Z) : option Z :=
  frameSize ← frame_size payloadBytesPerSecond framesPerSecond;
  a ← to_cardinal (ceil (fdiv (double_of frameSize) (double_of (u32 (maxPacketSize - headerLength)))));
  let headerBytesPerFrame := u32 (a * headerLength) in
  b ← to_cardinal (ceil (fdiv (double_of payloadBytesPerSecond) (double_of frameSize)));
  Some (u32 (u32 (headerBytesPerFrame + frameSize) * b)).

(** 2000 bytes per frame in packets of 1500 bytes with a header of 40: two
    packets for each of 25 frames. *)
Example packets_per_second :
  calculatePacketsPerSecond 50000 25 1500 40 = Some 50
  /\ calculateBytesPerSecond 50000 25 1500 40 = Some 52000.
Proof. by vm_compute. Qed.

(** [translateToBinary], [translateToDouble]: 32 bits behind the point. *)
Definition shift32 : double := double_of (2 ^ 32).
Definition translateToBinary (x : double) : option Z :=
  z ← to_int64 (trunc (fmul x shift32)); Some (wrap 64 z).
Definition translateToDouble (x : Z) : double := fdiv (double_of (let y := u64 x in if y <? 2 ^ 63 then y else y - 2 ^ 64)) shift32.

(** [getMicroTime], of the result of [gettimeofday]. *)
Definition getMicroTime (tv_sec tv_usec : Z) : Z := wrap 64 (wrap 64 (tv_sec * 1000000) + tv_usec).

(** [printTimeStamp], with the text of [strftime] for the local time. *)
Definition printTimeStamp (strftime : string -> Z -> string) (microTime : Z) : string :=
  let part := print_unsigned 10 (u32 (microTime mod 1000000) / 100) in
  strftime "%d-%b-%Y %H:%M:%S"%string (microTime / 1000000)
  +:+ "." +:+ String.concat "" (replicate (4 - String.length part) "0"%string) +:+ part +:+ ": ".
(** [getUserName], with the entry of the user: login and real name. *)
Definition getUserName (entry : option (string * string)) (size : Z) (realName : bool) : bool * string :=
  match entry with
  | Some (pw_name, pw_gecos) =>
      (true, String.substring 0 (Z.to_nat (size - 1)) (if realName then pw_gecos else pw_name))
  | None => (false, EmptyString)
  end.

(** ** [Randomizer] *)

(** Every step is that of a linear congruential generator modulo 2^32; a call
    returns the number and the new [Value]. *)
Definition random8 (value : Z) : Z * Z :=
  let value := random32_step value in (Z.land value 0xff, value).
Definition random16 (value : Z) : Z * Z :=
  let value := random32_step value in (Z.land value 0xffff, value).
Definition random64 (value : Z) : Z * Z :=
  let value1 := random32_step value in
  let value := random32_step value1 in
  (Z.lor (Z.shiftl value1 32) value, value).
(** [random()]: 63 bits as a fraction; zero becomes one. *)
Definition random_double (value : Z) : double * Z :=
  let '(n, value) := random64 value in
  let number := Z.land n (2 ^ 63 - 1) in
  (if number =? 0 then double_of 1 else fdiv (double_of number) (double_of (2 ^ 63)), value).
(** [random(a, b)] *)
Definition random_cardinal (a b value : Z) : Z * Z :=
  let c := u32 (u32 (b - a) + 1) in
  let value := random32_step value in
  (if c =? 0 then a else u32 (value mod c + a), value).
Definition random_between (a b : double) (value : Z) : double * Z :=
  let c := fsub b a in
  let '(x, value) := random_double value in (fadd (fmul x c) a, value).
(** [setSeed] *)
Definition setSeed_time (tv_sec tv_usec : Z) : Z := u32 (getMicroTime tv_sec tv_usec).
Definition setSeed (seed : Z) : Z := seed.

(** Outputs of successive calls. *)
Fixpoint outputs (f : Z -> Z * Z) (n : nat) (value : Z) : list Z :=
  match n with O => [] | S n => (f value).1 :: outputs f n (f value).2 end.

(** ** Properties *)

Lemma step_mod k value : 0 <= k <= 32 ->
  random32_step value mod 2 ^ k = ((value mod 2 ^ k) * 31415821 + 1) mod 2 ^ k.
Proof.
  intros Hk. assert (H2 : 2 ^ k <> 0) by (apply Z.pow_nonzero; lia).
  unfold random32_step, wrap. rewrite Z.mod_mod_divide.
  - by rewrite (Z.add_mod (value mod 2 ^ k * _)), Z.mul_mod_idemp_l, <- Z.add_mod.
  - exists (2 ^ (32 - k)). rewrite <- Z.pow_add_r by lia. f_equal. lia.
Qed.

Lemma outputs8_mod n : forall value, outputs random8 n value = outputs random8 n (value mod 2 ^ 8).
Proof.
  assert (Hone : forall v, (random8 v).1 = (random8 (v mod 2 ^ 8)).1
    /\ (random8 v).2 mod 2 ^ 8 = (random8 (v mod 2 ^ 8)).2 mod 2 ^ 8).
  { intros v. unfold random8. cbn [fst snd]. change 0xff with (Z.ones 8).
    rewrite !Z.land_ones, !(step_mod 8) by lia. by rewrite Z.mod_mod by lia. }
  induction n as [|n IH]; intros value; [done|]. cbn [outputs].
  destruct (Hone value) as [E1 E2]. rewrite E1. f_equal. rewrite IH, E2, <- IH. done.
Qed.

Abbreviation state_after i value := (Nat.iter i random32_step value).
Lemma outputs_later n k : forall value,
  drop k (outputs random8 (k + n) value) = outputs random8 n (state_after k value).
Proof.
  induction k as [|k IH]; intros value; [done|].
  rewrite Nat.iter_succ_r. cbn [Nat.add outputs drop]. apply IH.
Qed.
Lemma outputs_take n m : forall value, (n <= m)%nat ->
  outputs random8 n value = take n (outputs random8 m value).
Proof.
  revert m. induction n as [|n IH]; intros m value Hm; [done|]. destruct m as [|m]; [lia|].
  cbn [outputs take]. f_equal. apply IH. lia.
Qed.
Lemma outputs_lookup n : forall i value x, outputs random8 n value !! i = Some x ->
  (i < n)%nat /\ x = state_after (S i) value mod 2 ^ 8.
Proof.
  induction n as [|n IH]; intros [|i] value x E; cbn [outputs lookup list_lookup] in E; try done.
  - injection E as <-. split; [lia|]. cbn [random8 fst Nat.iter nat_rect].
    change 0xff with (Z.ones 8). by rewrite Z.land_ones by lia.
  - apply IH in E as [H1 ->]. split; [lia|]. by rewrite (Nat.iter_succ_r (S i)).
Qed.

(** The check of one run of twice the length. *)
Definition cycle_check (n : nat) (l : list Z) : bool :=
  bool_decide (Forall (fun x => x ∈ take n l) (seqZ 0 (2 ^ 8)))
  && forallb (fun i => bool_decide (merge_sort Z.le (take n (drop i l)) = seqZ 0 (2 ^ 8))) (seq 1 n).
Lemma cycle_from_check n value :
  cycle_check n (outputs random8 (n + n) 0) = true -> outputs random8 n value ≡ₚ seqZ 0 (2 ^ 8).
Proof.
  intros [H1 H2]%andb_true_iff. apply bool_decide_eq_true in H1.
  rewrite Forall_forall in H1. rewrite forallb_forall in H2.
  rewrite <- (outputs_take n (n + n)) in H1 by lia.
  assert (Hin : value mod 2 ^ 8 ∈ outputs random8 n 0).
  { apply H1, elem_of_seqZ. pose proof (Z.mod_pos_bound value (2 ^ 8) ltac:(lia)). lia. }
  apply list_elem_of_lookup_1 in Hin as [i Hi]. apply outputs_lookup in Hi as [Hlt E].
  rewrite outputs8_mod, E, <- outputs8_mod, <- (outputs_later n (S i)).
  rewrite (outputs_take (S i + n) (n + n)) by lia. rewrite skipn_firstn_comm.
  replace (S i + n - S i)%nat with n by lia.
  assert (Hs : In (S i) (seq 1 n)) by (apply in_seq; lia).
  specialize (H2 (S i) Hs). apply bool_decide_eq_true in H2.
  rewrite <- H2. symmetry. apply merge_sort_Permutation.
Qed.

(** Among 256 successive 8-bit numbers every one occurs exactly once, whatever
    the seed: the generator has the period 256. *)
Lemma random8_cycle (value : Z) : outputs random8 256 value ≡ₚ seqZ 0 (2 ^ 8).
Proof. apply cycle_from_check. vm_cast_no_check (eq_refl true). Qed.

Lemma random32_step_range value : 0 <= random32_step value < 2 ^ 32.
Proof. apply Z.mod_pos_bound. lia. Qed.

(** [Randomizer::random(a, b)] returns a number of the interval, for every
    state of the generator; every number of a proper interval is possible, but
    for the interval of all 32-bit numbers the result is always [a]. *)
Theorem random_in_interval (a b : Z) (Ha : 0 <= a) (Hab : a <= b) (Hb : b < 2 ^ 32) :
  (forall value, a <= (random_cardinal a b value).1 <= b)
  /\ (b - a < 2 ^ 32 - 1 -> forall x, a <= x <= b -> exists value, 0 <= value < 2 ^ 32
        /\ (random_cardinal a b value).1 = x)
  /\ (b - a = 2 ^ 32 - 1 -> forall value, (random_cardinal a b value).1 = a).
Proof.
  assert (Ec : u32 (u32 (b - a) + 1) = if b - a =? 2 ^ 32 - 1 then 0 else b - a + 1).
  { rewrite (wrap_small 32 (b - a)) by lia. destruct (Z.eqb_spec (b - a) (2 ^ 32 - 1)) as [->|Hne].
    - done.
    - apply wrap_small. lia. }
  unfold random_cardinal. rewrite Ec. destruct (Z.eqb_spec (b - a) (2 ^ 32 - 1)) as [E|Hne]; cbn [fst].
  - change (0 =? 0) with true. cbv iota. split_and!; [lia|lia|done].
  - rewrite (proj2 (Z.eqb_neq (b - a + 1) 0)) by lia.
    assert (Hm : forall value, 0 <= random32_step value mod (b - a + 1) < b - a + 1)
      by (intros; apply Z.mod_pos_bound; lia).
    split_and!; [| |lia].
    + intros value. specialize (Hm value). rewrite wrap_small; lia.
    + intros _ x Hx.
      assert (Hinv : exists value, 0 <= value < 2 ^ 32 /\ random32_step value = x - a).
      { (* the multiplier is odd and so has an inverse *)
        exists (u32 ((x - a - 1) * 352788677)). split; [apply Z.mod_pos_bound; lia|].
        unfold random32_step, wrap. rewrite Z.add_mod, Z.mul_mod_idemp_l, <- Z.add_mod by lia.
        replace ((x - a - 1) * 352788677 * 31415821 + 1)
          with (x - a + (x - a - 1) * 2580496 * 2 ^ 32) by lia.
        rewrite Z.mod_add by lia. apply Z.mod_small. lia. }
      destruct Hinv as (value & Hv & E). exists value. split; [done|].
      rewrite E, Z.mod_small by lia. rewrite wrap_small; lia.
Qed.
Lemma random_in_interval_witness :
  (forall value, 10 <= (random_cardinal 10 20 value).1 <= 20)
  /\ exists value, (random_cardinal 10 20 value).1 = 17.
Proof.
  destruct (random_in_interval 10 20) as (Hin & Hall & _); [lia|lia|lia|].
  split; [exact Hin|]. destruct (Hall ltac:(lia) 17 ltac:(lia)) as (value & _ & E). by exists value.
Defined.
