(* ===== verification/Arguments.v ===== *)
(** * The command lines of the programs

    The option loops of the four programs sctpmultiserver.cc, sctpterminal.cc,
    sctpportscanner.cc and sctptftp.cc, the checks and limits after them, and
    the settings a program prints.  An option loop is a list of rules, tried in
    their order. *)

From Stdlib Require Import String Ascii.
From stdpp Require Import strings.
From S2P Require Import Prelude Memory State Strings Socket InternetAddress SocketAddress.
From S2P Require Import AddressText CppSocket.
From S2P Require Terminal PortScanner Tftp.
Local Open Scope Z_scope.

(** ** The C library *)

(** [!strcasecmp(s, t)] *)
Definition same_text (s t : string) : bool :=
  String.eqb (map_chars tolower s) (map_chars tolower t).
(** [!strncasecmp(arg, name, strlen(name))], with the text behind the name. *)
Definition option_value (name arg : string) : option string :=
  if same_text (String.substring 0 (String.length name) arg) name
  then Some (String.substring (String.length name) (String.length arg) arg) else None.
Definition atol (s : string) : Z :=
  let '(negative, s) := Terminal.sign_of (skip_space s) in
  let n := (read_digits 10 s 0).1 in
  clamp64 (if negative : bool then - n else n).

(** ** How a command line ends *)

(** [exit(1)] after a message, or undefined behaviour. *)
Inductive Outcome (X : Type) : Type :=
| Done (x : X)
| Exit (message : string)
| Crash (f : Fault).
Arguments Done {X} x.
Arguments Exit {X} message.
Arguments Crash {X} f.
Definition and_then {X Y} (m : Outcome X) (k : X -> Outcome Y) : Outcome Y :=
  match m with Done x => k x | Exit e => Exit e | Crash f => Crash f end.
Notation "'let?' x ':=' m 'in' k" := (and_then m (fun x => k))
  (at level 10, x pattern, m at level 100, k at level 200).

(** ** The local variables of [main] *)

Record Settings : Type := {
  optForceIPv4 : bool;
  instreams : Z;
  outstreams : Z;
  unreliable : Z;
  ColorMode : bool;
  PrintControl : bool;
  PrintNotifications : bool;
  startPort : Z;
  endPort : Z;
  connectTimeout : Z;
  simultaneous : Z;
  localAddressArray : list SocketAddress;
  remoteAddressArray : list SocketAddress }.
Definition eta_Settings (a : Settings) : Settings :=
  {| optForceIPv4 := optForceIPv4 a; instreams := instreams a; outstreams := outstreams a;
     unreliable := unreliable a; ColorMode := ColorMode a; PrintControl := PrintControl a;
     PrintNotifications := PrintNotifications a; startPort := startPort a; endPort := endPort a;
     connectTimeout := connectTimeout a; simultaneous := simultaneous a;
     localAddressArray := localAddressArray a; remoteAddressArray := remoteAddressArray a |}.
Definition set_optForceIPv4 (v : bool) (a : Settings) : Settings := ltac:(set_member eta_Settings optForceIPv4 v a).
Definition set_instreams (v : Z) (a : Settings) : Settings := ltac:(set_member eta_Settings instreams v a).
Definition set_outstreams (v : Z) (a : Settings) : Settings := ltac:(set_member eta_Settings outstreams v a).
Definition set_unreliable (v : Z) (a : Settings) : Settings := ltac:(set_member eta_Settings unreliable v a).
Definition set_ColorMode (v : bool) (a : Settings) : Settings := ltac:(set_member eta_Settings ColorMode v a).
Definition set_PrintControl (v : bool) (a : Settings) : Settings := ltac:(set_member eta_Settings PrintControl v a).
Definition set_PrintNotifications (v : bool) (a : Settings) : Settings :=
  ltac:(set_member eta_Settings PrintNotifications v a).
Definition set_startPort (v : Z) (a : Settings) : Settings := ltac:(set_member eta_Settings startPort v a).
Definition set_endPort (v : Z) (a : Settings) : Settings := ltac:(set_member eta_Settings endPort v a).
Definition set_connectTimeout (v : Z) (a : Settings) : Settings :=
  ltac:(set_member eta_Settings connectTimeout v a).
Definition set_simultaneous (v : Z) (a : Settings) : Settings := ltac:(set_member eta_Settings simultaneous v a).
Definition set_localAddressArray (v : list SocketAddress) (a : Settings) : Settings :=
  ltac:(set_member eta_Settings localAddressArray v a).
Definition set_remoteAddressArray (v : list SocketAddress) (a : Settings) : Settings :=
  ltac:(set_member eta_Settings remoteAddressArray v a).

(** Before the options: the streams and the printing differ. *)
Definition initial_settings (streams : Z) (print : bool) : Settings :=
  {| optForceIPv4 := false; instreams := streams; outstreams := streams; unreliable := 0;
     ColorMode := true; PrintControl := print; PrintNotifications := print;
     startPort := 1; endPort := 20; connectTimeout := 10000000; simultaneous := 128;
     localAddressArray := []; remoteAddressArray := [] |}.
Definition SCTP_MAXADDRESSES : Z := 20.

(** ** Rules *)

(** An argument with its number; the function of a rule with a value gets the
    text behind the name. *)
Record Arg : Set := { number : Z; text : string }.
Inductive Rule (X : Type) : Type :=
| Flag (name : string) (f : X -> X)
| Value (name : string) (f : Arg -> string -> X -> Outcome X).
Arguments Flag {X} name f.
Arguments Value {X} name f.

Fixpoint argument {X} (rules : list (Rule X)) (default : Arg -> X -> Outcome X)
    (arg : Arg) (a : X) : Outcome X :=
  match rules with
  | [] => default arg a
  | Flag name f :: rules =>
      if same_text (text arg) name then Done (f a) else argument rules default arg a
  | Value name f :: rules =>
      match option_value name (text arg) with
      | Some value => f arg value a
      | None => argument rules default arg a
      end
  end.
(** The loop, from argument number [i] on. *)
Fixpoint arguments {X} (rules : list (Rule X)) (default : Arg -> X -> Outcome X)
    (i : Z) (argv : list string) (a : X) : Outcome X :=
  match argv with
  | [] => Done a
  | t :: argv =>
      let? a := argument rules default {| number := i; text := t |} a in
      arguments rules default (i + 1) argv a
  end.

Definition endl : string := String "010" EmptyString.
Definition quote : string := String "034" EmptyString.
Definition limit_streams (value : string) : Z :=
  let n := u32 (atol value) in if n <? 1 then 1 else if 65535 <? n then 65535 else n.
Definition set_value (f : Z -> Settings -> Settings) (convert : string -> Z)
    (arg : Arg) (value : string) (a : Settings) : Outcome Settings := Done (f (convert value) a).
Definition cardinal_value (value : string) : Z := u32 (atol value).
Definition timeout_value (value : string) : Z := u64 (1000000 * u64 (atol value)).

Section Programs.
Context `{!Resolver} (UseIPv6 : bool).
Variables (blank : InternetAddress) (blank_unix : UnixAddress) (blank_buffer : list Z).
(** What [getLocalAddressList] finds; [None]: the interfaces cannot be read. *)
Variable interfaces : option (list (list Z) * list (list Z * option Z)).

Definition create (flags : Z) (name : string) : option SocketAddress :=
  create_from_name UseIPv6 blank blank_unix flags (Some name).
Definition add_local (flags : Z) (message : Arg -> string) (arg : Arg) (value : string) (a : Settings)
    : Outcome Settings :=
  if Z.of_nat (length (localAddressArray a)) <? SCTP_MAXADDRESSES then
    match create flags value with
    | Some address => Done (set_localAddressArray (localAddressArray a ++ [address]) a)
    | None => Exit (message arg)
    end
  else Exit "ERROR: Too many local addresses!".
Definition add_remote (arg : Arg) (a : Settings) : Outcome Settings :=
  if Z.of_nat (length (remoteAddressArray a)) <? SCTP_MAXADDRESSES then
    match create 0 (text arg) with
    | Some address => Done (set_remoteAddressArray (remoteAddressArray a ++ [address]) a)
    | None => Exit ("ERROR: Argument " +:+ quote +:+ text arg +:+ quote +:+ " is an invalid remote address!")
    end
  else Exit "ERROR: Too many remote addresses!".
Definition bad_number (arg : Arg) : string :=
  "ERROR: Argument #" +:+ print_unsigned 10 (number arg) +:+ " is an invalid address!".

Definition family_rules : list (Rule Settings) :=
  [Flag "-force-ipv4" (set_optForceIPv4 true); Flag "-use-ipv6" (set_optForceIPv4 false)].
Definition stream_rules : list (Rule Settings) :=
  [Value "-in=" (set_value set_instreams limit_streams);
   Value "-out=" (set_value set_outstreams limit_streams)].
Definition print_rules : list (Rule Settings) :=
  [Flag "-color" (set_ColorMode true); Flag "-nocolor" (set_ColorMode false);
   Flag "-control" (set_PrintControl true); Flag "-notif" (set_PrintNotifications true);
   Flag "-nocontrol" (set_PrintControl false); Flag "-nonotif" (set_PrintNotifications false)].
Definition unreliable_rule : Rule Settings := Value "-unreliable=" (set_value set_unreliable cardinal_value).
Definition local_rule : Rule Settings := Value "-local=" (add_local PF_HidePort bad_number).

(** ** The option loops *)

Definition terminal_rules : list (Rule Settings) :=
  family_rules ++ stream_rules ++ [unreliable_rule] ++ print_rules
  ++ [Value "-local=" (add_local 0 (fun arg =>
        "ERROR: Argument " +:+ quote +:+ text arg +:+ quote +:+ " specifies an invalid local address!"))].
Definition terminal_arguments (argv : list string) : Outcome Settings :=
  arguments terminal_rules add_remote 1 argv (initial_settings 128 false).

Definition multiserver_usage (argv0 : string) : string :=
  "Usage: " +:+ argv0 +:+ " {-force-ipv4|-use-ipv6} {-local=address1} ... {-local=addressN}  {-nocolor} {-color} {-control|-nocontrol} {-notif|-nonotif}".
Definition multiserver_rules : list (Rule Settings) :=
  family_rules ++ stream_rules ++ [local_rule; unreliable_rule] ++ print_rules.
Definition multiserver_arguments (argv0 : string) (argv : list string) : Outcome Settings :=
  arguments multiserver_rules (fun _ _ => Exit (multiserver_usage argv0)) 1 argv
    (initial_settings 128 false).

Definition scanner_rules : list (Rule Settings) :=
  family_rules ++ [local_rule; Value "-start=" (set_value set_startPort cardinal_value);
   Value "-end=" (set_value set_endPort cardinal_value);
   Value "-timeout=" (set_value set_connectTimeout timeout_value);
   Value "-simultaneous=" (set_value set_simultaneous cardinal_value)] ++ stream_rules.
Definition scanner_arguments (argv : list string) : Outcome Settings :=
  arguments scanner_rules (fun arg _ => Exit ("ERROR: Bad parameter " +:+ text arg +:+ "!")) 2 argv
    (initial_settings 1 true).

Definition tftp_usage (argv0 : string) : string :=
  "Usage: " +:+ argv0 +:+ " [get|put] [Filename] [Remote address] {-force-ipv4|-use-ipv6} {-local=address1} ... {-local=addressN}".
Definition tftp_rules : list (Rule Settings) := family_rules ++ [local_rule].
Definition tftp_arguments (argv0 : string) (argv : list string) : Outcome Settings :=
  arguments tftp_rules (fun _ _ => Exit (tftp_usage argv0)) 4 argv (initial_settings 1 true).

(** ** After the options *)

(** [InternetAddress::UseIPv6], from there on. *)
Definition use_ipv6 (a : Settings) : bool := UseIPv6 && negb (optForceIPv4 a).
Definition GLAF_HideAnycast : Z := 2 ^ 3.
Definition GLAF_programs : Z := Z.lor GLAF_HideBroadcast (Z.lor GLAF_HideMulticast GLAF_HideAnycast).
(** The addresses of the interfaces, where none is given. *)
Definition default_locals (a : Settings) : Outcome Settings :=
  match localAddressArray a with
  | _ :: _ => Done a
  | [] =>
      match interfaces with
      | None => Exit "ERROR: Cannot obtain local addresses!"
      | Some (v6list, v4list) =>
          match getLocalAddressList (use_ipv6 a) blank blank_buffer GLAF_programs v6list v4list with
          | [] => Exit ("ERROR: No valid local addresses have been found?!" +:+ endl
                        +:+ "       Check your network interface configuration!")
          | l => Done (set_localAddressArray (Internet <$> l) a)
          end
      end
  end.
(** The port of the first address for the others. *)
Definition common_port (l : list SocketAddress) : list SocketAddress :=
  match l with [] => [] | first :: l => first :: (address_setPort (address_getPort first) <$> l) end.
Definition limit_unreliable (a : Settings) : Settings :=
  set_unreliable (Z.min (outstreams a) (unreliable a)) a.

Definition terminal_usage (argv0 : string) : string :=
  "Usage: " +:+ argv0 +:+ " [Remote address 1] {{Remote address 2} ...} {-force-ipv4|-use-ipv6} {-local=address1} ... {-local=addressN} {-in=instreams} {-out=outstreams} {-nocolor} {-color} {-control|-nocontrol} {-notif|-nonotif}".
Definition terminal_settings (argv0 : string) (argv : list string) : Outcome Settings :=
  match argv with
  | [] => Exit (terminal_usage argv0)
  | _ =>
      let? a := terminal_arguments argv in
      match remoteAddressArray a with
      | [] => Exit "ERROR: No remote addresses given!"
      | first :: _ =>
          if address_getPort first =? 0
          then Exit "ERROR: No remote port number is given with first remote address!"
          else
            let? a := default_locals a in
            let a := set_localAddressArray (common_port (localAddressArray a)) a in
            let a := set_remoteAddressArray (common_port (remoteAddressArray a)) a in
            Done (limit_unreliable a)
      end
  end.

Definition multiserver_settings (argv0 : string) (argv : list string) : Outcome Settings :=
  let? a := multiserver_arguments argv0 argv in
  let? a := default_locals a in
  Done (limit_unreliable a).

Definition bad_remote : string := "ERROR: Bad remote address! Use <address>:<port> format.".
Definition scanner_usage (argv0 : string) : string :=
  "Usage: " +:+ argv0 +:+ " [Remote address] {-force-ipv4|-use-ipv6} {-local=address1} ... {-local=addressN} {-in=instreams} {-out=outstreams} {-start=first port} {-end=last port} {-simultaneous=connections} {-timeout=seconds}".
(** The remote address is created after [UseIPv6] is set. *)
Definition set_remote (name : string) (a : Settings) : Outcome Settings :=
  match create_from_name (use_ipv6 a) blank blank_unix 0 (Some name) with
  | None => Exit bad_remote
  | Some address => Done (set_remoteAddressArray [address] a)
  end.
Definition limit_scan (a : Settings) : Settings :=
  let '(first, last) := PortScanner.clamp_ports (startPort a) (endPort a) in
  set_simultaneous (PortScanner.clamp_simultaneous (simultaneous a))
    (set_connectTimeout (PortScanner.clamp_timeout (connectTimeout a))
      (set_startPort first (set_endPort last a))).
Definition scanner_settings (argv0 : string) (argv : list string) : Outcome Settings :=
  match argv with
  | [] => Exit (scanner_usage argv0)
  | remote :: argv =>
      let? a := scanner_arguments argv in
      let? a := set_remote remote a in
      let? a := default_locals a in
      Done (limit_scan a)
  end.

(** sctptftp needs three arguments, but only tests for one; [getLocalAddress]
    is asked with the remote address if no local one is given. *)
Definition tftp_short_usage (argv0 : string) : string :=
  "Usage: " +:+ argv0 +:+ "  [Remote address] [get|put] [Filename] {-force-ipv4|-use-ipv6} {-local=address1} ... {-local=addressN}".
Definition tftp_settings (getLocalAddress : SocketAddress -> option SocketAddress)
    (argv0 : string) (argv : list string) : Outcome (Settings * bool * string) :=
  match argv with
  | [] => Exit (tftp_short_usage argv0)
  | remote :: argv =>
      let? a := tftp_arguments argv0 (drop 2 argv) in
      let? a := set_remote remote a in
      let? a :=
        match localAddressArray a, remoteAddressArray a with
        | [], address :: _ =>
            match getLocalAddress address with
            | None => Exit "ERROR: Out of memory!"
            | Some l => Done (set_localAddressArray [l] a)
            end
        | _, _ => Done a
        end in
      match argv with
      | [] => Crash OutOfBounds
      | [_] => Crash NullDereference
      | direction :: file :: _ =>
          if Z.of_nat Tftp.sizeof_Data - 1 <? strlen file then Exit "ERROR: File name too long!"
          else Done (a, same_text direction "PUT", file)
      end
  end.

(** ** The settings a program prints *)

Definition line (label value : string) : string := label +:+ value +:+ endl.
Definition show (a : Settings) (format : Z) (address : SocketAddress) : string :=
  address_getAddressString (use_ipv6 a) blank_buffer address format.
Definition print_format (address : SocketAddress) : Z :=
  match address with Internet i => Format i | Unix _ => PF_Default end.
(** The first address behind the label, the others below it. *)
Definition address_lines (label : string) (indent : string) (l : list string) : string :=
  match l with
  | [] => ""
  | first :: l => line label first +:+ String.concat "" (line indent <$> l)
  end.
Definition indent19 : string := "                   ".
Definition indent23 : string := "                       ".
Definition PF_settings : Z := Z.lor PF_Address (Z.lor PF_Legacy PF_HidePort).
Definition multiserver_information (a : Settings) : string :=
  line "SCTP Multi Server - Copyright (C) 2001-2026 Thomas Dreibholz" ""
  +:+ line "------------------------------------------------------------" ""
  +:+ address_lines "Local Addresses:   " indent19 (show a PF_settings <$> localAddressArray a)
  +:+ line "Max Incoming:      " (print_unsigned 10 (instreams a))
  +:+ line "Max Outgoing:      " (print_unsigned 10 (outstreams a))
  +:+ line "Unreliable:        " (print_unsigned 10 (unreliable a)) +:+ endl +:+ endl.
(** The first remote address is printed before its format is set. *)
Definition remote_texts (a : Settings) : list string :=
  match remoteAddressArray a with
  | [] => []
  | first :: l => show a (print_format first) first :: (show a PF_settings <$> l)
  end.
Definition terminal_information (a : Settings) : string :=
  line "SCTP Terminal - Copyright (C) 2001-2026 Thomas Dreibholz" ""
  +:+ line "--------------------------------------------------------" ""
  +:+ address_lines "Local Addresses:       " indent23 (show a PF_settings <$> localAddressArray a)
  +:+ address_lines "Remote Addresses:      " indent23 (remote_texts a)
  +:+ line "Outgoing Streams:      " (print_unsigned 10 (outstreams a))
  +:+ line "Max. Incoming Streams: " (print_unsigned 10 (instreams a))
  +:+ line "Unreliable:            " (print_unsigned 10 (unreliable a)) +:+ endl +:+ endl.
Definition scanner_information (a : Settings) : string :=
  line "SCTP Port Scanner - Copyright (C) 2001-2026 Thomas Dreibholz" ""
  +:+ line "------------------------------------------------------------" ""
  +:+ address_lines "Local Addresses:       " indent23
        (show a (Z.lor PF_Address PF_HidePort) <$> localAddressArray a)
  +:+ address_lines "Remote Address:        " "" (show a PF_Address <$> remoteAddressArray a)
  +:+ line "Outgoing Streams:      " (print_unsigned 10 (outstreams a))
  +:+ line "Max. Incoming Streams: " (print_unsigned 10 (instreams a))
  +:+ line "Simultaneous Connects: " (print_unsigned 10 (simultaneous a))
  +:+ line "Connect Timeout:       " (print_unsigned 10 (connectTimeout a) +:+ " [s]")
  +:+ line "Port Range:            " (print_unsigned 10 (startPort a) +:+ " - " +:+ print_unsigned 10 (endPort a))
  +:+ endl +:+ endl.
Definition tftp_information (a : Settings) : string :=
  line "SCTP TFTP - Copyright (C) 2001-2026 Thomas Dreibholz" ""
  +:+ line "----------------------------------------------------" ""
  +:+ address_lines "Local Addresses:       " indent23
        ((fun x => show a (print_format x) x) <$> localAddressArray a)
  +:+ address_lines "Remote Address:        " "" ((fun x => show a (print_format x) x) <$> remoteAddressArray a)
  +:+ endl.
End Programs.

(** ** Reading options *)

Lemma substring_prefix s t : String.substring 0 (String.length s) (s +:+ t) = s.
Proof.
  induction s as [|c s IH]; [by destruct t|]. rewrite app_cons_s. cbn [String.length String.substring].
  by rewrite IH.
Qed.
Lemma same_text_refl s : same_text s s = true.
Proof. apply String.eqb_refl. Qed.
Lemma option_value_app name v : option_value name (name +:+ v) = Some v.
Proof.
  unfold option_value. rewrite substring_prefix, same_text_refl. f_equal.
  apply Terminal.substring_behind. rewrite length_app_s. lia.
Qed.
Lemma atol_print n : 0 <= n < 2 ^ 63 -> atol (print_unsigned 10 n) = n.
Proof.
  intros Hn. unfold atol.
  pose proof (Terminal.only_digits_print 10 n ltac:(lia)) as Hd.
  pose proof (read_unsigned 10 n "" ltac:(lia)) as Hr.
  destruct (print_unsigned_cons 10 n) as (c & s & E). rewrite E in *. destruct Hd as [Hc _].
  destruct (Terminal.hex_digit_plain c (Terminal.digit_value_16 10 c ltac:(lia) Hc)) as (H1 & H2 & H3 & _).
  cbn [skip_space]. rewrite H1. cbn [Terminal.sign_of]. rewrite H2, H3.
  rewrite app_nil_s in Hr. rewrite Hr by (done || lia). cbn [fst]. unfold clamp64. lia.
Qed.
Lemma limit_streams_print n : 1 <= n <= 65535 -> limit_streams (print_unsigned 10 n) = n.
Proof.
  intros Hn. unfold limit_streams. rewrite atol_print by lia. cbv zeta. rewrite wrap_small by lia.
  rewrite (proj2 (Z.ltb_ge n 1)), (proj2 (Z.ltb_ge 65535 n)) by lia. done.
Qed.
Lemma cardinal_value_print n : 0 <= n < 2 ^ 32 -> cardinal_value (print_unsigned 10 n) = n.
Proof. intros Hn. unfold cardinal_value. rewrite atol_print by lia. by apply wrap_small. Qed.
Lemma limit_streams_range v : 1 <= limit_streams v <= 65535.
Proof. unfold limit_streams. cbv zeta. repeat case_match; lia. Qed.

Section Facts.
Context `{!Resolver} (UseIPv6 : bool).
Variables (blank : InternetAddress) (blank_unix : UnixAddress) (blank_buffer : list Z).
Variable interfaces : option (list (list Z) * list (list Z * option Z)).
Notation create := (create UseIPv6 blank blank_unix).
Notation terminal_rules := (terminal_rules UseIPv6 blank blank_unix).
Notation add_remote := (add_remote UseIPv6 blank blank_unix).

(** Every name of the terminal's rules begins with a minus. *)
Definition not_option (s : string) : Prop :=
  match s with String c _ => c <> "-"%char | EmptyString => True end.
Lemma lower_minus c : tolower c = "-"%char -> c = "-"%char.
Proof.
  assert (Hall : forallb (fun n => let c := ascii_of_nat n in
    negb (Ascii.eqb (tolower c) "-") || Ascii.eqb c "-") (seq 0 256) = true) by (vm_compute; done).
  rewrite forallb_forall in Hall. specialize (Hall (nat_of_ascii c)).
  cbv zeta in Hall. rewrite ascii_nat_embedding in Hall. intros E.
  specialize (Hall ltac:(apply in_seq; pose proof (nat_ascii_bounded c); lia)).
  rewrite E in Hall. by apply Ascii.eqb_eq.
Qed.
Lemma same_text_minus s name : not_option s -> same_text s ("-" +:+ name) = false.
Proof.
  intros Hs. apply String.eqb_neq. destruct s as [|c s]; [done|].
  intros E. injection E as E _. by apply lower_minus in E.
Qed.
Lemma option_value_minus s name : not_option s -> option_value ("-" +:+ name) s = None.
Proof.
  intros Hs. unfold option_value. rewrite same_text_minus; [done|].
  destruct s as [|c s]; [by rewrite substring_empty || done|done].
Qed.

Lemma argument_not_option s i a : not_option s ->
  argument terminal_rules add_remote {| number := i; text := s |} a
  = add_remote {| number := i; text := s |} a.
Proof.
  intros Hs. pose proof (same_text_minus s) as Hf. pose proof (option_value_minus s) as Hv.
  unfold terminal_rules, family_rules, stream_rules, unreliable_rule, print_rules.
  cbn [app argument text].
  repeat match goal with
  | |- context [same_text s (String ?c ?n)] => rewrite (Hf n Hs : same_text s (String c n) = false)
  | |- context [option_value (String ?c ?n) s] => rewrite (Hv n Hs : option_value (String c n) s = None)
  end.
  done.
Qed.

(** The value of an option: the names tried before are other ones. *)
Lemma argument_in v i a :
  argument terminal_rules add_remote {| number := i; text := "-in=" +:+ v |} a
  = Done (set_instreams (limit_streams v) a).
Proof. pose proof (option_value_app "-in=" v) as E. cbn in E |- *. by rewrite E. Qed.
Lemma argument_out v i a :
  argument terminal_rules add_remote {| number := i; text := "-out=" +:+ v |} a
  = Done (set_outstreams (limit_streams v) a).
Proof. pose proof (option_value_app "-out=" v) as E. cbn in E |- *. by rewrite E. Qed.
Lemma argument_unreliable v i a :
  argument terminal_rules add_remote {| number := i; text := "-unreliable=" +:+ v |} a
  = Done (set_unreliable (cardinal_value v) a).
Proof. pose proof (option_value_app "-unreliable=" v) as E. cbn in E |- *. by rewrite E. Qed.
Lemma argument_local v i a address :
  create 0 v = Some address -> (length (localAddressArray a) < 20)%nat ->
  argument terminal_rules add_remote {| number := i; text := "-local=" +:+ v |} a
  = Done (set_localAddressArray (localAddressArray a ++ [address]) a).
Proof.
  intros Hc Hl. pose proof (option_value_app "-local=" v) as E. cbn -[add_local] in E |- *. rewrite E.
  unfold add_local. change SCTP_MAXADDRESSES with 20. rewrite (proj2 (Z.ltb_lt _ 20)) by lia.
  by rewrite Hc.
Qed.

Lemma arguments_locals texts rest : forall addresses i a,
  Forall2 (fun t x => create 0 t = Some x) texts addresses ->
  (length (localAddressArray a) + length texts <= 20)%nat ->
  arguments terminal_rules add_remote i ((append "-local=" <$> texts) ++ rest) a
  = arguments terminal_rules add_remote (i + Z.of_nat (length texts)) rest
      (set_localAddressArray (localAddressArray a ++ addresses) a).
Proof.
  induction texts as [|t texts IH]; intros addresses i a Hc Hl; inversion Hc as [|? x ? l Ht Hr]; subst.
  - rewrite Z.add_0_r, app_nil_r. by destruct a.
  - rewrite fmap_cons, <- app_comm_cons. cbn [arguments length] in *.
    rewrite (argument_local _ _ _ _ Ht) by lia. cbn [and_then]. rewrite (IH _ _ _ Hr).
    + cbn [localAddressArray set_localAddressArray]. rewrite <- (assoc_L (++)).
      replace (i + 1 + Z.of_nat (length texts)) with (i + Z.of_nat (S (length texts))) by lia. done.
    + cbn [localAddressArray set_localAddressArray]. rewrite length_app. simpl. lia.
Qed.
Lemma arguments_remotes texts : forall addresses i a,
  Forall2 (fun t x => create 0 t = Some x) texts addresses -> Forall not_option texts ->
  (length (remoteAddressArray a) + length texts <= 20)%nat ->
  arguments terminal_rules add_remote i texts a
  = Done (set_remoteAddressArray (remoteAddressArray a ++ addresses) a).
Proof.
  induction texts as [|t texts IH]; intros addresses i a Hc Hn Hl; inversion Hc as [|? x ? l Ht Hr]; subst.
  - rewrite app_nil_r. by destruct a.
  - apply Forall_cons in Hn as [Hn1 Hn]. cbn [arguments length] in *.
    rewrite argument_not_option by done. unfold add_remote at 1. cbn [text].
    change SCTP_MAXADDRESSES with 20. rewrite (proj2 (Z.ltb_lt _ 20)) by lia. rewrite Ht.
    cbn [and_then]. rewrite (IH _ _ _ Hr Hn).
    + cbn [remoteAddressArray set_remoteAddressArray]. by rewrite <- (assoc_L (++)).
    + cbn [remoteAddressArray set_remoteAddressArray]. rewrite length_app. simpl. lia.
Qed.

(** ** Limits *)

(** What a rule keeps, the loop keeps. *)
Definition rule_keeps (P : Settings -> Prop) (r : Rule Settings) : Prop :=
  match r with
  | Flag _ f => forall a, P a -> P (f a)
  | Value _ f => forall arg v a a', P a -> f arg v a = Done a' -> P a'
  end.
Lemma argument_keeps P rules default arg a a' :
  Forall (rule_keeps P) rules -> (forall arg a a', P a -> default arg a = Done a' -> P a') ->
  P a -> argument rules default arg a = Done a' -> P a'.
Proof.
  intros Hr Hd. induction Hr as [|[name f|name f] rules Hf Hr IH]; intros Ha E; cbn [argument] in E.
  - by eapply Hd.
  - case_match; [|by apply IH]. injection E as <-. by apply Hf.
  - case_match; [|by apply IH]. by eapply Hf.
Qed.
Lemma arguments_keep P rules default argv : forall i a a',
  Forall (rule_keeps P) rules -> (forall arg a a', P a -> default arg a = Done a' -> P a') ->
  P a -> arguments rules default i argv a = Done a' -> P a'.
Proof.
  induction argv as [|t argv IH]; intros i a a' Hr Hd Ha E; cbn [arguments] in E.
  - by injection E as <-.
  - destruct (argument _ _ _ a) as [b| |] eqn:Eb; [|done..]. cbn [and_then] in E.
    eapply (IH (i + 1) b); [done|done| |exact E]. eapply argument_keeps; [done|done|exact Ha|exact Eb].
Qed.

(** An address a program has created. *)
Definition usable (a : SocketAddress) : Prop :=
  match a with Internet i => isValid i = true | Unix u => unix_isValid u = true end.
Record within_limits (a : Settings) : Prop := {
  in_limit : 1 <= instreams a <= 65535;
  out_limit : 1 <= outstreams a <= 65535;
  unreliable_limit : 0 <= unreliable a < 2 ^ 32;
  local_limit : (length (localAddressArray a) <= 20)%nat /\ Forall usable (localAddressArray a);
  remote_limit : (length (remoteAddressArray a) <= 20)%nat /\ Forall usable (remoteAddressArray a) }.

Lemma create_usable flags t x : create flags t = Some x -> usable x.
Proof. unfold create, create_from_name. cbv zeta. repeat case_match; intros [= <-]; done. Qed.
Lemma limits_flag (f : Settings -> Settings) name :
  (forall a, instreams (f a) = instreams a /\ outstreams (f a) = outstreams a
     /\ unreliable (f a) = unreliable a /\ localAddressArray (f a) = localAddressArray a
     /\ remoteAddressArray (f a) = remoteAddressArray a) ->
  rule_keeps within_limits (Flag name f).
Proof. intros E a [? ? ? ? ?]. destruct (E a) as (E1 & E2 & E3 & E4 & E5). by constructor; rewrite ?E1, ?E2, ?E3, ?E4, ?E5. Qed.
Lemma initial_limits print : within_limits (initial_settings 128 print) /\ within_limits (initial_settings 1 print).
Proof. split; constructor; simpl; (lia || split; (lia || constructor)). Qed.
Lemma add_local_limits flags message arg v a a' :
  within_limits a -> add_local UseIPv6 blank blank_unix flags message arg v a = Done a' -> within_limits a'.
Proof.
  intros [? ? ? [Hl Hu] ?] E. unfold add_local in E. change SCTP_MAXADDRESSES with 20 in E.
  destruct (Z.ltb_spec (Z.of_nat (length (localAddressArray a))) 20); [|done].
  destruct (create flags v) as [x|] eqn:Ex; [|done]. injection E as <-.
  constructor; cbn; try done. rewrite length_app, Forall_app. simpl. split; [lia|].
  split; [done|]. constructor; [by eapply create_usable|done].
Qed.
Lemma add_remote_limits arg a a' : within_limits a -> add_remote arg a = Done a' -> within_limits a'.
Proof.
  intros [? ? ? ? [Hl Hu]] E. unfold add_remote in E. change SCTP_MAXADDRESSES with 20 in E.
  destruct (Z.ltb_spec (Z.of_nat (length (remoteAddressArray a))) 20); [|done].
  destruct (create 0 (text arg)) as [x|] eqn:Ex; [|done]. injection E as <-.
  constructor; cbn; try done. rewrite length_app, Forall_app. simpl. split; [lia|].
  split; [done|]. constructor; [by eapply create_usable|done].
Qed.
Lemma set_value_limits name f convert :
  (forall v a, within_limits a -> within_limits (f (convert v) a)) ->
  rule_keeps within_limits (Value name (set_value f convert)).
Proof. intros Hf arg v a a' Ha [= <-]. by apply Hf. Qed.
Lemma family_keep : Forall (rule_keeps within_limits) family_rules.
Proof. unfold family_rules. rewrite !Forall_cons, Forall_nil. split_and!; (done || by apply limits_flag). Qed.
Lemma print_keep : Forall (rule_keeps within_limits) print_rules.
Proof. unfold print_rules. rewrite !Forall_cons, Forall_nil. split_and!; (done || by apply limits_flag). Qed.
Lemma stream_keep : Forall (rule_keeps within_limits) stream_rules.
Proof.
  unfold stream_rules. rewrite !Forall_cons, Forall_nil. split_and!; [..|done];
    apply set_value_limits; intros v a [? ? ? ? ?];
    constructor; cbn; try done; apply limit_streams_range.
Qed.
Lemma unreliable_keep : rule_keeps within_limits unreliable_rule.
Proof.
  apply set_value_limits. intros v a [? ? ? ? ?]. constructor; cbn; try done.
  unfold cardinal_value. apply wrap_range. lia.
Qed.

Notation default_locals := (default_locals UseIPv6 blank blank_buffer interfaces).
(** The local addresses fit their array: one of 20 elements for those of the
    command line, or the one [getLocalAddressList] has allocated for those of
    the interfaces. *)
Definition locals_fit (a : Settings) : Prop :=
  (length (localAddressArray a) <= 20)%nat
  \/ exists v6list v4list, interfaces = Some (v6list, v4list)
     /\ length (localAddressArray a)
        = length (getLocalAddressList (use_ipv6 UseIPv6 a) blank blank_buffer GLAF_programs v6list v4list).

(** The other settings are kept by the search for local addresses. *)
Lemma default_locals_ok a a' : default_locals a = Done a' ->
  localAddressArray a' <> [] /\ a' = set_localAddressArray (localAddressArray a') a.
Proof.
  unfold default_locals. destruct (localAddressArray a) as [|x l] eqn:E.
  - repeat case_match; intros [= <-]; done.
  - intros [= <-]. rewrite E. split; [done|]. destruct a; simpl in *; by subst.
Qed.
Lemma default_locals_fit a a' : (length (localAddressArray a) <= 20)%nat ->
  default_locals a = Done a' -> locals_fit (set_localAddressArray (localAddressArray a') a).
Proof.
  intros Ha. unfold default_locals. destruct (localAddressArray a) as [|x l] eqn:E.
  - destruct interfaces as [[v6list v4list]|] eqn:Ei; [|done].
    destruct (getLocalAddressList _ _ _ _ _ _) as [|y k] eqn:Ek; intros [= <-].
    right. exists v6list, v4list. split; [done|]. cbn [localAddressArray set_localAddressArray].
    change (use_ipv6 UseIPv6 (set_localAddressArray _ _)) with (use_ipv6 UseIPv6 a).
    rewrite Ek. by rewrite <- (length_fmap Internet (y :: k)).
  - intros [= <-]. left. by rewrite E.
Qed.
Lemma common_port_length l : length (common_port l) = length l.
Proof. destruct l; simpl; [done|]. by rewrite length_fmap. Qed.
Lemma terminal_limits argv a : terminal_arguments UseIPv6 blank blank_unix argv = Done a -> within_limits a.
Proof.
  apply arguments_keep.
  - unfold terminal_rules. repeat (apply Forall_app; split); try apply family_keep;
      try apply stream_keep; try apply print_keep; (apply Forall_cons; split; [|done]).
    + apply unreliable_keep.
    + intros ? ? ? ?. apply add_local_limits.
  - apply add_remote_limits.
  - apply initial_limits.
Qed.
Lemma multiserver_limits argv0 argv a :
  multiserver_arguments UseIPv6 blank blank_unix argv0 argv = Done a -> within_limits a.
Proof.
  apply arguments_keep; [|done|apply initial_limits].
  unfold multiserver_rules. repeat (apply Forall_app; split); try apply family_keep;
    try apply stream_keep; try apply print_keep.
  rewrite !Forall_cons. split; [|split; [apply unreliable_keep|done]].
  intros ? ? ? ?. apply add_local_limits.
Qed.
Lemma scanner_limits argv a : scanner_arguments UseIPv6 blank blank_unix argv = Done a -> within_limits a.
Proof.
  apply arguments_keep; [|done|apply initial_limits].
  unfold scanner_rules. repeat (apply Forall_app; split); try apply family_keep; try apply stream_keep.
  rewrite !Forall_cons. split.
  - intros ? ? ? ?. apply add_local_limits.
  - repeat (split; [apply set_value_limits; intros ? ? []; by constructor|]). done.
Qed.
Lemma tftp_limits argv0 argv a : tftp_arguments UseIPv6 blank blank_unix argv0 argv = Done a -> within_limits a.
Proof.
  apply arguments_keep; [|done|apply initial_limits].
  unfold tftp_rules. apply Forall_app. split; [apply family_keep|]. apply Forall_cons. split; [|done].
  intros ? ? ? ?. apply add_local_limits.
Qed.
Lemma common_port_cons x l : common_port (x :: l) = x :: (address_setPort (address_getPort x) <$> l).
Proof. done. Qed.
Lemma set_remote_ok name a a' :
  set_remote UseIPv6 blank blank_unix name a = Done a' ->
  exists x, usable x /\ a' = set_remoteAddressArray [x] a.
Proof.
  unfold set_remote. destruct (create_from_name _ _ _ 0 (Some name)) as [x|] eqn:E; [|done].
  intros [= <-]. exists x. split; [|done]. revert E. unfold create_from_name. cbv zeta.
  repeat case_match; intros [= <-]; done.
Qed.

(** Whatever is given on the command line: the numbers of streams are those an
    INIT can carry, no more streams are unreliable than there are, and there is
    a local address, and not more of them than their array has room for. *)
Record settled (a : Settings) : Prop := {
  settled_in : 1 <= instreams a <= 65535;
  settled_out : 1 <= outstreams a <= 65535;
  settled_unreliable : 0 <= unreliable a <= outstreams a;
  settled_local : localAddressArray a <> [];
  settled_fit : locals_fit a }.
Lemma settle a b : within_limits a -> default_locals a = Done b -> settled (limit_unreliable b).
Proof.
  intros [Hi Ho Hu [Hf _] _] E. pose proof (default_locals_fit _ _ Hf E) as Hb.
  destruct (default_locals_ok _ _ E) as (Hl & Eb). rewrite <- Eb in Hb.
  rewrite <- (f_equal instreams Eb : _ = instreams a) in Hi.
  rewrite <- (f_equal outstreams Eb : _ = outstreams a) in Ho.
  rewrite <- (f_equal unreliable Eb : _ = unreliable a) in Hu.
  constructor; [exact Hi|exact Ho|cbn; lia|exact Hl|exact Hb].
Qed.
(** The arrays of an option loop have 20 elements; what is in them are
    addresses. *)
Definition arrays_fit (m : Outcome Settings) : Prop :=
  forall a, m = Done a ->
    (length (localAddressArray a) <= 20)%nat /\ (length (remoteAddressArray a) <= 20)%nat
    /\ Forall usable (localAddressArray a) /\ Forall usable (remoteAddressArray a).
Lemma limits_fit m : (forall a, m = Done a -> within_limits a) -> arrays_fit m.
Proof. intros Hm a E. destruct (Hm a E) as [_ _ _ [? ?] [? ?]]. done. Qed.

Lemma multiserver_settled argv0 argv a :
  multiserver_settings UseIPv6 blank blank_unix blank_buffer interfaces argv0 argv = Done a -> settled a.
Proof.
  intros E. unfold multiserver_settings in E.
  destruct (multiserver_arguments _ _ _ _ _) as [b| |] eqn:Eb; [|done..]. cbn [and_then] in E.
  destruct (default_locals b) as [c| |] eqn:Ec; [|done..]. injection E as <-.
  by eapply settle; [eapply multiserver_limits|].
Qed.
Lemma terminal_settled argv0 argv a :
  terminal_settings UseIPv6 blank blank_unix blank_buffer interfaces argv0 argv = Done a ->
  settled a /\ Forall usable (remoteAddressArray a)
  /\ exists first l, remoteAddressArray a = first :: (address_setPort (address_getPort first) <$> l)
     /\ (length l < 20)%nat /\ address_getPort first <> 0.
Proof.
  intros E. unfold terminal_settings in E. destruct argv as [|t argv]; [done|].
  destruct (terminal_arguments _ _ _ _) as [b| |] eqn:Eb; [|done..]. cbn [and_then] in E.
  apply terminal_limits in Eb.
  destruct (remoteAddressArray b) as [|x l] eqn:Er; [done|].
  destruct (Z.eqb_spec (address_getPort x) 0) as [|Hp]; [done|].
  destruct (default_locals b) as [c| |] eqn:Ec; [|done..]. injection E as <-.
  destruct Eb as [? ? ? [Hf _] [Hr Hu]]. pose proof (default_locals_fit _ _ Hf Ec) as Hc.
  apply default_locals_ok in Ec as [Hl ->]. cbn in *.
  rewrite Er in *. split; [constructor; cbn; try done; try lia|].
  { by destruct (localAddressArray c). }
  { unfold locals_fit in *. cbn in *. by rewrite common_port_length. }
  cbn. rewrite Forall_cons in Hu. destruct Hu as [Hx Hu]. split.
  - constructor; [done|]. apply Forall_fmap. eapply Forall_impl; [exact Hu|]. by intros [i|u].
  - exists x, l. simpl in Hr. split_and!; [done|lia|done].
Qed.
Lemma scanner_settled argv0 argv a :
  scanner_settings UseIPv6 blank blank_unix blank_buffer interfaces argv0 argv = Done a ->
  1 <= instreams a <= 65535 /\ 1 <= outstreams a <= 65535
  /\ localAddressArray a <> [] /\ locals_fit a
  /\ 1 <= startPort a <= endPort a /\ endPort a <= 65535 /\ 1 <= simultaneous a <= 512
  /\ connectTimeout a <= 300000000.
Proof.
  intros E. unfold scanner_settings in E. destruct argv as [|t argv]; [done|].
  destruct (scanner_arguments _ _ _ _) as [b| |] eqn:Eb; [|done..]. cbn [and_then] in E.
  apply scanner_limits in Eb as [H1 H2 _ [H4 _] _].
  destruct (set_remote _ _ _ t b) as [c| |] eqn:Ec; [|done..]. cbn [and_then] in E.
  apply set_remote_ok in Ec as (x & Hx & ->).
  destruct (default_locals (set_remoteAddressArray [x] b)) as [d| |] eqn:Ed; [|done..].
  injection E as <-. pose proof (default_locals_fit (set_remoteAddressArray [x] b) _ H4 Ed) as Hd.
  apply default_locals_ok in Ed as [Hl ->].
  cbn in *. split_and!; try done; try lia;
    unfold PortScanner.clamp_ports, PortScanner.clamp_simultaneous, PortScanner.clamp_timeout; cbv zeta;
    cbn [fst snd]; repeat case_match; lia.
Qed.
Lemma tftp_settled getLocalAddress argv0 argv a put file :
  tftp_settings UseIPv6 blank blank_unix getLocalAddress argv0 argv = Done (a, put, file) ->
  localAddressArray a <> [] /\ (length (localAddressArray a) <= 20)%nat
  /\ (exists x, usable x /\ remoteAddressArray a = [x]) /\ strlen file < Z.of_nat Tftp.sizeof_Data.
Proof.
  intros E. unfold tftp_settings in E. destruct argv as [|t argv]; [done|].
  destruct (tftp_arguments _ _ _ _ _) as [b| |] eqn:Eb; [|done..]. cbn [and_then] in E.
  apply tftp_limits in Eb as [_ _ _ [Hb _] _].
  destruct (set_remote _ _ _ t b) as [c| |] eqn:Ec; [|done..]. cbn [and_then] in E.
  apply set_remote_ok in Ec as (x & Hx & ->). cbn [localAddressArray remoteAddressArray set_remoteAddressArray] in E.
  assert (Hc : forall c, (let? a := c in
      match argv with
      | [] => Crash OutOfBounds
      | [_] => Crash NullDereference
      | direction :: file :: _ =>
          if Z.of_nat Tftp.sizeof_Data - 1 <? strlen file then Exit "ERROR: File name too long!"
          else Done (a, same_text direction "PUT", file)
      end) = Done (a, put, file) -> c = Done a /\ strlen file < Z.of_nat Tftp.sizeof_Data).
  { intros [d| |] Ed; [|done..]. cbn [and_then] in Ed. destruct argv as [|u [|v argv]]; [done..|].
    destruct (Z.ltb_spec (Z.of_nat Tftp.sizeof_Data - 1) (strlen v)); [done|].
    injection Ed as <- _ <-. split; [done|lia]. }
  apply Hc in E as [E Hs]. destruct (localAddressArray b) as [|y l] eqn:El.
  - destruct (getLocalAddress x) as [y|]; [|done]. injection E as <-. cbn. split_and!; [done|lia|by exists x|done].
  - injection E as <-. cbn. rewrite El. split_and!; [done|done|by exists x|done].
Qed.

(** C38. The option loops of the programs.  Whatever the command line, an
    option loop that ends without an error has stored at most 20 local and at
    most 20 remote addresses, which is what its arrays have room for, and all
    of them are valid.  If a program goes on, then there are local addresses:
    at most 20, or those of the interfaces in the array that
    [getLocalAddressList] has allocated for them.  1 to 65535 streams are set
    in both directions, at most that many are unreliable; the terminal has 1 to
    20 valid remote addresses, the first of them with a port, which all the
    others get too; the port scanner has a range 1 <= first <= last <= 65535, 1
    to 512 simultaneous connections and a timeout of at most 300 seconds;
    sctptftp has one valid remote address and a file name that fits its
    packet. *)
Theorem command_lines_within_limits (argv0 : string) (argv : list string) :
  arrays_fit (multiserver_arguments UseIPv6 blank blank_unix argv0 argv)
  /\ arrays_fit (terminal_arguments UseIPv6 blank blank_unix argv)
  /\ arrays_fit (scanner_arguments UseIPv6 blank blank_unix argv)
  /\ arrays_fit (tftp_arguments UseIPv6 blank blank_unix argv0 argv)
  /\ (forall a, multiserver_settings UseIPv6 blank blank_unix blank_buffer interfaces argv0 argv = Done a ->
     settled a)
  /\ (forall a, terminal_settings UseIPv6 blank blank_unix blank_buffer interfaces argv0 argv = Done a ->
     settled a /\ Forall usable (remoteAddressArray a)
     /\ exists first l, remoteAddressArray a = first :: (address_setPort (address_getPort first) <$> l)
        /\ (length l < 20)%nat /\ address_getPort first <> 0)
  /\ (forall a, scanner_settings UseIPv6 blank blank_unix blank_buffer interfaces argv0 argv = Done a ->
     1 <= instreams a <= 65535 /\ 1 <= outstreams a <= 65535
     /\ localAddressArray a <> [] /\ locals_fit a
     /\ 1 <= startPort a <= endPort a /\ endPort a <= 65535 /\ 1 <= simultaneous a <= 512
     /\ connectTimeout a <= 300000000)
  /\ (forall getLocalAddress a put file,
     tftp_settings UseIPv6 blank blank_unix getLocalAddress argv0 argv = Done (a, put, file) ->
     localAddressArray a <> [] /\ (length (localAddressArray a) <= 20)%nat
     /\ (exists x, usable x /\ remoteAddressArray a = [x])
     /\ strlen file < Z.of_nat Tftp.sizeof_Data).
Proof.
  split_and!.
  - apply limits_fit, multiserver_limits.
  - apply limits_fit, terminal_limits.
  - apply limits_fit, scanner_limits.
  - apply limits_fit, tftp_limits.
  - apply multiserver_settled.
  - apply terminal_settled.
  - apply scanner_settled.
  - intros getLocalAddress a put file. apply tftp_settled.
Qed.

(** ** Every setting can be given *)

Notation step i t a := (argument terminal_rules add_remote {| number := i; text := t |} a).
Lemma argument_family (v : bool) i a :
  step i (if v then "-force-ipv4" else "-use-ipv6")%string a = Done (set_optForceIPv4 v a).
Proof. by destruct v. Qed.
Lemma argument_color (v : bool) i a :
  step i (if v then "-color" else "-nocolor")%string a = Done (set_ColorMode v a).
Proof. by destruct v. Qed.
Lemma argument_control (v : bool) i a :
  step i (if v then "-control" else "-nocontrol")%string a = Done (set_PrintControl v a).
Proof. by destruct v. Qed.
Lemma argument_notif (v : bool) i a :
  step i (if v then "-notif" else "-nonotif")%string a = Done (set_PrintNotifications v a).
Proof. by destruct v. Qed.

(** A command line for the settings. *)
Definition terminal_command (ipv4 color control notif : bool) (ins outs unrel : Z)
    (locals remotes : list string) : list string :=
  [if ipv4 then "-force-ipv4" else "-use-ipv6"; "-in=" +:+ print_unsigned 10 ins;
   "-out=" +:+ print_unsigned 10 outs; "-unreliable=" +:+ print_unsigned 10 unrel;
   if color then "-color" else "-nocolor"; if control then "-control" else "-nocontrol";
   if notif then "-notif" else "-nonotif"]%string
  ++ (append "-local=" <$> locals) ++ remotes.

(** C39. Every setting of the terminal can be given, and is read back as it was
    written: the numbers of streams from 1 to 65535, any number of unreliable
    ones (limited to the outgoing ones), all flags, and up to 20 local and 20
    remote addresses whose texts name addresses, the remote ones not beginning
    with a minus and the first with a port.  The ports of the first addresses
    become those of the others. *)
Theorem terminal_command_read (argv0 : string) (ipv4 color control notif : bool) (ins outs unrel : Z)
    (locals remotes : list string) (local remote : SocketAddress) (ls rs : list SocketAddress)
    (Hin : 1 <= ins <= 65535) (Hout : 1 <= outs <= 65535) (Hunrel : 0 <= unrel < 2 ^ 32)
    (Hlocals : Forall2 (fun t x => create 0 t = Some x) locals (local :: ls))
    (Hremotes : Forall2 (fun t x => create 0 t = Some x) remotes (remote :: rs))
    (Hls : (length ls < 20)%nat) (Hrs : (length rs < 20)%nat)
    (Hoptions : Forall not_option remotes) (Hport : address_getPort remote <> 0) :
  terminal_settings UseIPv6 blank blank_unix blank_buffer interfaces argv0
    (terminal_command ipv4 color control notif ins outs unrel locals remotes)
  = Done {| optForceIPv4 := ipv4; instreams := ins; outstreams := outs;
            unreliable := Z.min outs unrel; ColorMode := color; PrintControl := control;
            PrintNotifications := notif; startPort := 1; endPort := 20;
            connectTimeout := 10000000; simultaneous := 128;
            localAddressArray := local :: (address_setPort (address_getPort local) <$> ls);
            remoteAddressArray := remote :: (address_setPort (address_getPort remote) <$> rs) |}.
Proof.
  pose proof (Forall2_length _ _ _ Hlocals) as Ll. pose proof (Forall2_length _ _ _ Hremotes) as Lr.
  simpl in Ll, Lr.
  unfold terminal_settings, terminal_command, terminal_arguments. cbn [app arguments].
  rewrite argument_family. cbn [and_then]. rewrite argument_in. cbn [and_then].
  rewrite argument_out. cbn [and_then]. rewrite argument_unreliable. cbn [and_then].
  rewrite argument_color. cbn [and_then]. rewrite argument_control. cbn [and_then].
  rewrite argument_notif. cbn [and_then].
  rewrite !limit_streams_print, cardinal_value_print by done.
  rewrite (arguments_locals _ _ _ _ _ Hlocals), (arguments_remotes _ _ _ _ Hremotes Hoptions)
    by (cbn; lia).
  cbn. by rewrite (proj2 (Z.eqb_neq _ 0) Hport).
Qed.
End Facts.

(** ** Examples *)

(** A resolver that knows one address. *)
#[refine] Instance one_host : Resolver := {|
  getaddrinfo node service hints :=
    match node with
    | Some name => if String.eqb name "10.0.0.1" then Some ([2; 0; 0; 0; 10; 0; 0; 1] ++ replicate 8 0) else None
    | None => None
    end;
  getnameinfo b := None;
  if_indextoname i := None;
  nodename := None |}.
Proof.
  intros node service hints b. repeat case_match; try done. intros [= <-]. split.
  - repeat (constructor; [split; [apply Z.leb_le|apply Z.ltb_lt]; reflexivity|]); constructor.
  - split; [simpl; lia|]. intros E. vm_compute in E. done.
Defined.
Definition host (port : Z) : SocketAddress :=
  Internet {| AddrSpec := mapped [10; 0; 0; 1]; InternetAddress.Port := htons port; ScopeID := 0;
              Valid := true; Format := PF_Default |}.
Definition no_memory : InternetAddress :=
  {| AddrSpec := replicate 16 0; InternetAddress.Port := 0; ScopeID := 0; Valid := false; Format := 0 |}.
Definition no_name : UnixAddress := {| Name := replicate 109 0 |}.

Lemma command_lines_within_limits_witness :
  exists a, terminal_settings true no_memory no_name [] None "sctpterminal"
              ["10.0.0.1:7"; "-LOCAL=10.0.0.1"; "-in=0"; "-out=-1"; "-unreliable=70000"]%string = Done a
    /\ unreliable a = 65535 /\ 1 <= instreams a <= 65535 /\ locals_fit true no_memory [] None a.
Proof.
  eexists. split; [vm_compute; reflexivity|]. split; [reflexivity|].
  pose proof (fun a => proj1 (proj2 (proj2 (proj2 (proj2 (proj2
    (command_lines_within_limits true no_memory no_name [] None "sctpterminal"
      ["10.0.0.1:7"; "-LOCAL=10.0.0.1"; "-in=0"; "-out=-1"; "-unreliable=70000"]%string)))))) a) as H.
  split; [eapply settled_in|eapply settled_fit]; apply H; vm_compute; reflexivity.
Defined.
(** Twenty addresses are taken, the next one ends the program. *)
Example too_many_locals :
  let options n := replicate n "-local=10.0.0.1"%string in
  (exists a, scanner_arguments true no_memory no_name (options 20%nat) = Done a
     /\ length (localAddressArray a) = 20%nat)
  /\ scanner_arguments true no_memory no_name (options 21%nat) = Exit "ERROR: Too many local addresses!".
Proof. split; [eexists; split; vm_compute; reflexivity|vm_compute; reflexivity]. Qed.

Lemma terminal_command_read_witness :
  exists a, terminal_settings true no_memory no_name [] None "sctpterminal"
              (terminal_command true false true false 5 6 7 ["10.0.0.1:1"] ["10.0.0.1:7"; "10.0.0.1"])%string
            = Done a
    /\ unreliable a = 6 /\ remoteAddressArray a = [host 7; host 7].
Proof.
  rewrite (terminal_command_read true no_memory no_name [] None "sctpterminal" true false true false 5 6 7
    ["10.0.0.1:1"]%string ["10.0.0.1:7"; "10.0.0.1"]%string (host 1) (host 7) [] [host 0]).
  - eexists. split; [reflexivity|]. by vm_compute.
  - lia.
  - lia.
  - lia.
  - by repeat constructor.
  - by repeat constructor.
  - simpl. lia.
  - simpl. lia.
  - by repeat constructor.
  - by vm_compute.
Defined.

(** With one or two arguments, sctptftp looks at arguments that are not there. *)
Lemma tftp_missing_arguments getLocalAddress :
  getLocalAddress (host 69) = Some (host 0) ->
  tftp_settings true no_memory no_name getLocalAddress "sctptftp" ["10.0.0.1:69"]%string = Crash OutOfBounds
  /\ tftp_settings true no_memory no_name getLocalAddress "sctptftp" ["10.0.0.1:69"; "get"]%string
     = Crash NullDereference.
Proof.
  intros E.
  assert (Hr : forall a, optForceIPv4 a = false -> set_remote true no_memory no_name "10.0.0.1:69" a
    = Done (set_remoteAddressArray [host 69] a)).
  { intros a Ha. unfold set_remote, use_ipv6. rewrite Ha. reflexivity. }
  unfold tftp_settings, tftp_arguments. cbn [drop arguments and_then].
  rewrite Hr by done. cbn [and_then]. cbn -[host]. rewrite E. done.
Qed.
(** A misspelt option is taken for a remote host. *)
Example misspelt_option :
  terminal_settings true no_memory no_name [] None "sctpterminal" ["10.0.0.1:7"; "-colour"]%string
  = Exit ("ERROR: Argument " +:+ quote +:+ "-colour" +:+ quote +:+ " is an invalid remote address!").
Proof. by vm_compute. Qed.
