(* ===== verification/Setup.v ===== *)
(** * Starting the programs: their sockets

    What sctpmultiserver.cc, sctpterminal.cc, sctpportscanner.cc and sctptftp.cc
    do with the socket API before their loops: a socket of SCTP, its parameters,
    the local addresses and the events, and the connection.  A step that fails
    ends the program with a message. *)

From Stdlib Require Import String Ascii.
From stdpp Require Import strings.
From S2P Require Import Prelude Memory State Strings Socket Descriptors WrapperSockets WrapperOptions.
From S2P Require Import InternetAddress SocketAddress CppSocket.
From S2P Require Import ApiTable.
From S2P Require PortScanner Servers Arguments.
Local Open Scope Z_scope.

(** The parameters of an INIT, and the bytes of the event structure. *)
Definition initmsg (outstreams instreams : Z) : sctp_initmsg :=
  {| sinit_num_ostreams := u16 outstreams; sinit_max_instreams := u16 instreams;
     sinit_max_attempts := 0; sinit_max_init_timeo := 60 |}.
Definition events (value : Z) : list Z := replicate (Z.to_nat sizeof_sctp_event_subscribe) value.

Section Setup.
Context `{!Resolver} (UseIPv6 : bool) `{!Platform} `{!Kernel}.
Variable deliver : list Callback -> P unit.
Variables (memory : SCTPSocket) (blank : ExtSocketDescriptor) (stack : list Z).
Variable indeterminate_path : SCTP_Path_Status.
Variables past_end fill : StreamDefaultTimeout.
Variables (blank_address : InternetAddress) (blank_unix : UnixAddress) (buffer : list Z).
Notation Socket_new := (Socket_new UseIPv6 deliver memory blank indeterminate_path past_end fill).
Notation setSocketOption := (setSocketOption indeterminate_path past_end fill).
Notation Socket_bindx := (Socket_bindx UseIPv6 deliver stack blank_address buffer).
Notation Socket_connect :=
  (Socket_connect UseIPv6 deliver stack indeterminate_path past_end fill buffer).
Notation Socket_connectx := (Socket_connectx UseIPv6 deliver buffer).
Notation Socket_accept := (Socket_accept deliver blank_address blank_unix buffer).

(** A socket, or the message of the step that failed. *)
Definition Step : Type := A (string + TDSocket).
Definition step (this : TDSocket) (message : string) (ok : bool) : Step :=
  ret (if ok then inr this else inl message).
Definition after (m : Step) (k : TDSocket -> Step) : Step :=
  let* r := m in match r with inl e => ret (inl e) | inr this => k this end.

Definition set_initmsg (message : string) (outstreams instreams : Z) (this : TDSocket) : Step :=
  let* '(result, this) := setSocketOption this IPPROTO_SCTP SCTP_INITMSG
                            (write_initmsg (initmsg outstreams instreams)) sizeof_sctp_initmsg in
  step this message (0 <=? result).
Definition set_events (message : string) (value : Z) (this : TDSocket) : Step :=
  let* '(result, this) := setSocketOption this IPPROTO_SCTP SCTP_EVENTS (events value)
                            sizeof_sctp_event_subscribe in
  step this message (0 <=? result).
Definition bind_addresses (message : string) (addresses : list SocketAddress) (this : TDSocket) : Step :=
  let* '(ok, this) := Socket_bindx this addresses SCTP_BINDX_ADD_ADDR in
  step this message ok.

(** ** sctpmultiserver *)

(** [MultiServer::init]; the socket is deleted if a step fails.  The first
    result is the array with the port set. *)
Definition with_delete (m : TDSocket -> Step) (this : TDSocket) : Step :=
  let* r := m this in
  match r with inl e => Socket_delete deliver this ;; ret (inl e) | inr this => ret (inr this) end.
Definition MultiServer_init (addressArray : list SocketAddress) (port maxIncoming maxOutgoing : Z)
    : A (list SocketAddress * (string + TDSocket)) :=
  let addressArray := address_setPort port <$> addressArray in
  let* this := Socket_new IP SOCK_STREAM IPPROTO_SCTP in
  let* r :=
    after (with_delete (set_initmsg "ERROR: MultiServer::init() - Unable to set SCTP_INITMSG parameters!"
                          maxOutgoing maxIncoming) this) (fun this =>
    after (with_delete (bind_addresses "ERROR: MultiServer::init() - Unable to bind socket!"
                          addressArray) this)
      (with_delete (set_events "ERROR: MultiServer::init() - SCTP_EVENTS failed!" 1))) in
  ret (addressArray, r).

(** The servers that [main] starts: name, port, type, incoming and outgoing
    streams. *)
Record Service : Set := {
  sv_name : string; sv_port : Z; sv_type : Servers.MultiServerType; sv_in : Z; sv_out : Z }.
Definition services (maxIncoming maxOutgoing : Z) : list Service :=
  [ {| sv_name := "Echo"; sv_port := 7; sv_type := Servers.MST_Echo; sv_in := maxIncoming; sv_out := maxOutgoing |};
    {| sv_name := "Discard"; sv_port := 9; sv_type := Servers.MST_Discard; sv_in := maxIncoming; sv_out := 1 |};
    {| sv_name := "Daytime"; sv_port := 13; sv_type := Servers.MST_Daytime; sv_in := 1; sv_out := 1 |};
    {| sv_name := "CharGen"; sv_port := 19; sv_type := Servers.MST_CharGen; sv_in := 1; sv_out := 1 |};
    {| sv_name := "TFTP"; sv_port := 69; sv_type := Servers.MST_TFTP; sv_in := 1; sv_out := 1 |};
    {| sv_name := "test"; sv_port := 2415; sv_type := Servers.MST_Test; sv_in := maxIncoming; sv_out := maxOutgoing |} ].
(** The sockets of the servers, or the two messages. *)
Fixpoint start_services (l : list Service) (addressArray : list SocketAddress)
    : A (string + list (Service * TDSocket)) :=
  match l with
  | [] => ret (inr [])
  | s :: l =>
      let* '(addressArray, r) := MultiServer_init addressArray (sv_port s) (sv_in s) (sv_out s) in
      match r with
      | inl e => ret (inl (e +:+ Arguments.endl +:+ "ERROR: Unable to initialize " +:+ sv_name s +:+ " server!"))
      | inr this =>
          let* rest := start_services l addressArray in
          ret (match rest with inl e => inl e | inr sockets => inr ((s, this) :: sockets) end)
      end
  end.

(** [MultiServer::run]: one iteration of the loop, after [listen].  The events
    of the new socket are switched on. *)
Definition accept_client (this : TDSocket) (sched : schedule)
    : A (option (TDSocket * bool) * option SocketAddress) :=
  let* '(newSocket, peer) := Socket_accept this true sched in
  match newSocket with
  | None => ret (None, peer)
  | Some newSocket =>
      let* '(result, newSocket) := setSocketOption newSocket IPPROTO_SCTP SCTP_EVENTS (events 1)
                                     sizeof_sctp_event_subscribe in
      ret (Some (newSocket, result <? 0), peer)
  end.
Definition accept_warning (failed : bool) : string :=
  if failed then "WARNING: MultiServer::run() - SCTP_EVENTS failed!" else "".

(** ** The clients *)

(** sctpterminal: the parameters are set after the binding. *)
Definition connect_terminal (a : Arguments.Settings) (sched : schedule) : Step :=
  let* this := Socket_new IP SOCK_STREAM IPPROTO_SCTP in
  after (bind_addresses "ERROR: Unable to bind socket!" (Arguments.localAddressArray a) this) (fun this =>
  after (set_initmsg "ERROR: Unable to set SCTP_INITMSG parameters!" (Arguments.outstreams a)
           (Arguments.instreams a) this) (fun this =>
  after (set_events "ERROR: SCTP_EVENTS failed!" 1 this) (fun this =>
  let* '(ok, this) := Socket_connectx this (Arguments.remoteAddressArray a) sched in
  step this "ERROR: Unable to connect to remote address(es)!" ok))).

(** sctptftp: no events. *)
Definition connect_tftp (a : Arguments.Settings) (remote : SocketAddress) (sched : schedule) : Step :=
  let* this := Socket_new IP SOCK_STREAM IPPROTO_SCTP in
  after (set_initmsg "ERROR: Unable to set SCTP_INITMSG parameters!" 1 1 this) (fun this =>
  after (bind_addresses "ERROR: Unable to bind socket!" (Arguments.localAddressArray a) this) (fun this =>
  after (set_events "ERROR: SCTP_EVENTS failed!" 0 this) (fun this =>
  let* '(ok, this) := Socket_connect this remote 0 sched in
  step this "ERROR: Unable to connect to remote address!" ok))).

(** sctpportscanner: a socket for a port; a connection in progress is no
    failure. *)
Definition connect_scanner (a : Arguments.Settings) (remote : SocketAddress) (port : Z)
    (sched : schedule) : Step :=
  let* this := Socket_new IP SOCK_STREAM IPPROTO_SCTP in
  let* '(_, this) := setBlockingMode this false in
  after (set_initmsg "ERROR: Unable to set SCTP_INITMSG parameters!" (Arguments.outstreams a)
           (Arguments.instreams a) this) (fun this =>
  after (bind_addresses "ERROR: Unable to bind socket!" (Arguments.localAddressArray a) this) (fun this =>
  after (set_events "ERROR: SCTP_EVENTS failed!" 1 this) (fun this =>
  let* '(ok, this) := Socket_connect this (address_setPort port remote) 0 sched in
  let '(error, this) := if ok : bool then (0, this) else getLastError this in
  step this "ERROR: Unable to connect to remote address!" (ok || (error =? EINPROGRESS))))).

(** ** The own address towards a peer *)

(** What the system or the library says is the address of a datagram socket
    that is connected to the peer; [sd] is the socket. *)
Definition ask_local_address (sd : Z) (peer : SocketAddress) (family : Z) (address : SocketAddress)
    (sched : schedule) : A SocketAddress :=
  let '(n, b) := system_bytes UseIPv6 buffer peer MaxSockLen family in
  let* address :=
    if 0 <? n then
      let* result := ext_connect deliver stack sd b n sched in
      if result =? 0 then
        let* '(result, name) := ext_getsockname sd (Some n) in
        ret (if result =? 0
             then address_setPort 0
                    (address_setSystemAddress (put_bytes 0 name b) (Z.of_nat (length name)) address)
             else address)
      else ret address
    else ret address in
  ext_close deliver sd ;; ret address.
(** [SocketAddress::getLocalAddress]; NULL for an unknown family. *)
Definition getLocalAddress (peer : SocketAddress) (sched : schedule) : A (option SocketAddress) :=
  let family := address_getFamily UseIPv6 peer in
  match createSocketAddress_family blank_address blank_unix family with
  | None => ret None
  | Some address =>
      let* sd := ext_socket deliver memory blank family SOCK_DGRAM 0 in
      if 0 <=? sd then let* address := ask_local_address sd peer family address sched in ret (Some address)
      else ret (Some address)
  end.
(** [InternetAddress::getLocalAddress] *)
Definition inet_getLocalAddress (peer : InternetAddress) (sched : schedule) : A SocketAddress :=
  let family := if UseIPv6 then SocketOps.AF_INET6 else SocketMaster.AF_INET in
  let address := Internet (InternetAddress_default blank_address) in
  let* sd := ext_socket deliver memory blank family SOCK_DGRAM 17 in
  if 0 <=? sd then ask_local_address sd (Internet peer) family address sched else ret address.

(** [~ExtSocketDescriptorMaster]: at the end of the process every descriptor in
    use but those of the standard files is closed. *)
Definition delete_ExtSocketDescriptorMaster : A unit :=
  for_each (seq 0 MaxSockets) (fun i =>
    let* d := desc i in
    when (bool_decide (ed_Type d <> ESDT_Invalid) && (2 <? i)%nat)
      (ext_close deliver (Z.of_nat i) ;; ret tt)).

(** ** The daytime server *)

(** Six digits of a number; [strftime] and the time zone are those of the
    system, asked for the seconds. *)
Definition microseconds (n : Z) : string :=
  let s := print_unsigned 10 n in
  String.concat "" (replicate (6 - String.length s) "0"%string) +:+ s.
Definition daytime_text (strftime : string -> Z -> string) (microTime : Z) : string :=
  strftime "%A %d-%b-%Y %H:%M:%S" (microTime / 1000000)
  +:+ "." +:+ microseconds (microTime mod 1000000) +:+ " "
  +:+ strftime ("%Z" +:+ Arguments.endl) (microTime / 1000000).
Definition daytime_error (result : Z) : string :=
  if result <? 0 then "Daytime server got send error #" +:+ print_int (- result) +:+ "!" else "".
End Setup.

(** ** Other descriptors are left alone *)

Section Frame.
Context (UseIPv6 : bool) `{!Platform} `{!Kernel}.
Variable deliver : list Callback -> P unit.
Variables (memory : SCTPSocket) (blank : ExtSocketDescriptor) (stack : list Z).
Variable indeterminate_path : SCTP_Path_Status.
Variables past_end fill : StreamDefaultTimeout.
Variables (blank_address : InternetAddress) (buffer : list Z).
Variable l0 : table.
Notation keep J m := (pres (on_table J) m).

(** The descriptors in use in [l0] are as they were. *)
Definition untouched : table -> Prop := allowed l0 (-1) false.
(** Not one of them. *)
Definition fresh (fd : Z) : Prop := forall j d, l0 !! j = Some d -> in_use d -> Z.of_nat j <> fd.

Lemma untouched_allowed fd closing l : fresh fd -> allowed l0 fd closing l <-> untouched l.
Proof.
  intros Hf. split; intros [Hl Ht Ho Hw].
  - split; [done|done| |lia]. intros j d Hd Hu _. by apply Ho; [| |eapply Hf].
  - split; [done|done| |].
    + intros j d Hd Hu _. apply Ho; [done|done|lia].
    + intros j d Hd Hu E. by destruct (Hf j d Hd Hu).
Qed.
Lemma fresh_negative fd : fd < 0 -> fresh fd.
Proof. intros Hfd j d _ _. lia. Qed.

(** From a table in which they are untouched, a call leaves them untouched and
    returns a value as described. *)
Definition calm {X} (m : A X) (Q : X -> Prop) : Prop :=
  forall s, untouched (Sockets s) -> safely m (fun x s' => untouched (Sockets s') /\ Q x) s.
Lemma calm_return {X} (x : X) (Q : X -> Prop) : Q x -> calm (ret x) Q.
Proof. by intros Hx s Hs. Qed.
Lemma calm_then {X Y} (m : A X) (k : X -> A Y) (Q : X -> Prop) (R : Y -> Prop) :
  calm m Q -> (forall x, Q x -> calm (k x) R) -> calm (bind m k) R.
Proof.
  intros Hm Hk s Hs. eapply wp_seq; [by apply Hm|]. intros x s' [Hs' Hx]. by apply (Hk x Hx).
Qed.
Lemma calm_weaken {X} (m : A X) (Q Q' : X -> Prop) : (forall x, Q x -> Q' x) -> calm m Q -> calm m Q'.
Proof. intros HQ Hm s Hs. eapply wp_weaken; [by apply Hm|]. intros x s' [Hs' Hx]. split; [done|by apply HQ]. Qed.
Lemma calm_keep {X} (m : A X) : keep untouched m -> calm m (fun _ => True).
Proof. intros Hm s Hs. eapply wp_weaken; [by apply (proj1 (keep_safely _ m) Hm)|]. done. Qed.
Lemma calm_own {X} (m : A X) fd closing :
  fresh fd -> keep (allowed l0 fd closing) m -> calm m (fun _ => True).
Proof.
  intros Hf Hm s Hs. eapply wp_weaken.
  - apply (proj1 (keep_safely _ m) Hm). by apply (untouched_allowed fd closing _ Hf).
  - intros x s' Hs'. split; [|done]. by apply (untouched_allowed fd closing _ Hf).
Qed.
Lemma calm_gets {X} (f : Api -> X) : calm (gets f) (fun _ => True).
Proof. by intros s Hs. Qed.
Lemma calm_lift {X} (m : P X) : calm (lift m) (fun _ => True).
Proof. apply calm_keep, keep_lift. Qed.

(** A new descriptor is none of them. *)
Lemma calm_getErrnoResult r : fresh r -> calm (getErrnoResult r) fresh.
Proof.
  intros Hr s Hs. unfold getErrnoResult, wp. destruct (bool_decide _); simpl; split; try done.
  apply fresh_negative. lia.
Qed.
Lemma calm_setSocket new : well_typed new -> calm (setSocket new) fresh.
Proof.
  intros Hn s Hs. eapply wp_weaken; [apply setSocket_wp|]. intros r s' Hp.
  split; [eapply placed_allowed; [exact Hs|exact Hn|exact Hp]|]. destruct Hp as [(i & d & -> & Hd & Hu & _)|[-> _]].
  - intros j e He Hue E. assert (j = i) as -> by lia.
    rewrite (al_others _ _ _ _ Hs i e He Hue ltac:(lia)) in Hd. by simplify_eq.
  - apply fresh_negative. done.
Qed.
Lemma calm_ext_socket domain type protocol :
  calm (ext_socket deliver memory blank domain type protocol) fresh.
Proof.
  unfold ext_socket. destruct (bool_decide (protocol = IPPROTO_SCTP)).
  - apply (calm_then _ _ _ _ (calm_keep _ (keep_sctp_isavailable l0 (-1)))). intros [] _; cbn [negb].
    2: { apply calm_getErrnoResult, fresh_negative. done. }
    destruct (socket_kind type) as [[co fl]|] eqn:Hk.
    2: { apply calm_getErrnoResult, fresh_negative. done. }
    apply (calm_then _ _ _ _ (calm_lift _)). intros p _.
    apply (calm_then _ _ (fun _ => True)); [by destruct co; [apply calm_return|apply calm_lift]|]. intros _ _.
    eapply calm_then; [apply calm_setSocket; eapply typed_sctp; exact Hk|]. intros r Hr.
    apply (calm_then _ _ (fun _ => True)); [by destruct (bool_decide _); [apply calm_lift|apply calm_return]|].
    intros _ _. by apply calm_getErrnoResult.
  - apply (calm_then _ _ _ _ (calm_keep _ (keep_syscall untouched _))). intros id _.
    destruct (bool_decide (0 <= id)) eqn:Hid.
    + apply (calm_then _ _ _ _ (calm_setSocket _ (typed_system _ _))). intros r Hr.
      by apply calm_getErrnoResult.
    + apply calm_getErrnoResult, fresh_negative. apply bool_decide_eq_false in Hid. lia.
Qed.

(** *** The class Socket *)

Definition own_fresh (this : TDSocket) : Prop := fresh (SocketDescriptor this).
(** A method that keeps the descriptor of the object. *)
Definition gentle {X} (this : TDSocket) (m : A (X * TDSocket)) : Prop :=
  calm m (fun r => SocketDescriptor r.2 = SocketDescriptor this).
Lemma calm_note_error failed this :
  calm (note_error failed this) (fun t => SocketDescriptor t = SocketDescriptor this).
Proof.
  unfold note_error. destruct failed; [|by apply calm_return].
  eapply calm_then; [apply calm_gets|]. intros e _. by apply calm_return.
Qed.
Lemma gentle_call {X} this (m : A X) (failed : X -> bool) (Y : Type) (f : X -> Y) :
  calm m (fun _ => True) ->
  gentle this (let* x := m in let* this := note_error (failed x) this in ret (f x, this)).
Proof.
  intros Hm. eapply calm_then; [exact Hm|]. intros x _.
  eapply calm_then; [apply calm_note_error|]. intros t Ht. by apply calm_return.
Qed.
Lemma gentle_setSocketOption this level name value len :
  own_fresh this ->
  gentle this (setSocketOption indeterminate_path past_end fill this level name value len).
Proof.
  intros Hf. unfold setSocketOption.
  apply (gentle_call this _ (fun result => negb (result =? 0)) Z (fun x => x)).
  eapply calm_own; [exact Hf|]. apply keep_ext_setsockopt.
Qed.
Lemma calm_pack l : calm (packSocketAddressArray l) (fun _ => True).
Proof.
  apply calm_keep. induction l as [|a l IH]; cbn [packSocketAddressArray]; [apply (pres_ret _)|].
  repeat case_match; first [apply (pres_stop _)
    | apply (pres_bind _); [exact IH|intros; apply (pres_ret _)]].
Qed.
Lemma calm_bindx_call this storage flags :
  calm (bindx_call deliver stack this storage flags) (fun _ => True).
Proof.
  unfold bindx_call. eapply calm_then; [apply calm_pack|]. intros packed _.
  apply calm_keep, keep_sctp_bindx.
Qed.

Definition calm_attempt (a : Attempt) : Prop := forall port storage, calm (a port storage) (fun _ => True).
Lemma gentle_after_attempt result this : gentle this (after_attempt result this).
Proof.
  unfold after_attempt. destruct (result =? 0); [by apply calm_return|].
  eapply calm_then; [apply calm_gets|]. intros e _. by apply calm_return.
Qed.
Lemma calm_random_ports n a : calm_attempt a -> forall storage result this,
  calm (random_ports n a storage result this)
    (fun r => SocketDescriptor r.2 = SocketDescriptor this).
Proof.
  intros Ha. induction n as [|n IH]; intros storage result this; cbn [random_ports]; [by apply calm_return|].
  eapply calm_then; [apply calm_lift|]. intros r _.
  eapply calm_then; [apply Ha|]. intros [result' storage'] _.
  eapply calm_then; [apply gentle_after_attempt|]. intros [[outcome|] t] Ht; cbn [snd] in Ht.
  - destruct (outcome =? 0); [by apply calm_return|].
    eapply calm_weaken; [|apply IH]. cbv beta. intros x. by rewrite Ht.
  - by apply calm_return.
Qed.
Lemma gentle_all_ports n a : calm_attempt a -> forall i storage result this,
  gentle this (all_ports n i a storage result this).
Proof.
  intros Ha. induction n as [|n IH]; intros i storage result this; cbn [all_ports]; [by apply calm_return|].
  eapply calm_then; [apply Ha|]. intros [result' storage'] _.
  eapply calm_then; [apply gentle_after_attempt|]. intros [[outcome|] t] Ht; cbn [snd] in Ht.
  - destruct (outcome =? 0); [by apply calm_return|].
    eapply calm_weaken; [|apply IH]. cbv beta. intros x. by rewrite Ht.
  - by apply calm_return.
Qed.
Lemma gentle_port_search a b storage this :
  calm_attempt a -> calm_attempt b -> gentle this (port_search a b storage this).
Proof.
  intros Ha Hb. unfold port_search.
  eapply calm_then; [by apply calm_random_ports|]. intros [[[outcome|] storage'] t] Ht; cbn [snd] in Ht.
  - destruct (outcome =? 0); [by apply calm_return|].
    eapply calm_then; [by apply gentle_all_ports|]. intros [[result|] u] Hu; cbn [snd] in Hu;
      apply calm_return; cbn; congruence.
  - by apply calm_return.
Qed.
Lemma gentle_bindx this addresses flags :
  gentle this (Socket_bindx UseIPv6 deliver stack blank_address buffer this addresses flags).
Proof.
  assert (Hbind : forall t b n, calm (ext_bind deliver stack (SocketDescriptor t) b n) (fun _ => True))
    by (intros; apply calm_keep, keep_ext_bind).
  unfold Socket_bindx. destruct addresses as [|x l].
  - unfold Socket_bind. destruct (system_bytes _ _ _ _ _) as [n b]. destruct (n =? 0); [by apply calm_return|].
    destruct (_ && _).
    + apply gentle_port_search; intros port storage; unfold bind_attempt;
        (eapply calm_then; [apply Hbind|intros; by apply calm_return]).
    + apply (gentle_call this _ (fun result => result <? 0) bool (fun result => result =? 0)), Hbind.
  - destruct (system_storage _ _ _) as [storage|]; [|by apply calm_return].
    destruct (_ && _).
    + apply gentle_port_search; intros port st; unfold bindx_random_attempt, bindx_all_attempt.
      * eapply calm_then; [apply calm_bindx_call|intros; by apply calm_return].
      * destruct st; (eapply calm_then; [apply calm_bindx_call|intros; by apply calm_return]).
    + apply (gentle_call this _ (fun result => result <? 0) bool (fun result => result =? 0)), calm_bindx_call.
Qed.
Lemma calm_ext_close fd : fresh fd -> calm (ext_close deliver fd) (fun _ => True).
Proof. intros Hf. eapply calm_own; [exact Hf|]. apply keep_close. Qed.
Lemma calm_close this :
  own_fresh this -> calm (Socket_close deliver this) (fun _ => True).
Proof.
  intros Hf. unfold Socket_close. eapply (calm_then _ _ (fun _ => True)).
  - destruct (_ =? -1); [by apply calm_return|].
    eapply calm_then; [by apply calm_ext_close|]. intros. by apply calm_return.
  - intros. by apply calm_return.
Qed.
Lemma calm_Socket_new domain type protocol :
  calm (Socket_new UseIPv6 deliver memory blank indeterminate_path past_end fill domain type protocol)
    own_fresh.
Proof.
  unfold Socket_new, Socket_create, Socket_close.
  change (SocketDescriptor Socket_init =? -1) with true. cbv iota zeta.
  eapply (calm_then _ _ (fun r => own_fresh r.2)); [|intros [ok t] Ht; by apply calm_return].
  eapply (calm_then _ _ (fun _ => True)); [by apply calm_return|]. intros t _.
  eapply calm_then; [apply calm_ext_socket|]. intros fd Hfd. cbv zeta.
  assert (Hopt : forall l o v n, calm (ext_setsockopt indeterminate_path past_end fill fd l o v n) (fun _ => True))
    by (intros; eapply calm_own; [exact Hfd|apply keep_ext_setsockopt]).
  destruct (fd <? 0); [by apply calm_return|].
  do 3 (eapply calm_then; [apply Hopt|intros _ _]).
  eapply (calm_then _ _ (fun _ => True)); [|intros _ _; by apply calm_return].
  case_match; [|by apply calm_return]. eapply calm_then; [apply Hopt|intros _ _; by apply calm_return].
Qed.

(** *** The steps *)

(** The socket of a step, if it succeeds. *)
Definition step_of (this : TDSocket) (r : string + TDSocket) : Prop :=
  match r with inl _ => True | inr t => SocketDescriptor t = SocketDescriptor this end.
Definition step_fresh (r : string + TDSocket) : Prop :=
  match r with inl _ => True | inr t => own_fresh t end.
Lemma calm_step {X} this (m : A (X * TDSocket)) message (ok : X -> bool) :
  gentle this m -> calm (let* '(x, this) := m in step this message (ok x)) (step_of this).
Proof.
  intros Hm. eapply calm_then; [exact Hm|]. intros [x t] Ht. unfold step.
  apply calm_return. by destruct (ok x).
Qed.
Lemma calm_set_initmsg message o i this : own_fresh this ->
  calm (set_initmsg indeterminate_path past_end fill message o i this) (step_of this).
Proof.
  intros Hf. unfold set_initmsg.
  by apply (calm_step this _ message (fun result => 0 <=? result)), gentle_setSocketOption.
Qed.
Lemma calm_set_events message v this : own_fresh this ->
  calm (set_events indeterminate_path past_end fill message v this) (step_of this).
Proof.
  intros Hf. unfold set_events.
  by apply (calm_step this _ message (fun result => 0 <=? result)), gentle_setSocketOption.
Qed.
Lemma calm_bind_addresses message addresses this : own_fresh this ->
  calm (bind_addresses UseIPv6 deliver stack blank_address buffer message addresses this) (step_of this).
Proof.
  intros Hf. unfold bind_addresses.
  apply (calm_step this _ message (fun ok : bool => ok)), gentle_bindx.
Qed.
Lemma calm_after m k (Q : TDSocket -> Prop) :
  calm m (fun r => match r with inl _ => True | inr t => Q t end) ->
  (forall t, Q t -> calm (k t) step_fresh) -> calm (after m k) step_fresh.
Proof.
  intros Hm Hk. unfold after. eapply calm_then; [exact Hm|]. intros [e|t] Ht; [by apply calm_return|by apply Hk].
Qed.
Lemma fresh_of this t : own_fresh this -> SocketDescriptor t = SocketDescriptor this -> own_fresh t.
Proof. unfold own_fresh. by intros Hf ->. Qed.
(** The next step of a socket. *)
Lemma calm_next this m k : own_fresh this -> calm m (step_of this) ->
  (forall t, own_fresh t -> calm (k t) step_fresh) -> calm (after m k) step_fresh.
Proof.
  intros Hf Hm Hk. eapply (calm_after _ _ own_fresh); [|exact Hk].
  eapply calm_weaken; [|exact Hm]. intros [e|t]; [done|]. simpl. by apply fresh_of.
Qed.
Lemma calm_with_delete m this : own_fresh this -> calm (m this) (step_of this) ->
  calm (with_delete deliver m this) (step_of this).
Proof.
  intros Hf Hm. unfold with_delete. eapply calm_then; [exact Hm|]. intros [e|t] Ht; [|by apply calm_return].
  unfold Socket_delete. eapply (calm_then _ _ (fun _ => True)).
  - eapply calm_then; [by apply calm_close|]. intros. by apply calm_return.
  - intros. by apply calm_return.
Qed.
Lemma calm_MultiServer_init addresses port i o :
  calm (MultiServer_init UseIPv6 deliver memory blank stack indeterminate_path past_end fill
          blank_address buffer addresses port i o) (fun r => step_fresh r.2).
Proof.
  unfold MultiServer_init. cbv zeta. eapply calm_then; [apply calm_Socket_new|]. intros this Hf.
  eapply (calm_then _ _ step_fresh); [|intros r Hr; by apply calm_return].
  eapply calm_next; [exact Hf|by apply calm_with_delete, calm_set_initmsg|]. intros t Ht.
  eapply calm_next; [exact Ht|by apply calm_with_delete, calm_bind_addresses|]. intros u Hu.
  eapply calm_weaken; [|by apply calm_with_delete, calm_set_events].
  intros [e|v]; [done|]. by apply fresh_of.
Qed.
Definition sockets_fresh (r : string + list (Service * TDSocket)) : Prop :=
  match r with inl _ => True | inr l => Forall (fun x => own_fresh x.2) l end.
Lemma calm_start_services l : forall addresses,
  calm (start_services UseIPv6 deliver memory blank stack indeterminate_path past_end fill
          blank_address buffer l addresses) sockets_fresh.
Proof.
  induction l as [|s l IH]; intros addresses; cbn [start_services]; [apply calm_return; constructor|].
  eapply calm_then; [apply calm_MultiServer_init|]. intros [a [e|this]] Hf; [by apply calm_return|].
  eapply calm_then; [apply IH|]. intros [e|rest] Hr; apply calm_return; [done|by constructor].
Qed.

Lemma gentle_connectx this addresses sched : own_fresh this ->
  gentle this (Socket_connectx UseIPv6 deliver buffer this addresses sched).
Proof.
  intros Hf. unfold Socket_connectx. cbv zeta. eapply calm_then; [apply calm_pack|]. intros packed _.
  eapply calm_then; [eapply calm_own; [exact Hf|apply keep_ext_connectx]|]. intros [result ?] _.
  destruct (result =? 0); [by apply calm_return|].
  eapply calm_then; [apply calm_gets|]. intros e _. apply calm_return. by destruct (e =? EINPROGRESS).
Qed.
Lemma gentle_connect this address sched : own_fresh this ->
  gentle this (Socket_connect UseIPv6 deliver stack indeterminate_path past_end fill buffer this address 0 sched).
Proof.
  intros Hf. unfold Socket_connect. destruct (system_bytes _ _ _ _ _) as [n b].
  destruct (n =? 0); [by apply calm_return|]. change (negb (0 =? 0)) with false. rewrite andb_false_l.
  eapply (calm_then _ _ (fun t => SocketDescriptor t = SocketDescriptor this)); [by apply calm_return|].
  intros t Ht. match goal with |- context [let '(_, _) := ?e in _] => set (p := e) end.
  assert (Hp : SocketDescriptor p.2 = SocketDescriptor this) by (unfold p; by destruct (_ =? _)).
  destruct p as [b' u]. cbn [snd] in Hp. cbv zeta. cbn [SocketDescriptor set_Destination].
  eapply calm_then; [eapply calm_own; [|apply keep_ext_connect]; rewrite Hp; exact Hf|]. intros result _.
  destruct (result =? 0); [by apply calm_return|].
  eapply calm_then; [apply calm_gets|]. intros e _. apply calm_return. by destruct (e =? EINPROGRESS).
Qed.
Lemma gentle_setBlockingMode this on : own_fresh this -> gentle this (setBlockingMode this on).
Proof.
  intros Hf.
  assert (Hcall : forall t cmd arg, SocketDescriptor t = SocketDescriptor this -> gentle t (Socket_fcntl t cmd arg)).
  { intros t cmd arg Ht. unfold Socket_fcntl.
    apply (gentle_call t _ (fun result => negb (result =? 0)) Z (fun x => x)).
    eapply calm_own; [|apply keep_ext_fcntl]. rewrite Ht. exact Hf. }
  unfold setBlockingMode. eapply calm_then; [by apply Hcall|]. intros [flags t] Ht. cbn [snd] in Ht.
  destruct (flags =? -1); [by apply calm_return|]. cbv zeta.
  eapply calm_then; [by apply Hcall|]. intros [result u] Hu. apply calm_return. cbn in *. congruence.
Qed.

(** *** The clients *)

Lemma calm_connect_terminal a sched :
  calm (connect_terminal UseIPv6 deliver memory blank stack indeterminate_path past_end fill
          blank_address buffer a sched) step_fresh.
Proof.
  unfold connect_terminal. eapply calm_then; [apply calm_Socket_new|]. intros this Hf.
  eapply calm_next; [exact Hf|by apply calm_bind_addresses|]. intros t Ht.
  eapply calm_next; [exact Ht|by apply calm_set_initmsg|]. intros u Hu.
  eapply calm_next; [exact Hu|by apply calm_set_events|]. intros v Hv.
  eapply calm_weaken; [|by apply (calm_step v _ _ (fun ok : bool => ok)), gentle_connectx].
  intros [e|w]; [done|]. by apply fresh_of.
Qed.
Lemma calm_connect_tftp a remote sched :
  calm (connect_tftp UseIPv6 deliver memory blank stack indeterminate_path past_end fill
          blank_address buffer a remote sched) step_fresh.
Proof.
  unfold connect_tftp. eapply calm_then; [apply calm_Socket_new|]. intros this Hf.
  eapply calm_next; [exact Hf|by apply calm_set_initmsg|]. intros t Ht.
  eapply calm_next; [exact Ht|by apply calm_bind_addresses|]. intros u Hu.
  eapply calm_next; [exact Hu|by apply calm_set_events|]. intros v Hv.
  eapply calm_weaken; [|by apply (calm_step v _ _ (fun ok : bool => ok)), gentle_connect].
  intros [e|w]; [done|]. by apply fresh_of.
Qed.
Lemma calm_connect_scanner a remote port sched :
  calm (connect_scanner UseIPv6 deliver memory blank stack indeterminate_path past_end fill
          blank_address buffer a remote port sched) step_fresh.
Proof.
  unfold connect_scanner. eapply calm_then; [apply calm_Socket_new|]. intros this0 Hf0.
  eapply calm_then; [by apply gentle_setBlockingMode|]. intros [? this] Hf. cbn [snd] in Hf.
  apply (fresh_of _ _ Hf0) in Hf.
  eapply calm_next; [exact Hf|by apply calm_set_initmsg|]. intros t Ht.
  eapply calm_next; [exact Ht|by apply calm_bind_addresses|]. intros u Hu.
  eapply calm_next; [exact Hu|by apply calm_set_events|]. intros v Hv.
  eapply calm_then; [by apply gentle_connect|]. intros [ok w] Hw. cbn [snd] in Hw.
  apply (fresh_of _ _ Hv) in Hw. unfold step. destruct ok; [by apply calm_return|].
  cbn [getLastError]. apply calm_return. by destruct (_ || _).
Qed.

Lemma calm_getLocalAddress blank_unix peer sched :
  calm (getLocalAddress UseIPv6 deliver memory blank stack blank_address blank_unix buffer peer sched)
    (fun _ => True).
Proof.
  assert (Hask : forall sd family address, fresh sd ->
    calm (ask_local_address UseIPv6 deliver stack buffer sd peer family address sched) (fun _ => True)).
  { intros sd family address Hf. unfold ask_local_address. destruct (system_bytes _ _ _ _ _) as [n b].
    eapply (calm_then _ _ (fun _ => True)).
    - destruct (0 <? n); [|by apply calm_return].
      eapply calm_then; [eapply calm_own; [exact Hf|apply keep_ext_connect]|]. intros result _.
      destruct (result =? 0); [|by apply calm_return].
      eapply calm_then; [apply calm_keep, keep_ext_getsockname|]. intros [r name] _. by apply calm_return.
    - intros x _. eapply calm_then; [by apply calm_ext_close|]. intros. by apply calm_return. }
  unfold getLocalAddress. cbv zeta. destruct (createSocketAddress_family _ _ _); [|by apply calm_return].
  eapply calm_then; [apply calm_ext_socket|]. intros sd Hsd.
  destruct (0 <=? sd); [|by apply calm_return].
  eapply calm_then; [by apply Hask|]. intros. by apply calm_return.
Qed.
End Frame.

(** What the calls may have done to the table of descriptors. *)
Record kept (l l' : table) : Prop := {
  kept_length : length l' = length l;
  kept_typed : Forall well_typed l';
  kept_used : forall j d, l !! j = Some d -> in_use d -> l' !! j = Some d }.
Lemma calm_kept `{!Platform} `{!Kernel} {X} (m : A X) (Q : X -> Prop) s x s' :
  Forall well_typed (Sockets s) -> calm (Sockets s) m Q -> m s = Ret x s' ->
  kept (Sockets s) (Sockets s') /\ Q x.
Proof.
  intros Ht Hm E. specialize (Hm s (allowed_refl _ _ _ Ht)). unfold wp in Hm. rewrite E in Hm.
  destruct Hm as [[Hl Ht' Ho _] Hx]. split; [|done]. split; [done|done|].
  intros j d Hd Hu. apply Ho; [done|done|lia].
Qed.

Section Programs.
Context (UseIPv6 : bool) `{!Platform} `{!Kernel}.
Variable deliver : list Callback -> P unit.
Variables (memory : SCTPSocket) (blank : ExtSocketDescriptor) (stack : list Z).
Variable indeterminate_path : SCTP_Path_Status.
Variables past_end fill : StreamDefaultTimeout.
Variables (blank_address : InternetAddress) (buffer : list Z).

(** C21. Starting the programs leaves all other descriptors alone.  Whatever
    the system and SCTP answer, when the six servers of the multi server are
    started, the terminal, the file transfer client or the port scanner makes
    its connection, or a program asks for its own address, then every descriptor in use before is the same
    afterwards, the sockets returned have descriptors that were free, the table
    keeps its length, and every descriptor of type SCTP is well-typed; also if a
    step fails and a socket is deleted again. *)
Theorem programs_keep_descriptors (s s' : Api) (Ht : Forall well_typed (Sockets s)) :
  (forall maxIncoming maxOutgoing addresses r,
     start_services UseIPv6 deliver memory blank stack indeterminate_path past_end fill
       blank_address buffer (services maxIncoming maxOutgoing) addresses s = Ret r s' ->
     kept (Sockets s) (Sockets s')
     /\ forall l, r = inr l -> Forall (fun x => fresh (Sockets s) (SocketDescriptor x.2)) l)
  /\ (forall a sched r,
     connect_terminal UseIPv6 deliver memory blank stack indeterminate_path past_end fill
       blank_address buffer a sched s = Ret r s' ->
     kept (Sockets s) (Sockets s') /\ forall t, r = inr t -> fresh (Sockets s) (SocketDescriptor t))
  /\ (forall a remote sched r,
     connect_tftp UseIPv6 deliver memory blank stack indeterminate_path past_end fill
       blank_address buffer a remote sched s = Ret r s' ->
     kept (Sockets s) (Sockets s') /\ forall t, r = inr t -> fresh (Sockets s) (SocketDescriptor t))
  /\ (forall a remote port sched r,
     connect_scanner UseIPv6 deliver memory blank stack indeterminate_path past_end fill
       blank_address buffer a remote port sched s = Ret r s' ->
     kept (Sockets s) (Sockets s') /\ forall t, r = inr t -> fresh (Sockets s) (SocketDescriptor t))
  /\ (forall blank_unix peer sched r,
     getLocalAddress UseIPv6 deliver memory blank stack blank_address blank_unix buffer peer sched s
     = Ret r s' -> kept (Sockets s) (Sockets s')).
Proof.
  split_and!; intros.
  - edestruct (calm_kept _ _ s r s' Ht (calm_start_services _ _ _ _ _ _ _ _ _ _ _ _ _) H1) as [Hk Hf].
    split; [done|]. by intros l ->.
  - edestruct (calm_kept _ _ s r s' Ht (calm_connect_terminal _ _ _ _ _ _ _ _ _ _ _ _ _) H1) as [Hk Hf].
    split; [done|]. by intros t ->.
  - edestruct (calm_kept _ _ s r s' Ht (calm_connect_tftp _ _ _ _ _ _ _ _ _ _ _ _ _ _) H1) as [Hk Hf].
    split; [done|]. by intros t ->.
  - edestruct (calm_kept _ _ s r s' Ht (calm_connect_scanner _ _ _ _ _ _ _ _ _ _ _ _ _ _ _) H1) as [Hk Hf].
    split; [done|]. by intros t ->.
  - by destruct (calm_kept _ _ s r s' Ht (calm_getLocalAddress _ _ _ _ _ _ _ _ _ _ _) H1) as [Hk _].
Qed.
End Programs.

(** ** Examples *)

From S2P Require Import Demo ApiDemo.

Abbreviation demo_start maxIncoming maxOutgoing :=
  (start_services false demo_deliver ApiDemo.demo_memory demo_blank demo_stack demo_path
    demo_timeout demo_timeout Arguments.no_memory (replicate 128 0)
    (services maxIncoming maxOutgoing) [Arguments.host 0]).
(** The six servers, and the parameters of their sockets. *)
Definition demo_servers : option (string + list (Z * Z * option sctp_initmsg)) :=
  match demo_start 10 20 (demo_api demo_table) with
  | Ret (inr l) s => Some (inr ((fun x => (sv_port x.1, SocketDescriptor x.2,
      InitMsg <$> Sockets s !! Z.to_nat (SocketDescriptor x.2))) <$> l))
  | Ret (inl e) _ => Some (inl e)
  | Stop _ => None
  end.
Example six_servers : demo_servers = Some (inr
  [(7, 1023, Some (initmsg 20 10)); (9, 1022, Some (initmsg 1 10)); (13, 1021, Some (initmsg 1 1));
   (19, 1020, Some (initmsg 1 1)); (69, 1019, Some (initmsg 1 1)); (2415, 1018, Some (initmsg 20 10))]).
Proof. by vm_compute. Qed.

Lemma demo_start_run :
  demo_start 10 20 (demo_api demo_table)
  = Ret (default (inl "") (api_result (demo_start 10 20) (demo_api demo_table)))
        (api_final (demo_start 10 20) (demo_api demo_table)).
Proof.
  destruct (api_result (demo_start 10 20) (demo_api demo_table)) as [r|] eqn:E.
  - by apply api_run.
  - exfalso. revert E. vm_compute. discriminate.
Qed.
Lemma programs_keep_descriptors_witness :
  let s' := api_final (demo_start 10 20) (demo_api demo_table) in
  kept demo_table (Sockets s') /\ Sockets s' !! 4%nat = Some udp_descriptor.
Proof.
  cbv zeta. generalize demo_start_run.
  generalize (api_final (demo_start 10 20) (demo_api demo_table)) as s'.
  generalize (default (inl "") (api_result (demo_start 10 20) (demo_api demo_table))) as r.
  intros r s' E.
  destruct (proj1 (programs_keep_descriptors false demo_deliver ApiDemo.demo_memory demo_blank demo_stack
    demo_path demo_timeout demo_timeout Arguments.no_memory (replicate 128 0) (demo_api demo_table)
    s' demo_table_typed) 10 20 [Arguments.host 0] r E) as [Hk _].
  split; [exact Hk|]. refine (kept_used _ _ Hk 4%nat udp_descriptor eq_refl _). discriminate.
Defined.
