(* ===== verification/TestPrograms.v ===== *)
(** * The test programs: sctptest.cc and sctpsockettest.cc

    Their command lines, the echo server threads and the loops of the clients
    and of the connection-less servers, as functions of what the calls on their
    sockets return.  The buffers of the loops live as long as the thread: what
    one message leaves in a buffer, the next one finds there. *)

From Stdlib Require Import String Ascii.
From stdpp Require Import strings.
From S2P Require Import Prelude Memory State Strings Socket InternetAddress SocketAddress.
From S2P Require Import AddressText CppSocket Servers Arguments.
Local Open Scope Z_scope.

(** ** Command lines *)

Record Test : Set := {
  server : bool;
  connectionLess : bool;
  forceIPv4 : bool;
  LocalPort : Z;
  RemotePort : Z;
  LocalAddress : list string;
  RemoteAddress : list string }.
Definition eta_Test (t : Test) : Test :=
  {| server := server t; connectionLess := connectionLess t; forceIPv4 := forceIPv4 t;
     LocalPort := LocalPort t; RemotePort := RemotePort t; LocalAddress := LocalAddress t;
     RemoteAddress := RemoteAddress t |}.
Definition set_server (v : bool) (t : Test) : Test := ltac:(set_member eta_Test server v t).
Definition set_connectionLess (v : bool) (t : Test) : Test := ltac:(set_member eta_Test connectionLess v t).
Definition set_forceIPv4 (v : bool) (t : Test) : Test := ltac:(set_member eta_Test forceIPv4 v t).
Definition set_LocalPort (v : Z) (t : Test) : Test := ltac:(set_member eta_Test LocalPort v t).
Definition set_RemotePort (v : Z) (t : Test) : Test := ltac:(set_member eta_Test RemotePort v t).
Definition set_LocalAddress (v : list string) (t : Test) : Test := ltac:(set_member eta_Test LocalAddress v t).
Definition set_RemoteAddress (v : list string) (t : Test) : Test := ltac:(set_member eta_Test RemoteAddress v t).
Definition initial_test : Test :=
  {| server := false; connectionLess := false; forceIPv4 := true; LocalPort := 0; RemotePort := 4711;
     LocalAddress := []; RemoteAddress := [] |}.

Section CommandLine.
(** The sizes of the two arrays: the number of addresses and the bytes of one.
    For sctptest both are constants of sctplib. *)
Variables max_addresses address_size : Z.

(** [snprintf] of "%s" into an array element. *)
Definition cut (s : string) : string := String.substring 0 (Z.to_nat (address_size - 1)) s.
Definition add_text (get : Test -> list string) (set : list string -> Test -> Test) (message : string)
    (arg : Arg) (value : string) (t : Test) : Outcome Test :=
  if Z.of_nat (length (get t)) <? max_addresses then Done (set (get t ++ [cut value]) t)
  else Exit message.
Definition port_value (value : string) : Z := u16 (atol value).
Definition set_port (f : Z -> Test -> Test) (arg : Arg) (value : string) (t : Test) : Outcome Test :=
  Done (f (port_value value) t).
Definition test_rules : list (Rule Test) :=
  [Flag "-client" (set_server false); Flag "-server" (set_server true);
   Flag "-connectionless" (set_connectionLess true); Flag "-connectionoriented" (set_connectionLess false);
   Flag "-cl" (set_connectionLess true); Flag "-co" (set_connectionLess false);
   Flag "-force-ipv4" (set_forceIPv4 true); Flag "-use-ipv6" (set_forceIPv4 false);
   Value "-local=" (add_text LocalAddress set_LocalAddress "ERROR: Too many local addresses!");
   Value "-remote=" (add_text RemoteAddress set_RemoteAddress "ERROR: Too many remote addresses!");
   Value "-localport=" (set_port set_LocalPort); Value "-remoteport=" (set_port set_RemotePort)].
Definition test_usage (argv0 : string) : string :=
  "Usage: " +:+ argv0 +:+ " [-client|-server] [-connectionless|-cl|-connectionoriented|-co] [-force-ipv4|-use-ipv6] [-local=address1] ... [-local=addressN] [-remote=address1] ... [-remote=addressN] [-localport=port] [-remoteport=port]".
Definition test_arguments (argv0 : string) (argv : list string) : Outcome Test :=
  arguments test_rules (fun _ _ => Exit (test_usage argv0)) 1 argv initial_test.

(** The end of the checks: a client without a port gets a random one. *)
Definition client_port (random16 : Z) : Z := u16 (10000 + random16 mod 50000).
Definition or_local_host (l : list string) : list string :=
  match l with [] => ["127.0.0.1"%string] | _ => l end.
Definition sctptest_settings (argv0 : string) (argv : list string) (random16 : Z) : Outcome Test :=
  let? t := test_arguments argv0 argv in
  let t := set_RemoteAddress (or_local_host (RemoteAddress t)) t in
  let t := set_LocalAddress (or_local_host (LocalAddress t)) t in
  if LocalPort t =? 0 then
    if server t then Exit "ERROR: A server requires given local port!"
    else Done (set_LocalPort (client_port random16) t)
  else Done t.

(** sctpsockettest: [found] are the texts of the addresses that
    [getLocalAddressList] returns; all of them are stored. *)
Definition sockettest_settings (argv0 : string) (argv : list string) (found : option (list string))
    (random16 : Z) : Outcome Test :=
  let? t := test_arguments argv0 argv in
  if negb (server t) && (match RemoteAddress t with [] => true | _ => false end)
  then Exit "ERROR: No remote address given!"
  else
    let? t :=
      match LocalAddress t with
      | _ :: _ => Done t
      | [] =>
          match found with
          | None | Some [] => Exit "ERROR: Cannot obtain local addresses!"
          | Some l => if max_addresses <? Z.of_nat (length l) then Crash OutOfBounds
                      else Done (set_LocalAddress (cut <$> l) t)
          end
      end in
    if LocalPort t =? 0 then
      Done (set_LocalPort (if server t then 4711 else client_port random16) t)
    else Done t.
End CommandLine.

(** The settings a program prints, and what it starts. *)
Definition test_information (title underline : string) (t : Test) : string :=
  line title "" +:+ line underline ""
  +:+ line "Server Mode:       " (if server t then "on" else "off")
  +:+ line "Connection Mode:   " (if connectionLess t then "connection-less" else "connection-oriented")
  +:+ address_lines "Local Addresses:   " indent19 (LocalAddress t)
  +:+ line "Local Port:        " (print_unsigned 10 (LocalPort t))
  +:+ (if server t then "" else
         address_lines "Remote Addresses:  " indent19 (RemoteAddress t)
         +:+ line "Remote Port:       " (print_unsigned 10 (RemotePort t)))
  +:+ endl +:+ endl.
Definition start_text (what : string) (t : Test) : string :=
  line ("Start " +:+ (if connectionLess t then "connection-less" else "connection-oriented") +:+ what
        +:+ (if server t then " server" else " client") +:+ "...") "".
Definition sctptest_information (t : Test) : string :=
  test_information "SCTP Test - Copyright (C) 2001-2026 Thomas Dreibholz"
    "----------------------------------------------------" t +:+ start_text "" t.
Definition sockettest_information (t : Test) : string :=
  test_information "SCTP Socket Test - Copyright (C) 2019-2026 Thomas Dreibholz"
    "------------------------------------------------------" t +:+ start_text " socket" t.

(** ** Text in a buffer *)

(** The bytes before the first zero; without one, the text does not end in the
    buffer. *)
Fixpoint c_text (b : list Z) : option (list Z) :=
  match b with
  | [] => None
  | c :: b => if c =? 0 then Some [] else cons c <$> c_text b
  end.
(** [snprintf] into [str], which has 16384 + 256 bytes. *)
Definition sizeof_str : Z := 16384 + 256.
Definition to_str (l : list Z) : list Z := take (Z.to_nat (sizeof_str - 1)) l.
(** [dataBuffer[dataLength] = 0x00] *)
Definition terminate (dataLength : Z) (b : list Z) : option (list Z) :=
  if sizeof_dataBuffer <=? dataLength then None else Some (<[Z.to_nat dataLength := 0]> b).

(** ** The echo servers *)

Record Echo : Type := { dataBuffer : list Z; replies : list (list Z); printed : list (list Z) }.
Definition hello : list Z := characters "The SCTP Echo Server - Version 1.00".
Definition socket_hello : list Z := characters "The SCTP Echo Socket Server - Version 1.00".
Definition reply_prefix (ID : Z) : list Z := characters ("T" +:+ print_int (s32 ID) +:+ "> ").

(** What the loop does with the data of a message. *)
Definition echo_data (reply_prefix print_prefix data : list Z) : M Echo unit :=
  modify (fun e => {| dataBuffer := put_bytes 0 data (dataBuffer e); replies := replies e;
                      printed := printed e |}) ;;
  let dataLength := Z.of_nat (length data) in
  when (0 <? dataLength)
    (let* b := gets dataBuffer in
     let* text := of_option OutOfBounds (c_text b) in
     modify (fun e => {| dataBuffer := b; replies := replies e ++ [to_str (reply_prefix ++ text)];
                         printed := printed e |}) ;;
     let* b := of_option OutOfBounds (terminate dataLength b) in
     let* text := of_option OutOfBounds (c_text b) in
     modify (fun e => {| dataBuffer := b; replies := replies e;
                         printed := printed e ++ [to_str (print_prefix ++ text ++ characters "]")] |})).

(** [EchoServer::run] on the results of [receive]: an error ends the thread. *)
Fixpoint EchoServer_run (ID assocID : Z) (l : list (Z * list Z)) : M Echo bool :=
  match l with
  | [] => ret false
  | (error, data) :: l =>
      if negb (error =? 0) then ret true
      else
        echo_data (reply_prefix ID) (characters ("A" +:+ print_int (s32 assocID) +:+ ": [")) data ;;
        EchoServer_run ID assocID l
  end.
(** [EchoSocketServer::run]: a result below 0 ends the thread. *)
Fixpoint EchoSocketServer_run (ID : Z) (l : list (Z * list Z)) : M Echo bool :=
  match l with
  | [] => ret false
  | (dataLength, data) :: l =>
      if dataLength <? 0 then ret true
      else
        echo_data (reply_prefix ID) (characters ("T" +:+ print_int (s32 ID) +:+ ": [")) data ;;
        EchoSocketServer_run ID l
  end.

(** ** The clients *)

Definition test_message (i : Z) : list Z := characters ("Test #" +:+ print_int (s32 i)).
(** [EchoClient::run] on the results of [send], from message [i] on: what is
    sent, and whether the program ends with an error. *)
Fixpoint EchoClient_run (i : Z) (results : list Z) : list (list Z) * bool :=
  match results with
  | [] => ([], false)
  | error :: results =>
      if error <? 0 then ([test_message i], true)
      else let '(l, e) := EchoClient_run (i + 1) results in (test_message i :: l, e)
  end.
Fixpoint EchoSocketClient_run (i : Z) (results : list Z) : list (list Z) * bool :=
  match results with
  | [] => ([], false)
  | sent :: results =>
      if sent <? 0 then ([test_message i], true)
      else let '(l, e) := EchoSocketClient_run (i + 1) results in (test_message i :: l, e)
  end.
(** [connectionOrientedClient]: the data come in pieces of 5 bytes, which are
    printed with a bar behind all but the last one of a message.  (What the
    buffer held before does not show: the end is written behind the data.) *)
Definition piece_size : Z := 5.
Definition piece_text (data : list Z) (eor : bool) : option (list Z) :=
  let dataLength := Z.of_nat (length data) in
  if dataLength <=? 0 then Some []
  else
    b ← terminate dataLength (put_bytes 0 data (replicate (Z.to_nat sizeof_dataBuffer) 0));
    text ← c_text b;
    Some (text ++ (if eor then [10] else characters "|")).
Fixpoint client_display (l : list (Z * list Z * bool)) : option (list Z * bool) :=
  match l with
  | [] => Some ([], false)
  | (error, data, eor) :: l =>
      if error <? 0 then Some ([], true)
      else
        text ← piece_text data eor;
        '(rest, e) ← client_display l;
        Some (text ++ rest, e)
  end.

(** ** The connection-less servers *)

(** A datagram goes back to the port below that of its sender.  (What the
    servers print is not part of the model.) *)
Definition reply_port (port : Z) : Z := u16 (port - 1).
Definition re_reply (text : list Z) : list Z := to_str (characters "Re> " ++ text).
(** One iteration of [connectionLessServer] of sctptest: buffer, reply and its
    port, if any. *)
Definition datagram_round (data : list Z) (from : option Z) (b : list Z)
    : option (list Z * option (list Z * Z)) :=
  let b := put_bytes 0 data b in
  let dataLength := Z.of_nat (length data) in
  if 0 <? dataLength then
    b ← terminate dataLength b;
    match from with
    | None => Some (b, None)
    | Some port => text ← c_text b; Some (b, Some (re_reply text, reply_port port))
    end
  else Some (b, None).
(** That of [connectionLessSocketServer] replies to empty datagrams too. *)
Definition socket_datagram_round (data : list Z) (port : Z) (b : list Z)
    : option (list Z * (list Z * Z)) :=
  b ← terminate (Z.of_nat (length data)) (put_bytes 0 data b);
  text ← c_text b;
  Some (b, (re_reply text, reply_port port)).

(** ** What the echo servers send *)

Definition exact (ID : Z) (data : list Z) : list Z := to_str (reply_prefix ID ++ data).

(** The loop over the data of messages. *)
Definition serve (rp pp : list Z) (ds : list (list Z)) : M Echo bool :=
  for_each ds (echo_data rp pp) ;; ret false.
Lemma EchoServer_serve ID assocID ds e :
  EchoServer_run ID assocID ((fun d => (0, d)) <$> ds) e
  = serve (reply_prefix ID) (characters ("A" +:+ print_int (s32 assocID) +:+ ": [")) ds e.
Proof.
  unfold serve. revert e. induction ds as [|d ds IH]; intros e; [done|].
  rewrite fmap_cons. cbn [EchoServer_run for_each]. change (negb (0 =? 0)) with false. cbv iota.
  unfold bind at 1 2 3. destruct (echo_data _ _ d e); [|done]. rewrite IH. done.
Qed.
Lemma EchoSocketServer_serve ID ds e :
  EchoSocketServer_run ID ((fun d => (Z.of_nat (length d), d)) <$> ds) e
  = serve (reply_prefix ID) (characters ("T" +:+ print_int (s32 ID) +:+ ": [")) ds e.
Proof.
  unfold serve. revert e. induction ds as [|d ds IH]; intros e; [done|].
  rewrite fmap_cons. cbn [EchoSocketServer_run for_each]. rewrite (proj2 (Z.ltb_ge _ 0)) by lia.
  unfold bind at 1 2 3. destruct (echo_data _ _ d e); [|done]. rewrite IH. done.
Qed.

(** Texts in the buffer. *)
Lemma c_text_end d rest : Forall (fun c => c <> 0) d -> c_text (d ++ 0 :: rest) = Some d.
Proof.
  induction 1 as [|c d Hc Hd IH]; [done|]. cbn [app c_text].
  by rewrite (proj2 (Z.eqb_neq c 0) Hc), IH.
Qed.
Lemma c_text_some b i : b !! i = Some 0 -> exists t, c_text b = Some t /\ (length t <= i)%nat.
Proof.
  revert i. induction b as [|c b IH]; intros i Hi; [done|]. cbn [c_text].
  destruct (Z.eqb_spec c 0) as [->|Hc]; [exists []; simpl; split; [done|lia]|].
  destruct i as [|i]; [by injection Hi as ->|]. destruct (IH i Hi) as (t & -> & Ht).
  exists (c :: t). simpl. split; [done|lia].
Qed.
Lemma to_str_short l : (length l <= Z.to_nat (sizeof_str - 1))%nat -> to_str l = l.
Proof. intros Hl. by apply take_ge. Qed.

(** The length of a number. *)
Lemma length_print_digits k : forall fuel n rest, 0 <= n < 10 ^ Z.of_nat (S k) ->
  (String.length (print_digits fuel 10 n rest) <= S k + String.length rest)%nat.
Proof.
  induction k as [|k IH]; intros [|fuel] n rest Hn; cbn [print_digits]; try lia.
  - rewrite Z.div_small by lia. change (0 =? 0) with true. simpl. lia.
  - case_match; [simpl; lia|]. specialize (IH fuel (n / 10) (String (digit (n mod 10)) rest)).
    cbn [String.length] in IH. eapply Nat.le_trans; [apply IH|lia].
    rewrite (Nat2Z.inj_succ (S k)), Z.pow_succ_r in Hn by lia.
    split; [apply Z.div_pos; lia|apply Z.div_lt_upper_bound; lia].
Qed.
Lemma length_reply_prefix ID : (length (reply_prefix ID) <= 255)%nat.
Proof.
  unfold reply_prefix. rewrite length_characters, !length_app_s.
  assert (Hi : - 2 ^ 31 <= s32 ID < 2 ^ 31) by
    (unfold s32; cbv zeta; pose proof (wrap_range 32 ID); case_match; lia).
  assert (Hu : forall n, 0 <= n <= 2 ^ 31 -> (String.length (print_unsigned 10 n) <= 10)%nat).
  { intros n Hn. unfold print_unsigned. pose proof (length_print_digits 9 64 n "" ltac:(lia)) as H.
    change (String.length "") with 0%nat in H. lia. }
  change (String.length "T") with 1%nat. change (String.length "> ") with 2%nat.
  unfold print_int. case_match eqn:E; cbn [String.length].
  - apply Z.ltb_lt in E. pose proof (Hu (- s32 ID) ltac:(lia)). lia.
  - apply Z.ltb_ge in E. pose proof (Hu (s32 ID) ltac:(lia)). lia.
Qed.

(** ** When the replies are right *)

(** A text message of the size the programs allow. *)
Definition message_ok (d : list Z) : Prop :=
  0 < Z.of_nat (length d) <= 16384 /\ Forall (fun c => c <> 0) d.
(** The lengths never decrease. *)
Fixpoint grows (n : nat) (ds : list (list Z)) : Prop :=
  match ds with [] => True | d :: ds => (n <= length d)%nat /\ grows (length d) ds end.
Lemma terminate_at d c rest : Z.of_nat (length d) < 16385 ->
  terminate (Z.of_nat (length d)) (d ++ c :: rest) = Some (d ++ 0 :: rest).
Proof.
  intros Hd. unfold terminate. change sizeof_dataBuffer with 16385. rewrite (proj2 (Z.leb_gt _ _)) by lia.
  rewrite Nat2Z.id, insert_app_r_alt by lia. by rewrite Nat.sub_diag.
Qed.
(** One message: the reply is the text that is then in the buffer, if it ends
    in it. *)
Lemma echo_data_step rp pp d e : message_ok d -> (length rp <= 255)%nat ->
  length (dataBuffer e) = Z.to_nat 16385 ->
  let b := d ++ drop (length d) (dataBuffer e) in
  match c_text b with
  | None => echo_data rp pp d e = Stop OutOfBounds
  | Some t => exists pr, echo_data rp pp d e
      = Ret tt {| dataBuffer := <[length d := 0]> b; replies := replies e ++ [rp ++ t]; printed := pr |}
  end.
Proof.
  intros [[Hd0 Hd] Hz] Hrp Hlen b.
  assert (Hlb : length b = Z.to_nat 16385) by (subst b; rewrite length_app, length_drop; lia).
  assert (Hc : exists c, drop (length d) (dataBuffer e) = c :: drop (S (length d)) (dataBuffer e)).
  { destruct (lookup_lt_is_Some_2 (dataBuffer e) (length d)) as [c Hc]; [lia|]. exists c. by apply drop_S. }
  destruct Hc as [c Hc].
  unfold echo_data. unfold modify, bind at 1. cbn [dataBuffer replies printed].
  rewrite (proj2 (Z.ltb_lt 0 _)) by lia. unfold when, gets, bind, of_option, ret. cbn [dataBuffer].
  change (put_bytes 0 d (dataBuffer e)) with b.
  destruct (c_text b) as [t|] eqn:Et; [|done]. cbn [dataBuffer replies printed].
  assert (Ht : (length t < length b)%nat).
  { clear -Et. revert t Et. generalize b. clear b. induction b as [|x b IH]; intros t Et; [done|].
    cbn [c_text] in Et. case_match; [injection Et as <-; simpl; lia|].
    destruct (c_text b) as [u|]; [|done]. injection Et as <-. specialize (IH u eq_refl). simpl. lia. }
  subst b. rewrite Hc, terminate_at by lia. rewrite c_text_end by done.
  cbn [dataBuffer replies printed]. rewrite to_str_short.
  - rewrite insert_app_r_alt, Nat.sub_diag by lia. by eexists.
  - rewrite length_app. change (Z.to_nat (sizeof_str - 1)) with (Z.to_nat 16639). lia.
Qed.
(** Behind a message, the text ends where the buffer has a zero. *)
Lemma c_text_app d r : Forall (fun c => c <> 0) d -> c_text (d ++ r) = app d <$> c_text r.
Proof.
  induction 1 as [|c d Hc Hd IH]; [cbn [app]; by destruct (c_text r)|]. cbn [app c_text].
  rewrite (proj2 (Z.eqb_neq c 0) Hc), IH. by destruct (c_text r).
Qed.
Lemma c_text_exact d b : Forall (fun c => c <> 0) d ->
  c_text (d ++ drop (length d) b) = Some d <-> b !! length d = Some 0.
Proof.
  intros Hd. rewrite c_text_app by done. rewrite <- (Nat.add_0_r (length d)) at 2. rewrite <- lookup_drop.
  destruct (drop (length d) b) as [|c r]; [done|]. cbn [c_text lookup list_lookup].
  destruct (Z.eqb_spec c 0) as [->|Hc]; [simpl; by rewrite app_nil_r|]. split; [|congruence].
  destruct (c_text r) as [t|]; [|done]. intros [= E]. apply (f_equal length) in E.
  rewrite length_app in E. simpl in E. lia.
Qed.

(** The replies are added one by one. *)
Lemma serve_cons rp pp d ds e :
  serve rp pp (d :: ds) e = (echo_data rp pp d ;; serve rp pp ds) e.
Proof. unfold serve. cbn [for_each]. unfold bind. by destruct (echo_data rp pp d e). Qed.
Lemma serve_replies rp pp ds : (length rp <= 255)%nat -> Forall message_ok ds -> forall e e',
  length (dataBuffer e) = Z.to_nat 16385 -> serve rp pp ds e = Ret false e' ->
  exists ts, replies e' = replies e ++ ts /\ length ts = length ds.
Proof.
  intros Hrp. induction 1 as [|d ds Hd Hds IH]; intros e e' Hlen E.
  - injection E as <-. exists []. by rewrite app_nil_r.
  - rewrite serve_cons in E. unfold bind in E.
    pose proof (echo_data_step rp pp d e Hd Hrp Hlen) as Hs. cbv zeta in Hs.
    destruct (c_text _) as [t|]; [|by rewrite Hs in E]. destruct Hs as [pr Hs]. rewrite Hs in E.
    apply IH in E as (ts & Hr & Hl).
    + exists ((rp ++ t) :: ts). cbn [replies] in Hr. rewrite Hr, <- (assoc_L (++)). split; [done|simpl; lia].
    + cbn [dataBuffer]. rewrite length_insert, length_app, length_drop. destruct Hd. lia.
Qed.
(** With a zero at the end of the buffer, all messages are replied to. *)
Lemma serve_ends rp pp ds : (length rp <= 255)%nat -> Forall message_ok ds -> forall e,
  length (dataBuffer e) = Z.to_nat 16385 -> dataBuffer e !! Z.to_nat 16384 = Some 0 ->
  exists e', serve rp pp ds e = Ret false e'.
Proof.
  intros Hrp. induction 1 as [|d ds Hd Hds IH]; intros e Hlen Hlast; [by eexists|].
  rewrite serve_cons. unfold bind. pose proof (echo_data_step rp pp d e Hd Hrp Hlen) as Hs. cbv zeta in Hs.
  destruct Hd as [[_ Hd] _].
  assert (Hb : (d ++ drop (length d) (dataBuffer e)) !! Z.to_nat 16384 = Some 0).
  { rewrite lookup_app_r, lookup_drop by lia.
    by replace (length d + (Z.to_nat 16384 - length d))%nat with (Z.to_nat 16384) by lia. }
  destruct (c_text_some _ _ Hb) as (t & Et & _). rewrite Et in Hs. destruct Hs as [pr ->].
  apply IH; cbn [dataBuffer].
  - rewrite length_insert, length_app, length_drop. lia.
  - destruct (decide (length d = Z.to_nat 16384)) as [El|Hn].
    + rewrite <- El. apply list_lookup_insert_eq. rewrite length_app, length_drop. lia.
    + by rewrite list_lookup_insert_ne.
Qed.

(** The buffer after a message of [n] bytes, at the start of the thread with
    [n] = 0: the message, a zero, and what was there before. *)
Record after (start : list Z) (n : nat) (b : list Z) : Prop := {
  after_length : length b = Z.to_nat 16385;
  after_text : forall i, (i < n)%nat -> b !! i <> Some 0;
  after_end : n <> 0%nat -> start !! n = Some 0 /\ b !! n = Some 0;
  after_rest : forall i, (n < i)%nat -> b !! i = start !! i }.
Lemma after_message start n b d : after start n b -> message_ok d -> (n <= length d)%nat ->
  b !! length d = Some 0 -> start !! length d = Some 0 ->
  after start (length d) (<[length d := 0]> (d ++ drop (length d) b)).
Proof.
  intros [Hl Ht He Hr] [[Hd0 Hd] Hz] Hn Hb Hs.
  assert (Hla : length (d ++ drop (length d) b) = Z.to_nat 16385) by (rewrite length_app, length_drop; lia).
  constructor.
  - by rewrite length_insert.
  - intros i Hi. rewrite list_lookup_insert_ne, lookup_app_l by lia. intros E.
    by apply (proj1 (Forall_lookup _ _) Hz i 0 E).
  - intros _. split; [done|]. apply list_lookup_insert_eq. lia.
  - intros i Hi. rewrite list_lookup_insert_ne, lookup_app_r, lookup_drop by lia.
    replace (length d + (i - length d))%nat with i by lia. apply Hr. lia.
Qed.
Lemma after_zero start n b d : after start n b -> message_ok d ->
  b !! length d = Some 0 <-> (n <= length d)%nat /\ start !! length d = Some 0.
Proof.
  intros [Hl Ht He Hr] [[Hd0 _] _]. split.
  - intros Hb. destruct (lt_eq_lt_dec n (length d)) as [[H|H]|H].
    + split; [lia|]. by rewrite <- Hr.
    + subst n. split; [done|]. apply He. lia.
    + by apply Ht in H.
  - intros [Hn Hs]. destruct (decide (n = length d)) as [->|]; [apply He; lia|].
    rewrite Hr by lia. done.
Qed.
(** The replies are the messages. *)
Definition echoed (rp : list Z) (ds : list (list Z)) (e : Echo) (r : Res Echo bool) : Prop :=
  exists e', r = Ret false e' /\ replies e' = replies e ++ (app rp <$> ds).
Lemma serve_exact rp pp start ds : (length rp <= 255)%nat -> Forall message_ok ds -> forall n e,
  after start n (dataBuffer e) ->
  echoed rp ds e (serve rp pp ds e) <-> grows n ds /\ Forall (fun d => start !! length d = Some 0) ds.
Proof.
  intros Hrp. induction 1 as [|d ds Hd Hds IH]; intros n e Ha.
  - split; [done|]. intros _. exists e. by rewrite app_nil_r.
  - rewrite serve_cons. unfold bind. pose proof (after_length _ _ _ Ha) as Hlen.
    pose proof (echo_data_step rp pp d e Hd Hrp Hlen) as Hs. cbv zeta in Hs.
    pose proof (c_text_exact d (dataBuffer e) (proj2 Hd)) as Hx. rewrite (after_zero _ _ _ _ Ha Hd) in Hx.
    cbn [grows]. rewrite Forall_cons.
    destruct (c_text _) as [t|]; [destruct Hs as [pr Hs]|]; rewrite Hs.
    2: { split; [by intros (? & ? & _)|]. intros ([Hn _] & Hz & _). by pose proof (proj2 Hx (conj Hn Hz)). }
    split.
    + intros (e' & E & Hr). destruct (decide (t = d)) as [->|Htd].
      * destruct (proj1 Hx eq_refl) as [Hn Hz].
        apply (after_message start n (dataBuffer e) d Ha Hd Hn) in Hz as Ha'; [|by apply (after_zero start n)].
        set (e1 := {| dataBuffer := _; replies := _; printed := _ |}) in *.
        assert (He : echoed rp ds e1 (serve rp pp ds e1)).
        { exists e'. split; [done|]. cbn [replies e1]. by rewrite Hr, <- (assoc_L (++)). }
        apply (IH (length d) e1 Ha') in He as [??]. done.
      * exfalso. apply Htd. apply (serve_replies rp pp ds Hrp Hds) in E as (ts & E & _).
        -- cbn [replies] in E. rewrite E, <- (assoc_L (++)), fmap_cons in Hr.
           apply app_inv_head in Hr. injection Hr as Hr _. by apply app_inv_head in Hr.
        -- cbn [dataBuffer]. rewrite length_insert, length_app, length_drop. destruct Hd. lia.
    + intros ([Hn Hg] & Hz & Hzs). pose proof (proj2 Hx (conj Hn Hz)) as Et. injection Et as ->.
      assert (Ha' : after start (length d) (<[length d := 0]> (d ++ drop (length d) (dataBuffer e)))).
      { apply (after_message start n); [done|done|done|by apply (after_zero start n)|done]. }
      set (e1 := {| dataBuffer := _; replies := _; printed := _ |}) in *.
      destruct (proj2 (IH (length d) e1 Ha') (conj Hg Hzs)) as (e' & E & Hr).
      exists e'. split; [exact E|]. cbn [replies e1] in Hr. by rewrite Hr, <- (assoc_L (++)).
Qed.


(** The messages of the clients never get shorter. *)
Lemma print_digits_mono fuel : forall n m rest rest', 0 <= n <= m ->
  (String.length rest <= String.length rest')%nat ->
  (String.length (print_digits fuel 10 n rest) <= String.length (print_digits fuel 10 m rest'))%nat.
Proof.
  induction fuel as [|fuel IH]; intros n m rest rest' Hn Hr; cbn [print_digits]; [done|].
  pose proof (Z.div_le_mono n m 10 ltac:(lia) ltac:(lia)). pose proof (Z.div_pos n 10 ltac:(lia) ltac:(lia)).
  assert (Hc : (String.length (String (digit (n mod 10)) rest) <= String.length (String (digit (m mod 10)) rest'))%nat)
    by (cbn [String.length]; lia).
  destruct (Z.eqb_spec (n / 10) 0) as [En|En], (Z.eqb_spec (m / 10) 0) as [Em|Em]; try lia.
  - eapply Nat.le_trans; [exact Hc|]. clear -Hc.
    assert (Hge : forall f k r, (String.length r <= String.length (print_digits f 10 k r))%nat).
    { induction f as [|f IHf]; intros k r; cbn [print_digits]; [done|].
      case_match; [simpl; lia|]. eapply Nat.le_trans; [|apply IHf]. cbn [String.length]. lia. }
    apply Hge.
  - apply IH; [lia|done].
Qed.
Lemma length_test_message i j : 0 <= i <= j -> j < 2 ^ 31 ->
  (length (test_message i) <= length (test_message j))%nat.
Proof.
  intros Hi Hj. unfold test_message. rewrite !length_characters, !length_app_s, !s32_small by lia.
  unfold print_int. rewrite !(proj2 (Z.ltb_ge _ 0)) by lia. unfold print_unsigned.
  pose proof (print_digits_mono 64 i j "" "" Hi ltac:(done)). lia.
Qed.
Lemma client_messages_grow n : forall i k, 0 <= i -> i + Z.of_nat n <= 2 ^ 31 ->
  (k <= length (test_message i))%nat -> grows k (EchoClient_run i (replicate n 0)).1.
Proof.
  induction n as [|n IH]; intros i k Hi Hn Hk; [done|]. cbn [replicate EchoClient_run].
  change (0 <? 0) with false. cbv iota.
  destruct n as [|n]; [by split|].
  specialize (IH (i + 1) (length (test_message i)) ltac:(lia) ltac:(lia)).
  destruct (EchoClient_run (i + 1) (replicate (S n) 0)) as [l e]. cbn [fst] in *. split; [done|].
  apply IH, length_test_message; lia.
Qed.

(** A host with more addresses than the array has elements. *)
Example too_many_interfaces : sockettest_settings 2 46 "sctpsockettest" ["-server"%string]
  (Some ["10.0.0.1"; "10.0.0.2"; "10.0.0.3"]%string) 0 = Crash OutOfBounds.
Proof. done. Qed.
Example test_command_line : sctptest_settings 2 16 "sctptest" ["-SERVER"; "-cl"; "-localport=70000"]%string 0
  = Done {| server := true; connectionLess := true; forceIPv4 := true; LocalPort := 4464; RemotePort := 4711;
            LocalAddress := ["127.0.0.1"%string]; RemoteAddress := ["127.0.0.1"%string] |}.
Proof. by vm_compute. Qed.
(** A message of eight bytes in pieces of five. *)
Example display_pieces :
  client_display [(0, characters "T1> T", false); (0, characters "est", true)]
  = Some (characters "T1> T|est" ++ [10], false).
Proof. by vm_compute. Qed.
